(* ===== verification/_CoqProject ===== *)
-Q . S2P
Prelude.v
GoStd.v
NetIP.v
Sha256.v
Config.v
Core.v
Fixtures.v
Contracts.v
Context.v
Identity.v
Broker.v
RoutingMemory.v
RoutingRedis.v
RedisExpiry.v
Vault.v
Policy.v
Manager.v
Proxy.v
Gateway.v
GatewayServer.v
Cli.v
Wire.v
Router.v
RouterServer.v
AuditLog.v
Wrapper.v
WrapperServer.v
Stream.v
LocalProvision.v
Kube.v
Egress.v
Netpol.v
Controller.v
Apply.v
Reaping.v
Loops.v
Pki.v
Provision.v
Concurrent.v
Render.v
Directory.v
Admin.v
AppRoot.v
ContractTest.v
Command.v
Programs.v
Listen.v
EndToEnd.v
