(* ===== verification/Prelude.v ===== *)
(** * Juggernaut: a verification development

    Juggernaut is a multi-user gateway for MCP servers: every (user, server type)
    pair gets a pod of its own, and the gateway authenticates requests, admits
    and finds pods, injects tokens and secrets, and forwards traffic.  This
    library models the Go sources under src/ as executable definitions and
    proves what makes each part correct.  It builds on stdpp.

    ** Parts of the program and the files that model them

    - Prelude.v: errors, results, panics, automation and generic list lemmas.
      GoStd.v: what the sources use of strings, strconv, sort, time, encoding/*
      and json (codecs as a class with a round-trip law).  NetIP.v: package net
      (addresses, networks, host:port text).  Sha256.v: SHA-256, executable.
      Fixtures.v: a codec and an authenticated cipher that satisfy the laws, for
      witnesses only.
    - Config.v: internal/config.  The configuration records with the source's
      field names, Interpolate, ApplyDefaults, Validate (the list of problems)
      and the reload store (watch.go).  Loops.v: the loop of Watch and the one of
      the reaper, in time.
    - Core.v: internal/core.  Principal, Grants, PodKey, session ids, UserHash,
      key derivation and MACs (seal.go), adapter registry.
    - Contracts.v: internal/core/contracts.  RoutingTable, Provisioner,
      TokenBroker, AccessPolicy and IdentityProvider as type classes of
      state-passing operations; RoutingTableLaws is what clients may rely on.
      Context.v: internal/core/context.go, what an adapter is built with.
    - Identity.v: internal/adapters/identity and its claims package.  JWT
      resolution, introspection with its cache, the none and static providers.
      Broker.v: internal/adapters/broker, the token exchange and its cache.
    - RoutingMemory.v and RoutingRedis.v: the two routing tables.  The Redis one
      runs over a class of Redis commands with their documented laws and keeps
      the source's local cache, sealed tokens and record MACs.  RedisExpiry.v: a
      Redis server with a clock under it, so that expiry of keys is explicit.
    - Vault.v: internal/core/vault.go and the two user secret stores.
    - Policy.v: internal/adapters/policy/groups.
    - Manager.v: internal/gateway/manager.go.  EnsurePod (admission, creation,
      cold-start hold), Release, ReleaseAll, SessionsFor.  Concurrent.v: EnsurePod
      as a thread, one step per call of the table or the provisioner (tstep), and
      any number of threads interleaved (cstep, crun).
    - Proxy.v: internal/mcpproxy.  Header rewriting, Forward, verifyChain.
    - Gateway.v: internal/gateway handlers (handlers_mcp.go, usersecrets.go,
      handlers_control.go, authn.go).  GatewayServer.v: the routes of server.go
      with their middleware, and isolation between tenants.
    - Cli.v: internal/cli, the user's side of the vault.  It sees the gateway
      through the class MeSecrets, whose laws the handlers of Gateway.v discharge.
      Wire.v: the HTTP client that implements the class, down to the bytes, against
      the gateway's routes, authentication and body limits.
    - Router.v: internal/router.  The aggregating MCP endpoint: tool listing and
      cache, authorization of every call, calls, lazy meta-tools.  RouterServer.v:
      its MCP sessions and connections, mounted on the /mcp route.  AuditLog.v:
      internal/audit and its sinks, fed by the events of gateway and router.
    - Wrapper.v: internal/wrapper, the process in the pod.  The stdio child as a
      state machine (record Child, one definition per method, relation step),
      the redactor, and the headers it reads.  WrapperServer.v: its HTTP surface,
      the listing cache under concurrent requests, and the HTTP-mode process.
      Stream.v: the copies of bytes (event streams, the child's stderr, the
      tunnel of the egress proxy).
    - LocalProvision.v and Provision.v: the local and the kube provisioner of
      internal/adapters/provision.
    - Kube.v: api/v1alpha1 and the Kubernetes API server as a class of calls with
      laws.  Egress.v: the egress allowlist, its publication and the CONNECT
      proxy.  Netpol.v: internal/netpol and internal/adapters/egress, the
      network policies of a session pod and what they permit.  Controller.v:
      BuildPod, the session reconciler and the reaper.  Reaping.v: requests and
      the reaper, one call per step, interleaved with each other and with the
      session manager.  Apply.v: controller/apply.go.  Pki.v: internal/pki and
      the bootstrap of controller/pki.go.  Render.v: controller/render.go, server
      types from the configuration.
    - Directory.v: internal/adapters/directory/keycloak.  Admin.v: internal/admin,
      the user administration over the directory and the session manager.
    - AppRoot.v: internal/app, internal/adapters/all and the constructors of the
      adapters; what libraries and host answer at start is the class Boot.
      Listen.v: the listeners of gateway and wrapper, Run of both as an event
      machine, their TLS set-up, and the main functions of gateway and egress
      proxy.  ContractTest.v: the harness of core/contracts/contracttest as
      functions that return whether an adapter passes.
    - Command.v: cmd/juggernaut, the secrets and connect commands with flags and
      device login.  Programs.v: main of juggernaut, of the wrapper and of the
      controller.  EndToEnd.v: the path of one secret through all of the parts.

    The gateway handlers call the manager, the proxy and the secret store; the
    router calls the manager and the table; manager, gateway, router and reaper
    see a table only through RoutingTable, and Controller.v sees the API server
    and the egress enforcer only through their classes.  Provision.v puts the
    kube provisioner and the reconciler together, Pki.v the certificates with the
    checks of Proxy.v and WrapperServer.v, Admin.v the directory, the identity
    provider and the manager, RouterServer.v the gateway's routes with the router,
    EndToEnd.v the companion, the gateway, the proxy and the wrapper, Wire.v the
    companion's HTTP client with the gateway's routes, Reaping.v the gateway's
    requests with the reaper over one table.

    ** How the model reads

    A struct is a record with prefixed field names, an enumeration an inductive
    type, a method a definition that takes and returns the state.  Errors are
    values of gerror; a library call that can panic returns an outcome.  Go maps
    are gmap; a loop over a map uses map_to_list as its order.  Times are
    nanoseconds since the zero time, integers are Z.  Randomness and the clock
    are arguments.  Strings are byte strings and case folding is ASCII.  A
    message that quotes the text of another error keeps its constant part.
    Locks make every method atomic, so one method is one step; what the sources
    do not protect by a lock (the steps of concurrent requests, the reaper, a
    listing and a restart, the goroutines of Run) is an explicit interleaving.
    Where time matters (RedisExpiry.v, Loops.v) it is part of the state and passes
    in steps, and a timer that has expired is served before time goes on.

    Parameters stand for code outside the repository: the YAML and JSON decoders,
    AES-GCM, NaCl box, Argon2, x509, JWT verification, Redis, the HTTP client, the
    MCP SDK, name resolution, the Keycloak client, the host's processes, files and
    sockets, chi's routing and address middleware and the Kubernetes API.  Each comes
    with its documented laws only, and with an instance in the witnesses.

    ** What the theorems show

    - Configuration: defaults are idempotent, validation is sound, and reloading
      never serves an invalid configuration; a changed file is live after one poll
      interval whatever the file watcher reports.
    - Stores: the in-process table keeps its invariant; the Redis table returns
      across replicas what was written and accepts only authenticated records;
      its counter and the Redis secret store refine the in-process ones; stored
      sessions live exactly as long as configured, and ending a pod's sessions
      leaves none of them readable; a
      vault entry opens for its owner only and gives back what was sealed.
    - Access: grants, caps, admin and tool visibility are characterised exactly;
      a tool call is authorized anew and reaches only the caller's pod; listings
      show visible tools only.
    - Sessions: EnsurePod terminates, refusals have no effect, sequential
      admissions respect the caps, concurrent ones exceed them by less than the
      number of requests under way, and each gets the pod of its own caller after
      a bounded number of its own steps; a thread alone is exactly EnsurePod.
      Revocation is complete, in-flight counts are
      released on every path, and requests go to the caller's own pod.
    - Identity and tokens: a principal comes from a verified, unexpired token for
      this audience; revocation takes effect within the introspection interval;
      list claims mean the same in every encoding; the broker returns tokens
      minted from the caller's own token that never outlive it.
    - Tenants: through every route, the aggregated one included, a caller without
      admin rights leaves the pods and secrets of other users as they were.  Lazy
      and eager clients get the same answers to the same calls.
    - Forwarding: client headers cannot influence identity, token, session or
      secret headers; the pod's session id stays hidden; secrets arrive at the
      wrapper exactly as resolved.
    - Pods: idle children always run with the current credentials and busy ones
      are not restarted; session pods meet the restricted profile; a session is
      Ready only with a serving pod, is cleaned up before it is let go, and the
      reaper ends exactly the sessions it should, an unused one at most one interval
      late; however requests and the reaper interleave, the in-flight count is the
      number of requests unless a record was deleted under one, and a session is
      ended for age or idleness only if none was running when the count was read.
      A session the gateway asks for
      becomes ready; a tool call holds the child for its duration only; cached
      listings belong to the running process; local pods never share a port.
    - Certificates: gateway and pods accept each other and nobody else, and the
      authority survives restarts.
    - Administration and records: only administrators act and every change is
      recorded; group memberships and server types become exactly what was asked
      for; rendered ports keep 32 bits; audit lines do not depend on secrets.
    - The user's vault: setting secrets merges, rotating the passphrase loses
      nothing, a command that succeeds under the right key leaves every entry
      readable under the vault file it leaves, and what the
      user sets is in the environment of the process a later request starts.  Over
      HTTP, setting secrets does exactly what the handlers do, or fails without
      effect; a refused token has none.
    - Streams: an event stream reaches the client as it happens and complete, and
      the tunnel neither adds, loses nor reorders bytes until it is closed.
    - Starting: a configuration that validates boots on a host that answers, up
      to settings named in the theorem; a Kubernetes gateway runs with the sealed
      shared stores and the pod certificates it was configured with; the adapters
      pass the repository's contract harness; the admin interface answers on its
      own listener only, a client CA admits vouched clients only, and a pod with
      mutual TLS hands requests of the gateway, and no others, to its handlers.
    - Egress: the allowlist means what it says, follows the pods, and the proxy
      dials permitted names at public addresses only; the rendered network
      policies isolate the pods and, applied without error, stand in the cluster
      as they were rendered.
    - Limits of the code: theorems named after a failure (for example
      concurrent_admission_exceeds_cap, sweep_outage_terminates,
      GetPod_accepts_copied_record) show where it does not do what it means to.

    ** Fuel

    Four polling loops take fuel.  The cold-start hold polls every 500 ms until
    the budget is used, so budget / 500 ms + 2 rounds suffice, and
    EnsurePod_terminates proves that; the wait for a local pod is alike
    (WaitReady_terminates), and the wait for the port of an HTTP server polls
    every 200 ms (ensureStarted_terminates), and the device login sleeps
    five seconds or more between polls until its code expires (deviceLogin_ends).  String scanners use the length of the text, address parsing
    the eight groups of an IPv6 address, SHA-256 the number of blocks.

    ** Not modelled

    Prometheus collectors, the export of spans, log lines, and the text of the
    schema, of usage messages and of the admin application's files have no
    effect on the parts above.  Generated deep copies and the fake providers of
    the repository's tests are not part of the program.  The text form of durations
    goes through floating point and is left to the decoder, like the rest of the
    YAML.  Overwriting a plaintext in memory (Zero) cannot be observed by a
    model of values.  TLS records, HTTP framing, the stdio framing of MCP, leader
    election and the caches of controller-runtime belong to libraries. *)

From stdpp Require Export base tactics strings gmap list sorting numbers.

(** ** Errors and results *)

(** A Go [error] value.  The sentinels are the [errors.New] variables the code
    compares against with [errors.Is]; [EMsg] is an error no caller inspects and
    [EWrap] is [fmt.Errorf("...%w", inner)]. *)
Inductive gerror :=
| ErrNotFound
| ErrUnauthenticated
| ErrNoToken
| ErrCapReached
| ErrColdStart
| ErrPodFailed
| ErrNotGranted
| ErrUnknownType
| ErrRestartBudget
| ErrVaultKey
| EMsg (msg : string)
| EWrap (msg : string) (inner : gerror).

#[export] Instance gerror_eq_dec : EqDecision gerror.
Proof. solve_decision. Defined.

(** [errors.Is]: walk the chain of wrapped errors. *)
Fixpoint errors_Is (e target : gerror) : bool :=
  bool_decide (e = target) ||
  match e with EWrap _ inner => errors_Is inner target | _ => false end.

(** The [(T, error)] return convention. *)
Inductive result (A : Type) :=
| Ok (a : A)
| Err (e : gerror).
Arguments Ok {A} a.
Arguments Err {A} e.

#[export] Instance result_ret : MRet result := @Ok.
#[export] Instance result_bind : MBind result := λ A B f r,
  match r with Ok a => f a | Err e => Err e end.
#[export] Instance result_fmap : FMap result := λ A B f r,
  match r with Ok a => Ok (f a) | Err e => Err e end.

Definition is_ok {A} (r : result A) : bool :=
  match r with Ok _ => true | Err _ => false end.

(** [errors.Join]: nil when no error is in the list. *)
Definition errors_Join (es : list gerror) : result () :=
  match es with [] => Ok () | e :: _ => Err (EWrap "joined" e) end.

(** A call that may panic (nil dereference, failed precondition of a library
    call): [Panic] is what reaches the caller's [recover], if any. *)
Inductive outcome (A : Type) :=
| Done (a : A)
| Panic.
Arguments Done {A} a.
Arguments Panic {A}.

#[export] Instance outcome_bind : MBind outcome := λ A B f o,
  match o with Done a => f a | Panic => Panic end.

(** ** Proof automation *)

Create HintDb jug.

(** Destruct the scrutinee of a [match] or [if] of the goal or a hypothesis. *)
Ltac dmatch :=
  match goal with
  | |- context [match ?x with _ => _ end] => destruct x eqn:?
  | H : context [match ?x with _ => _ end] |- _ => destruct x eqn:?
  end.

(** Boolean connectives of the guards to propositions. *)
Ltac bprop :=
  repeat match goal with
  | H : _ && _ = true |- _ => apply andb_true_iff in H; destruct H
  | H : _ || _ = false |- _ => apply orb_false_iff in H; destruct H
  | H : negb _ = true |- _ => apply negb_true_iff in H
  | H : negb _ = false |- _ => apply negb_false_iff in H
  | H : bool_decide _ = true |- _ => apply bool_decide_eq_true_1 in H
  | H : bool_decide _ = false |- _ => apply bool_decide_eq_false_1 in H
  | H : String.eqb _ _ = true |- _ => apply String.eqb_eq in H
  | H : String.eqb _ _ = false |- _ => apply String.eqb_neq in H
  | H : Z.eqb _ _ = true |- _ => apply Z.eqb_eq in H
  | H : Z.eqb _ _ = false |- _ => apply Z.eqb_neq in H
  | H : Z.ltb _ _ = true |- _ => apply Z.ltb_lt in H
  | H : Z.ltb _ _ = false |- _ => apply Z.ltb_ge in H
  | H : Z.leb _ _ = true |- _ => apply Z.leb_le in H
  | H : Z.leb _ _ = false |- _ => apply Z.leb_gt in H
  end.

(** Case analysis on every guard of a handler, closing the cases the
    hypotheses contradict. *)
Ltac cases :=
  repeat (first [progress simplify_eq/= | dmatch]); bprop; try done.

(** ** Lists *)

(** [for _, x := range l { if x == s { return true } }; return false] *)
Definition contains (l : list string) (s : string) : bool :=
  existsb (String.eqb s) l.

Lemma contains_spec l s : contains l s = true ↔ s ∈ l.
Proof.
  unfold contains. rewrite existsb_exists. setoid_rewrite String.eqb_eq.
  rewrite list_elem_of_In. naive_solver.
Qed.

Lemma contains_false l s : contains l s = false ↔ s ∉ l.
Proof. rewrite <- contains_spec. destruct (contains l s); naive_solver. Qed.

#[export] Instance contains_reflect l s : Decision (contains l s = true).
Proof. apply _. Defined.

(** Order-preserving removal of duplicates and empty strings: the [seen] map
    loop that [sortedUnique] and [dedupe] share. *)
Fixpoint uniq_nonempty (seen l : list string) : list string :=
  match l with
  | [] => []
  | s :: l' =>
      if String.eqb s "" || contains seen s then uniq_nonempty seen l'
      else s :: uniq_nonempty (s :: seen) l'
  end.

Lemma elem_of_uniq_nonempty seen l s :
  s ∈ uniq_nonempty seen l ↔ s ∈ l ∧ s ≠ "" ∧ s ∉ seen.
Proof.
  revert seen. induction l as [|x l IH]; intros seen; simpl.
  { rewrite elem_of_nil. naive_solver. }
  destruct (String.eqb x "" || contains seen x) eqn:E.
  - rewrite IH. apply orb_true_iff in E as [E|E].
    + bprop. subst. rewrite elem_of_cons. naive_solver.
    + apply contains_spec in E. rewrite elem_of_cons. naive_solver.
  - bprop. apply contains_false in H0.
    rewrite !elem_of_cons, IH, elem_of_cons.
    destruct (decide (s = x)); naive_solver.
Qed.

Lemma NoDup_uniq_nonempty seen l : NoDup (uniq_nonempty seen l).
Proof.
  revert seen. induction l as [|x l IH]; intros seen; simpl; [constructor|].
  case_match; [done|]. constructor; [|done].
  rewrite elem_of_uniq_nonempty, elem_of_cons. naive_solver.
Qed.

(** Membership of the first match of a list search. *)
Lemma find_some_elem {A} (f : A → bool) l x :
  List.find f l = Some x → x ∈ l ∧ f x = true.
Proof. intros H. apply List.find_some in H. rewrite list_elem_of_In. done. Qed.

Lemma find_none_elem {A} (f : A → bool) l x :
  List.find f l = None → x ∈ l → f x = false.
Proof. intros H Hx. eapply List.find_none; [done|]. by apply list_elem_of_In. Qed.

Lemma existsb_elem {A} (f : A → bool) l :
  existsb f l = true ↔ ∃ x, x ∈ l ∧ f x = true.
Proof. rewrite existsb_exists. by setoid_rewrite list_elem_of_In. Qed.

Lemma forallb_elem {A} (f : A → bool) l :
  forallb f l = true ↔ ∀ x, x ∈ l → f x = true.
Proof. rewrite forallb_forall. by setoid_rewrite list_elem_of_In. Qed.

#[export] Hint Resolve NoDup_uniq_nonempty : jug.

(** [List.filter] on a boolean test respects permutations: results built from a
    Go map iteration do not depend on its order. *)
#[export] Instance List_filter_Permutation {A} (f : A → bool) :
  Proper (Permutation ==> Permutation) (List.filter f).
Proof.
  induction 1; simpl; repeat case_match; try done; eauto using Permutation; by etrans.
Qed.
