(* ===== verification/GoStd.v ===== *)
(** * The parts of Go's standard library the code uses

    A Go [string] is a byte string: [String.string] here, one [ascii] per byte.
    [strings], [strconv], [sort], [time] and [encoding/base32|base64|hex]
    functions are written out as the packages document them.  Case folding is
    the ASCII one: header names, configuration keywords and host names, the
    only arguments the code folds, are ASCII. *)

From Stdlib Require Export Ascii.
From stdpp Require Export base tactics strings gmap list sorting numbers pretty.
From S2P Require Import Prelude.

(** ** Package strings *)

Fixpoint str_take (n : nat) (s : string) : string :=
  match n, s with
  | S n', String c s' => String c (str_take n' s')
  | _, _ => EmptyString
  end.

Fixpoint str_drop (n : nat) (s : string) : string :=
  match n, s with
  | S n', String _ s' => str_drop n' s'
  | _, _ => s
  end.

Fixpoint HasPrefix (s p : string) : bool :=
  match p, s with
  | EmptyString, _ => true
  | String c p', String d s' => Ascii.eqb c d && HasPrefix s' p'
  | String _ _, EmptyString => false
  end.
Definition TrimPrefix (s p : string) : string :=
  if HasPrefix s p then str_drop (String.length p) s else s.
Definition HasSuffix (s p : string) : bool :=
  (String.length p <=? String.length s)%nat &&
  String.eqb (str_drop (String.length s - String.length p) s) p.
Definition TrimSuffix (s p : string) : string :=
  if HasSuffix s p then str_take (String.length s - String.length p) s else s.

Definition lower_char (c : ascii) : ascii :=
  let n := Ascii.nat_of_ascii c in
  if ((65 <=? n) && (n <=? 90))%nat then Ascii.ascii_of_nat (n + 32) else c.
Fixpoint ToLower (s : string) : string :=
  match s with
  | EmptyString => EmptyString
  | String c s' => String (lower_char c) (ToLower s')
  end.
Definition EqualFold (s t : string) : bool := String.eqb (ToLower s) (ToLower t).

(** [strings.Contains] *)
Fixpoint Contains (s sub : string) : bool :=
  HasPrefix s sub ||
  match s with EmptyString => false | String _ s' => Contains s' sub end.

(** [strings.Cut] around the first occurrence of [sep]. *)
Fixpoint Cut (s sep : string) : string * string * bool :=
  if HasPrefix s sep then ("", str_drop (String.length sep) s, true)
  else match s with
       | EmptyString => ("", "", false)
       | String c s' =>
           match Cut s' sep with
           | (a, b, true) => (String c a, b, true)
           | (a, b, false) => (s, "", false)
           end
       end.

(** [strings.Count] of a one-byte substring. *)
Fixpoint CountByte (s : string) (c : ascii) : nat :=
  match s with
  | EmptyString => 0
  | String d s' => (if Ascii.eqb d c then 1 else 0) + CountByte s' c
  end.

(** [strings.LastIndex] of a byte: the text before its last occurrence. *)
Fixpoint BeforeLast (s : string) (c : ascii) : option string :=
  match s with
  | EmptyString => None
  | String d s' =>
      match BeforeLast s' c with
      | Some a => Some (String d a)
      | None => if Ascii.eqb d c then Some EmptyString else None
      end
  end.

(** [strings.Trim], [TrimLeft] and [TrimRight] with a cut set. *)
Fixpoint TrimLeft (s : string) (cut : ascii → bool) : string :=
  match s with
  | String c s' => if cut c then TrimLeft s' cut else s
  | EmptyString => EmptyString
  end.
Fixpoint TrimRight (s : string) (cut : ascii → bool) : string :=
  match s with
  | EmptyString => EmptyString
  | String c s' =>
      match TrimRight s' cut with
      | EmptyString => if cut c then EmptyString else String c EmptyString
      | t => String c t
      end
  end.
Definition Trim (s : string) (cut : ascii → bool) : string :=
  TrimRight (TrimLeft s cut) cut.
Definition TrimSpace (s : string) : string := Trim s Ascii.is_space.

(** [strings.Split] on a one-byte separator (the result is never empty). *)
Fixpoint SplitByte (s : string) (c : ascii) : list string :=
  match s with
  | EmptyString => [EmptyString]
  | String d s' =>
      if Ascii.eqb d c then EmptyString :: SplitByte s' c
      else match SplitByte s' c with
           | h :: t => String d h :: t
           | [] => [String d EmptyString]
           end
  end.

(** [strings.Fields]: the maximal runs of non-space bytes. *)
Fixpoint FieldsGo (s acc : string) : list string :=
  match s with
  | EmptyString => match acc with EmptyString => [] | _ => [acc] end
  | String c s' =>
      if Ascii.is_space c
      then match acc with
           | EmptyString => FieldsGo s' EmptyString
           | _ => acc :: FieldsGo s' EmptyString
           end
      else FieldsGo s' (acc +:+ String c EmptyString)
  end.
Definition Fields (s : string) : list string := FieldsGo s EmptyString.

(** [strings.Join] *)
Fixpoint Join (l : list string) (sep : string) : string :=
  match l with
  | [] => ""
  | [x] => x
  | x :: l' => x +:+ sep +:+ Join l' sep
  end.

(** [strings.ReplaceAll] for a non-empty [old]: left to right, no overlap. The
    first argument bounds the number of steps; the length of [s] is enough
    because every step consumes at least one byte. *)
Fixpoint ReplaceAllGo (fuel : nat) (s old new : string) : string :=
  match fuel with
  | 0 => s
  | S fuel' =>
      match s with
      | EmptyString => EmptyString
      | String c s' =>
          if HasPrefix s old
          then new +:+ ReplaceAllGo fuel' (str_drop (String.length old) s) old new
          else String c (ReplaceAllGo fuel' s' old new)
      end
  end.
Definition ReplaceAll (s old new : string) : string :=
  ReplaceAllGo (String.length s) s old new.

(** ** Package strconv *)

Definition Itoa (n : Z) : string := pretty n.

Fixpoint digits_value (s : string) (acc : Z) : option Z :=
  match s with
  | EmptyString => Some acc
  | String c s' =>
      match Ascii.is_nat c with
      | Some d => digits_value s' (acc * 10 + Z.of_nat d)
      | None => None
      end
  end.

Definition max_int : Z := 9223372036854775807.
Definition in_int64 (z : Z) : bool := (- max_int - 1 <=? z)%Z && (z <=? max_int)%Z.

(** [strconv.Atoi]: optional sign, at least one digit, in the range of [int]. *)
Definition Atoi (s : string) : option Z :=
  let unsigned t := match t with EmptyString => None | _ => digits_value t 0 end in
  let r := match s with
           | String "-" t => Z.opp <$> unsigned t
           | String "+" t => unsigned t
           | _ => unsigned s
           end%char in
  match r with
  | Some z => if in_int64 z then Some z else None
  | None => None
  end.

(** ** Package sort *)

(** [sort.Strings]: ascending byte-wise lexicographic order. *)
Definition sort_Strings (l : list string) : list string := merge_sort String.le l.

(** ** Package time

    A [time.Duration] is an int64 count of nanoseconds; a [time.Time] is its
    distance in nanoseconds from the zero time (year 1), so [IsZero] is [= 0]. *)
Definition Millisecond : Z := 1000000.
Definition Second : Z := 1000000000.
Definition Minute : Z := 60 * Second.
Definition Hour : Z := 60 * Minute.
Definition IsZero (t : Z) : bool := (t =? 0)%Z.

(** Seconds between the zero time and the Unix epoch. *)
Definition unix_epoch : Z := 62135596800.
(** [t.Unix()] and [time.Unix(n, 0)]. *)
Definition Unix (t : Z) : Z := t / Second - unix_epoch.
Definition time_Unix (n : Z) : Z := (n + unix_epoch) * Second.

(** The bytes of a string, [[]byte(s)]. *)
Definition string_bytes (s : string) : list Z :=
  (λ c, Z.of_N (Ascii.N_of_ascii c)) <$> String.list_ascii_of_string s.

(** The string of a byte slice, [string(b)]. *)
Definition bytes_string (bs : list Z) : string :=
  String.string_of_list_ascii ((λ b, Ascii.ascii_of_N (Z.to_N b)) <$> bs).

(** ** Package encoding/{hex,base32,base64} (no padding)

    The three encodings cut the bit string of the input into groups of [w] bits
    (4, 5, 6), most significant bit first, the last group completed with zeros,
    and write one symbol of a 2^w alphabet per group. *)
Definition byte_bits (b : Z) : list bool :=
  [Z.testbit b 7; Z.testbit b 6; Z.testbit b 5; Z.testbit b 4;
   Z.testbit b 3; Z.testbit b 2; Z.testbit b 1; Z.testbit b 0].
Definition bytes_bits (bs : list Z) : list bool := bs ≫= byte_bits.

Definition bits_value (l : list bool) : nat :=
  fold_left (λ acc (b : bool), 2 * acc + (if b then 1 else 0)) l 0.

Fixpoint groups_go (fuel w : nat) (l : list bool) : list (list bool) :=
  match fuel, l with
  | S fuel', _ :: _ => take w (l ++ replicate w false) :: groups_go fuel' w (drop w l)
  | _, _ => []
  end.
Definition groups (w : nat) (l : list bool) : list (list bool) := groups_go (length l) w l.

Definition alphabet_char (alphabet : string) (g : list bool) : ascii :=
  default "?"%char (String.get (bits_value g) alphabet).

Definition encode_bits (w : nat) (alphabet : string) (bs : list Z) : string :=
  foldr (λ g s, String (alphabet_char alphabet g) s) EmptyString (groups w (bytes_bits bs)).

Definition hex_EncodeToString : list Z → string := encode_bits 4 "0123456789abcdef".
(** [base32.StdEncoding.WithPadding(NoPadding)] *)
Definition base32_EncodeToString : list Z → string :=
  encode_bits 5 "ABCDEFGHIJKLMNOPQRSTUVWXYZ234567".
(** [base64.RawURLEncoding] *)
Definition base64url_EncodeToString : list Z → string :=
  encode_bits 6 "ABCDEFGHIJKLMNOPQRSTUVWXYZabcdefghijklmnopqrstuvwxyz0123456789-_".

(** [base64.RawStdEncoding] *)
Definition base64_EncodeToString : list Z → string :=
  encode_bits 6 "ABCDEFGHIJKLMNOPQRSTUVWXYZabcdefghijklmnopqrstuvwxyz0123456789+/".

Fixpoint char_index (c : ascii) (alphabet : string) : option nat :=
  match alphabet with
  | EmptyString => None
  | String d a' => if Ascii.eqb c d then Some 0 else S <$> char_index c a'
  end.

(** The [w] low bits of [n], most significant first. *)
Definition nat_bits (w n : nat) : list bool :=
  (λ i, Nat.testbit n i) <$> rev (seq 0 w).

Fixpoint decode_symbols (w : nat) (alphabet s : string) : option (list bool) :=
  match s with
  | EmptyString => Some []
  | String c s' =>
      match char_index c alphabet, decode_symbols w alphabet s' with
      | Some n, Some bits => Some (nat_bits w n ++ bits)
      | _, _ => None
      end
  end.

(** The complete bytes of a bit string; trailing bits are dropped. *)
Fixpoint bits_bytes (l : list bool) : list Z :=
  match l with
  | b7 :: b6 :: b5 :: b4 :: b3 :: b2 :: b1 :: b0 :: l' =>
      Z.of_nat (bits_value [b7; b6; b5; b4; b3; b2; b1; b0]) :: bits_bytes l'
  | _ => []
  end.

Fixpoint drop_newlines (s : string) : string :=
  match s with
  | EmptyString => EmptyString
  | String c s' =>
      if Ascii.eqb c "010" || Ascii.eqb c "013" then drop_newlines s'
      else String c (drop_newlines s')
  end.

(** [DecodeString] of the unpadded base64 encodings: newlines are ignored, a
    lone trailing symbol or a byte outside the alphabet is an error. *)
Definition base64_decode (alphabet s : string) : option (list Z) :=
  let s := drop_newlines s in
  if (String.length s mod 4 =? 1)%nat then None
  else bits_bytes <$> decode_symbols 6 alphabet s.
Definition base64_DecodeString : string → option (list Z) :=
  base64_decode "ABCDEFGHIJKLMNOPQRSTUVWXYZabcdefghijklmnopqrstuvwxyz0123456789+/".
Definition base64url_DecodeString : string → option (list Z) :=
  base64_decode "ABCDEFGHIJKLMNOPQRSTUVWXYZabcdefghijklmnopqrstuvwxyz0123456789-_".

Example base64_vector :
  base64_EncodeToString (string_bytes "foob") = "Zm9vYg" ∧
  base64_DecodeString "Zm9vYg" = Some (string_bytes "foob").
Proof. vm_compute. done. Qed.


(** ** Lemmas *)

Lemma str_app_nil_l s : "" +:+ s = s.
Proof. done. Qed.
Lemma str_app_cons c s t : String c s +:+ t = String c (s +:+ t).
Proof. done. Qed.
Lemma str_app_nil_r s : s +:+ "" = s.
Proof. induction s as [|c s IH]; [done|]. rewrite str_app_cons. by rewrite IH. Qed.
Lemma str_app_assoc s t u : (s +:+ t) +:+ u = s +:+ (t +:+ u).
Proof. induction s as [|c s IH]; [done|]. rewrite !str_app_cons. by rewrite IH. Qed.
Lemma str_length_app s t :
  String.length (s +:+ t) = (String.length s + String.length t)%nat.
Proof. induction s as [|c s IH]; [done|]. rewrite str_app_cons. simpl. by rewrite IH. Qed.
Lemma str_app_inj_l s t u : s +:+ t = s +:+ u → t = u.
Proof.
  induction s as [|c s IH]; [done|]. rewrite !str_app_cons. intros H. simplify_eq. auto.
Qed.

(** Splitting two equal concatenations whose first parts have equal lengths. *)
Lemma str_app_inj_len s s' t t' :
  String.length s = String.length s' → s +:+ t = s' +:+ t' → s = s' ∧ t = t'.
Proof.
  revert s'. induction s as [|c s IH]; intros [|c' s'] Hl H; simpl in Hl; try done.
  rewrite !str_app_cons in H. injection Hl as Hl. injection H as -> H.
  destruct (IH s' Hl H) as [-> ->]. done.
Qed.
Lemma str_app_inj_len_r s s' t t' :
  String.length t = String.length t' → s +:+ t = s' +:+ t' → s = s' ∧ t = t'.
Proof.
  intros Hl H. apply str_app_inj_len; [|done].
  apply (f_equal String.length) in H. rewrite !str_length_app in H. lia.
Qed.

Lemma str_drop_app s t : str_drop (String.length s) (s +:+ t) = t.
Proof. induction s as [|c s IH]; [by destruct t|]. rewrite str_app_cons. done. Qed.
Lemma str_take_app s t : str_take (String.length s) (s +:+ t) = s.
Proof. induction s as [|c s IH]; [by destruct t|]. rewrite str_app_cons. simpl. by rewrite IH. Qed.
Lemma str_take_drop n s : str_take n s +:+ str_drop n s = s.
Proof.
  revert s. induction n as [|n IH]; intros [|c s]; [done..|].
  simpl. rewrite str_app_cons. by rewrite IH.
Qed.
Lemma str_length_drop n s : String.length (str_drop n s) = (String.length s - n)%nat.
Proof. revert s. induction n as [|n IH]; intros [|c s]; simpl; auto. Qed.
Lemma str_length_take n s : String.length (str_take n s) = (n `min` String.length s)%nat.
Proof. revert s. induction n as [|n IH]; intros [|c s]; simpl; auto. Qed.

Lemma HasPrefix_spec s p : HasPrefix s p = true ↔ ∃ t, s = p +:+ t.
Proof.
  revert s. induction p as [|c p IH]; intros s.
  { split; [|by destruct s]. intros _. by exists s. }
  destruct s as [|d s]; simpl.
  { split; [done|]. intros [t Ht]. by rewrite str_app_cons in Ht. }
  rewrite andb_true_iff, Ascii.eqb_eq, IH. split.
  - intros [-> [t ->]]. exists t. by rewrite str_app_cons.
  - intros [t Ht]. rewrite str_app_cons in Ht. injection Ht as -> ->. eauto.
Qed.

Lemma HasPrefix_app p t : HasPrefix (p +:+ t) p = true.
Proof. apply HasPrefix_spec. eauto. Qed.

Lemma TrimPrefix_app p t : TrimPrefix (p +:+ t) p = t.
Proof. unfold TrimPrefix. by rewrite HasPrefix_app, str_drop_app. Qed.

Lemma HasSuffix_spec s p : HasSuffix s p = true ↔ ∃ t, s = t +:+ p.
Proof.
  unfold HasSuffix. rewrite andb_true_iff, Nat.leb_le, String.eqb_eq. split.
  - intros [Hl Hd]. exists (str_take (String.length s - String.length p) s).
    rewrite <- Hd at 2. by rewrite str_take_drop.
  - intros [t ->]. rewrite str_length_app. split; [lia|].
    replace (_ + _ - _)%nat with (String.length t) by lia. apply str_drop_app.
Qed.

Lemma TrimSuffix_app t p : TrimSuffix (t +:+ p) p = t.
Proof.
  unfold TrimSuffix. rewrite (proj2 (HasSuffix_spec _ _)) by eauto.
  rewrite str_length_app. replace (_ + _ - _)%nat with (String.length t) by lia.
  apply str_take_app.
Qed.

Lemma ToLower_app s t : ToLower (s +:+ t) = ToLower s +:+ ToLower t.
Proof. induction s as [|c s IH]; [done|]. rewrite str_app_cons. simpl. by rewrite IH. Qed.

Lemma lower_char_idem c : lower_char (lower_char c) = lower_char c.
Proof. by destruct c as [[] [] [] [] [] [] [] []]. Qed.
Lemma ToLower_idem s : ToLower (ToLower s) = ToLower s.
Proof. induction s as [|c s IH]; [done|]. simpl. by rewrite lower_char_idem, IH. Qed.
Lemma ToLower_length s : String.length (ToLower s) = String.length s.
Proof. induction s as [|c s IH]; simpl; auto. Qed.

Lemma CountByte_app s t c : CountByte (s +:+ t) c = (CountByte s c + CountByte t c)%nat.
Proof. induction s as [|d s IH]; [done|]. rewrite str_app_cons. simpl. rewrite IH. lia. Qed.

(** The cut is at the first separator: the part before contains none. *)
Lemma Cut_byte_found a b c :
  CountByte a c = 0%nat →
  Cut (a +:+ String c b) (String c EmptyString) = (a, b, true).
Proof.
  induction a as [|d a IH]; intros Ha.
  - change ("" +:+ String c b) with (String c b). simpl.
    rewrite Ascii.eqb_refl. by destruct b.
  - rewrite str_app_cons. simpl in *. destruct (Ascii.eqb_spec d c) as [->|Hne]; [lia|].
    destruct (Ascii.eqb_spec c d) as [->|_]; [done|]. simpl.
    rewrite IH by lia. done.
Qed.

Lemma str_decompose_byte s c :
  CountByte s c ≠ 0%nat → ∃ a b, s = a +:+ String c b ∧ CountByte a c = 0%nat.
Proof.
  induction s as [|d s IH]; simpl; [done|].
  destruct (Ascii.eqb_spec d c) as [->|Hne].
  - intros _. by exists EmptyString, s.
  - intros (a & b & -> & Ha)%IH. exists (String d a), b.
    rewrite str_app_cons. split; [done|]. simpl.
    destruct (Ascii.eqb_spec d c); [done|]. lia.
Qed.

(** *** sort.Strings *)
Lemma sort_Strings_perm l : sort_Strings l ≡ₚ l.
Proof. apply merge_sort_Permutation. Qed.
Lemma sort_Strings_sorted l : StronglySorted String.le (sort_Strings l).
Proof. apply (StronglySorted_merge_sort String.le); apply _. Qed.
Lemma elem_of_sort_Strings l s : s ∈ sort_Strings l ↔ s ∈ l.
Proof. by rewrite sort_Strings_perm. Qed.

(** *** Bit-group encodings *)
Lemma length_bytes_bits bs : length (bytes_bits bs) = (8 * length bs)%nat.
Proof.
  unfold bytes_bits. induction bs as [|b bs IH]; [done|].
  cbn. rewrite IH. lia.
Qed.

Lemma length_groups_go fuel w l :
  (0 < w)%nat → (length l ≤ fuel)%nat →
  length (groups_go fuel w l) = ((length l + (w - 1)) / w)%nat.
Proof.
  intros Hw. revert l. induction fuel as [|fuel IH]; intros [|b l] Hl; simpl in *;
    try (rewrite Nat.div_small; lia); try lia.
  rewrite IH; [|rewrite length_drop; simpl; lia].
  rewrite length_drop. simpl length.
  assert (∀ x, (x + 1 * w) / w = S (x / w))%nat as Hstep.
  { intros x. rewrite Nat.div_add by lia. lia. }
  destruct (decide (S (length l) ≤ w)%nat) as [Hle|Hgt].
  - rewrite (Nat.div_small (S (length l) - w + (w - 1))) by lia.
    transitivity ((length l + 1 * w) / w)%nat; [|f_equal; lia].
    rewrite Hstep, Nat.div_small; lia.
  - rewrite <- Hstep. f_equal. lia.
Qed.

Lemma length_encode_bits w alphabet bs :
  (0 < w)%nat →
  String.length (encode_bits w alphabet bs) = ((8 * length bs + (w - 1)) / w)%nat.
Proof.
  intros Hw. rewrite <- length_bytes_bits, <- length_groups_go with (fuel := length (bytes_bits bs)) by lia.
  unfold encode_bits. fold (groups w (bytes_bits bs)).
  induction (groups w (bytes_bits bs)); simpl; auto.
Qed.

Lemma hex_length bs : String.length (hex_EncodeToString bs) = (2 * length bs)%nat.
Proof.
  unfold hex_EncodeToString. rewrite length_encode_bits by lia.
  replace (8 * length bs + (4 - 1))%nat with (2 * length bs * 4 + 3)%nat by lia.
  rewrite Nat.div_add_l by lia. change (3 / 4)%nat with 0%nat. lia.
Qed.

#[export] Hint Rewrite str_app_nil_r str_app_assoc str_length_app str_app_cons : jug.

(** *** base64 round trip *)

Definition is_byte (b : Z) : Prop := (0 ≤ b < 256)%Z.

Lemma bits_value_byte b :
  is_byte b → Z.of_nat (bits_value (byte_bits b)) = b.
Proof.
  intros Hb. replace b with (Z.of_nat (Z.to_nat b)) by (unfold is_byte in Hb; lia).
  assert (Z.to_nat b < 256)%nat as Hlt by (unfold is_byte in Hb; lia).
  generalize (Z.to_nat b), Hlt. clear.
  assert (forallb (λ n, (Z.of_nat (bits_value (byte_bits (Z.of_nat n))) =? Z.of_nat n)%Z) (seq 0 256) = true)
    as Hall by (vm_compute; reflexivity).
  intros n Hn. rewrite forallb_forall in Hall. apply Z.eqb_eq, Hall, in_seq. lia.
Qed.

Lemma bits_bytes_app b l : is_byte b → bits_bytes (byte_bits b ++ l) = b :: bits_bytes l.
Proof.
  intros Hb. unfold byte_bits. cbn [app bits_bytes]. f_equal. by apply bits_value_byte.
Qed.

Lemma bits_bytes_bits bs k :
  Forall is_byte bs → (k < 8)%nat → bits_bytes (bytes_bits bs ++ replicate k false) = bs.
Proof.
  intros Hbs Hk. induction Hbs as [|b bs Hb Hbs IH].
  - unfold bytes_bits. cbn. do 8 (destruct k as [|k]; [done|]). lia.
  - unfold bytes_bits. cbn [mbind list_bind]. fold (bytes_bits bs).
    rewrite <- app_assoc, bits_bytes_app by done. by rewrite IH.
Qed.

Lemma concat_groups_go fuel w l :
  (0 < w)%nat → (length l ≤ fuel)%nat →
  ∃ k, (k < w)%nat ∧ concat (groups_go fuel w l) = l ++ replicate k false ∧
       Forall (λ g, length g = w) (groups_go fuel w l).
Proof.
  intros Hw. revert l. induction fuel as [|fuel IH]; intros [|b l] Hl; simpl in Hl;
    try lia; try (exists 0%nat; simpl; split_and!; [lia|done|constructor]).
  cbn [groups_go concat].
  destruct (IH (drop w (b :: l))) as (k & Hk & Hc & Hf); [rewrite length_drop; simpl; lia|].
  rewrite Hc. assert (length (take w ((b :: l) ++ replicate w false)) = w) as Hlen.
  { rewrite length_take, length_app, length_replicate. lia. }
  destruct (decide (w ≤ length (b :: l))%nat) as [Hle|Hgt].
  - exists k. rewrite take_app_le by done.
    split_and!; [done| |by constructor; [rewrite <- take_app_le with (k := replicate w false)|]].
    rewrite app_assoc, take_drop. done.
  - exists (w - length (b :: l))%nat. rewrite drop_ge in * by lia.
    assert (groups_go fuel w [] = []) as Hnil by by destruct fuel.
    rewrite Hnil in *. cbn in Hc. destruct k; [|done]. rewrite app_nil_r.
    split_and!; [simpl; lia| |by constructor].
    rewrite take_app_ge by lia. f_equal. rewrite take_replicate. f_equal. lia.
Qed.

(** An alphabet whose symbols decode to the groups they encode. *)
Definition alphabet_ok (w : nat) (alphabet : string) : Prop :=
  ∀ g, length g = w →
    (∃ n, char_index (alphabet_char alphabet g) alphabet = Some n ∧ nat_bits w n = g) ∧
    Ascii.eqb (alphabet_char alphabet g) "010" || Ascii.eqb (alphabet_char alphabet g) "013" = false.

Lemma decode_symbols_groups w alphabet gs :
  alphabet_ok w alphabet → Forall (λ g, length g = w) gs →
  let s := foldr (λ g s, String (alphabet_char alphabet g) s) EmptyString gs in
  decode_symbols w alphabet s = Some (concat gs) ∧ drop_newlines s = s.
Proof.
  intros Ha Hgs. induction Hgs as [|g gs Hg Hgs [IH IHn]]; [done|].
  cbn [foldr decode_symbols drop_newlines concat]. destruct (Ha g Hg) as [(n & -> & ->) ->].
  rewrite IH, IHn. done.
Qed.

Lemma base64_roundtrip alphabet bs :
  alphabet_ok 6 alphabet → Forall is_byte bs →
  base64_decode alphabet (encode_bits 6 alphabet bs) = Some bs.
Proof.
  intros Ha Hbs. unfold base64_decode.
  destruct (concat_groups_go (length (bytes_bits bs)) 6 (bytes_bits bs)) as (k & Hk & Hc & Hf); [lia..|].
  destruct (decode_symbols_groups 6 alphabet (groups 6 (bytes_bits bs)) Ha Hf) as [Hd Hn].
  unfold encode_bits in *. rewrite Hn. fold (encode_bits 6 alphabet bs) in *.
  rewrite length_encode_bits by lia.
  assert ((8 * length bs + 5) / 6 mod 4 ≠ 1)%nat as Hmod.
  { assert (∃ q r, length bs = 3 * q + r ∧ r < 3)%nat as (q & r & -> & Hr).
    { exists (length bs / 3)%nat, (length bs mod 3)%nat.
      pose proof (Nat.div_mod_eq (length bs) 3). pose proof (Nat.mod_upper_bound (length bs) 3). lia. }
    destruct r as [|[|[|r]]]; [..|lia].
    - replace ((8 * (3 * q + 0) + 5) / 6)%nat with (q * 4)%nat by (apply Nat.div_unique with 5%nat; lia).
      rewrite Nat.Div0.mod_mul. lia.
    - replace ((8 * (3 * q + 1) + 5) / 6)%nat with (2 + q * 4)%nat by (apply Nat.div_unique with 1%nat; lia).
      rewrite Nat.Div0.mod_add. cbn. lia.
    - replace ((8 * (3 * q + 2) + 5) / 6)%nat with (3 + q * 4)%nat by (apply Nat.div_unique with 3%nat; lia).
      rewrite Nat.Div0.mod_add. cbn. lia. }
  apply Nat.eqb_neq in Hmod. cbn [Nat.sub]. rewrite Hmod, Hd. cbn.
  unfold groups. rewrite Hc, bits_bytes_bits; [done..|lia].
Qed.

Lemma base64_alphabets_ok :
  alphabet_ok 6 "ABCDEFGHIJKLMNOPQRSTUVWXYZabcdefghijklmnopqrstuvwxyz0123456789+/" ∧
  alphabet_ok 6 "ABCDEFGHIJKLMNOPQRSTUVWXYZabcdefghijklmnopqrstuvwxyz0123456789-_".
Proof.
  split; intros g Hg; do 6 (destruct g as [|[] g]; [done|..]); (destruct g; [|done]);
    (split; [eexists; split; vm_compute; reflexivity|vm_compute; reflexivity]).
Qed.

(** [RawStdEncoding] and [RawURLEncoding] decode what they encode. *)
Lemma base64_std_roundtrip bs :
  Forall is_byte bs → base64_DecodeString (base64_EncodeToString bs) = Some bs.
Proof. apply base64_roundtrip, base64_alphabets_ok. Qed.
Lemma base64_url_roundtrip bs :
  Forall is_byte bs → base64url_DecodeString (base64url_EncodeToString bs) = Some bs.
Proof. apply base64_roundtrip, base64_alphabets_ok. Qed.

(** *** strconv round trip *)

Lemma is_nat_pretty_char d : (d < 10)%N → Ascii.is_nat (pretty_N_char d) = Some (N.to_nat d).
Proof.
  intros H. assert (d = 0 ∨ d = 1 ∨ d = 2 ∨ d = 3 ∨ d = 4 ∨ d = 5 ∨ d = 6 ∨ d = 7 ∨ d = 8 ∨ d = 9)%N by lia.
  naive_solver.
Qed.

Lemma digits_value_pretty x s :
  digits_value (pretty_N_go x s) 0 = digits_value s (Z.of_N x).
Proof.
  revert s. induction (N.lt_wf_0 x) as [x _ IH]; intros s.
  assert (x = 0 ∨ 0 < x)%N as [->|Hx] by lia; [done|].
  rewrite pretty_N_go_step, IH by (done || by apply N.div_lt). simpl.
  rewrite is_nat_pretty_char by (apply N.mod_lt; lia). f_equal.
  rewrite N_nat_Z, N2Z.inj_div, N2Z.inj_mod. pose proof (Z.div_mod (Z.of_N x) 10). lia.
Qed.

Lemma pretty_N_go_digit x s :
  (0 < x)%N → ∃ d t, (d < 10)%N ∧ pretty_N_go x s = String (pretty_N_char d) t.
Proof.
  revert s. induction (N.lt_wf_0 x) as [x _ IH]; intros s Hx.
  rewrite pretty_N_go_step by done.
  destruct (N.eq_0_gt_0_cases (x `div` 10)%N) as [->|Hd].
  - rewrite pretty_N_go_0. exists (x `mod` 10)%N, s. split; [apply N.mod_lt; lia|done].
  - apply IH; [by apply N.div_lt|done].
Qed.

Lemma Atoi_digit d t : (d < 10)%N →
  Atoi (String (pretty_N_char d) t) =
  match digits_value (String (pretty_N_char d) t) 0 with
  | Some z => if in_int64 z then Some z else None
  | None => None
  end.
Proof.
  intros H. assert (d = 0 ∨ d = 1 ∨ d = 2 ∨ d = 3 ∨ d = 4 ∨ d = 5 ∨ d = 6 ∨ d = 7 ∨ d = 8 ∨ d = 9)%N by lia.
  naive_solver.
Qed.

Lemma pretty_pos_digit p : ∃ d t, (d < 10)%N ∧ pretty (N.pos p) = String (pretty_N_char d) t ∧
  digits_value (String (pretty_N_char d) t) 0 = Some (Zpos p).
Proof.
  unfold pretty, pretty_N. rewrite decide_False by done.
  destruct (pretty_N_go_digit (N.pos p) "" ltac:(lia)) as (d & t & Hd & He).
  exists d, t. split_and!; [done..|]. rewrite <- He, digits_value_pretty. done.
Qed.

Lemma Atoi_Itoa n : in_int64 n = true → Atoi (Itoa n) = Some n.
Proof.
  intros Hn. unfold Itoa. destruct n as [|p|p]; [done|..];
    destruct (pretty_pos_digit p) as (d & t & Hd & He & Hv); cbv [pretty pretty_Z pretty_positive] in *; rewrite He.
  - rewrite Atoi_digit, Hv by done. by rewrite Hn.
  - change ("-" +:+ String (pretty_N_char d) t) with (String "-" (String (pretty_N_char d) t)).
    unfold Atoi. cbn iota beta. rewrite Hv. change (- Z.pos p)%Z with (Z.neg p). change (Z.opp <$> Some (Z.pos p)) with (Some (Z.neg p)). cbn iota. by rewrite Hn.
Qed.

(** ** Package encoding/json *)

(** [Marshal] and [Unmarshal] on one struct type whose strings are valid UTF-8
    (subjects and server types come out of JSON documents themselves). *)
Class JSONCodec (A : Type) := {
  json_Marshal : A → string;
  json_Unmarshal : string → result A;
  json_roundtrip : ∀ a, json_Unmarshal (json_Marshal a) = Ok a }.
