(* ===== verification/NetIP.v ===== *)
(** * Package net: addresses, networks and host:port text

    What the egress proxy uses of the Go standard library: [net.IP] as a byte
    slice of length 4 or 16 (nil is the empty slice), its classification
    methods, [net.IPNet.Contains], [net.ParseIP], [net.ParseCIDR] and
    [net.SplitHostPort]. *)

From S2P Require Import Prelude GoStd.

Local Open Scope Z_scope.

Notation IP := (list Z).

(** ** Classification *)

(** [func (ip IP) To4() IP]; [[]] is nil. *)
Definition To4 (ip : IP) : IP :=
  if (length ip =? 4)%nat then ip
  else if (length ip =? 16)%nat && bool_decide (take 12 ip = replicate 10 0 ++ [255; 255]) then drop 12 ip
  else [].

Definition byte_at (ip : IP) (i : nat) : Z := default 0 (ip !! i).

Definition IsLoopback (ip : IP) : bool :=
  match To4 ip with
  | [] => bool_decide (ip = replicate 15 0 ++ [1])
  | ip4 => byte_at ip4 0 =? 127
  end.

Definition IsUnspecified (ip : IP) : bool :=
  match To4 ip with
  | [] => bool_decide (ip = replicate 16 0)
  | ip4 => bool_decide (ip4 = replicate 4 0)
  end.

Definition IsPrivate (ip : IP) : bool :=
  match To4 ip with
  | [] => (length ip =? 16)%nat && (Z.land (byte_at ip 0) 0xfe =? 0xfc)
  | ip4 =>
      (byte_at ip4 0 =? 10) || ((byte_at ip4 0 =? 172) && (Z.land (byte_at ip4 1) 0xf0 =? 16)) ||
      ((byte_at ip4 0 =? 192) && (byte_at ip4 1 =? 168))
  end.

Definition IsLinkLocalUnicast (ip : IP) : bool :=
  match To4 ip with
  | [] => (length ip =? 16)%nat && (byte_at ip 0 =? 0xfe) && (Z.land (byte_at ip 1) 0xc0 =? 0x80)
  | ip4 => (byte_at ip4 0 =? 169) && (byte_at ip4 1 =? 254)
  end.

(** ** Networks *)

(** [type IPNet struct] *)
Record IPNet := mkIPNet { net_IP : IP; net_Mask : list Z }.

Definition networkNumberAndMask (n : IPNet) : IP * list Z :=
  let ip := match To4 (net_IP n) with [] => net_IP n | ip4 => ip4 end in
  if negb (length ip =? 4)%nat && negb (length ip =? 16)%nat then ([], [])
  else
    let m := net_Mask n in
    if (length m =? 4)%nat then (if (length ip =? 4)%nat then (ip, m) else ([], []))
    else if (length m =? 16)%nat then (ip, if (length ip =? 4)%nat then drop 12 m else m)
    else ([], []).

(** [func (n *IPNet) Contains(ip IP) bool] *)
Definition IPNet_Contains (n : IPNet) (ip : IP) : bool :=
  let '(nn, m) := networkNumberAndMask n in
  let ip := match To4 ip with [] => ip | x => x end in
  (length ip =? length nn)%nat &&
  forallb (λ i, Z.land (byte_at nn i) (byte_at m i) =? Z.land (byte_at ip i) (byte_at m i)) (seq 0 (length ip)).

(** ** Text *)

(** One decimal field of a dotted quad: no sign, no leading zero, at most 255. *)
Definition parseIPv4Field (s : string) : option Z :=
  match s with
  | EmptyString => None
  | String "0" (String _ _) => None
  | _ => match digits_value s 0 with Some v => if (v <=? 255)%Z then Some v else None | None => None end
  end%char.

Definition parseIPv4 (s : string) : option IP :=
  let parts := SplitByte s "." in
  if (length parts =? 4)%nat then mapM parseIPv4Field parts else None.

Definition hex_digit (c : ascii) : option Z :=
  let n := Z.of_nat (Ascii.nat_of_ascii c) in
  if (48 <=? n) && (n <=? 57) then Some (n - 48)
  else if (97 <=? n) && (n <=? 102) then Some (n - 87)
  else if (65 <=? n) && (n <=? 70) then Some (n - 55)
  else None.

(** The leading hex digits: their number, value and what follows. *)
Fixpoint hex_run (s : string) (off : nat) (acc : Z) : nat * Z * string :=
  match s with
  | EmptyString => (off, acc, EmptyString)
  | String c s' =>
      match hex_digit c with
      | Some d => hex_run s' (S off) (acc * 16 + d)
      | None => (off, acc, s)
      end
  end.

Definition group_bytes (acc : Z) : IP := [acc / 256; acc mod 256].

(** The loop of [parseIPv6]: the bytes so far and where the ellipsis stood. *)
Fixpoint parseIPv6Groups (fuel : nat) (s : string) (ip : IP) (ellipsis : option nat) : option (IP * option nat) :=
  match fuel with
  | O => if String.eqb s "" then Some (ip, ellipsis) else None
  | S fuel' =>
      let '(off, acc, rest) := hex_run s O 0%Z in
      if (off =? 0)%nat || (4 <? off)%nat then None
      else
        match rest with
        | String "." _ =>
            if (bool_decide (ellipsis = None) && negb (length ip =? 12)%nat) || (16 <? length ip + 4)%nat then None
            else match parseIPv4 s with Some ip4 => Some (ip ++ ip4, ellipsis) | None => None end
        | EmptyString => Some (ip ++ group_bytes acc, ellipsis)
        | String ":" EmptyString => None
        | String ":" (String ":" s') =>
            match ellipsis with
            | Some _ => None
            | None =>
                let ip := ip ++ group_bytes acc in
                if String.eqb s' "" then Some (ip, Some (length ip)) else parseIPv6Groups fuel' s' ip (Some (length ip))
            end
        | String ":" s' => parseIPv6Groups fuel' s' (ip ++ group_bytes acc) ellipsis
        | _ => None
        end%char
  end.

(** Eight groups at most; an ellipsis stands for the missing ones. *)
Definition parseIPv6 (s : string) : option IP :=
  let r := if HasPrefix s "::"
           then (let s' := str_drop 2 s in
                 if String.eqb s' "" then Some ([], Some O) else parseIPv6Groups 8 s' [] (Some O))
           else parseIPv6Groups 8 s [] None in
  match r with
  | None => None
  | Some (ip, Some e) =>
      if (length ip <? 16)%nat then Some (take e ip ++ replicate (16 - length ip) 0 ++ drop e ip) else None
  | Some (ip, None) => if (length ip =? 16)%nat then Some ip else None
  end.

(** [netip.ParseAddr] without a zone: the first dot or colon decides. *)
Fixpoint addr_kind (s : string) : option bool :=
  match s with
  | EmptyString => None
  | String c s' =>
      if Ascii.eqb c "." then Some true
      else if Ascii.eqb c ":" then Some false
      else if Ascii.eqb c "%" then None
      else addr_kind s'
  end%char.

(** The address of the text and its bit length. *)
Definition ParseAddr (s : string) : option (IP * nat) :=
  match addr_kind s with
  | Some true => (λ ip, (ip, 32%nat)) <$> parseIPv4 s
  | Some false => if (CountByte s "%" =? 0)%nat then (λ ip, (ip, 128%nat)) <$> parseIPv6 s else None
  | None => None
  end.

(** [func ParseIP(s string) IP]: the 16-byte form, nil when it is no address. *)
Definition ParseIP (s : string) : IP :=
  match ParseAddr s with
  | Some (ip, bits) => if (bits =? 32)%nat then replicate 10 0 ++ [255; 255] ++ ip else ip
  | None => []
  end.

(** [appendHex]: without leading zeros. *)
Definition hex16 (v : Z) : string :=
  let ds := [v / 4096; v / 256 mod 16; v / 16 mod 16; v mod 16] in
  let fix go ds := match ds with [d] => [d] | d :: ds' => if d =? 0 then go ds' else d :: ds' | [] => [] end in
  String.concat "" ((λ d, str_take 1 (str_drop (Z.to_nat d) "0123456789abcdef")) <$> go ds).

Definition group16 (ip : IP) (i : nat) : Z := byte_at ip (2 * i) * 256 + byte_at ip (2 * i + 1).

Fixpoint zero_run (fuel : nat) (ip : IP) (i : nat) : nat :=
  match fuel with
  | O => O
  | S fuel' => if (i <? 8)%nat && (group16 ip i =? 0) then S (zero_run fuel' ip (S i)) else O
  end.

(** The first longest run of two or more zero groups: start and length. *)
Definition longest_zeros (ip : IP) : option (nat * nat) :=
  fold_left (λ best i,
    let l := zero_run 8 ip i in
    if (2 <=? l)%nat && match best with Some (_, b) => (b <? l)%nat | None => true end then Some (i, l) else best)
    (seq 0 8) None.

(** [func (ip Addr) string6]: the groups from [i] on. *)
Fixpoint string6 (fuel : nat) (ip : IP) (zeros : option (nat * nat)) (i : nat) : string :=
  match fuel with
  | O => ""
  | S fuel' =>
      if (8 <=? i)%nat then ""
      else
        match zeros with
        | Some (zs, l) =>
            if (i =? zs)%nat then
              let i := (zs + l)%nat in
              "::" +:+ if (8 <=? i)%nat then "" else hex16 (group16 ip i) +:+ string6 fuel' ip zeros (S i)
            else (if (0 <? i)%nat then ":" else "") +:+ hex16 (group16 ip i) +:+ string6 fuel' ip zeros (S i)
        | None => (if (0 <? i)%nat then ":" else "") +:+ hex16 (group16 ip i) +:+ string6 fuel' ip zeros (S i)
        end
  end.

(** [func (ip IP) String() string] for the lengths 0, 4 and 16. *)
Definition IP_String (ip : IP) : string :=
  match ip with
  | [] => "<nil>"
  | _ => match To4 ip with
         | [] => string6 8 ip (longest_zeros ip) 0
         | ip4 => Join (Itoa <$> ip4) "."
         end
  end.

(** [func CIDRMask(ones, bits int) IPMask] *)
Definition CIDRMask (ones bits : nat) : list Z :=
  (λ i, let k := (ones - 8 * i)%nat in if (8 <=? k)%nat then 255 else 255 - (2 ^ (8 - Z.of_nat k) - 1)) <$> seq 0 (bits / 8).

(** [func ParseCIDR(s string)]: the network. *)
Definition ParseCIDR (s : string) : option IPNet :=
  let '(addr, mask, found) := Cut s "/" in
  if negb found then None
  else
    match ParseAddr addr, (match mask with EmptyString => None | _ => digits_value mask 0 end) with
    | Some (ip, bits), Some n =>
        if Z.of_nat bits <? n then None
        else
          let m := CIDRMask (Z.to_nat n) bits in
          Some (mkIPNet (zip_with Z.land ip m) m)
    | _, _ => None
    end.

(** [func SplitHostPort(hostport string) (host, port string, err error)] *)
Definition SplitHostPort (hp : string) : option (string * string) :=
  match BeforeLast hp ":" with
  | None => None
  | Some before =>
      let port := str_drop (S (String.length before)) hp in
      match hp with
      | String "[" rest =>
          let '(host, _, found) := Cut rest "]" in
          if negb found then None
          (* the bracket must close right before the last colon *)
          else if negb (String.eqb before ("[" +:+ host +:+ "]")) then None
          else if Contains host "[" || Contains port "[" || Contains port "]" then None
          else Some (host, port)
      | _ =>
          if Contains before ":" then None
          else if Contains hp "[" || Contains hp "]" then None
          else Some (before, port)
      end%char
  end.

(** [func JoinHostPort(host, port string) string] *)
Definition JoinHostPort (host port : string) : string :=
  if Contains host ":" then "[" +:+ host +:+ "]:" +:+ port else host +:+ ":" +:+ port.

(** ** Checks on sample text *)

Example parse_v4 : ParseIP "10.1.2.3" = replicate 10 0 ++ [255; 255; 10; 1; 2; 3].
Proof. reflexivity. Qed.
Example parse_bad : ParseIP "10.1.2.03" = [] ∧ ParseIP "1.2.3" = [] ∧ ParseIP "1::2::3" = [] ∧ ParseIP "fe80::1%eth0" = [].
Proof. vm_compute. done. Qed.
Example print_parse : (IP_String ∘ ParseIP) <$> ["169.254.169.254"; "fd00::1"; "::1"; "2001:db8:0:0:1:0:0:1"; "::ffff:10.0.0.1"; "::"; "1:2:3:4:5:6:7:8"; "64:ff9b::a00:1"; "x"]
  = ["169.254.169.254"; "fd00::1"; "::1"; "2001:db8::1:0:0:1"; "10.0.0.1"; "::"; "1:2:3:4:5:6:7:8"; "64:ff9b::a00:1"; "<nil>"].
Proof. vm_compute. reflexivity. Qed.
Example split_host_port : SplitHostPort <$> ["api.example.com:443"; "[::1]:443"; "a:b:c"; "host"; "[::1]"; "[::1]x:1"] =
  [Some ("api.example.com", "443"); Some ("::1", "443"); None; None; None; None].
Proof. vm_compute. reflexivity. Qed.
Example cidr_contains : (λ s, match ParseCIDR s with Some n => Some (IPNet_Contains n (ParseIP "10.255.0.1")) | None => None end) <$>
  ["10.0.0.0/8"; "10.0.0.0/16"; "10.255.0.1/32"; "fd00::/8"; "10.0.0.0/33"; "0.0.0.0/0"]
  = [Some true; Some false; Some true; Some false; None; Some true].
Proof. vm_compute. reflexivity. Qed.

(** ** Lemmas *)

(** An address is in an IPv4 network exactly when it has the same masked bytes. *)
Lemma IPNet_Contains_v4 ip nn m :
  length ip = 4%nat → length nn = 4%nat → length m = 4%nat →
  IPNet_Contains (mkIPNet nn m) ip = true ↔ zip_with Z.land nn m = zip_with Z.land ip m.
Proof.
  intros H1 H2 H3. unfold IPNet_Contains, networkNumberAndMask, To4. cbn [net_IP net_Mask].
  rewrite H2, H3, H1. cbn.
  destruct ip as [|a0 [|a1 [|a2 [|a3 [|]]]]]; try discriminate H1.
  destruct nn as [|b0 [|b1 [|b2 [|b3 [|]]]]]; try discriminate H2.
  destruct m as [|c0 [|c1 [|c2 [|c3 [|]]]]]; try discriminate H3.
  cbn. rewrite !andb_true_iff, !Z.eqb_eq.
  split; [intros (-> & -> & -> & -> & _); done|intros [= -> -> -> ->]; done].
Qed.
