(* ===== verification/Sha256.v ===== *)
(** * SHA-256 and HMAC-SHA256 (Go's crypto/sha256 and crypto/hmac)

    The code hashes subjects into object names ([core.UserHash]), digests secret
    values ([wrapper.fingerprint]) and authenticates routing records
    ([core.MAC]).  The functions are executable on byte lists, so that the names
    the code derives can be computed; a few published test vectors check them. *)

From S2P Require Import Prelude GoStd.

Local Open Scope Z_scope.

Definition w32 (x : Z) : Z := Z.land x 0xffffffff.
Definition add32 (x y : Z) : Z := w32 (x + y).
Definition rotr32 (n x : Z) : Z :=
  w32 (Z.lor (Z.shiftr x n) (Z.shiftl x (32 - n))).

Definition Ch (x y z : Z) : Z := Z.lxor (Z.land x y) (Z.land (Z.lxor x 0xffffffff) z).
Definition Maj (x y z : Z) : Z := Z.lxor (Z.land x y) (Z.lxor (Z.land x z) (Z.land y z)).
Definition Sigma0 (x : Z) : Z := Z.lxor (rotr32 2 x) (Z.lxor (rotr32 13 x) (rotr32 22 x)).
Definition Sigma1 (x : Z) : Z := Z.lxor (rotr32 6 x) (Z.lxor (rotr32 11 x) (rotr32 25 x)).
Definition sigma0 (x : Z) : Z := Z.lxor (rotr32 7 x) (Z.lxor (rotr32 18 x) (Z.shiftr x 3)).
Definition sigma1 (x : Z) : Z := Z.lxor (rotr32 17 x) (Z.lxor (rotr32 19 x) (Z.shiftr x 10)).

(** The constants of FIPS 180-4: the first 32 bits of the fractional parts of the
    cube roots of the first 64 primes, and of the square roots of the first 8. *)
Definition is_prime (n : Z) : bool :=
  forallb (λ d, negb (n mod Z.of_nat d =? 0)) (seq 2 (Z.to_nat (Z.sqrt n) - 1)).
Definition primes : list Z := List.filter is_prime (Z.of_nat <$> seq 2 310).
(** The integer cube root below [2 ^ bits], bit by bit from the top. *)
Fixpoint cbrt (bits : nat) (n acc : Z) : Z :=
  match bits with
  | O => acc
  | S b => let acc' := acc + 2 ^ Z.of_nat b in cbrt b n (if acc' * acc' * acc' <=? n then acc' else acc)
  end.
Definition sha_k : list Z :=
  Eval vm_compute in (λ p, w32 (cbrt 36 (p * 2 ^ 96) 0)) <$> take 64 primes.
Definition sha_h0 : list Z := Eval vm_compute in (λ p, w32 (Z.sqrt (p * 2 ^ 64))) <$> take 8 primes.

(** The message padded to a multiple of 64 bytes. *)
Definition be64 (n : Z) : list Z :=
  (λ i, Z.land (Z.shiftr n (8 * i)) 255) <$> [7;6;5;4;3;2;1;0].
Definition sha_pad (msg : list Z) : list Z :=
  let n := Z.of_nat (length msg) in
  msg ++ [128] ++ replicate (Z.to_nat ((55 - n) mod 64)) 0 ++ be64 (8 * n).

Fixpoint words (bs : list Z) : list Z :=
  match bs with
  | a :: b :: c :: d :: bs' => (a * 16777216 + b * 65536 + c * 256 + d) :: words bs'
  | _ => []
  end.

(** The message schedule, newest word first. *)
Fixpoint sha_schedule (n : nat) (rev_w : list Z) : list Z :=
  match n with
  | 0%nat => rev_w
  | S n' =>
      let w i := nth i rev_w 0 in
      sha_schedule n' (add32 (add32 (sigma1 (w 1%nat)) (w 6%nat))
                             (add32 (sigma0 (w 14%nat)) (w 15%nat)) :: rev_w)
  end.

Definition sha_round (st : list Z) (kw : Z * Z) : list Z :=
  match st with
  | [a;b;c;d;e;f;g;h] =>
      let t1 := add32 (add32 h (Sigma1 e)) (add32 (Ch e f g) (add32 kw.1 kw.2)) in
      let t2 := add32 (Sigma0 a) (Maj a b c) in
      [add32 t1 t2; a; b; c; add32 d t1; e; f; g]
  | _ => st
  end.

Definition sha_block (st : list Z) (block : list Z) : list Z :=
  let w := rev (sha_schedule 48 (rev block)) in
  zip_with add32 st (fold_left sha_round (zip sha_k w) st).

Fixpoint sha_blocks (fuel : nat) (st ws : list Z) : list Z :=
  match fuel, ws with
  | S fuel', _ :: _ => sha_blocks fuel' (sha_block st (take 16 ws)) (drop 16 ws)
  | _, _ => st
  end.

(** [sha256.Sum256] *)
Definition Sum256 (msg : list Z) : list Z :=
  let ws := words (sha_pad msg) in
  (sha_blocks (length ws) sha_h0 ws) ≫=
    λ x, [Z.shiftr x 24; Z.land (Z.shiftr x 16) 255; Z.land (Z.shiftr x 8) 255; Z.land x 255].

(** [hmac.New(sha256.New, key)] over the whole message. *)
Definition hmac_sha256 (key msg : list Z) : list Z :=
  let k0 := if (64 <? Z.of_nat (length key)) then Sum256 key else key in
  let k := k0 ++ replicate (64 - length k0) 0 in
  Sum256 ((Z.lxor 0x5c <$> k) ++ Sum256 ((Z.lxor 0x36 <$> k) ++ msg)).

(** Published vectors (FIPS 180-4 and RFC 4231). *)
Example sha256_empty :
  hex_EncodeToString (Sum256 []) =
  "e3b0c44298fc1c149afbf4c8996fb92427ae41e4649b934ca495991b7852b855".
Proof. vm_compute. reflexivity. Qed.
Example sha256_abc :
  hex_EncodeToString (Sum256 (string_bytes "abc")) =
  "ba7816bf8f01cfea414140de5dae2223b00361a396177a9cb410ff61f20015ad".
Proof. vm_compute. reflexivity. Qed.
Example hmac_rfc4231_2 :
  hex_EncodeToString (hmac_sha256 (string_bytes "Jefe") (string_bytes "what do ya want for nothing?")) =
  "5bdcc146bf60754e6a042426089575c75a003f089d2739839dec58b964ec3843".
Proof. vm_compute. reflexivity. Qed.

(** The digest always has 32 bytes. *)
Lemma length_sha_round st kw : length st = 8%nat → length (sha_round st kw) = 8%nat.
Proof.
  intros H. do 8 (destruct st as [|? st]; [done|]). by destruct st.
Qed.

Lemma length_sha_block st block : length st = 8%nat → length (sha_block st block) = 8%nat.
Proof.
  intros H. unfold sha_block. rewrite length_zip_with.
  assert (∀ kws st', length st' = 8%nat → length (fold_left sha_round kws st') = 8%nat) as Hf.
  { intros kws. induction kws as [|kw kws IH]; intros st' Hst'; simpl; [done|].
    apply IH, length_sha_round. done. }
  rewrite Hf; lia.
Qed.

Lemma length_sha_blocks fuel st ws :
  length st = 8%nat → length (sha_blocks fuel st ws) = 8%nat.
Proof.
  revert st ws. induction fuel as [|fuel IH]; intros st [|w ws] H; simpl; try done.
  apply IH, length_sha_block. done.
Qed.

Lemma length_Sum256 msg : length (Sum256 msg) = 32%nat.
Proof.
  unfold Sum256.
  assert (∀ l : list Z, length (l ≫= λ x, [Z.shiftr x 24; Z.land (Z.shiftr x 16) 255;
            Z.land (Z.shiftr x 8) 255; Z.land x 255]) = (4 * length l)%nat) as ->.
  { induction l as [|x l IH]; [done|]. cbn. rewrite IH. lia. }
  by rewrite length_sha_blocks.
Qed.

#[export] Hint Rewrite length_Sum256 : jug.
