(* ===== verification/Config.v ===== *)
(** * internal/config: the configuration model

    The Go structs of types.go as records (a pointer or a slice/map the code
    compares with nil is an [option]), [ApplyDefaults], [Validate] and their
    helpers from load.go, and the live [Store] of watch.go.  The YAML and JSON
    Schema libraries are a parameter ([decode]) of [Parse]. *)

From S2P Require Import Prelude GoStd Sha256.

Local Open Scope Z_scope.

(** ** types.go *)

(** An [any] value of an [options:] map or of decoded token claims. *)
Inductive any :=
| ANil
| ABool (b : bool)
| AInt (n : Z)
| AFloat (num : Z) (den : positive)
| AString (s : string)
| AStrings (l : list string)
| AList (l : list any)
| AMap (m : list (string * any)).

Definition APIVersion : string := "juggernaut.io/v1alpha1".

(** [time.Duration] wrapped for YAML: nanoseconds. *)
Definition Duration : Type := Z.

Record SecretRef := mkSecretRef { sr_Env : string; sr_File : string }.

Record ListenerTLS := mkListenerTLS {
  ltls_CertFile : string; ltls_KeyFile : string; ltls_ClientCAFile : string }.
Record Listener := mkListener { l_Address : string; l_TLS : option ListenerTLS }.

Record PrincipalSeed := mkPrincipalSeed {
  ps_Subject : string; ps_Groups : list string; ps_Scopes : list string; ps_Kind : string }.

Record Scopes := mkScopes { sc_MCP : string; sc_Admin : string; sc_UsersAdmin : string }.

Record Introspection := mkIntrospection {
  in_Enabled : bool; in_Interval : Duration; in_Endpoint : string;
  in_ClientID : string; in_ClientSecretRef : option SecretRef }.

Inductive BrokerMode := BrokerUnset | BrokerExchange | BrokerRefreshToken | BrokerNone.

Record Broker := mkBroker {
  br_Mode : BrokerMode; br_Options : gmap string any; br_TokenEndpoint : string;
  br_ClientID : string; br_ClientSecretRef : option SecretRef; br_CacheTTL : Duration }.

Record KeycloakAdmin := mkKeycloakAdmin {
  ka_BaseURL : string; ka_Realm : string; ka_ClientID : string;
  ka_ClientSecretRef : SecretRef; ka_AdminRole : string }.

Record Identity := mkIdentity {
  id_Type : string; id_Options : gmap string any; id_Provider : string;
  id_Issuer : string; id_Audience : string;
  id_Principal : option PrincipalSeed; id_AllowRemote : bool; id_StaticTokenEnv : string;
  id_Tokens : gmap string PrincipalSeed; id_JWKSURL : string; id_GroupsClaim : string;
  id_UsernameClaim : string; id_Scopes : Scopes; id_Introspection : Introspection;
  id_Broker : Broker; id_KeycloakAdmin : option KeycloakAdmin }.

Inductive RuntimeKind := RuntimeUnset | RuntimeLocal | RuntimeKube.

Record LocalRuntime := mkLocalRuntime {
  lr_Mode : string; lr_WrapperBinary : string; lr_Network : string; lr_PortRange : string }.
Record Runtime := mkRuntime { rt_Kind : RuntimeKind; rt_Local : option LocalRuntime }.

Record Listeners := mkListeners { ls_Data : Listener; ls_Admin : Listener; ls_Metrics : Listener }.

Record Caps := mkCaps { cap_PodsPerUser : Z; cap_TotalPods : Z }.

Record ToolsOpts := mkToolsOpts {
  to_DefaultLoading : string; to_LazyForClients : list string;
  to_LazyForGroups : list string; to_NamespaceSeparator : string }.

Record Routing := mkRouting { ro_Type : string; ro_Options : gmap string any }.

Record UserSecretsGateway := mkUserSecretsGateway {
  usg_Store : Routing; usg_VaultKeyHeader : string;
  usg_SecretHeaderPrefix : string; usg_SealedHeaderPrefix : string }.

Record Redis := mkRedis {
  rd_Address : string; rd_PasswordRef : option SecretRef; rd_DB : Z;
  rd_KeyPrefix : string; rd_TLS : bool }.

Record Audit := mkAudit {
  au_Sink : string; au_Options : gmap string any; au_File : string; au_RedactArguments : list string }.

Record Telemetry := mkTelemetry {
  te_OTLPEndpoint : string; te_ServiceName : string; te_SampleRatio : Z * positive }.

Record Gateway := mkGateway {
  g_PublicURL : string; g_Listeners : Listeners; g_AllowInsecureAdmin : bool;
  g_Runtime : Runtime; g_ColdStartBudget : Duration; g_IdleTimeout : Duration;
  g_MaxSessionAge : Duration; g_MaxBodyBytes : Z; g_Caps : Caps; g_Tools : ToolsOpts;
  g_Routing : Routing; g_UserSecrets : UserSecretsGateway; g_Redis : option Redis;
  g_Audit : Audit; g_Telemetry : Telemetry }.

Inductive EgressEnforcer := EgressUnset | EgressCilium | EgressProxy | EgressNone.

Record MTLS := mkMTLS {
  mt_CertFile : string; mt_KeyFile : string; mt_CAFile : string;
  mt_CASecretName : string; mt_GatewaySecretName : string; mt_TrustDomain : string }.

Record ProxyNetwork := mkProxyNetwork { pn_Address : string }.

Record Cosign := mkCosign { co_Enabled : bool; co_PublicKeyRef : option SecretRef }.
Record ImagePolicy := mkImagePolicy { ip_RequireDigest : option bool; ip_Cosign : Cosign }.

Record Network := mkNetwork {
  n_SessionsNamespace : string; n_NamespacePerGroup : bool; n_EgressEnforcer : EgressEnforcer;
  n_Proxy : option ProxyNetwork; n_PodAuth : string; n_MTLS : option MTLS;
  n_GatewayPodSelector : option (gmap string string); n_DenyCIDRs : option (list string);
  n_APIServerCIDR : string; n_ImagePolicy : ImagePolicy; n_AllowInsecure : bool }.

Inductive Transport := TransportStdio | TransportStreamableHTTP | TransportSSE.

Record HTTPServer := mkHTTPServer { h_Port : Z; h_Path : string; h_SSEPath : string }.

Record RestartPolicy := mkRestartPolicy {
  rp_MaxRestarts : Z; rp_Window : Duration; rp_BackoffMax : Duration }.

Record Wrapper := mkWrapper {
  w_Restart : RestartPolicy; w_StartupTimeout : Duration; w_LogRedaction : option bool;
  w_Port : Z; w_ReadinessPort : Z }.

Inductive TokenMode := TokenEnv | TokenFile | TokenHeader | TokenStatic | TokenNone.

Record Token := mkToken {
  t_Mode : TokenMode; t_Audience : string; t_Scopes : list string; t_Env : string;
  t_File : string; t_Header : string; t_Scheme : string; t_StaticRef : option SecretRef }.

Record UserSecretItem := mkUserSecretItem {
  us_Name : string; us_Env : string; us_Header : string; us_File : string; us_Required : bool }.
Record UserSecrets := mkUserSecrets { us_Sources : list string; us_Items : list UserSecretItem }.

Record Egress := mkEgress { e_Host : string; e_Ports : list Z; e_Protocol : string }.

Record ResourceList := mkResourceList {
  rl_CPU : string; rl_Memory : string; rl_EphemeralStorage : string }.
Record Resources := mkResources { res_Requests : ResourceList; res_Limits : ResourceList }.

Record Security := mkSecurity {
  se_WritableTmp : bool; se_RunAsUser : Z; se_RunAsGroup : Z;
  se_ReadOnlyRootFilesystem : option bool; se_ExtraWritablePaths : list string }.

Record Expose := mkExpose { ex_Mode : string; ex_Names : list string }.
Record ToolExposure := mkToolExposure {
  te_Expose : option Expose; te_Prefix : string; te_Rename : gmap string string;
  te_Groups : gmap string (list string) }.

Record Server := mkServer {
  s_Name : string; s_Description : string; s_Image : string; s_Transport : Transport;
  s_Command : list string; s_Args : list string; s_Env : gmap string string;
  s_EnvFrom : list SecretRef; s_HTTP : option HTTPServer; s_Wrapper : Wrapper;
  s_Token : Token; s_UserSecrets : option UserSecrets; s_Egress : list Egress;
  s_Resources : Resources; s_RuntimeClassName : string; s_IdleTimeout : Duration;
  s_MaxSessionAge : Duration; s_MaxPods : Z; s_Security : Security; s_Tools : ToolExposure }.

Record GroupTools := mkGroupTools { gt_Loading : string }.
Record Group := mkGroup {
  gr_Name : string; gr_ServerTypes : list string; gr_PodsPerUser : Z; gr_Admin : bool;
  gr_Tools : option GroupTools }.

Record Authorization := mkAuthorization {
  az_Type : string; az_Options : gmap string any; az_Groups : list Group }.

Record Config := mkConfig {
  c_APIVersion : string; c_Kind : string; c_Identity : Identity; c_Gateway : Gateway;
  c_Network : Network; c_Servers : list Server; c_Authorization : Authorization }.

#[export] Instance BrokerMode_eq_dec : EqDecision BrokerMode.
Proof. solve_decision. Defined.
#[export] Instance RuntimeKind_eq_dec : EqDecision RuntimeKind.
Proof. solve_decision. Defined.
#[export] Instance EgressEnforcer_eq_dec : EqDecision EgressEnforcer.
Proof. solve_decision. Defined.
#[export] Instance Transport_eq_dec : EqDecision Transport.
Proof. solve_decision. Defined.
#[export] Instance TokenMode_eq_dec : EqDecision TokenMode.
Proof. solve_decision. Defined.

(** [func (c *Config) Server(name string) *Server] *)
Definition Config_Server (c : Config) (name : string) : option Server :=
  List.find (λ s, String.eqb (s_Name s) name) (c_Servers c).

(** [func (c *Config) ServerNames() []string] *)
Definition ServerNames (c : Config) : list string := s_Name <$> c_Servers c.

(** [func (c *Config) hasGroup(name string) bool] *)
Definition hasGroup (c : Config) (name : string) : bool :=
  existsb (λ g, String.eqb (gr_Name g) name) (az_Groups (c_Authorization c)).

(** [func (d Duration) Or(def time.Duration) time.Duration] *)
Definition Duration_Or (d def : Duration) : Duration := if d =? 0 then def else d.

(** ** secretref.go *)

(** [func (r *SecretRef) IsSet() bool] (a nil reference is not set). *)
Definition SecretRef_IsSet (r : option SecretRef) : bool :=
  match r with
  | None => false
  | Some r => negb (String.eqb (sr_Env r) "") || negb (String.eqb (sr_File r) "")
  end.

(** [func (r *SecretRef) Resolve() (string, error)]: the process environment and
    the filesystem are arguments. *)
Definition SecretRef_Resolve (lookupEnv readFile : string → option string)
    (r : option SecretRef) : result string :=
  match r with
  | None => Ok ""
  | Some r =>
      if negb (String.eqb (sr_Env r) "") then
        match lookupEnv (sr_Env r) with
        | Some v => Ok v
        | None => Err (EMsg "secret env is not set")
        end
      else if negb (String.eqb (sr_File r) "") then
        match readFile (sr_File r) with
        | Some b => Ok (TrimRight b (λ ch, Ascii.eqb ch "013" || Ascii.eqb ch "010")%char)
        | None => Err (EMsg "secret file")
        end
      else Err (EMsg "empty secret reference")
  end.

(** ** load.go: ApplyDefaults *)

Definition or_str (s def : string) : string := if String.eqb s "" then def else s.
Definition or_int (n def : Z) : Z := if n =? 0 then def else n.
Definition or_ptr {A} (p : option A) (def : A) : option A :=
  match p with None => Some def | Some _ => p end.

Definition defaultSeed (s : PrincipalSeed) : PrincipalSeed :=
  mkPrincipalSeed (ps_Subject s) (ps_Groups s) (ps_Scopes s) (or_str (ps_Kind s) "user").

Definition defaultIdentity (id : Identity) : Identity :=
  let typ := or_str (id_Type id)
    (if in_Enabled (id_Introspection id) then "bearer_introspect" else "bearer_jwt") in
  let principal :=
    if String.eqb typ "none"
    then or_ptr (id_Principal id)
           (mkPrincipalSeed "local" ["everyone"; "juggernaut-admins"] [] "")
    else id_Principal id in
  {| id_Type := typ;
     id_Options := id_Options id;
     id_Provider := or_str (id_Provider id) "generic";
     id_Issuer := id_Issuer id;
     id_Audience := id_Audience id;
     id_Principal := defaultSeed <$> principal;
     id_AllowRemote := id_AllowRemote id;
     id_StaticTokenEnv := or_str (id_StaticTokenEnv id) "JUGGERNAUT_TOKEN";
     id_Tokens := defaultSeed <$> id_Tokens id;
     id_JWKSURL := id_JWKSURL id;
     id_GroupsClaim := or_str (id_GroupsClaim id) "groups";
     id_UsernameClaim := or_str (id_UsernameClaim id) "preferred_username";
     id_Scopes :=
       mkScopes (or_str (sc_MCP (id_Scopes id)) "juggernaut:mcp")
                (or_str (sc_Admin (id_Scopes id)) "juggernaut:admin")
                (or_str (sc_UsersAdmin (id_Scopes id)) "juggernaut:users.admin");
     id_Introspection :=
       mkIntrospection (in_Enabled (id_Introspection id))
         (or_int (in_Interval (id_Introspection id)) (60 * Second))
         (in_Endpoint (id_Introspection id)) (in_ClientID (id_Introspection id))
         (in_ClientSecretRef (id_Introspection id));
     id_Broker :=
       mkBroker (match br_Mode (id_Broker id) with BrokerUnset => BrokerNone | m => m end)
         (br_Options (id_Broker id)) (br_TokenEndpoint (id_Broker id))
         (br_ClientID (id_Broker id)) (br_ClientSecretRef (id_Broker id))
         (or_int (br_CacheTTL (id_Broker id)) (5 * Minute));
     id_KeycloakAdmin :=
       (λ k, mkKeycloakAdmin (ka_BaseURL k) (ka_Realm k) (ka_ClientID k)
               (ka_ClientSecretRef k) (or_str (ka_AdminRole k) "juggernaut-admin"))
         <$> id_KeycloakAdmin id |}.

Definition defaultListener (l : Listener) (addr : string) : Listener :=
  mkListener (or_str (l_Address l) addr) (l_TLS l).

Definition defaultRuntime (r : Runtime) : Runtime :=
  let kind := match rt_Kind r with RuntimeUnset => RuntimeKube | k => k end in
  match kind with
  | RuntimeLocal =>
      let l := default (mkLocalRuntime "" "" "" "") (rt_Local r) in
      mkRuntime kind
        (Some (mkLocalRuntime (or_str (lr_Mode l) "docker")
                 (or_str (lr_WrapperBinary l) "juggernaut-wrapper")
                 (or_str (lr_Network l) "juggernaut")
                 (or_str (lr_PortRange l) "39000-39999")))
  | _ => mkRuntime kind (rt_Local r)
  end.

Definition defaultGateway (g : Gateway) : Gateway :=
  let redis := (λ r, mkRedis (rd_Address r) (rd_PasswordRef r) (rd_DB r)
                       (or_str (rd_KeyPrefix r) "jg:") (rd_TLS r)) <$> g_Redis g in
  let routingType := or_str (ro_Type (g_Routing g))
    (match g_Redis g with Some _ => "redis" | None => "memory" end) in
  let us := g_UserSecrets g in
  {| g_PublicURL := g_PublicURL g;
     g_Listeners :=
       mkListeners (defaultListener (ls_Data (g_Listeners g)) ":8080")
                   (defaultListener (ls_Admin (g_Listeners g)) "127.0.0.1:24680")
                   (defaultListener (ls_Metrics (g_Listeners g)) ":9090");
     g_AllowInsecureAdmin := g_AllowInsecureAdmin g;
     g_Runtime := defaultRuntime (g_Runtime g);
     g_ColdStartBudget := or_int (g_ColdStartBudget g) (60 * Second);
     g_IdleTimeout := or_int (g_IdleTimeout g) (15 * Minute);
     g_MaxSessionAge := or_int (g_MaxSessionAge g) (12 * Hour);
     g_MaxBodyBytes := or_int (g_MaxBodyBytes g) (Z.shiftl 4 20);
     g_Caps := mkCaps (or_int (cap_PodsPerUser (g_Caps g)) 5)
                      (or_int (cap_TotalPods (g_Caps g)) 2000);
     g_Tools := mkToolsOpts (or_str (to_DefaultLoading (g_Tools g)) "eager")
                  (to_LazyForClients (g_Tools g)) (to_LazyForGroups (g_Tools g))
                  (or_str (to_NamespaceSeparator (g_Tools g)) "__");
     g_Routing := mkRouting routingType (ro_Options (g_Routing g));
     g_UserSecrets :=
       mkUserSecretsGateway
         (mkRouting (or_str (ro_Type (usg_Store us)) routingType) (ro_Options (usg_Store us)))
         (or_str (usg_VaultKeyHeader us) "X-Juggernaut-Vault-Key")
         (or_str (usg_SecretHeaderPrefix us) "X-Juggernaut-Secret-")
         (or_str (usg_SealedHeaderPrefix us) "X-Juggernaut-Sealed-Secrets-");
     g_Redis := redis;
     g_Audit := mkAudit (or_str (au_Sink (g_Audit g)) "stdout") (au_Options (g_Audit g))
                  (au_File (g_Audit g)) (au_RedactArguments (g_Audit g));
     g_Telemetry := mkTelemetry (te_OTLPEndpoint (g_Telemetry g))
                      (or_str (te_ServiceName (g_Telemetry g)) "juggernaut-gateway")
                      (te_SampleRatio (g_Telemetry g)) |}.

Definition defaultMTLS (m : MTLS) : MTLS :=
  mkMTLS (or_str (mt_CertFile m) "/etc/juggernaut/tls/tls.crt")
         (or_str (mt_KeyFile m) "/etc/juggernaut/tls/tls.key")
         (or_str (mt_CAFile m) "/etc/juggernaut/tls/ca.crt")
         (or_str (mt_CASecretName m) "juggernaut-pod-ca")
         (or_str (mt_GatewaySecretName m) "juggernaut-gateway-client-tls")
         (or_str (mt_TrustDomain m) "juggernaut").

Definition defaultNetwork (n : Network) : Network :=
  let podAuth := or_str (n_PodAuth n) "shared-secret" in
  {| n_SessionsNamespace := or_str (n_SessionsNamespace n) "juggernaut-sessions";
     n_NamespacePerGroup := n_NamespacePerGroup n;
     n_EgressEnforcer := match n_EgressEnforcer n with EgressUnset => EgressCilium | e => e end;
     n_Proxy := n_Proxy n;
     n_PodAuth := podAuth;
     n_MTLS := if String.eqb podAuth "mtls"
               then Some (defaultMTLS (default (mkMTLS "" "" "" "" "" "") (n_MTLS n)))
               else n_MTLS n;
     n_GatewayPodSelector :=
       or_ptr (n_GatewayPodSelector n) {["app.kubernetes.io/name" := "juggernaut-gateway"]};
     n_DenyCIDRs := or_ptr (n_DenyCIDRs n) ["169.254.169.254/32"; "169.254.0.0/16"; "fd00::/8"];
     n_APIServerCIDR := n_APIServerCIDR n;
     n_ImagePolicy := mkImagePolicy (or_ptr (ip_RequireDigest (n_ImagePolicy n)) true)
                        (ip_Cosign (n_ImagePolicy n));
     n_AllowInsecure := n_AllowInsecure n |}.

Definition defaultHTTP (s : Server) : option HTTPServer :=
  let http := match s_HTTP s with
              | None => if bool_decide (s_Transport s = TransportStdio) then None
                        else Some (mkHTTPServer 0 "" "")
              | h => h
              end in
  (λ h, mkHTTPServer (or_int (h_Port h) 8081) (or_str (h_Path h) "/mcp")
          (or_str (h_SSEPath h) "/sse")) <$> http.

Definition defaultWrapper (w : Wrapper) : Wrapper :=
  {| w_Restart := mkRestartPolicy (or_int (rp_MaxRestarts (w_Restart w)) 5)
                    (or_int (rp_Window (w_Restart w)) (10 * Minute))
                    (or_int (rp_BackoffMax (w_Restart w)) (30 * Second));
     w_StartupTimeout := or_int (w_StartupTimeout w) (20 * Second);
     w_LogRedaction := or_ptr (w_LogRedaction w) true;
     w_Port := or_int (w_Port w) 9000;
     w_ReadinessPort := or_int (w_ReadinessPort w) 9001 |}.

Definition defaultToken (t : Token) : Token :=
  mkToken (t_Mode t) (t_Audience t) (t_Scopes t) (t_Env t)
    (or_str (t_File t) "/run/juggernaut/token") (or_str (t_Header t) "Authorization")
    (or_str (t_Scheme t) "Bearer") (t_StaticRef t).

Definition defaultEgress (e : Egress) : Egress :=
  mkEgress (e_Host e) (match e_Ports e with [] => [443] | p => p end)
    (or_str (e_Protocol e) "TCP").

Definition defaultUserSecrets (u : UserSecrets) : UserSecrets :=
  mkUserSecrets (match us_Sources u with [] => ["header"; "store"; "sealed"] | l => l end)
    (us_Items u).

Definition defaultServer (s : Server) : Server :=
  {| s_Name := s_Name s; s_Description := s_Description s; s_Image := s_Image s;
     s_Transport := s_Transport s; s_Command := s_Command s; s_Args := s_Args s;
     s_Env := s_Env s; s_EnvFrom := s_EnvFrom s;
     s_HTTP := defaultHTTP s;
     s_Wrapper := defaultWrapper (s_Wrapper s);
     s_Token := defaultToken (s_Token s);
     s_UserSecrets := defaultUserSecrets <$> s_UserSecrets s;
     s_Egress := defaultEgress <$> s_Egress s;
     s_Resources :=
       let rq := res_Requests (s_Resources s) in
       let lm := res_Limits (s_Resources s) in
       mkResources
         (mkResourceList (or_str (rl_CPU rq) "100m") (or_str (rl_Memory rq) "128Mi") (rl_EphemeralStorage rq))
         (mkResourceList (or_str (rl_CPU lm) "500m") (or_str (rl_Memory lm) "512Mi") (rl_EphemeralStorage lm));
     s_RuntimeClassName := s_RuntimeClassName s;
     s_IdleTimeout := s_IdleTimeout s; s_MaxSessionAge := s_MaxSessionAge s;
     s_MaxPods := or_int (s_MaxPods s) 200;
     s_Security :=
       let x := s_Security s in
       mkSecurity (se_WritableTmp x) (or_int (se_RunAsUser x) 65532)
         (or_int (se_RunAsGroup x) 65532) (or_ptr (se_ReadOnlyRootFilesystem x) true)
         (se_ExtraWritablePaths x);
     s_Tools :=
       let t := s_Tools s in
       mkToolExposure (or_ptr (te_Expose t) (mkExpose "all" [])) (te_Prefix t) (te_Rename t) (te_Groups t) |}.

(** [func ApplyDefaults(c *Config)] *)
Definition ApplyDefaults (c : Config) : Config :=
  {| c_APIVersion := c_APIVersion c;
     c_Kind := c_Kind c;
     c_Identity := defaultIdentity (c_Identity c);
     c_Gateway := defaultGateway (c_Gateway c);
     c_Network := defaultNetwork (c_Network c);
     c_Servers := defaultServer <$> c_Servers c;
     c_Authorization :=
       mkAuthorization (or_str (az_Type (c_Authorization c)) "groups")
         (az_Options (c_Authorization c)) (az_Groups (c_Authorization c)) |}.

(** ** load.go: Validate *)

Definition label_char (c : ascii) : bool :=
  let n := Ascii.nat_of_ascii c in
  ((97 <=? n) && (n <=? 122) || (48 <=? n) && (n <=? 57) || (n =? 45))%nat.
Definition hex_char (c : ascii) : bool :=
  let n := Ascii.nat_of_ascii c in
  ((97 <=? n) && (n <=? 102) || (48 <=? n) && (n <=? 57))%nat.
Definition str_forallb (f : ascii → bool) (s : string) : bool :=
  forallb f (String.list_ascii_of_string s).

(** The host name pattern of load.go: an optional wildcard label, then at
    least two non-empty labels. *)
Definition fqdnRe (s : string) : bool :=
  let labels := SplitByte (TrimPrefix s "*.") "." in
  (2 <=? length labels)%nat &&
  forallb (λ l, negb (String.eqb l "") && str_forallb label_char l) labels.

(** The digest pattern: the text ends in [@sha256:] and 64 hex digits. *)
Definition digestRe (s : string) : bool :=
  let n := String.length s in
  (72 <=? n)%nat &&
  (let t := str_drop (n - 72) s in
   HasPrefix t "@sha256:" && str_forallb hex_char (str_drop 8 t)).

(** [func isLoopback(addr string) bool] *)
Definition isLoopback (addr : string) : bool :=
  let host := default addr (BeforeLast addr ":") in
  let host := Trim host (λ ch, Ascii.eqb ch "[" || Ascii.eqb ch "]")%char in
  String.eqb host "127.0.0.1" || String.eqb host "::1" || String.eqb host "localhost".

(** One constructor per message [Validate] can add. *)
Inductive verr :=
| VApiVersion | VKind | VAdminSameListener | VAdminNotLoopback | VColdStartBudget
| VRoutingMemory | VRoutingRedisMissing | VEgressNoneInsecure | VProxyAddress
| VIssuerAudience | VBrokerNeedsTokens | VStaticTokens | VKeycloakAdmin | VMtlsRuntime
| VIdentityOffLoopback | VSecretStoreMemory | VBrokerSecret
| VDuplicateServer (s : string) | VImageDigest (s : string) | VStdioCommand (s : string)
| VCommandAbsolute (s : string) | VTokenEnv (s : string) | VTokenHeaderStdio (s : string)
| VTokenStatic (s : string) | VTokenAudience (s : string) | VTokenBroker (s : string)
| VSecretNames (s : string) | VSecretDelivery (s n : string) | VSecretHeaderStdio (s n : string)
| VSecretSource (s src : string) | VEgressHost (s h : string) | VEgressEmpty (s : string)
| VExposeNames (s : string) | VToolGroup (s tool g : string) | VGroupServerType (g st : string).

Definition add_if (b : bool) (e : verr) : list verr := if b then [e] else [].

Definition is_none {A} (o : option A) : bool := match o with None => true | _ => false end.
Definition is_some {A} (o : option A) : bool := negb (is_none o).

(** The checks before the loop over servers. *)
Definition validateTop (c : Config) : list verr :=
  let g := c_Gateway c in
  let id := c_Identity c in
  let n := c_Network c in
  let ty := id_Type id in
  let local := String.eqb ty "none" || String.eqb ty "static" in
  add_if (negb (String.eqb (c_APIVersion c) APIVersion)) VApiVersion ++
  add_if (negb (String.eqb (c_Kind c) "Config")) VKind ++
  add_if (String.eqb (l_Address (ls_Data (g_Listeners g))) (l_Address (ls_Admin (g_Listeners g))))
    VAdminSameListener ++
  add_if (negb (isLoopback (l_Address (ls_Admin (g_Listeners g)))) &&
          is_none (l_TLS (ls_Admin (g_Listeners g))) && negb (g_AllowInsecureAdmin g))
    VAdminNotLoopback ++
  add_if (180 * Second <? g_ColdStartBudget g) VColdStartBudget ++
  add_if (bool_decide (rt_Kind (g_Runtime g) = RuntimeKube) &&
          String.eqb (ro_Type (g_Routing g)) "memory") VRoutingMemory ++
  add_if (String.eqb (ro_Type (g_Routing g)) "redis" && is_none (g_Redis g)) VRoutingRedisMissing ++
  add_if (bool_decide (n_EgressEnforcer n = EgressNone) && negb (n_AllowInsecure n))
    VEgressNoneInsecure ++
  add_if (bool_decide (n_EgressEnforcer n = EgressProxy) &&
          match n_Proxy n with None => true | Some p => String.eqb (pn_Address p) "" end)
    VProxyAddress ++
  (if String.eqb ty "bearer_jwt" || String.eqb ty "bearer_introspect" then
     add_if (String.eqb (id_Issuer id) "" || String.eqb (id_Audience id) "") VIssuerAudience
   else if local then
     add_if (bool_decide (br_Mode (id_Broker id) = BrokerExchange) ||
             bool_decide (br_Mode (id_Broker id) = BrokerRefreshToken)) VBrokerNeedsTokens ++
     add_if (String.eqb ty "static" && bool_decide (size (id_Tokens id) = 0%nat)) VStaticTokens ++
     add_if (is_some (id_KeycloakAdmin id)) VKeycloakAdmin
   else []) ++
  add_if (String.eqb (n_PodAuth n) "mtls" && negb (bool_decide (rt_Kind (g_Runtime g) = RuntimeKube)))
    VMtlsRuntime ++
  add_if (local && negb (isLoopback (l_Address (ls_Data (g_Listeners g)))) && negb (n_AllowInsecure n))
    VIdentityOffLoopback ++
  add_if (String.eqb (ro_Type (usg_Store (g_UserSecrets g))) "memory" &&
          bool_decide (rt_Kind (g_Runtime g) = RuntimeKube)) VSecretStoreMemory ++
  add_if (bool_decide (br_Mode (id_Broker id) = BrokerExchange) &&
          negb (SecretRef_IsSet (br_ClientSecretRef (id_Broker id)))) VBrokerSecret.

Definition validateToken (c : Config) (s : Server) : list verr :=
  let m := t_Mode (s_Token s) in
  let bm := br_Mode (id_Broker (c_Identity c)) in
  let name := s_Name s in
  match m with
  | TokenEnv => add_if (String.eqb (t_Env (s_Token s)) "") (VTokenEnv name)
  | TokenHeader => add_if (bool_decide (s_Transport s = TransportStdio)) (VTokenHeaderStdio name)
  | TokenStatic => add_if (negb (SecretRef_IsSet (t_StaticRef (s_Token s)))) (VTokenStatic name)
  | _ => []
  end ++
  add_if ((bool_decide (m = TokenEnv) || bool_decide (m = TokenFile) || bool_decide (m = TokenHeader)) &&
          bool_decide (bm = BrokerExchange) && String.eqb (t_Audience (s_Token s)) "")
    (VTokenAudience name) ++
  add_if (negb (bool_decide (m = TokenNone)) && negb (bool_decide (m = TokenStatic)) &&
          bool_decide (bm = BrokerNone)) (VTokenBroker name).

Fixpoint validateItems (s : Server) (seenNames : list string) (items : list UserSecretItem) : list verr :=
  match items with
  | [] => []
  | it :: items' =>
      let name := s_Name s in
      add_if (String.eqb (us_Name it) "" || contains seenNames (us_Name it)) (VSecretNames name) ++
      add_if (String.eqb (us_Env it) "" && String.eqb (us_Header it) "" && String.eqb (us_File it) "")
        (VSecretDelivery name (us_Name it)) ++
      add_if (negb (String.eqb (us_Header it) "") && bool_decide (s_Transport s = TransportStdio))
        (VSecretHeaderStdio name (us_Name it)) ++
      validateItems s (us_Name it :: seenNames) items'
  end.

Definition validateUserSecrets (s : Server) : list verr :=
  match s_UserSecrets s with
  | None => []
  | Some u =>
      validateItems s [] (us_Items u) ++
      (us_Sources u ≫= λ src,
         add_if (negb (String.eqb src "header") && negb (String.eqb src "store") &&
                 negb (String.eqb src "sealed")) (VSecretSource (s_Name s) src))
  end.

(** The body of the loop over [c.Servers]; [seen] is the map of earlier names and
    [requireDigest] the dereferenced [c.Network.ImagePolicy.RequireDigest]. *)
Definition validateServer (c : Config) (requireDigest : bool) (seen : list string) (s : Server) : list verr :=
  let name := s_Name s in
  add_if (contains seen name) (VDuplicateServer name) ++
  add_if (requireDigest && negb (digestRe (s_Image s))) (VImageDigest name) ++
  add_if (bool_decide (s_Transport s = TransportStdio) && bool_decide (s_Command s = []))
    (VStdioCommand name) ++
  match s_Command s with
  | cmd0 :: _ => add_if (negb (HasPrefix cmd0 "/")) (VCommandAbsolute name)
  | [] => []
  end ++
  validateToken c s ++
  validateUserSecrets s ++
  (s_Egress s ≫= λ e, add_if (negb (fqdnRe (e_Host e))) (VEgressHost name (e_Host e))) ++
  add_if (bool_decide (s_Egress s = []) &&
          negb (bool_decide (n_EgressEnforcer (c_Network c) = EgressNone))) (VEgressEmpty name) ++
  match te_Expose (s_Tools s) with
  | Some ex => add_if (negb (String.eqb (ex_Mode ex) "all") && bool_decide (ex_Names ex = []))
                 (VExposeNames name)
  | None => []
  end ++
  (map_to_list (te_Groups (s_Tools s)) ≫= λ tg,
     tg.2 ≫= λ g, add_if (negb (hasGroup c g)) (VToolGroup name tg.1 g)).

Fixpoint validateServers (c : Config) (requireDigest : bool) (seen : list string) (l : list Server) : list verr :=
  match l with
  | [] => []
  | s :: l' => validateServer c requireDigest seen s ++
               validateServers c requireDigest (s_Name s :: seen) l'
  end.

Definition validateGroups (c : Config) : list verr :=
  az_Groups (c_Authorization c) ≫= λ g,
    gr_ServerTypes g ≫= λ st,
      if String.eqb st "*" then []
      else add_if (negb (contains (ServerNames c) st)) (VGroupServerType (gr_Name g) st).

(** [func Validate(c *Config) error]: the list of problems, [None] when the
    dereference of a nil [RequireDigest] panics. *)
Definition Validate (c : Config) : option (list verr) :=
  match ip_RequireDigest (n_ImagePolicy (c_Network c)), c_Servers c with
  | None, _ :: _ => None
  | rd, servers =>
      Some (validateTop c ++ validateServers c (default false rd) [] servers ++ validateGroups c)
  end.

(** ** load.go: Interpolate and Parse *)

Definition name_start (c : ascii) : bool :=
  let n := Ascii.nat_of_ascii c in
  ((65 <=? n) && (n <=? 90) || (97 <=? n) && (n <=? 122) || (n =? 95))%nat.
Definition name_char (c : ascii) : bool :=
  let n := Ascii.nat_of_ascii c in
  name_start c || ((48 <=? n) && (n <=? 57))%nat.

Fixpoint span (f : ascii → bool) (s : string) : string * string :=
  match s with
  | String c s' => if f c then let '(a, b) := span f s' in (String c a, b) else ("", s)
  | EmptyString => ("", "")
  end.

(** A match of the pattern [envRef] (a dollar sign, then a braced name with an
    optional default after a colon and a dash) at the start of [s]:
    the name, the default and what follows the match. *)
Definition envRef_at (s : string) : option (string * string * string) :=
  match s with
  | String "$" (String "{" (String c s1)) =>
      if name_start c then
        let '(nm, rest) := span name_char s1 in
        match rest with
        | String "}" tl => Some (String c nm, EmptyString, tl)
        | String ":" (String "-" s2) =>
            let '(def, rest2) := span (λ d, negb (Ascii.eqb d "}")) s2 in
            match rest2 with
            | String "}" tl => Some (String c nm, def, tl)
            | _ => None
            end
        | _ => None
        end
      else None
  | _ => None
  end%char.

(** [func Interpolate(raw []byte, lookup ...) []byte]; the length of [raw] bounds
    the number of steps since each consumes at least one byte. *)
Fixpoint InterpolateGo (fuel : nat) (lookup : string → option string) (s : string) : string :=
  match fuel with
  | 0%nat => s
  | S fuel' =>
      match envRef_at s with
      | Some (nm, def, tl) => default def (lookup nm) +:+ InterpolateGo fuel' lookup tl
      | None =>
          match s with
          | EmptyString => EmptyString
          | String c s' => String c (InterpolateGo fuel' lookup s')
          end
      end
  end.
Definition Interpolate (raw : string) (lookup : string → option string) : string :=
  InterpolateGo (String.length raw) lookup raw.

(** [type Loaded struct] *)
Record Loaded := mkLoaded { ld_Config : Config; ld_Hash : string; ld_Path : string }.

(** [func Parse(raw []byte) Loaded, error]: [decode] stands for the YAML
    conversion, the JSON Schema validation and the strict JSON decoding. *)
Definition Parse (decode : string → result Config) (lookup : string → option string)
    (raw : string) : result Loaded :=
  let raw := Interpolate raw lookup in
  c ← decode raw;
  let c := ApplyDefaults c in
  match Validate c with
  | Some [] => Ok (mkLoaded c (hex_EncodeToString (take 8 (Sum256 (string_bytes raw)))) "")
  | _ => Err (EMsg "invalid configuration")
  end.

(** [func LoadFile(path string) Loaded, error] *)
Definition LoadFile (decode : string → result Config) (lookup readFile : string → option string)
    (path : string) : result Loaded :=
  match readFile path with
  | None => Err (EMsg "read")
  | Some raw =>
      match Parse decode lookup raw with
      | Ok l => Ok (mkLoaded (ld_Config l) (ld_Hash l) path)
      | Err e => Err (EWrap path e)
      end
  end.

(** ** watch.go: the live configuration *)

(** [type Store struct]: [st_notified] is the sequence of configurations the
    [OnReload] callbacks were called with, newest first. *)
Record Store := mkStore {
  st_cur : Loaded; st_path : string; st_reloadErr : Z; st_notified : list Loaded }.

(** [func NewStoreFrom] *)
Definition NewStoreFrom (l : Loaded) : Store := mkStore l (ld_Path l) 0 [].
(** [func NewStore] *)
Definition NewStore (load : string → result Loaded) (path : string) : result Store :=
  l ← load path; Ok (mkStore l path 0 []).
(** [func (s *Store) Get() *Loaded] *)
Definition Store_Get (s : Store) : Loaded := st_cur s.

(** [func (s *Store) reload()] with the outcome of [LoadFile]. *)
Definition reload (r : result Loaded) (s : Store) : Store :=
  match r with
  | Err _ => mkStore (st_cur s) (st_path s) (st_reloadErr s + 1) (st_notified s)
  | Ok l =>
      if String.eqb (ld_Hash (st_cur s)) (ld_Hash l) then s
      else mkStore l (st_path s) (st_reloadErr s) (l :: st_notified s)
  end.

(** ** Lookup *)

Lemma Config_Server_Some c name s :
  Config_Server c name = Some s → s ∈ c_Servers c ∧ s_Name s = name.
Proof. intros [? ?]%find_some_elem. bprop. done. Qed.

Lemma Config_Server_is_Some c name :
  is_Some (Config_Server c name) ↔ name ∈ ServerNames c.
Proof.
  unfold ServerNames. rewrite list_elem_of_fmap. split.
  - intros [s [Hin Hn]%Config_Server_Some]. eauto.
  - intros (s & -> & Hin). destruct (Config_Server c (s_Name s)) eqn:E; [done|].
    eapply find_none_elem in E; [|done]. by rewrite String.eqb_refl in E.
Qed.

(** ** ApplyDefaults *)

Lemma or_str_idem s d : d ≠ "" → or_str (or_str s d) d = or_str s d.
Proof. intros Hd. unfold or_str. cases. Qed.
Lemma or_str_absorb s d d' : d ≠ "" → or_str (or_str s d) d' = or_str s d.
Proof. intros Hd. unfold or_str. cases. Qed.
Lemma or_str_nonempty s d : d ≠ "" → or_str s d ≠ "".
Proof. unfold or_str. cases. Qed.
Lemma or_int_absorb n d d' : d ≠ 0 → or_int (or_int n d) d' = or_int n d.
Proof. intros Hd. unfold or_int. cases. Qed.
Lemma or_ptr_absorb {A} (p : option A) d d' : or_ptr (or_ptr p d) d' = or_ptr p d.
Proof. by destruct p. Qed.

Ltac defaults :=
  repeat first [ rewrite or_str_absorb by done | rewrite or_int_absorb by done
               | rewrite or_ptr_absorb ].

Lemma defaultSeed_idem s : defaultSeed (defaultSeed s) = defaultSeed s.
Proof. unfold defaultSeed; simpl. by defaults. Qed.

Lemma fmap_idem {A} (f : A → A) (o : option A) : (∀ x, f (f x) = f x) → f <$> (f <$> o) = f <$> o.
Proof. intros H. destruct o; simpl; by rewrite ?H. Qed.

Lemma defaultIdentity_idem id : defaultIdentity (defaultIdentity id) = defaultIdentity id.
Proof.
  unfold defaultIdentity; simpl.
  rewrite !(or_str_absorb (id_Type id)) by (case_match; done). f_equal; simpl; defaults; try done.
  - destruct (String.eqb _ "none"); [destruct (id_Principal id)|destruct (id_Principal id)]; simpl;
      by rewrite ?defaultSeed_idem.
  - apply map_eq; intros k. rewrite !lookup_fmap. apply fmap_idem, defaultSeed_idem.
  - f_equal. by destruct (br_Mode (id_Broker id)).
  - apply fmap_idem. intros k. simpl. by defaults.
Qed.

Lemma defaultRuntime_idem r : defaultRuntime (defaultRuntime r) = defaultRuntime r.
Proof. unfold defaultRuntime. destruct (rt_Kind r) eqn:E; simpl; by defaults. Qed.

Lemma defaultGateway_idem g : defaultGateway (defaultGateway g) = defaultGateway g.
Proof.
  unfold defaultGateway; simpl. rewrite defaultRuntime_idem.
  rewrite !(or_str_absorb (ro_Type (g_Routing g))) by (case_match; done).
  rewrite !(or_str_absorb (ro_Type (usg_Store _))) by (apply or_str_nonempty; case_match; done).
  unfold defaultListener; simpl. defaults. f_equal.
  apply fmap_idem. intros r. simpl. by defaults.
Qed.

Lemma defaultNetwork_idem n : defaultNetwork (defaultNetwork n) = defaultNetwork n.
Proof.
  unfold defaultNetwork; simpl. defaults. f_equal.
  - by destruct (n_EgressEnforcer n).
  - case_match; [|done]. unfold defaultMTLS; simpl. by defaults.
Qed.

Lemma defaultServer_idem s : defaultServer (defaultServer s) = defaultServer s.
Proof.
  unfold defaultServer; simpl. f_equal; defaults; try done.
  - unfold defaultHTTP; simpl. destruct (s_HTTP s); simpl; [by defaults|].
    case_bool_decide; simpl; [done|by defaults].
  - unfold defaultWrapper; simpl. by defaults.
  - unfold defaultToken; simpl. by defaults.
  - apply fmap_idem. intros u. unfold defaultUserSecrets; simpl. f_equal. by destruct (us_Sources u).
  - rewrite <- list_fmap_compose. apply list_fmap_ext. intros _ e _. unfold defaultEgress; simpl.
    defaults. f_equal. by destruct (e_Ports e).
Qed.

(** Defaulting is idempotent: applying the documented defaults to an
    already defaulted configuration changes nothing, whatever fields the file
    set, so a hot reload of an unchanged file re-derives the same settings. *)
Theorem ApplyDefaults_idempotent c : ApplyDefaults (ApplyDefaults c) = ApplyDefaults c.
Proof.
  unfold ApplyDefaults; simpl.
  rewrite defaultIdentity_idem, defaultGateway_idem, defaultNetwork_idem. defaults. f_equal.
  rewrite <- list_fmap_compose. apply list_fmap_ext. intros _ s _. apply defaultServer_idem.
Qed.

(** ** Validate *)

Lemma add_if_nil b e : add_if b e = [] ↔ b = false.
Proof. destruct b; simpl; split; done. Qed.

Lemma bind_nil {A B} (l : list A) (f : A → list B) : l ≫= f = [] ↔ ∀ x, x ∈ l → f x = [].
Proof.
  induction l as [|x l IH]; cbn.
  - split; [|done]. intros _ x Hx. by apply not_elem_of_nil in Hx.
  - rewrite app_nil. fold (@mbind list _ A B f l). rewrite IH.
    setoid_rewrite elem_of_cons. naive_solver.
Qed.

(** Split a "no problem was added" hypothesis into the individual checks. *)
Ltac nils :=
  repeat match goal with
  | H : _ ++ _ = [] |- _ => apply app_nil in H; destruct H
  | H : add_if _ _ = [] |- _ => apply add_if_nil in H
  end.

Lemma validateServers_nil c rd seen l :
  validateServers c rd seen l = [] →
  NoDup (s_Name <$> l) ∧ (∀ s, s ∈ l → s_Name s ∉ seen) ∧
  (∀ s, s ∈ l → ∃ seen', validateServer c rd seen' s = []).
Proof.
  revert seen. induction l as [|s l IH]; intros seen; simpl.
  { intros _. split; [constructor|]. split; intros ? H; by apply not_elem_of_nil in H. }
  intros [Hs Hl]%app_nil. destruct (IH _ Hl) as (Hnd & Hseen & Hall).
  assert (s_Name s ∉ seen) as Hns.
  { unfold validateServer in Hs. nils. by apply contains_false. }
  split; [|split].
  - constructor; [|done]. rewrite list_elem_of_fmap. intros (s' & Heq & Hs'%Hseen).
    rewrite Heq in Hs'. set_solver.
  - intros s' [->|Hs']%elem_of_cons; [done|]. apply Hseen in Hs'. set_solver.
  - intros s' [->|Hs']%elem_of_cons; eauto.
Qed.

Lemma validateItems_nil s seen items :
  validateItems s seen items = [] →
  NoDup (us_Name <$> items) ∧ (∀ it, it ∈ items → us_Name it ≠ "" ∧ us_Name it ∉ seen).
Proof.
  revert seen. induction items as [|it items IH]; intros seen; simpl.
  { intros _. split; [constructor|]. intros ? H; by apply not_elem_of_nil in H. }
  intros [H [_ [_ Hl]%app_nil]%app_nil]%app_nil. nils. bprop.
  destruct (IH _ Hl) as [Hnd Hall]. apply contains_false in H0. split.
  - constructor; [|done]. rewrite list_elem_of_fmap. intros (it' & Heq & [_ Hn]%Hall).
    rewrite Heq in Hn. set_solver.
  - intros it' [->|Hit]%elem_of_cons; [done|]. apply Hall in Hit. set_solver.
Qed.

(** What an accepted server entry guarantees. *)
Record valid_server (c : Config) (s : Server) : Prop := {
  vs_digest : ip_RequireDigest (n_ImagePolicy (c_Network c)) = Some true → digestRe (s_Image s) = true;
  vs_command : s_Transport s = TransportStdio → ∃ cmd0 args, s_Command s = cmd0 :: args;
  vs_absolute : ∀ cmd0 args, s_Command s = cmd0 :: args → HasPrefix cmd0 "/" = true;
  vs_broker : t_Mode (s_Token s) ≠ TokenNone → t_Mode (s_Token s) ≠ TokenStatic →
              br_Mode (id_Broker (c_Identity c)) ≠ BrokerNone;
  vs_audience : br_Mode (id_Broker (c_Identity c)) = BrokerExchange →
                t_Mode (s_Token s) ≠ TokenNone → t_Mode (s_Token s) ≠ TokenStatic →
                t_Audience (s_Token s) ≠ "";
  vs_header : s_Transport s = TransportStdio → t_Mode (s_Token s) ≠ TokenHeader;
  vs_items : ∀ u, s_UserSecrets s = Some u →
             NoDup (us_Name <$> us_Items u) ∧ (∀ it, it ∈ us_Items u → us_Name it ≠ "");
  vs_hosts : ∀ e, e ∈ s_Egress s → fqdnRe (e_Host e) = true;
  vs_egress : n_EgressEnforcer (c_Network c) ≠ EgressNone → s_Egress s ≠ [];
  vs_toolgroups : ∀ tool gs g, te_Groups (s_Tools s) !! tool = Some gs → g ∈ gs → hasGroup c g = true }.

(** What an accepted configuration guarantees. *)
Record valid_config (c : Config) : Prop := {
  vc_names : NoDup (ServerNames c);
  vc_servers : ∀ s, s ∈ c_Servers c → valid_server c s;
  vc_groups : ∀ g st, g ∈ az_Groups (c_Authorization c) → st ∈ gr_ServerTypes g →
              st = "*" ∨ is_Some (Config_Server c st);
  vc_listeners : l_Address (ls_Data (g_Listeners (c_Gateway c))) ≠
                 l_Address (ls_Admin (g_Listeners (c_Gateway c)));
  vc_admin : isLoopback (l_Address (ls_Admin (g_Listeners (c_Gateway c)))) = true ∨
             is_Some (l_TLS (ls_Admin (g_Listeners (c_Gateway c)))) ∨
             g_AllowInsecureAdmin (c_Gateway c) = true;
  vc_budget : g_ColdStartBudget (c_Gateway c) ≤ 180 * Second;
  vc_local : id_Type (c_Identity c) = "none" ∨ id_Type (c_Identity c) = "static" →
             isLoopback (l_Address (ls_Data (g_Listeners (c_Gateway c)))) = true ∨
             n_AllowInsecure (c_Network c) = true;
  vc_open : n_EgressEnforcer (c_Network c) = EgressNone → n_AllowInsecure (c_Network c) = true;
  vc_shared : rt_Kind (g_Runtime (c_Gateway c)) = RuntimeKube →
              ro_Type (g_Routing (c_Gateway c)) ≠ "memory" }.

Lemma validateServer_sound c rd seen s :
  rd = default false (ip_RequireDigest (n_ImagePolicy (c_Network c))) →
  validateServer c rd seen s = [] → valid_server c s.
Proof.
  intros Hrd H. unfold validateServer in H.
  apply app_nil in H as [_ H]. apply app_nil in H as [Hdig H].
  apply app_nil in H as [Hcmd H]. apply app_nil in H as [Habs H].
  apply app_nil in H as [Htok H]. apply app_nil in H as [Hsec H].
  apply app_nil in H as [Hhost H]. apply app_nil in H as [Hegr H].
  apply app_nil in H as [_ Htg].
  unfold validateToken in Htok. apply app_nil in Htok as [Hmode Htok].
  apply app_nil in Htok as [Haud Hbrk]. nils.
  split; intros *.
  - intros E. rewrite E in Hrd. subst rd. simpl in *. by bprop.
  - intros E. destruct (s_Command s); [|eauto]. by rewrite !bool_decide_eq_true_2 in Hcmd.
  - intros E. rewrite E in Habs. nils. by bprop.
  - intros E1 E2 E3. rewrite E3 in Hbrk. by destruct (t_Mode (s_Token s)).
  - intros E1 E2 E3 E4. rewrite E1, E4 in Haud. by destruct (t_Mode (s_Token s)).
  - intros E1 E2. rewrite E2 in Hmode. nils. by bprop.
  - intros E. unfold validateUserSecrets in Hsec. rewrite E in Hsec.
    apply app_nil in Hsec as [Hsec _]. apply validateItems_nil in Hsec as [? Hall]. split; [done|]. by intros it [? ?]%Hall.
  - intros Hin. rewrite bind_nil in Hhost. apply Hhost in Hin. nils. by bprop.
  - intros E1 E2. rewrite E2 in Hegr. simpl in Hegr. by rewrite bool_decide_eq_false_2 in Hegr.
  - intros Hl Hg. rewrite bind_nil in Htg. specialize (Htg (tool, gs)).
    rewrite elem_of_map_to_list in Htg. specialize (Htg Hl). simpl in Htg.
    rewrite bind_nil in Htg. apply Htg in Hg. nils. by bprop.
Qed.

(** A configuration [Validate] accepts is well formed: unique server names,
    every image pinned by digest when required, absolute commands, a token
    broker for every server that takes a user token, valid egress hosts and no
    unrestricted egress unless explicitly insecure, groups that name existing
    server types, an admin listener that is loopback-bound, on TLS or
    explicitly insecure. *)
Theorem Validate_sound c : Validate c = Some [] → valid_config c.
Proof.
  unfold Validate. intros H.
  assert (validateTop c ++ validateServers c (default false (ip_RequireDigest (n_ImagePolicy (c_Network c))))
            [] (c_Servers c) ++ validateGroups c = []) as Hnil.
  { destruct (ip_RequireDigest _), (c_Servers c); congruence. }
  clear H. apply app_nil in Hnil as [Htop Hrest]. apply app_nil in Hrest as [Hsrv Hgrp].
  apply validateServers_nil in Hsrv as (Hnd & _ & Hall).
  unfold validateTop in Htop. nils. bprop.
  split; [done|..].
  - intros s Hs. apply Hall in Hs as [seen' Hs]. by eapply validateServer_sound.
  - intros g st Hg Hst. unfold validateGroups in Hgrp. rewrite bind_nil in Hgrp.
    specialize (Hgrp g Hg). rewrite bind_nil in Hgrp. specialize (Hgrp st Hst). simpl in Hgrp.
    destruct (String.eqb_spec st "*"); [by left|right]. nils. bprop.
    apply Config_Server_is_Some, contains_spec. done.
  - done.
  - destruct (isLoopback _); [by left|right]. destruct (l_TLS _); [left; by eexists|right].
    simpl in *. by bprop.
  - done.
  - intros [E|E]; rewrite E in *; simpl in *; bprop;
      destruct (isLoopback (l_Address (ls_Data _))); simpl in *; bprop; auto.
  - intros E. rewrite E in *. simpl in *. by bprop.
  - intros E1 E2. rewrite E1, E2 in *. done.
Qed.

Lemma Parse_sound decode lookup raw l :
  Parse decode lookup raw = Ok l → valid_config (ld_Config l).
Proof.
  unfold Parse. destruct (decode _) as [c|e]; simpl; [|done].
  destruct (Validate _) as [[|]|] eqn:E; [|done..]. intros [= <-]. by apply Validate_sound.
Qed.

(** ** The live store *)

(** The outcome of a sequence of file versions read by [reload]. *)
Definition reloads (decode : string → result Config) (lookup : string → option string)
    (raws : list string) (s : Store) : Store :=
  fold_left (λ s raw, reload (Parse decode lookup raw) s) raws s.

(** The hash of the last version that parses, or [h]. *)
Definition last_hash (decode : string → result Config) (lookup : string → option string)
    (raws : list string) (h : string) : string :=
  fold_left (λ h raw, match Parse decode lookup raw with Ok l => ld_Hash l | Err _ => h end) raws h.

Definition rejected (decode : string → result Config) (lookup : string → option string)
    (raws : list string) : nat :=
  length (filter (λ raw, is_ok (Parse decode lookup raw) = false) raws).

(** One reload. *)
Lemma reload_step decode lookup raw s :
  valid_config (ld_Config (st_cur s)) →
  Forall (λ l, valid_config (ld_Config l)) (st_notified s) →
  let r := Parse decode lookup raw in
  valid_config (ld_Config (st_cur (reload r s))) ∧
  ld_Hash (st_cur (reload r s)) = (match r with Ok l => ld_Hash l | Err _ => ld_Hash (st_cur s) end) ∧
  st_reloadErr (reload r s) = st_reloadErr s + (if is_ok r then 0 else 1) ∧
  Forall (λ l, valid_config (ld_Config l)) (st_notified (reload r s)).
Proof.
  intros Hcur Hnot r. unfold reload, r. destruct (Parse decode lookup raw) as [l|e] eqn:E; simpl.
  - apply Parse_sound in E. destruct (String.eqb_spec (ld_Hash (st_cur s)) (ld_Hash l)); simpl;
      split_and!; auto; lia.
  - split_and!; auto.
Qed.

(** C37. Hot reload never serves an invalid configuration: whatever sequence of
    file versions is read, the live configuration satisfies [valid_config], its
    hash is that of the last version that parsed (a rejected version keeps the
    previous one), the rejection counter counts exactly the rejected versions,
    and callbacks only ever see valid configurations. *)
Theorem reloads_valid decode lookup raws s :
  valid_config (ld_Config (st_cur s)) →
  Forall (λ l, valid_config (ld_Config l)) (st_notified s) →
  let s' := reloads decode lookup raws s in
  valid_config (ld_Config (Store_Get s')) ∧
  ld_Hash (Store_Get s') = last_hash decode lookup raws (ld_Hash (st_cur s)) ∧
  st_reloadErr s' = st_reloadErr s + Z.of_nat (rejected decode lookup raws) ∧
  Forall (λ l, valid_config (ld_Config l)) (st_notified s').
Proof.
  unfold reloads, last_hash, rejected, Store_Get. revert s.
  induction raws as [|raw raws IH]; intros s Hcur Hnot; simpl.
  { split_and!; [done..| |done]. symmetry. apply Z.add_0_r. }
  destruct (reload_step decode lookup raw s Hcur Hnot) as (H1 & H2 & H3 & H4).
  destruct (IH (reload (Parse decode lookup raw) s) H1 H4) as (I1 & I2 & I3 & I4).
  split_and!; [done|by rewrite <- H2| |done].
  rewrite I3, H3, filter_cons. destruct (Parse decode lookup raw); simpl; lia.
Qed.

(** ** A worked configuration

    The shape of examples/juggernaut.yaml: two server types, two groups, token
    exchange, Redis routing.  Used to instantiate theorems. *)
Definition sample_digest : string :=
  "@sha256:0123456789abcdef0123456789abcdef0123456789abcdef0123456789abcdef".

Definition sample_server (name : string) (mode : TokenMode) (us : option UserSecrets) : Server :=
  {| s_Name := name; s_Description := ""; s_Image := "ghcr.io/example/" +:+ name +:+ sample_digest;
     s_Transport := TransportStdio; s_Command := ["/server"]; s_Args := []; s_Env := ∅;
     s_EnvFrom := []; s_HTTP := None;
     s_Wrapper := mkWrapper (mkRestartPolicy 0 0 0) 0 None 0 0;
     s_Token := mkToken mode name [] "TOKEN" "" "" "" None;
     s_UserSecrets := us;
     s_Egress := [mkEgress ("api." +:+ name +:+ ".com") [] ""; mkEgress "*.example.net" [443; 8443] ""];
     s_Resources := mkResources (mkResourceList "" "" "") (mkResourceList "" "" "");
     s_RuntimeClassName := ""; s_IdleTimeout := 0; s_MaxSessionAge := 0; s_MaxPods := 0;
     s_Security := mkSecurity true 0 0 None [];
     s_Tools := mkToolExposure (Some (mkExpose "deny" ["delete_project"])) "" {["get" := "fetch"]}
                  {["admin_tool" := ["platform"]]} |}.

Definition sample_raw : Config :=
  {| c_APIVersion := APIVersion; c_Kind := "Config";
     c_Identity :=
       {| id_Type := ""; id_Options := ∅; id_Provider := "keycloak";
          id_Issuer := "https://idp.example.com/realms/jug"; id_Audience := "juggernaut";
          id_Principal := None; id_AllowRemote := false; id_StaticTokenEnv := "";
          id_Tokens := ∅; id_JWKSURL := ""; id_GroupsClaim := ""; id_UsernameClaim := "";
          id_Scopes := mkScopes "" "" ""; id_Introspection := mkIntrospection false 0 "" "" None;
          id_Broker := mkBroker BrokerExchange ∅ "" "gateway" (Some (mkSecretRef "BROKER_SECRET" "")) 0;
          id_KeycloakAdmin := None |};
     c_Gateway :=
       {| g_PublicURL := "https://jug.example.com";
          g_Listeners := mkListeners (mkListener "" None) (mkListener "" None) (mkListener "" None);
          g_AllowInsecureAdmin := false; g_Runtime := mkRuntime RuntimeUnset None;
          g_ColdStartBudget := 0; g_IdleTimeout := 0; g_MaxSessionAge := 0; g_MaxBodyBytes := 0;
          g_Caps := mkCaps 2 3; g_Tools := mkToolsOpts "" ["cursor"] [] "";
          g_Routing := mkRouting "" ∅;
          g_UserSecrets := mkUserSecretsGateway (mkRouting "" ∅) "" "" "";
          g_Redis := Some (mkRedis "redis:6379" None 0 "" false);
          g_Audit := mkAudit "" ∅ "" []; g_Telemetry := mkTelemetry "" "" (0, 1%positive) |};
     c_Network :=
       {| n_SessionsNamespace := ""; n_NamespacePerGroup := false; n_EgressEnforcer := EgressUnset;
          n_Proxy := None; n_PodAuth := ""; n_MTLS := None; n_GatewayPodSelector := None;
          n_DenyCIDRs := None; n_APIServerCIDR := ""; n_ImagePolicy := mkImagePolicy None (mkCosign false None);
          n_AllowInsecure := false |};
     c_Servers := [ sample_server "jira" TokenEnv
                      (Some (mkUserSecrets [] [mkUserSecretItem "JIRA_TOKEN" "JIRA_TOKEN" "" "" true;
                                               mkUserSecretItem "JIRA_URL" "JIRA_URL" "" "" false]));
                    sample_server "mcp-atlassian" TokenNone None ];
     c_Authorization :=
       mkAuthorization "" ∅
         [ mkGroup "eng" ["jira"] 0 false None; mkGroup "platform" ["*"] 4 true (Some (mkGroupTools "lazy")) ] |}.

Definition sample_config : Config := ApplyDefaults sample_raw.
Definition sample_loaded : Loaded := mkLoaded sample_config "cfg1" "juggernaut.yaml".

Lemma Validate_sound_witness : valid_config sample_config.
Proof. apply Validate_sound. vm_compute. reflexivity. Defined.

Lemma sample_config_valid : valid_config sample_config.
Proof.
  change (valid_config (ld_Config (mkLoaded sample_config "3bfc269594ef6492" ""))).
  apply (Parse_sound (λ _, Ok sample_raw) (λ _, None) "v1"). vm_compute. reflexivity.
Qed.

Lemma reloads_valid_witness :
  let dec raw := if String.eqb raw "bad" then Err (EMsg "yaml") else Ok sample_raw in
  st_reloadErr (reloads dec (λ _, None) ["bad"; "v2"; "bad"] (NewStoreFrom sample_loaded)) = 2.
Proof.
  intros dec. destruct (reloads_valid dec (λ _, None) ["bad"; "v2"; "bad"] (NewStoreFrom sample_loaded))
    as (_ & _ & H & _).
  - apply sample_config_valid.
  - constructor.
  - rewrite H. vm_compute. reflexivity.
Defined.
