(* ===== verification/Core.v ===== *)
(** * internal/core: principals, grants, identifiers, sealing and the registry

    context.go ([Options]), principal.go, ids.go, seal.go and
    core/registry/registry.go.  Randomness is an argument (the bytes
    [crypto/rand] returned); AES-GCM is the interface [AEAD]. *)

From S2P Require Import Prelude GoStd Sha256 Config.

Local Open Scope Z_scope.

(** ** context.go: adapter options *)

Notation Options := (gmap string any).

(** [func (o Options) String(key, def string) string] *)
Definition Options_String (o : Options) (key def : string) : string :=
  match o !! key with
  | Some (AString v) => if String.eqb v "" then def else v
  | _ => def
  end.

(** [func (o Options) Int(key string, def int) int]: a float64 is truncated. *)
Definition Options_Int (o : Options) (key : string) (def : Z) : Z :=
  match o !! key with
  | Some (AInt v) => v
  | Some (AFloat n d) => Z.quot n (Zpos d)
  | _ => def
  end.

(** [func (o Options) Bool(key string, def bool) bool] *)
Definition Options_Bool (o : Options) (key : string) (def : bool) : bool :=
  match o !! key with Some (ABool v) => v | _ => def end.

(** ** principal.go *)

(** [type Principal struct] *)
Record Principal := mkPrincipal {
  p_Subject : string; p_Username : string; p_Kind : string; p_DisplayName : string;
  p_Groups : list string; p_Scopes : list string; p_Issuer : string; p_Expiry : Z;
  p_RawToken : string; p_TokenHash : string }.

Definition HasScope (p : Principal) (s : string) : bool := contains (p_Scopes p) s.
Definition InGroup (p : Principal) (g : string) : bool := contains (p_Groups p) g.

(** [type Grants struct] *)
Record Grants := mkGrants {
  gr_Subject : string; gr_Types : list string; gr_IsAdmin : bool;
  gr_Pods : Z; gr_LazyTools : bool; gr_Groups : list string }.

Definition Allows (g : Grants) (serverType : string) : bool := contains (gr_Types g) serverType.
Definition Grants_InGroup (g : Grants) (name : string) : bool := contains (gr_Groups g) name.

(** [func sortedUnique(in []string) []string] *)
Definition sortedUnique (l : list string) : list string := sort_Strings (uniq_nonempty [] l).

(** [func NewGrants] *)
Definition NewGrants (subject : string) (serverTypes groups : list string) (admin : bool)
    (podsPerUser : Z) (lazy : bool) : Grants :=
  mkGrants subject (sortedUnique serverTypes) admin podsPerUser lazy (sortedUnique groups).

(** [type ToolRule struct] *)
Record ToolRule := mkToolRule { tr_Visible : bool; tr_Name : string }.

(** [func HasPrefixFold(s, prefix string) bool] *)
Definition HasPrefixFold (s prefix : string) : bool :=
  (String.length prefix <=? String.length s)%nat &&
  EqualFold (str_take (String.length prefix) s) prefix.

(** ** ids.go *)

Definition IDPrefix : string := "jg_".

(** [func NewMcpSessionID() string] on the 16 bytes read from crypto/rand. *)
Definition NewMcpSessionID (b : list Z) : string := IDPrefix +:+ ToLower (base32_EncodeToString b).

(** [func IsMcpSessionID(s string) bool] *)
Definition IsMcpSessionID (s : string) : bool :=
  HasPrefix s IDPrefix && (String.length s =? String.length IDPrefix + 26)%nat.

(** [func UserHash(subject string) string] *)
Definition UserHash (subject : string) : string :=
  hex_EncodeToString (take 4 (Sum256 (string_bytes subject))).

(** [type PodKey struct] *)
Record PodKey := mkPodKey { pk_Subject : string; pk_ServerType : string }.

#[export] Instance PodKey_eq_dec : EqDecision PodKey.
Proof. solve_decision. Defined.
#[export] Program Instance PodKey_countable : Countable PodKey :=
  inj_countable' (λ k, (pk_Subject k, pk_ServerType k)) (λ p, mkPodKey p.1 p.2) _.
Next Obligation. by intros []. Qed.

(** [func (k PodKey) Name() string] *)
Definition PodKey_Name (k : PodKey) : string := pk_ServerType k +:+ "-" +:+ UserHash (pk_Subject k).

(** ** seal.go *)

(** The bytes fed to the hash by [MAC] and by the vault's [aad]: every part
    followed by a zero byte. *)
Definition mac_input (parts : list string) : list Z :=
  parts ≫= λ p, string_bytes p ++ [0].

(** [func MAC(key []byte, parts ...string) []byte] *)
Definition MAC (key : list Z) (parts : list string) : list Z := hmac_sha256 key (mac_input parts).

(** [func MACEqual(a, b []byte) bool]; [None] is a nil slice. *)
Definition MACEqual (a b : option (list Z)) : bool :=
  match a, b with
  | None, None => true
  | _, _ => bool_decide (default [] a = default [] b)
  end.

(** AES-GCM (crypto/aes, crypto/cipher) as the code relies on it: a 16, 24 or
    32-byte key, a 12-byte nonce, and decryption of what was encrypted under the
    same key, nonce and additional data. *)
Class AEAD := {
  aead_seal : list Z → list Z → list Z → list Z → list Z;        (* key nonce plaintext aad *)
  aead_open : list Z → list Z → list Z → list Z → option (list Z); (* key nonce ciphertext aad *)
  aead_open_seal : ∀ key nonce pt aad, aead_open key nonce (aead_seal key nonce pt aad) aad = Some pt;
  aead_seal_bytes : ∀ key nonce pt aad, Forall is_byte (aead_seal key nonce pt aad) }.

Definition aead_NonceSize : nat := 12.
Definition aes_key_ok (key : list Z) : bool :=
  (length key =? 16)%nat || (length key =? 24)%nat || (length key =? 32)%nat.

Section Seal.
Context `{!AEAD}.

(** [func (a *AESGCM) Seal(plaintext string) (string, error)] with the nonce
    read from crypto/rand. *)
Definition AESGCM_Seal (key nonce : list Z) (plaintext : string) : string :=
  base64_EncodeToString (nonce ++ aead_seal key nonce (string_bytes plaintext) []).

(** [func (a *AESGCM) Open(ciphertext string) (string, error)] *)
Definition AESGCM_Open (key : list Z) (ciphertext : string) : result string :=
  match base64_DecodeString ciphertext with
  | None => Err (EMsg "illegal base64 data")
  | Some raw =>
      if (length raw <? aead_NonceSize)%nat then Err (EMsg "ciphertext too short")
      else match aead_open key (take aead_NonceSize raw) (drop aead_NonceSize raw) [] with
           | None => Err (EMsg "cipher: message authentication failed")
           | Some pt => Ok (bytes_string pt)
           end
  end.
End Seal.

(** ** registry.go *)

Section Registry.
(** [T] is the contract, [X] the type of [*core.Context]. *)
Context {T X : Type}.

(** [type Factory[T any] func(ctx *core.Context) (T, error)] *)
Definition Factory : Type := X → result T.

(** [type Registry[T any] struct] *)
Record Registry := mkRegistry { rg_kind : string; rg_fac : gmap string Factory }.

Definition Registry_New (kind : string) : Registry := mkRegistry kind ∅.

(** [func Register]: a name registered twice panics. *)
Definition Register (r : Registry) (typ : string) (f : Factory) : outcome Registry :=
  match rg_fac r !! typ with
  | Some _ => Panic
  | None => Done (mkRegistry (rg_kind r) (<[typ := f]> (rg_fac r)))
  end.

(** [func Types]: the registered names, sorted. *)
Definition Types (r : Registry) : list string := sort_Strings (map_to_list (rg_fac r)).*1.

(** [func Build]: a [LookupError] names the kind, the type and the known types. *)
Definition Build (r : Registry) (typ : string) (ctx : X) : result T :=
  match rg_fac r !! typ with
  | None => Err (EMsg ("no " +:+ rg_kind r +:+ " adapter of type " +:+ typ +:+ " (known: " +:+ Join (Types r) " " +:+ ")"))
  | Some f => f ctx
  end.
End Registry.
Arguments Registry : clear implicits.
Arguments Factory : clear implicits.

(** ** Lemmas *)

Lemma elem_of_sortedUnique l s : s ∈ sortedUnique l ↔ s ∈ l ∧ s ≠ "".
Proof.
  unfold sortedUnique. rewrite elem_of_sort_Strings, elem_of_uniq_nonempty.
  split; [naive_solver|]. intros [? ?]. split_and!; auto using not_elem_of_nil.
Qed.

Lemma NoDup_sortedUnique l : NoDup (sortedUnique l).
Proof. unfold sortedUnique. rewrite sort_Strings_perm. apply NoDup_uniq_nonempty. Qed.

Lemma sortedUnique_sorted l : StronglySorted String.le (sortedUnique l).
Proof. apply sort_Strings_sorted. Qed.

#[export] Hint Resolve NoDup_sortedUnique sortedUnique_sorted : jug.

(** *** Session ids *)

Lemma string_get_lower n s : String.get n (ToLower s) = lower_char <$> String.get n s.
Proof. revert n. induction s as [|c s IH]; intros [|n]; simpl; auto. Qed.

Lemma ToLower_encode_bits w alphabet bs :
  ToLower (encode_bits w alphabet bs) = encode_bits w (ToLower alphabet) bs.
Proof.
  unfold encode_bits. induction (groups w (bytes_bits bs)) as [|g gs IH]; [done|].
  simpl. rewrite IH. f_equal. unfold alphabet_char. rewrite string_get_lower.
  by destruct (String.get _ _).
Qed.

Lemma base32_lower_ok : alphabet_ok 5 (ToLower "ABCDEFGHIJKLMNOPQRSTUVWXYZ234567").
Proof.
  intros g Hg; do 5 (destruct g as [|[] g]; [done|..]); (destruct g; [|done]);
    (split; [eexists; split; vm_compute; reflexivity|vm_compute; reflexivity]).
Qed.

Lemma encode_bits_inj w alphabet bs bs' :
  (0 < w ≤ 8)%nat → alphabet_ok w alphabet → Forall is_byte bs → Forall is_byte bs' →
  encode_bits w alphabet bs = encode_bits w alphabet bs' → bs = bs'.
Proof.
  intros Hw Ha Hb Hb' H.
  destruct (concat_groups_go (length (bytes_bits bs)) w (bytes_bits bs)) as (k & Hk & Hc & Hf); [lia..|].
  destruct (concat_groups_go (length (bytes_bits bs')) w (bytes_bits bs')) as (k' & Hk' & Hc' & Hf'); [lia..|].
  destruct (decode_symbols_groups w alphabet _ Ha Hf) as [Hd _].
  destruct (decode_symbols_groups w alphabet _ Ha Hf') as [Hd' _].
  unfold encode_bits, groups in H. rewrite H, Hd', Hc, Hc' in Hd. injection Hd as Hd.
  rewrite <- (bits_bytes_bits bs k), <- Hd, bits_bytes_bits; [done|done|lia|done|lia].
Qed.

(** Every gateway-issued session id has the gateway's shape ([jg_] and 26
    characters, so the format check accepts it), and two different draws of the
    128 random bits give different ids: no entropy is lost in the encoding. *)
Theorem NewMcpSessionID_spec b :
  length b = 16%nat → Forall is_byte b →
  IsMcpSessionID (NewMcpSessionID b) = true ∧
  (∀ b', length b' = 16%nat → Forall is_byte b' → NewMcpSessionID b' = NewMcpSessionID b → b' = b).
Proof.
  intros Hl Hb. split.
  - unfold IsMcpSessionID, NewMcpSessionID. rewrite HasPrefix_app, str_length_app, ToLower_length.
    unfold base32_EncodeToString. rewrite length_encode_bits, Hl by lia. done.
  - intros b' Hl' Hb' H. apply str_app_inj_l in H. unfold base32_EncodeToString in H.
    rewrite !ToLower_encode_bits in H. eapply encode_bits_inj; eauto using base32_lower_ok. lia.
Qed.

Lemma NewMcpSessionID_spec_witness :
  IsMcpSessionID (NewMcpSessionID (replicate 16 255)) = true.
Proof.
  apply (proj1 (NewMcpSessionID_spec (replicate 16 255) eq_refl
    ltac:(apply Forall_replicate; unfold is_byte; lia))).
Defined.

(** *** Pod names *)

Lemma UserHash_length s : String.length (UserHash s) = 8%nat.
Proof. unfold UserHash. rewrite hex_length, length_take, length_Sum256. done. Qed.

(** A pod name determines the server type and the user hash. *)
Lemma PodKey_Name_inj k k' :
  PodKey_Name k = PodKey_Name k' →
  pk_ServerType k = pk_ServerType k' ∧ UserHash (pk_Subject k) = UserHash (pk_Subject k').
Proof.
  unfold PodKey_Name. intros H.
  apply str_app_inj_len_r in H as [H1 H2].
  - apply str_app_inj_l in H2. done.
  - rewrite !str_length_app, !UserHash_length. done.
Qed.

(** Two subjects with the same 32-bit hash: the pod names the code derives for
    them coincide. *)
Definition collide1 : string := "u58659".
Definition collide2 : string := "u67268".

Lemma UserHash_collision : collide1 ≠ collide2 ∧ UserHash collide1 = UserHash collide2.
Proof. split; [done|vm_compute; reflexivity]. Qed.

Lemma PodKey_Name_collision st :
  PodKey_Name (mkPodKey collide1 st) = PodKey_Name (mkPodKey collide2 st).
Proof. unfold PodKey_Name. simpl. by rewrite (proj2 UserHash_collision). Qed.

(** *** MAC inputs *)

Definition no_nul (s : string) : Prop := Forall (λ b, b ≠ 0) (string_bytes s).

Lemma string_bytes_inj s t : string_bytes s = string_bytes t → s = t.
Proof.
  unfold string_bytes. intros H. rewrite <- (String.string_of_list_ascii_of_string s),
    <- (String.string_of_list_ascii_of_string t). f_equal.
  eapply list_fmap_eq_inj; [|exact H]. intros a b Hab.
  rewrite <- (Ascii.ascii_N_embedding a), <- (Ascii.ascii_N_embedding b). f_equal. lia.
Qed.

Lemma string_bytes_is_byte s : Forall is_byte (string_bytes s).
Proof.
  unfold string_bytes. apply Forall_fmap, Forall_true. intros c.
  unfold is_byte; simpl. pose proof (Ascii.N_ascii_bounded c). lia.
Qed.

Lemma bytes_string_bytes s : bytes_string (string_bytes s) = s.
Proof.
  unfold bytes_string, string_bytes. rewrite <- list_fmap_compose.
  rewrite <- (String.string_of_list_ascii_of_string s) at 2. f_equal.
  rewrite <- (list_fmap_id (String.list_ascii_of_string s)) at 2.
  apply list_fmap_ext. intros _ c _. simpl. rewrite N2Z.id. apply Ascii.ascii_N_embedding.
Qed.

Lemma app_nul_inj (l1 l2 r1 r2 : list Z) :
  Forall (λ b, b ≠ 0) l1 → Forall (λ b, b ≠ 0) l2 →
  l1 ++ 0 :: r1 = l2 ++ 0 :: r2 → l1 = l2 ∧ r1 = r2.
Proof.
  revert l2. induction l1 as [|b l1 IH]; intros [|b2 l2] H1 H2 H; simplify_eq/=.
  - done.
  - by inversion H2.
  - by inversion H1.
  - inversion H1; inversion H2; subst. destruct (IH l2) as [-> ->]; auto.
Qed.

(** The parts a MAC or an AAD authenticates are recovered from its input: no two
    lists of NUL-free parts are authenticated by the same bytes. *)
Lemma mac_input_inj ps qs :
  Forall no_nul ps → Forall no_nul qs → mac_input ps = mac_input qs → ps = qs.
Proof.
  unfold mac_input. intros Hps. revert qs.
  induction Hps as [|p ps Hp Hps IH]; intros qs Hqs H;
    destruct Hqs as [|q qs Hq Hqs]; cbn in H; rewrite <- ?app_assoc in H; simpl in H.
  - done.
  - by destruct (string_bytes q).
  - by destruct (string_bytes p).
  - apply app_nul_inj in H as [Hpq H]; [|done..]. apply string_bytes_inj in Hpq as ->.
    f_equal. by apply IH.
Qed.

Lemma MACEqual_refl m : MACEqual m m = true.
Proof. destruct m; [|done]. simpl. by case_bool_decide. Qed.

(** *** Sealed pod tokens *)

Lemma AESGCM_roundtrip `{!AEAD} key nonce s :
  length nonce = aead_NonceSize → Forall is_byte nonce →
  AESGCM_Open key (AESGCM_Seal key nonce s) = Ok s.
Proof.
  intros Hl Hb. unfold AESGCM_Open, AESGCM_Seal.
  rewrite base64_std_roundtrip by (apply Forall_app; auto using aead_seal_bytes).
  rewrite length_app, Hl. unfold aead_NonceSize at 1 2. simpl.
  rewrite take_app_length' by done. rewrite drop_app_length' by done.
  by rewrite aead_open_seal, bytes_string_bytes.
Qed.
