(* ===== verification/Fixtures.v ===== *)
(** * Concrete instances of the external interfaces

    An executable AES-GCM stand-in, JSON codec and Redis server.  They satisfy
    the laws the development assumes of the real ones, which shows the
    assumptions are consistent, and let the witnesses evaluate. *)

From S2P Require Import Prelude GoStd Core.

(** A positive number as its binary digits, least significant first. *)
Fixpoint pos_bits (p : positive) : list bool :=
  match p with xH => [] | xO p => false :: pos_bits p | xI p => true :: pos_bits p end.
Fixpoint bits_pos (l : list bool) : positive :=
  match l with [] => xH | false :: l => xO (bits_pos l) | true :: l => xI (bits_pos l) end.

Lemma bits_pos_bits p : bits_pos (pos_bits p) = p.
Proof. induction p as [p IH|p IH|]; simpl; by rewrite ?IH. Qed.

(** Any countable type has a codec into strings. *)
Fixpoint bits_string (l : list bool) : string :=
  match l with [] => "" | b :: l => String (if b then "1" else "0")%char (bits_string l) end.
Fixpoint string_bits (s : string) : list bool :=
  match s with EmptyString => [] | String c s => Ascii.eqb c "1" :: string_bits s end.

Lemma string_bits_string l : string_bits (bits_string l) = l.
Proof. induction l as [|[] l IH]; simpl; by rewrite ?IH. Qed.

Program Definition countable_codec (A : Type) `{Countable A} : JSONCodec A := {|
  json_Marshal := λ a, bits_string (pos_bits (encode a));
  json_Unmarshal := λ s, match decode (bits_pos (string_bits s)) with
                         | Some a => Ok a
                         | None => Err (EMsg "invalid character")
                         end |}.
Next Obligation. intros. simpl. by rewrite string_bits_string, bits_pos_bits, decode_encode. Qed.

Lemma bits_of_Z (l : list bool) : (λ z, Z.eqb z 1) <$> ((λ b : bool, if b then 1 else 0)%Z <$> l) = l.
Proof. induction l as [|[] l IH]; csimpl; by rewrite ?IH. Qed.

(** A ciphertext is the plaintext with the key, nonce and additional data it was
    made under; opening it checks them. *)
Definition toy_seal (key nonce pt aad : list Z) : list Z :=
  (λ b : bool, if b then 1 else 0)%Z <$> pos_bits (encode (key, nonce, aad, pt)).
Definition toy_open (key nonce ct aad : list Z) : option (list Z) :=
  match decode (A:=list Z * list Z * list Z * list Z) (bits_pos ((λ z, Z.eqb z 1) <$> ct)) with
  | Some (k', n', a', pt) => if decide (k' = key ∧ n' = nonce ∧ a' = aad) then Some pt else None
  | None => None
  end.

Lemma toy_open_seal key nonce pt aad : toy_open key nonce (toy_seal key nonce pt aad) aad = Some pt.
Proof.
  unfold toy_open, toy_seal. rewrite bits_of_Z, bits_pos_bits, decode_encode.
  by rewrite decide_True.
Qed.

Lemma toy_open_wrong_aad key nonce pt aad aad' :
  aad' ≠ aad → toy_open key nonce (toy_seal key nonce pt aad) aad' = None.
Proof.
  intros Hne. unfold toy_open, toy_seal. rewrite bits_of_Z, bits_pos_bits, decode_encode.
  by rewrite decide_False by naive_solver.
Qed.

Lemma toy_seal_bytes key nonce pt aad : Forall is_byte (toy_seal key nonce pt aad).
Proof. apply Forall_fmap, Forall_true. intros []; simpl; unfold is_byte; lia. Qed.

#[export] Instance toy_aead : AEAD := {|
  aead_seal := toy_seal; aead_open := toy_open;
  aead_open_seal := toy_open_seal; aead_seal_bytes := toy_seal_bytes |}.
