(* ===== verification/Contracts.v ===== *)
(** * internal/core/contracts: the interfaces between components

    The data of routing.go, provision.go, identity.go, broker.go and
    sessions.go, and the contracts the gateway, router and controller are
    written against: [RoutingTable], [Provisioner], [TokenBroker] and
    [AccessPolicy] as type classes of state-passing operations.
    [RoutingTableLaws] states what a routing table promises its clients; the
    memory and redis adapters discharge it. *)

From S2P Require Import Prelude GoStd Config Core.

Local Open Scope Z_scope.

(** ** routing.go *)

(** [type Phase string] (also api/v1alpha1.Phase; [PhaseUnset] is the empty
    string of a Session status nobody wrote yet). *)
Inductive Phase :=
| PhaseUnset | PhasePending | PhaseStarting | PhaseReady | PhaseIdle
| PhaseTerminating | PhaseFailed | PhaseGone.

#[export] Instance Phase_eq_dec : EqDecision Phase.
Proof. solve_decision. Defined.

(** [type Pod struct] *)
Record Pod := mkPod {
  pod_Key : PodKey; pod_Name : string; pod_Endpoint : string; pod_Phase : Phase;
  pod_CreatedAt : Z; pod_ConfigHash : string; pod_PodToken : string }.

(** [type McpSession struct] *)
Record McpSession := mkMcpSession {
  ms_ID : string; ms_Subject : string; ms_ServerType : string; ms_PodName : string;
  ms_UpstreamSessionID : string; ms_ClientName : string; ms_ProtocolVersion : string;
  ms_Lazy : bool; ms_CreatedAt : Z }.

#[export] Instance Pod_eq_dec : EqDecision Pod.
Proof. solve_decision. Defined.
#[export] Instance McpSession_eq_dec : EqDecision McpSession.
Proof. solve_decision. Defined.

(** [type RoutingTable interface] *)
Class RoutingTable (T : Type) := {
  GetPod : PodKey → T → result Pod * T;
  PutPod : Pod → T → result () * T;
  DeletePod : PodKey → T → result () * T;
  ListPods : string → T → result (list Pod) * T;
  CountPods : string → string → T → result (Z * Z * Z) * T;
  GetSession : string → T → result McpSession * T;
  PutSession : McpSession → T → result () * T;
  DeleteSession : string → T → result () * T;
  DeleteSessionsForPod : string → T → result () * T;
  Touch : string → Z → T → result () * T;
  LastActive : string → T → result Z * T;
  InFlight : string → Z → T → result Z * T }.

(** A pod as the session manager writes it: named after its key, with a token. *)
Definition pod_wf (p : Pod) : Prop :=
  pod_Name p = PodKey_Name (pod_Key p) ∧ pod_PodToken p ≠ "".

(** What clients rely on.  [rt_ok] is the adapter's own invariant and
    [rt_avail] says that its store answers; writes may fail, the laws are about
    the ones that succeed.  Pods of different names do not interfere. *)
Class RoutingTableLaws (T : Type) `{!RoutingTable T} := {
  rt_ok : T → Prop;
  rt_avail : T → Prop;
  rt_ok_GetPod : ∀ k t, rt_ok t → rt_ok (GetPod k t).2;
  rt_ok_PutPod : ∀ p t, rt_ok t → pod_wf p → rt_ok (PutPod p t).2;
  rt_ok_DeletePod : ∀ k t, rt_ok t → rt_ok (DeletePod k t).2;
  (* a pod found under a key is a pod of that key *)
  rt_get_key : ∀ k t p t', rt_ok t → GetPod k t = (Ok p, t') → pod_Key p = k;
  (* read what was written *)
  rt_put_get : ∀ p t t', rt_ok t → pod_wf p → PutPod p t = (Ok (), t') → rt_avail t' →
    ∃ t'', GetPod (pod_Key p) t' = (Ok p, t'');
  (* a deleted pod is gone *)
  rt_delete_get : ∀ k t t', rt_ok t → DeletePod k t = (Ok (), t') → rt_avail t' →
    ∃ e t'', GetPod k t' = (Err e, t'') ∧ errors_Is e ErrNotFound = true;
  (* writes to one pod leave pods of other names alone *)
  rt_put_get_ne : ∀ p k t t', rt_ok t → pod_wf p → PodKey_Name k ≠ pod_Name p →
    PutPod p t = (Ok (), t') → rt_avail t → rt_avail t' →
    (GetPod k t').1 = (GetPod k t).1;
  (* sessions under gateway-issued ids *)
  rt_put_get_session : ∀ s t t', rt_ok t → IsMcpSessionID (ms_ID s) = true →
    PutSession s t = (Ok (), t') → rt_avail t' →
    ∃ t'', GetSession (ms_ID s) t' = (Ok s, t'') }.

(** ** provision.go *)

(** [type SpawnSpec struct] *)
Record SpawnSpec := mkSpawnSpec {
  sp_Key : PodKey; sp_Server : Server; sp_Network : Network; sp_ConfigHash : string;
  sp_PodToken : string }.

(** [type PodStatus struct] *)
Record PodStatus := mkPodStatus {
  pst_Name : string; pst_Phase : Phase; pst_Endpoint : string; pst_Message : string;
  pst_Started : Z }.

(** [type Provisioner interface]; the operations the gateway calls. *)
Class Provisioner (P : Type) := {
  Prov_Ensure : SpawnSpec → P → result PodStatus * P;
  Prov_Status : PodKey → P → result PodStatus * P;
  Prov_Release : PodKey → P → result () * P;
  Prov_Logs : PodKey → Z → P → result string }.

(** ** broker.go *)

(** [type Token struct] of the token broker. *)
Record BToken := mkBToken { tok_Value : string; tok_Expiry : Z; tok_Type : string }.

(** [type TokenBroker interface]; [TokenFor] takes the current time and returns
    [Ok None] when the server takes no user token. *)
Class TokenBroker (B : Type) := {
  TokenFor : Z → Principal → Server → Z → B → result (option BToken) * B;
  Revoke : string → B → result () * B }.

(** ** policy.go *)

(** [type AccessPolicy interface] at one configuration version. *)
Class AccessPolicy := {
  Policy_Grants : Principal → string → Grants;
  Policy_ToolRule : Grants → Server → string → ToolRule }.

(** ** identity.go *)

(** [http.Header]: values by canonical name; [Header_Get] is case-insensitive
    because the names are canonicalised on both sides. *)
Definition upper_char (c : ascii) : ascii :=
  let n := Ascii.nat_of_ascii c in
  if ((97 <=? n) && (n <=? 122))%nat then Ascii.ascii_of_nat (n - 32) else c.

Fixpoint canonical_go (upper : bool) (s : string) : string :=
  match s with
  | EmptyString => EmptyString
  | String c s' =>
      String (if upper then upper_char c else lower_char c) (canonical_go (Ascii.eqb c "-") s')
  end.
(** [http.CanonicalHeaderKey] on header-name bytes. *)
Definition CanonicalHeaderKey (s : string) : string := canonical_go true s.

Notation Header := (gmap string (list string)).

Definition Header_Get (h : Header) (k : string) : string :=
  match h !! CanonicalHeaderKey k with Some (v :: _) => v | _ => "" end.
Definition Header_Set (k v : string) (h : Header) : Header := <[CanonicalHeaderKey k := [v]]> h.
Definition Header_Del (k : string) (h : Header) : Header := delete (CanonicalHeaderKey k) h.
Definition Header_Add (k v : string) (h : Header) : Header :=
  <[CanonicalHeaderKey k := default [] (h !! CanonicalHeaderKey k) ++ [v]]> h.

(** [type RequestInfo struct] *)
Record RequestInfo := mkRequestInfo {
  ri_Header : Header; ri_Method : string; ri_Path : string; ri_RemoteAddr : string }.

(** [func (r RequestInfo) Bearer() (string, bool)] *)
Definition Bearer (r : RequestInfo) : string * bool :=
  let h := Header_Get (ri_Header r) "Authorization" in
  if (String.length h <? 8)%nat || negb (EqualFold (str_take 7 h) "bearer ") then ("", false)
  else let tok := TrimSpace (str_drop 7 h) in (tok, negb (String.eqb tok "")).

(** [type ChallengeReason string] *)
Inductive ChallengeReason := ChallengeMissing | ChallengeInvalidToken | ChallengeInsufficientScope.

(** [type IdentityProvider interface] at one moment (configuration, keys, clock). *)
Class IdentityProvider := {
  Resolve : RequestInfo → result Principal;
  Challenge : ChallengeReason → string → string → string }.

(** [type SessionView struct] of sessions.go (times as instants, not text). *)
Record SessionView := mkSessionView {
  sv_ID : string; sv_Adapter : string; sv_User : string; sv_Phase : Phase;
  sv_PodName : string; sv_CreatedAt : Z; sv_LastActiveAt : option Z; sv_InFlight : Z }.

(** ** Lemmas on headers *)

Lemma Header_Get_Set h k k' v :
  Header_Get (Header_Set k v h) k' =
  if decide (CanonicalHeaderKey k = CanonicalHeaderKey k') then v else Header_Get h k'.
Proof.
  unfold Header_Get, Header_Set. rewrite lookup_insert. by case_decide.
Qed.

Lemma Header_Get_Del h k k' :
  Header_Get (Header_Del k h) k' =
  if decide (CanonicalHeaderKey k = CanonicalHeaderKey k') then "" else Header_Get h k'.
Proof.
  unfold Header_Get, Header_Del. rewrite lookup_delete. by case_decide.
Qed.

Lemma upper_lower_char c : upper_char (lower_char c) = upper_char c ∧ lower_char (upper_char c) = lower_char c
  ∧ upper_char (upper_char c) = upper_char c
  ∧ Ascii.eqb (upper_char c) "-" = Ascii.eqb c "-" ∧ Ascii.eqb (lower_char c) "-" = Ascii.eqb c "-".
Proof. by destruct c as [[] [] [] [] [] [] [] []]. Qed.

Lemma canonical_go_idem b s : canonical_go b (canonical_go b s) = canonical_go b s.
Proof.
  revert b. induction s as [|c s IH]; intros b; [done|]. simpl.
  destruct (upper_lower_char c) as (H1 & H2 & H3 & H4 & H5).
  destruct b; rewrite ?H3, ?lower_char_idem, ?H4, ?H5; by rewrite IH.
Qed.

Lemma CanonicalHeaderKey_idem s : CanonicalHeaderKey (CanonicalHeaderKey s) = CanonicalHeaderKey s.
Proof. apply canonical_go_idem. Qed.

Lemma canonical_go_lower b s : ToLower (canonical_go b s) = ToLower s.
Proof.
  revert b. induction s as [|c s IH]; intros b; [done|]. simpl. rewrite IH. f_equal.
  destruct (upper_lower_char c) as (H1 & H2 & _). destruct b; auto using lower_char_idem.
Qed.

Lemma CanonicalHeaderKey_lower s : ToLower (CanonicalHeaderKey s) = ToLower s.
Proof. apply canonical_go_lower. Qed.

(** The canonical form depends on the name only up to case. *)
Lemma CanonicalHeaderKey_of_lower s : CanonicalHeaderKey (ToLower s) = CanonicalHeaderKey s.
Proof.
  unfold CanonicalHeaderKey. generalize true as b. induction s as [|c s IH]; intros b; [done|]. simpl.
  destruct (upper_lower_char c) as (H1 & _ & _ & _ & H5). rewrite H5, IH. f_equal.
  destruct b; [done|]. apply lower_char_idem.
Qed.
