(* ===== verification/Context.v ===== *)
(** * internal/core/context.go: what an adapter is built with

    The secret sources and the adapter context, and the outgoing HTTP calls the
    identity provider and token broker adapters share.  The HTTP client and the
    JSON decoder are interfaces; the requests are built as the code builds them. *)

From S2P Require Import Prelude GoStd Config Core.

Local Open Scope Z_scope.

(** [type Secrets interface] *)
Class Secrets := {
  Secrets_Get : option SecretRef → result string;
  Secrets_Env : string → string * bool }.

(** [EnvSecrets]: the process environment and the filesystem. *)
Definition EnvSecrets_Get (lookupEnv readFile : string → option string) (ref : option SecretRef) : result string :=
  if negb (SecretRef_IsSet ref) then Ok "" else SecretRef_Resolve lookupEnv readFile ref.
Definition EnvSecrets_Env (lookupEnv : string → option string) (name : string) : string * bool :=
  match lookupEnv name with Some v => (v, true) | None => ("", false) end.
#[export] Instance EnvSecrets (lookupEnv readFile : string → option string) : Secrets | 100 := {|
  Secrets_Get := EnvSecrets_Get lookupEnv readFile; Secrets_Env := EnvSecrets_Env lookupEnv |}.

(** [StaticSecrets]: fixed values by name. *)
Definition StaticSecrets_Get (s : gmap string string) (ref : option SecretRef) : result string :=
  if negb (SecretRef_IsSet ref) then Ok ""
  else match ref with
       | None => Ok ""
       | Some r =>
           let key := or_str (sr_Env r) (sr_File r) in
           match s !! key with Some v => Ok v | None => Err (EMsg ("secret " +:+ key +:+ " not provided")) end
       end.
Definition StaticSecrets_Env (s : gmap string string) (name : string) : string * bool :=
  match s !! name with Some v => (v, true) | None => ("", false) end.
Definition StaticSecrets (s : gmap string string) : Secrets :=
  {| Secrets_Get := StaticSecrets_Get s; Secrets_Env := StaticSecrets_Env s |}.

(** [type Context struct] at one moment: the current configuration and the
    adapter's options.  The secret source is the class above. *)
Record Context := mkContext { cx_Cfg : Config; cx_Options : Options }.

(** [func (t TypeRef) Or(def string) string] *)
Definition TypeRef_Or (typ def : string) : string := if String.eqb (TrimSpace typ) "" then def else typ.

(** ** Outgoing requests *)

(** A form POST with basic authentication; the form keeps its fields, the
    encoding of [url.Values] is lossless. *)
Record FormPost := mkFormPost {
  fp_URL : string; fp_Form : list (string * string); fp_ContentType : string; fp_BasicAuth : string * string }.

(** [http.NewRequestWithContext] (fails on a URL that does not parse) and
    [http.Client.Do]: the status and body, or an error.  [H] is the state of the
    far end. *)
Class FormClient (H : Type) := {
  NewRequest : string → result ();
  Client_Do : FormPost → H → result (Z * string) * H }.

(** [strings.TrimRight(s, "/")] *)
Definition TrimRightSlash (s : string) : string := TrimRight s (λ c, Ascii.eqb c "/").
