(* ===== verification/Identity.v ===== *)
(** * internal/adapters/identity: who sends a request

    claims (token claims to principals), bearer_jwt, bearer_introspect, none and
    static.  The OIDC verifier, the introspection endpoint and the JSON decoder
    of its answer are parameters; time is an argument.  The introspection cache
    is the adapter's state, and one call is one step. *)

From S2P Require Import Prelude GoStd NetIP Sha256 Config Core Contracts Context.

Local Open Scope Z_scope.

(** ** Formatting: [fmt.Sprint] and [%q] *)

Section Sprint.
(** [strconv.FormatFloat(f, 'g', -1, 64)] of a non-integral claim. *)
Variable FormatFloat : Z → positive → string.

(** [fmt.Sprint] of a decoded JSON or YAML value. *)
Fixpoint Sprint (v : any) : string :=
  match v with
  | ANil => "<nil>"
  | ABool b => if b then "true" else "false"
  | AInt n => Itoa n
  | AFloat n d => FormatFloat n d
  | AString s => s
  | AStrings l => "[" +:+ Join l " " +:+ "]"
  | AList l => "[" +:+ Join (List.map Sprint l) " " +:+ "]"
  | AMap m =>
      let shown := List.map (λ kv, (kv.1, Sprint kv.2)) m in
      let entry k := k +:+ ":" +:+ match List.find (λ kv, String.eqb kv.1 k) shown with Some kv => kv.2 | None => "" end in
      "map[" +:+ Join (List.map entry (sort_Strings (List.map fst shown))) " " +:+ "]"
  end.
End Sprint.

(** [strconv.Quote] of text: quotes, backslashes and control bytes are escaped,
    printable text is kept. *)
Definition hex2 (c : ascii) : string := hex_EncodeToString [Z.of_N (Ascii.N_of_ascii c)].
Definition quote_char (c : ascii) : string :=
  let n := Ascii.nat_of_ascii c in
  if (n =? 34)%nat then "\" +:+ String c ""
  else if (n =? 92)%nat then "\\"
  else if (n =? 7)%nat then "\a" else if (n =? 8)%nat then "\b" else if (n =? 9)%nat then "\t"
  else if (n =? 10)%nat then "\n" else if (n =? 11)%nat then "\v" else if (n =? 12)%nat then "\f"
  else if (n =? 13)%nat then "\r"
  else if (n <? 32)%nat || (n =? 127)%nat then "\x" +:+ hex2 c
  else String c "".
Fixpoint quote_body (s : string) : string :=
  match s with EmptyString => "" | String c s' => quote_char c +:+ quote_body s' end.
Definition dquote : string := String (Ascii.ascii_of_nat 34) "".
Definition Quote (s : string) : string := dquote +:+ quote_body s +:+ dquote.

(** ** claims.go *)

(** [func AllScopes] *)
Definition AllScopes (c : Config) : list string :=
  let sc := id_Scopes (c_Identity c) in [sc_MCP sc; sc_Admin sc; sc_UsersAdmin sc].

(** [func FromSeed] *)
Definition FromSeed (c : Config) (seed : PrincipalSeed) (issuer : string) : Principal :=
  let scopes := match ps_Scopes seed with [] => AllScopes c | l => l end in
  let kind := or_str (ps_Kind seed) "user" in
  mkPrincipal (ps_Subject seed) (ps_Subject seed) kind (ps_Subject seed) (ps_Groups seed) scopes issuer 0 "" "".

(** The non-empty strings of a JSON list. *)
Definition list_strings (l : list any) : list string :=
  omap (λ e, match e with AString s => if String.eqb s "" then None else Some s | _ => None end) l.

(** [m[key]] of a decoded object; a missing key gives nil. *)
Definition map_index (m : list (string * any)) (key : string) : any :=
  match List.find (λ kv, String.eqb kv.1 key) m with Some kv => kv.2 | None => ANil end.

(** [func str(v any) string] *)
Definition str (v : any) : string := match v with AString s => s | _ => "" end.

(** [func Claim(claims map[string]any, path string) any] *)
Definition Claim (claims : list (string * any)) (path : string) : any :=
  fold_left (λ cur part, match cur with AMap m => map_index m part | _ => ANil end)
    (SplitByte path ".") (AMap claims).

Section Claims.
Variable FormatFloat : Z → positive → string.

(** [func AsList(v any) []string] *)
Definition AsList (v : any) : list string :=
  match v with
  | ANil => []
  | AString t => Fields (ReplaceAll t "," " ")
  | AList l => list_strings l
  | AStrings l => l
  | _ => [Sprint FormatFloat v]
  end.

(** [func FromClaims] *)
Definition FromClaims (claims : list (string * any)) (groupsClaim usernameClaim : string) : result Principal :=
  let get k := str (map_index claims k) in
  let sub := or_str (get "sub") (get "client_id") in
  if String.eqb sub "" then Err (EWrap "token carries no subject" ErrUnauthenticated)
  else
    let groups := (λ g, TrimPrefix g "/") <$> AsList (Claim claims groupsClaim) in
    let human := negb (String.eqb (get "email") "") || negb (String.eqb (get "preferred_username") "") in
    let client := or_str (get "client_id") (get "azp") in
    let kind := if negb human && negb (String.eqb client "") && String.eqb client sub then "service" else "user" in
    let display := or_str (or_str (get "name") (get "preferred_username")) (get "email") in
    let username := or_str (get usernameClaim) sub in
    Ok (mkPrincipal sub username kind display groups (AsList (map_index claims "scope")) (get "iss") 0 "" "").
End Claims.

(** ** bearer_jwt *)

(** [oidc.IDToken] as the adapter reads it; [idt_Claims] is what [tok.Claims]
    decodes the payload to. *)
Record IDToken := mkIDToken {
  idt_Audience : list string; idt_Issuer : string; idt_Expiry : Z; idt_Claims : result (list (string * any)) }.

(** github.com/coreos/go-oidc: [Verify] with the client-id check skipped, for an
    issuer at a time. *)
Class OIDCVerifier := { oidc_Verify : string → Z → string → result IDToken }.

(** What its documentation promises about a token it accepts. *)
Class OIDCLaws `{!OIDCVerifier} := {
  oidc_issuer : ∀ iss now raw tok, oidc_Verify iss now raw = Ok tok → idt_Issuer tok = iss;
  oidc_unexpired : ∀ iss now raw tok, oidc_Verify iss now raw = Ok tok → now ≤ idt_Expiry tok }.

(** [TokenHash]: half of the SHA-256 of the raw token, in base64url. *)
Definition tokenHash (raw : string) : string := base64url_EncodeToString (take 16 (Sum256 (string_bytes raw))).

Section BearerJWT.
Context {oidc : OIDCVerifier}.
Variable FormatFloat : Z → positive → string.

(** [func (a *Adapter) Verify]; [containsAudience] is [contains]. *)
Definition Verify (cx : Context) (now : Z) (raw : string) : result Principal :=
  let id := c_Identity (cx_Cfg cx) in
  match oidc_Verify (id_Issuer id) now raw with
  | Err _ => Err (EWrap "verify" ErrUnauthenticated)
  | Ok tok =>
      if negb (Options_Bool (cx_Options cx) "skip_audience_check" false)
         && negb (contains (idt_Audience tok) (id_Audience id))
      then Err (EWrap "audience" ErrUnauthenticated)
      else match idt_Claims tok with
           | Err _ => Err (EWrap "claims" ErrUnauthenticated)
           | Ok payload =>
               match FromClaims FormatFloat payload (id_GroupsClaim id) (id_UsernameClaim id) with
               | Err e => Err e
               | Ok p =>
                   Ok (mkPrincipal (p_Subject p) (p_Username p) (p_Kind p) (p_DisplayName p)
                         (p_Groups p ++ AsList FormatFloat (Claim payload "realm_access.roles")) (p_Scopes p)
                         (idt_Issuer tok) (idt_Expiry tok) raw (tokenHash raw))
               end
           end
  end.

(** [func (a *Adapter) Resolve] *)
Definition jwt_Resolve (cx : Context) (now : Z) (req : RequestInfo) : result Principal :=
  let '(raw, ok) := Bearer req in
  if negb ok then Err (EWrap "no bearer token" ErrUnauthenticated) else Verify cx now raw.

Definition PRMPath : string := "/.well-known/oauth-protected-resource".
(** [func PRMURL(c *config.Config) string] *)
Definition PRMURL (c : Config) : string := TrimRightSlash (g_PublicURL (c_Gateway c)) +:+ PRMPath.

Definition reason_text (r : ChallengeReason) : string :=
  match r with
  | ChallengeMissing => "" | ChallengeInvalidToken => "invalid_token"
  | ChallengeInsufficientScope => "insufficient_scope"
  end.

(** [func (a *Adapter) Challenge] *)
Definition jwt_Challenge (cx : Context) (reason : ChallengeReason) (desc requiredScope : string) : string :=
  let parts := ["resource_metadata=" +:+ Quote (PRMURL (cx_Cfg cx))] in
  let parts := match reason with
               | ChallengeMissing => parts
               | r => parts ++ ["error=" +:+ Quote (reason_text r)]
               end in
  let parts := if String.eqb desc "" then parts else parts ++ ["error_description=" +:+ Quote desc] in
  let parts := if String.eqb requiredScope "" then parts else parts ++ ["scope=" +:+ Quote requiredScope] in
  "Bearer " +:+ Join parts ", ".

(** [type ProtectedResourceMetadata struct] *)
Record ProtectedResourceMetadata := mkPRM {
  prm_Resource : string; prm_AuthorizationServers : list string; prm_ScopesSupported : list string;
  prm_BearerMethods : list string; prm_Documentation : string; prm_Name : string }.

(** [func (a *Adapter) ProtectedResourceMetadata] *)
Definition jwt_PRM (cx : Context) : option ProtectedResourceMetadata :=
  let c := cx_Cfg cx in
  Some (mkPRM (TrimRightSlash (g_PublicURL (c_Gateway c)) +:+ "/mcp") [id_Issuer (c_Identity c)]
          [sc_MCP (id_Scopes (c_Identity c)); sc_Admin (id_Scopes (c_Identity c))] ["header"]
          "https://github.com/cchulo/project-juggernaut" "Juggernaut MCP Gateway").

(** bearer_jwt as the identity provider of the gateway, at one moment. *)
Definition JWTProvider (cx : Context) (now : Z) : IdentityProvider :=
  {| Resolve := jwt_Resolve cx now; Challenge := jwt_Challenge cx |}.

(** ** bearer_introspect *)

Context {H : Type} {client : FormClient H} {sec : Secrets}.
(** [json.NewDecoder(resp.Body).Decode] of the [active] field: absent is false. *)
Variable decodeActive : string → result bool.

(** [type seen struct] and the adapter's cache by token hash. *)
Record seen := mkSeen { se_at : Z; se_active : bool }.
Record Introspect := mkIntrospect { is_seen : gmap string seen; is_idp : H }.

(** [func (a *Adapter) query] *)
Definition query (cx : Context) (token : string) (h : H) : result bool * H :=
  let id := c_Identity (cx_Cfg cx) in
  let c := id_Introspection id in
  let ep := if String.eqb (in_Endpoint c) ""
            then TrimRightSlash (id_Issuer id) +:+ "/protocol/openid-connect/token/introspect"
            else in_Endpoint c in
  match Secrets_Get (in_ClientSecretRef c) with
  | Err e => (Err e, h)
  | Ok secret =>
      let form := [("token", token); ("token_type_hint", "access_token")] in
      match NewRequest ep with
      | Err e => (Err e, h)
      | Ok _ =>
          match Client_Do (mkFormPost ep form "application/x-www-form-urlencoded" (in_ClientID c, secret)) h with
          | (Err e, h) => (Err e, h)
          | (Ok (_, body), h) => (decodeActive body, h)
          end
      end
  end.

(** The second half of [active]: ask, store the answer at [now2] and sweep a large
    cache. *)
Definition ask (cx : Context) (now2 : Z) (p : Principal) (a : Introspect) : result bool * Introspect :=
  match query cx (p_RawToken p) (is_idp a) with
  | (Err e, h) => (Err e, mkIntrospect (is_seen a) h)
  | (Ok act, h) =>
      let m := <[p_TokenHash p := mkSeen now2 act]> (is_seen a) in
      let m := if 10000 <? Z.of_nat (size m) then filter (λ kv, ¬ Hour < now2 - se_at kv.2) m else m in
      (Ok act, mkIntrospect m h)
  end.

(** [func (a *Adapter) active]: [now] is the time of the cache check and [now2]
    that after the answer came in. *)
Definition active (cx : Context) (now now2 : Z) (p : Principal) (a : Introspect) : result bool * Introspect :=
  let c := id_Introspection (c_Identity (cx_Cfg cx)) in
  match is_seen a !! p_TokenHash p with
  | Some s => if now - se_at s <? Duration_Or (in_Interval c) (60 * Second) then (Ok (se_active s), a)
              else ask cx now2 p a
  | None => ask cx now2 p a
  end.

(** [func (a *Adapter) Resolve] of bearer_introspect. *)
Definition introspect_Resolve (cx : Context) (now now2 : Z) (req : RequestInfo) (a : Introspect)
    : result Principal * Introspect :=
  match jwt_Resolve cx now req with
  | Err e => (Err e, a)
  | Ok p =>
      match active cx now now2 p a with
      | (Err _, a) =>
          if negb (Options_Bool (cx_Options cx) "fail_open" false)
          then (Err (EWrap "introspection unavailable" ErrUnauthenticated), a) else (Ok p, a)
      | (Ok act, a) =>
          if negb act then (Err (EWrap "token revoked" ErrUnauthenticated), a) else (Ok p, a)
      end
  end.
End BearerJWT.
Arguments Introspect : clear implicits.
Arguments mkIntrospect {H}. Arguments is_seen {H}. Arguments is_idp {H}.

(** ** none *)

Section Local.
Context {sec : Secrets}.

Definition TrustedNetworkEnv : string := "JUGGERNAUT_TRUSTED_NETWORK".

(** [func IsLoopback(remoteAddr string) bool] *)
Definition IsLoopbackAddr (remoteAddr : string) : bool :=
  let host := match SplitHostPort remoteAddr with Some (h, _) => h | None => remoteAddr end in
  if String.eqb host "" || String.eqb host "localhost" then true
  else let ip := ParseIP host in negb (bool_decide (ip = [])) && IsLoopback ip.

(** [func (a *Adapter) trustedNetwork() bool] *)
Definition trustedNetwork : bool :=
  let v := ToLower (TrimSpace (Secrets_Env TrustedNetworkEnv).1) in
  String.eqb v "1" || String.eqb v "true" || String.eqb v "yes".

(** [func (a *Adapter) Resolve] of none; it dereferences [identity.principal]. *)
Definition none_Resolve (cx : Context) (req : RequestInfo) : outcome (result Principal) :=
  let id := c_Identity (cx_Cfg cx) in
  let accept := match id_Principal id with
                | None => Panic
                | Some seed => Done (Ok (FromSeed (cx_Cfg cx) seed ""))
                end in
  if id_AllowRemote id then
    let expected := (Secrets_Env (id_StaticTokenEnv id)).1 in
    if String.eqb expected "" then Done (Err (EWrap "identity.allowRemote is set but the token is empty" ErrUnauthenticated))
    else if negb (String.eqb (Bearer req).1 expected)
    then Done (Err (EWrap "missing or invalid bearer token" ErrUnauthenticated))
    else accept
  else if negb (IsLoopbackAddr (ri_RemoteAddr req)) && negb trustedNetwork
  then Done (Err (EWrap "identity.type none accepts loopback requests only" ErrUnauthenticated))
  else accept.

(** ** static *)

(** [func (a *Adapter) Resolve] of static: the loop over [identity.tokens] finds
    the entry whose key is the bearer. *)
Definition static_Resolve (cx : Context) (req : RequestInfo) : result Principal :=
  let '(tok, ok) := Bearer req in
  if negb ok then Err (EWrap "missing bearer token" ErrUnauthenticated)
  else match List.find (λ kv, String.eqb kv.1 tok) (map_to_list (id_Tokens (c_Identity (cx_Cfg cx)))) with
       | Some kv => Ok (FromSeed (cx_Cfg cx) kv.2 "static")
       | None => Err (EWrap "unknown bearer token" ErrUnauthenticated)
       end.

(** [Challenge] of none and static. *)
Definition bare_Challenge (_ : ChallengeReason) (_ _ : string) : string := "Bearer".

Definition StaticProvider (cx : Context) : IdentityProvider :=
  {| Resolve := static_Resolve cx; Challenge := bare_Challenge |}.
End Local.

(** ** List claims: the encodings the providers use agree *)

(** [strings.ReplaceAll(s, ",", " ")] byte by byte. *)
Fixpoint comma_space (s : string) : string :=
  match s with
  | EmptyString => ""
  | String c s' => String (if Ascii.eqb c "," then " "%char else c) (comma_space s')
  end.

Lemma ReplaceAll_comma s : ReplaceAll s "," " " = comma_space s.
Proof.
  unfold ReplaceAll. induction s as [|c s IH]; [done|]. cbn [String.length ReplaceAllGo HasPrefix comma_space].
  rewrite (Ascii.eqb_sym c). destruct (Ascii.eqb_spec "," c) as [<-|Hc]; cbn; rewrite ?IH; [|done].
  by destruct s.
Qed.

Lemma comma_space_app s t : comma_space (s +:+ t) = comma_space s +:+ comma_space t.
Proof. induction s as [|c s IH]; [done|]. rewrite str_app_cons. cbn [comma_space]. by rewrite str_app_cons, IH. Qed.

(** A word: not empty, no white space and no comma. *)
Definition word_char (c : ascii) : bool := negb (Ascii.is_space c) && negb (Ascii.eqb c ",").
Definition is_word (s : string) : Prop := s ≠ "" ∧ str_forallb word_char s = true.

Lemma comma_space_word w : str_forallb word_char w = true → comma_space w = w.
Proof.
  unfold str_forallb. induction w as [|c w IH]; [done|]. cbn. intros [Hc Hw]%andb_true_iff.
  unfold word_char in Hc. apply andb_true_iff in Hc as [_ ->%negb_true_iff]. by rewrite IH.
Qed.

Lemma FieldsGo_word w s acc :
  str_forallb word_char w = true → FieldsGo (w +:+ s) acc = FieldsGo s (acc +:+ w).
Proof.
  unfold str_forallb. revert acc. induction w as [|c w IH]; intros acc; cbn.
  { by rewrite str_app_nil_r. }
  intros [Hc Hw]%andb_true_iff. unfold word_char in Hc. apply andb_true_iff in Hc as [Hc%negb_true_iff _].
  rewrite str_app_cons. cbn. rewrite Hc, IH by done. by rewrite str_app_assoc.
Qed.

Lemma Fields_Join l sep :
  sep = " " ∨ sep = "," → Forall is_word l → Fields (comma_space (Join l sep)) = l.
Proof.
  intros Hsep. unfold Fields. induction 1 as [|w l [Hne Hw] Hl IH]; [done|].
  destruct l as [|w' l]; cbn [Join].
  - rewrite comma_space_word by done. rewrite <- (str_app_nil_r w) at 1. rewrite FieldsGo_word by done. by destruct w.
  - rewrite !comma_space_app, comma_space_word, FieldsGo_word by done.
    assert (comma_space sep = " ") as -> by (by destruct Hsep as [-> | ->]).
    rewrite str_app_nil_l, str_app_cons, str_app_nil_l. destruct w; [done|].
    change (String a w :: FieldsGo (comma_space (Join (w' :: l) sep)) "" = String a w :: w' :: l). by rewrite IH.
Qed.

(** A list claim means the same however the provider encodes it: a JSON list
    of strings, a space-separated and a comma-separated string of the same words
    all give those words, in order and with duplicates kept. *)
Theorem AsList_encodings FormatFloat l :
  Forall is_word l →
  AsList FormatFloat (AString (Join l " ")) = l ∧
  AsList FormatFloat (AString (Join l ",")) = l ∧
  AsList FormatFloat (AList (AString <$> l)) = l.
Proof.
  intros Hl. cbn [AsList]. rewrite !ReplaceAll_comma, !Fields_Join by auto. split_and!; [done..|].
  induction Hl as [|w l [Hne _] Hl IH]; [done|]. cbn.
  rewrite (proj2 (String.eqb_neq _ _)) by done. f_equal. exact IH.
Qed.

(** ** What an accepted request proves *)

Lemma FromClaims_Ok ff claims gc uc p :
  FromClaims ff claims gc uc = Ok p →
  p_Subject p ≠ "" ∧ p_Subject p = or_str (str (map_index claims "sub")) (str (map_index claims "client_id")) ∧
  p_Scopes p = AsList ff (map_index claims "scope") ∧
  p_Groups p = (λ g, TrimPrefix g "/") <$> AsList ff (Claim claims gc).
Proof.
  unfold FromClaims. destruct (String.eqb _ "") eqn:E; [done|]. apply String.eqb_neq in E.
  intros [= <-]. done.
Qed.


(** Group paths and realm roles of an accepted token. *)
Lemma jwt_Resolve_groups `{!OIDCVerifier} ff cx now req p g :
  jwt_Resolve ff cx now req = Ok p → g ∈ p_Groups p →
  ∃ tok claims, oidc_Verify (id_Issuer (c_Identity (cx_Cfg cx))) now (p_RawToken p) = Ok tok ∧
    idt_Claims tok = Ok claims ∧
    ((∃ g', g' ∈ AsList ff (Claim claims (id_GroupsClaim (c_Identity (cx_Cfg cx)))) ∧ g = TrimPrefix g' "/") ∨
     g ∈ AsList ff (Claim claims "realm_access.roles")).
Proof.
  unfold jwt_Resolve, Verify. destruct (Bearer req) as [raw ok]; cbn. destruct ok; [|done]. cbn.
  destruct (oidc_Verify _ now raw) as [tok|] eqn:Hv; [|done].
  destruct (negb (Options_Bool _ _ _) && negb (contains _ _)); [done|].
  destruct (idt_Claims tok) as [claims|] eqn:Hc; [|done].
  destruct (FromClaims _ _ _ _) as [p0|] eqn:Hp; [|done]. intros [= <-]. cbn.
  apply FromClaims_Ok in Hp as (_ & _ & _ & ->). rewrite elem_of_app, list_elem_of_fmap.
  intros [(g' & -> & Hg)|Hg]; eauto 10.
Qed.

(** A static token is looked up exactly. *)
Lemma find_map_to_list {A} (m : gmap string A) k :
  List.find (λ kv, String.eqb kv.1 k) (map_to_list m) = (λ v, (k, v)) <$> m !! k.
Proof.
  destruct (List.find _ _) as [[k' v]|] eqn:Hf.
  - apply find_some_elem in Hf as [Hin Heq%String.eqb_eq]. cbn in Heq. subst.
    by apply elem_of_map_to_list in Hin as ->.
  - destruct (m !! k) as [v|] eqn:Hm; [|done]. apply elem_of_map_to_list in Hm.
    eapply find_none_elem in Hf; [|exact Hm]. cbn in Hf. by rewrite String.eqb_refl in Hf.
Qed.

Lemma static_Resolve_iff cx req p :
  static_Resolve cx req = Ok p ↔
  (Bearer req).2 = true ∧
  ∃ seed, id_Tokens (c_Identity (cx_Cfg cx)) !! (Bearer req).1 = Some seed ∧ p = FromSeed (cx_Cfg cx) seed "static".
Proof.
  unfold static_Resolve. destruct (Bearer req) as [tok ok]; cbn. destruct ok; cbn; [|split; naive_solver].
  rewrite find_map_to_list. destruct (id_Tokens _ !! tok); cbn; naive_solver.
Qed.

(** identity.type none opens exactly three doors: with allowRemote the
    configured, non-empty bearer; without it a loopback peer, or any peer on a
    network the operator declared trusted.  Nothing else resolves. *)
Theorem none_Resolve_iff `{!Secrets} cx req p :
  none_Resolve cx req = Done (Ok p) ↔
  let id := c_Identity (cx_Cfg cx) in
  (∃ seed, id_Principal id = Some seed ∧ p = FromSeed (cx_Cfg cx) seed "") ∧
  (if id_AllowRemote id
   then (Secrets_Env (id_StaticTokenEnv id)).1 ≠ "" ∧ (Bearer req).1 = (Secrets_Env (id_StaticTokenEnv id)).1
   else IsLoopbackAddr (ri_RemoteAddr req) = true ∨ trustedNetwork = true).
Proof.
  unfold none_Resolve. cbv zeta. destruct (id_AllowRemote _).
  - destruct (String.eqb_spec (Secrets_Env (id_StaticTokenEnv (c_Identity (cx_Cfg cx)))).1 ""); [naive_solver|].
    destruct (String.eqb_spec (Bearer req).1 (Secrets_Env (id_StaticTokenEnv (c_Identity (cx_Cfg cx)))).1); cbn;
      [|naive_solver]. destruct (id_Principal _); naive_solver.
  - destruct (IsLoopbackAddr _), trustedNetwork; cbn; destruct (id_Principal _); naive_solver.
Qed.

(** With the defaults applied, type none has a principal and never panics. *)
Lemma none_Resolve_defaults `{!Secrets} c o req :
  id_Type (c_Identity (ApplyDefaults c)) = "none" →
  none_Resolve (mkContext (ApplyDefaults c) o) req ≠ Panic.
Proof.
  unfold ApplyDefaults, defaultIdentity, none_Resolve. cbn. intros ->.
  destruct (id_AllowRemote _), (id_Principal (c_Identity c)); cbn; repeat case_match; done.
Qed.

(** The adapter reads the live configuration: after a reload to another identity
    type without a principal, the adapter built for none panics on every request
    it would have let in. *)
Lemma none_Resolve_reload_panics `{!Secrets} cx req :
  id_AllowRemote (c_Identity (cx_Cfg cx)) = false → id_Principal (c_Identity (cx_Cfg cx)) = None →
  IsLoopbackAddr (ri_RemoteAddr req) = true → none_Resolve cx req = Panic.
Proof. unfold none_Resolve. by intros -> -> ->. Qed.

(** ** Revocation: how stale an introspection answer can be *)

Section Revocation.
Context {oidc : OIDCVerifier} {H : Type} {client : FormClient H} {sec : Secrets}.
Variable FormatFloat : Z → positive → string.
Variable decodeActive : string → result bool.

(** One request: the configuration it saw, the two clock readings and the request. *)
Record call := mkCall { ca_cx : Context; ca_now : Z; ca_now2 : Z; ca_req : RequestInfo }.

Definition do_call (c : call) (a : Introspect H) : result Principal * Introspect H :=
  introspect_Resolve FormatFloat decodeActive (ca_cx c) (ca_now c) (ca_now2 c) (ca_req c) a.
(** The adapter after a sequence of requests. *)
Definition run_calls (cs : list call) (a : Introspect H) : Introspect H := fold_left (λ a c, (do_call c a).2) cs a.

(** Request [c], made in state [a], asked the provider about [p]'s token and got [b]. *)
Definition asked (c : call) (a : Introspect H) (p : Principal) (b : bool) : Prop :=
  jwt_Resolve FormatFloat (ca_cx c) (ca_now c) (ca_req c) = Ok p ∧
  (query decodeActive (ca_cx c) (p_RawToken p) (is_idp a)).1 = Ok b.

Lemma run_calls_snoc cs c a : run_calls (cs ++ [c]) a = (do_call c (run_calls cs a)).2.
Proof. unfold run_calls. by rewrite fold_left_app. Qed.

Lemma ask_seen cx now2 p a h s :
  is_seen (ask decodeActive cx now2 p a).2 !! h = Some s →
  is_seen a !! h = Some s ∨
  ((query decodeActive cx (p_RawToken p) (is_idp a)).1 = Ok (se_active s) ∧ p_TokenHash p = h ∧ se_at s = now2).
Proof.
  unfold ask. destruct (query _ _ _ _) as [[act|e] h']; cbn; [|by left]. intros Hl.
  assert (<[p_TokenHash p := mkSeen now2 act]> (is_seen a) !! h = Some s) as Hins.
  { destruct (10000 <? _); [by apply map_lookup_filter_Some in Hl as [? _]|done]. }
  apply lookup_insert_Some in Hins as [[<- <-]|[_ ?]]; [by right|by left].
Qed.

Lemma active_seen cx now now2 p a h s :
  is_seen (active decodeActive cx now now2 p a).2 !! h = Some s →
  is_seen a !! h = Some s ∨
  ((query decodeActive cx (p_RawToken p) (is_idp a)).1 = Ok (se_active s) ∧ p_TokenHash p = h ∧ se_at s = now2).
Proof.
  unfold active. destruct (is_seen a !! p_TokenHash p); [destruct (_ <? _); [by left|]|]; apply ask_seen.
Qed.

(** The state after a request is the one [active] leaves. *)
Lemma do_call_state c a :
  (do_call c a).2 = match jwt_Resolve FormatFloat (ca_cx c) (ca_now c) (ca_req c) with
                    | Ok p => (active decodeActive (ca_cx c) (ca_now c) (ca_now2 c) p a).2
                    | Err _ => a
                    end.
Proof.
  unfold do_call, introspect_Resolve. destruct (jwt_Resolve _ _ _ _) as [p|]; [|done].
  destruct (active _ _ _ _ _ _) as [[[]|] a']; [done..|]. by destruct (Options_Bool _ _ _).
Qed.

(** What one request does to the cache: nothing, or it stores the answer it just got. *)
Lemma do_call_seen c a h s :
  is_seen (do_call c a).2 !! h = Some s →
  is_seen a !! h = Some s ∨ ∃ p, asked c a p (se_active s) ∧ p_TokenHash p = h ∧ se_at s = ca_now2 c.
Proof.
  rewrite do_call_state. unfold asked. destruct (jwt_Resolve _ _ _ _) as [p|] eqn:Hp; [|by left].
  intros [?|(? & ? & ?)]%active_seen; eauto 10.
Qed.

(** Every cached answer was given by the provider to an earlier request. *)
Lemma run_calls_seen cs a h s :
  is_seen a = ∅ → is_seen (run_calls cs a) !! h = Some s →
  ∃ cs1 c cs2 p, cs = cs1 ++ c :: cs2 ∧ asked c (run_calls cs1 a) p (se_active s) ∧
    p_TokenHash p = h ∧ se_at s = ca_now2 c.
Proof.
  intros H0. induction cs as [|c cs IH] using rev_ind.
  { cbn. rewrite H0, lookup_empty. done. }
  rewrite run_calls_snoc. intros [Hl|(p & Hp & Hh & Hat)]%do_call_seen.
  - destruct (IH Hl) as (cs1 & c' & cs2 & p & -> & Hr). exists cs1, c', (cs2 ++ [c]), p.
    by rewrite <- app_assoc.
  - exists cs, c, [], p. done.
Qed.

(** Revocation takes effect within the interval: whatever requests came
    before, a request that is let in (fail_open off) either asked the provider
    itself, or an earlier request whose answer is younger than the interval did,
    for a token with the same hash, and the answer was that the token is active. *)
Theorem introspect_revocation_bounded cs c a p a' :
  is_seen a = ∅ → Options_Bool (cx_Options (ca_cx c)) "fail_open" false = false →
  do_call c (run_calls cs a) = (Ok p, a') →
  asked c (run_calls cs a) p true ∨
  ∃ cs1 c0 cs2 p0, cs = cs1 ++ c0 :: cs2 ∧ asked c0 (run_calls cs1 a) p0 true ∧
    p_TokenHash p0 = p_TokenHash p ∧
    ca_now c - ca_now2 c0 < Duration_Or (in_Interval (id_Introspection (c_Identity (cx_Cfg (ca_cx c))))) (60 * Second).
Proof.
  intros H0 Hf Hc. unfold do_call, introspect_Resolve in Hc. rewrite Hf in Hc.
  destruct (jwt_Resolve _ _ _ _) as [p'|] eqn:Hp; [|done].
  destruct (active _ _ _ _ _ _) as [[b|e] a1] eqn:Ha; [|done]. destruct b; [|done]. cbn in Hc. simplify_eq.
  assert (Hask : ask decodeActive (ca_cx c) (ca_now2 c) p (run_calls cs a) = (Ok true, a') →
    asked c (run_calls cs a) p true).
  { unfold ask, asked. destruct (query _ _ _ _) as [[act|] h]; intros Hq; by simplify_eq/=. }
  unfold active in Ha. destruct (is_seen _ !! _) as [s|] eqn:Hs; [|by left; apply Hask].
  destruct (Z.ltb_spec (ca_now c - se_at s) (Duration_Or (in_Interval (id_Introspection (c_Identity (cx_Cfg (ca_cx c))))) (60 * Second)));
    [right|by left; apply Hask].
  apply run_calls_seen in Hs as (cs1 & c0 & cs2 & p0 & -> & Hasked & Hh & Hat); [|done].
  assert (se_active s = true) as Hact by congruence.
  rewrite Hact in Hasked. rewrite Hat in *. eauto 10.
Qed.
End Revocation.

(** ** The challenge is one header line *)

Definition printable_char (c : ascii) : bool :=
  let n := Ascii.nat_of_ascii c in (32 <=? n)%nat && negb (n =? 127)%nat.
Definition printable (s : string) : bool := str_forallb printable_char s.

Lemma str_forallb_app f s t : str_forallb f (s +:+ t) = str_forallb f s && str_forallb f t.
Proof.
  unfold str_forallb. induction s as [|c s IH]; [done|]. rewrite str_app_cons.
  cbn [String.list_ascii_of_string forallb]. by rewrite IH, andb_assoc.
Qed.

Lemma printable_app s t : printable (s +:+ t) = printable s && printable t.
Proof. apply str_forallb_app. Qed.

Lemma printable_quote_char c : printable (quote_char c) = true.
Proof. by destruct c as [[] [] [] [] [] [] [] []]. Qed.

Lemma printable_Quote s : printable (Quote s) = true.
Proof.
  unfold Quote. rewrite !printable_app. apply andb_true_iff. split; [done|]. apply andb_true_iff. split; [|done].
  induction s as [|c s IH]; [done|]. cbn [quote_body]. by rewrite printable_app, printable_quote_char.
Qed.

Lemma printable_Join l sep : printable sep = true → Forall (λ s, printable s = true) l → printable (Join l sep) = true.
Proof.
  intros Hs. induction 1 as [|x l Hx Hl IH]; [done|]. destruct l as [|y l]; [done|].
  cbn [Join]. rewrite !printable_app, Hx, Hs. exact IH.
Qed.

(** Whatever the description, the scope and the public URL contain, the
    WWW-Authenticate value has no control byte, so it cannot end the header line. *)
Lemma jwt_Challenge_printable cx reason desc scope : printable (jwt_Challenge cx reason desc scope) = true.
Proof.
  unfold jwt_Challenge. cbv zeta. rewrite printable_app. apply andb_true_iff. split; [done|].
  apply printable_Join; [done|].
  assert (Hq : ∀ pre x, printable pre = true → printable (pre +:+ Quote x) = true).
  { intros pre x Hpre. by rewrite printable_app, Hpre, printable_Quote. }
  destruct reason, (String.eqb desc ""), (String.eqb scope ""); cbn [app];
    repeat (apply Forall_cons; split; [by apply Hq|]); constructor.
Qed.

(** ** Witnesses *)
Module IdentityWitness.

(** One valid token of the configured issuer; it expires at 100 s. *)
Definition claims0 : list (string * any) :=
  [("sub", AString "bob"); ("groups", AList [AString "/eng"; AString ""]); ("scope", AString "juggernaut:mcp openid");
   ("realm_access", AMap [("roles", AList [AString "platform"])]); ("preferred_username", AString "bob@example.com")].
Definition token0 : IDToken :=
  mkIDToken ["juggernaut"] "https://idp.example.com/realms/jug" (100 * Second) (Ok claims0).
Definition verify0 (iss : string) (now : Z) (raw : string) : result IDToken :=
  if String.eqb raw "t0" && String.eqb iss (idt_Issuer token0) && (now <=? idt_Expiry token0) then Ok token0
  else Err (EMsg "oidc: invalid token").
#[local] Instance oidc0 : OIDCVerifier := {| oidc_Verify := verify0 |}.
#[local] Instance oidc0_laws : OIDCLaws.
Proof.
  split; cbn; unfold verify0; intros iss now raw tok Hv;
    destruct (String.eqb raw "t0"), (String.eqb_spec iss (idt_Issuer token0)), (Z.leb_spec now (idt_Expiry token0));
    simplify_eq/=; done.
Qed.

Definition ff0 (_ : Z) (_ : positive) : string := "0".
Definition cx0 : Context := mkContext sample_config ∅.
Definition req0 (bearer : string) : RequestInfo :=
  mkRequestInfo {["Authorization" := ["Bearer " +:+ bearer]]} "POST" "/mcp" "10.0.0.7:5000".

Lemma AsList_encodings_witness :
  AsList ff0 (AString "eng,platform") = ["eng"; "platform"].
Proof.
  destruct (AsList_encodings ff0 ["eng"; "platform"]) as (_ & H & _); [|exact H].
  repeat constructor; done.
Defined.

Definition bob0 : Principal :=
  mkPrincipal "bob" "bob@example.com" "user" "bob@example.com" ["eng"; "platform"] ["juggernaut:mcp"; "openid"]
    "https://idp.example.com/realms/jug" (100 * Second) "t0" (tokenHash "t0").


(** A provider that answers true until its state says the token was revoked. *)
#[local] Instance client0 : FormClient bool := {|
  NewRequest := λ _, Ok ();
  Client_Do := λ _ (revoked : bool), (Ok (200, if revoked then "false" else "true"), revoked) |}.
#[local] Instance sec0 : Secrets := StaticSecrets ∅.
Definition dec0 (body : string) : result bool := Ok (String.eqb body "true").
Definition call0 (t : Z) : call := mkCall cx0 t (t + 1) (req0 "t0").

(** The second request is answered from the cache, 30 s after the first. *)
Lemma introspect_revocation_bounded_witness :
  asked ff0 dec0 (call0 (32 * Second)) (run_calls ff0 dec0 [call0 (2 * Second)] (mkIntrospect ∅ false)) bob0 true ∨
  ∃ cs1 c0 cs2 p0, [call0 (2 * Second)] = cs1 ++ c0 :: cs2 ∧
    asked ff0 dec0 c0 (run_calls ff0 dec0 cs1 (mkIntrospect ∅ false)) p0 true ∧
    p_TokenHash p0 = p_TokenHash bob0 ∧ ca_now (call0 (32 * Second)) - ca_now2 c0 < 60 * Second.
Proof.
  eapply (introspect_revocation_bounded ff0 dec0 [call0 (2 * Second)] (call0 (32 * Second)) (mkIntrospect ∅ false) bob0);
    [reflexivity|reflexivity|vm_compute; reflexivity].
Defined.

(** The cache keeps a revoked token alive inside the interval and not after it. *)
Example revoked_token_dies :
  let a := (do_call ff0 dec0 (call0 (2 * Second)) (mkIntrospect ∅ false)).2 in
  let a := mkIntrospect (is_seen a) true in
  is_ok (do_call ff0 dec0 (call0 (32 * Second)) a).1 = true ∧ is_ok (do_call ff0 dec0 (call0 (63 * Second)) a).1 = false.
Proof. vm_compute. split; reflexivity. Qed.

(** An empty peer address counts as loopback. *)
Example none_empty_peer_is_loopback : IsLoopbackAddr ":4711" = true ∧ IsLoopbackAddr "10.0.0.7:4711" = false
  ∧ IsLoopbackAddr "[::1]:4711" = true ∧ IsLoopbackAddr "127.8.8.8:1" = true.
Proof. vm_compute. done. Qed.
End IdentityWitness.
