(* ===== verification/Broker.v ===== *)
(** * internal/adapters/broker: per-user tokens for the session pods

    exchange (RFC 8693 against the provider's token endpoint, with a cache per
    incoming token and server type), none and refresh_token.  The HTTP client and
    the decoder of the endpoint's answer are parameters; the cache is the state. *)

From S2P Require Import Prelude GoStd Sha256 Config Core Contracts Context Identity.

Local Open Scope Z_scope.

(** Multiplication of a [time.Duration] wraps at 64 bits. *)
Definition wrap64 (z : Z) : Z := (z + 2 ^ 63) mod 2 ^ 64 - 2 ^ 63.

Lemma wrap64_id z : - 2 ^ 63 ≤ z < 2 ^ 63 → wrap64 z = z.
Proof. intros. unfold wrap64. rewrite Z.mod_small by lia. lia. Qed.

(** ** exchange *)

(** The fields of the token endpoint's answer. *)
Record TokenBody := mkTokenBody {
  tb_AccessToken : string; tb_TokenType : string; tb_ExpiresIn : Z; tb_Error : string; tb_ErrorDesc : string }.

Section Exchange.
Context {H : Type} {client : FormClient H} {sec : Secrets}.
(** [json.NewDecoder(resp.Body).Decode(&body)] *)
Variable decodeBody : string → result TokenBody.

(** The adapter: tokens by [TokenHash|server], and the far end. *)
Record Exchange := mkExchange { ex_cache : gmap string BToken; ex_idp : H }.

(** [func New]: a client id is required. *)
Definition exchange_New (cx : Context) (h : H) : result Exchange :=
  if String.eqb (br_ClientID (id_Broker (c_Identity (cx_Cfg cx)))) ""
  then Err (EMsg "identity.broker.clientId is required for exchange") else Ok (mkExchange ∅ h).

(** [func (a *Adapter) endpoint() string] *)
Definition endpoint (cx : Context) : string :=
  let id := c_Identity (cx_Cfg cx) in
  let ep := Options_String (cx_Options cx) "token_endpoint" (br_TokenEndpoint (id_Broker id)) in
  if negb (String.eqb ep "") then ep else TrimRightSlash (id_Issuer id) +:+ "/protocol/openid-connect/token".

(** The form of the exchange request. *)
Definition exchangeForm (subjectToken : string) (s : Server) : list (string * string) :=
  [("grant_type", "urn:ietf:params:oauth:grant-type:token-exchange"); ("subject_token", subjectToken);
   ("subject_token_type", "urn:ietf:params:oauth:token-type:access_token");
   ("requested_token_type", "urn:ietf:params:oauth:token-type:access_token");
   ("audience", t_Audience (s_Token s))] ++
  match t_Scopes (s_Token s) with [] => [] | l => [("scope", Join l " ")] end.

(** [func (a *Adapter) exchange]; [now] is the time the answer is read. *)
Definition exchange (cx : Context) (now : Z) (subjectToken : string) (s : Server) (h : H) : result BToken * H :=
  let b := id_Broker (c_Identity (cx_Cfg cx)) in
  match Secrets_Get (br_ClientSecretRef b) with
  | Err e => (Err e, h)
  | Ok secret =>
      match NewRequest (endpoint cx) with
      | Err e => (Err e, h)
      | Ok _ =>
          match Client_Do (mkFormPost (endpoint cx) (exchangeForm subjectToken s)
                             "application/x-www-form-urlencoded" (br_ClientID b, secret)) h with
          | (Err e, h) => (Err (EWrap "token exchange" e), h)
          | (Ok (status, raw), h) =>
              (match decodeBody raw with
               | Err e => Err (EWrap "token exchange: decode" e)
               | Ok body =>
                   if negb (status =? 200) || String.eqb (tb_AccessToken body) ""
                   then Err (EMsg ("token exchange for " +:+ s_Name s +:+ " failed: " +:+ tb_Error body +:+ " " +:+ tb_ErrorDesc body))
                   else
                     let exp := if tb_ExpiresIn body =? 0 then now + Duration_Or (br_CacheTTL b) (5 * Minute)
                                else now + wrap64 (tb_ExpiresIn body * Second) in
                     Ok (mkBToken (tb_AccessToken body) exp (or_str (tb_TokenType body) "Bearer"))
               end, h)
          end
      end
  end.

Definition cacheKey (p : Principal) (s : Server) : string := p_TokenHash p +:+ "|" +:+ s_Name s.
Definition no_user_token (s : Server) : bool :=
  bool_decide (t_Mode (s_Token s) = TokenNone) || bool_decide (t_Mode (s_Token s) = TokenStatic).
(** [if t.Expiry.After(p.Expiry) { t.Expiry = p.Expiry }] *)
Definition clamp (p : Principal) (t : BToken) : BToken :=
  if p_Expiry p <? tok_Expiry t then mkBToken (tok_Value t) (p_Expiry p) (tok_Type t) else t.

(** The part of [TokenFor] after a cache miss. *)
Definition mint (cx : Context) (now2 : Z) (p : Principal) (s : Server) (a : Exchange)
    : result (option BToken) * Exchange :=
  match exchange cx now2 (p_RawToken p) s (ex_idp a) with
  | (Err e, h) => (Err e, mkExchange (ex_cache a) h)
  | (Ok t, h) => (Ok (Some (clamp p t)), mkExchange (<[cacheKey p s := clamp p t]> (ex_cache a)) h)
  end.

(** [func (a *Adapter) TokenFor]; [now] is the time of the cache check. *)
Definition exchange_TokenFor (cx : Context) (now now2 : Z) (p : Principal) (s : Server) (minRemaining : Z)
    (a : Exchange) : result (option BToken) * Exchange :=
  if no_user_token s then (Ok None, a)
  else match ex_cache a !! cacheKey p s with
       | Some t => if minRemaining <? tok_Expiry t - now then (Ok (Some t), a) else mint cx now2 p s a
       | None => mint cx now2 p s a
       end.

(** [func (a *Adapter) Revoke]: the whole cache goes. *)
Definition exchange_Revoke (subject : string) (a : Exchange) : result () * Exchange :=
  (Ok (), mkExchange ∅ (ex_idp a)).

(** exchange as the broker of the gateway, under one configuration. *)
Definition exchange_broker (cx : Context) : TokenBroker Exchange :=
  {| TokenFor := λ now p s min a, exchange_TokenFor cx now now p s min a; Revoke := exchange_Revoke |}.
End Exchange.
Arguments Exchange : clear implicits.
Arguments mkExchange {H}. Arguments ex_cache {H}. Arguments ex_idp {H}.

(** ** none and refresh_token *)

(** [func (Adapter) TokenFor] of none. *)
Definition none_TokenFor (s : Server) : result (option BToken) :=
  if no_user_token s then Ok None else Err ErrNoToken.
#[export] Instance none_broker : TokenBroker () | 100 :=
  {| TokenFor := λ _ _ s _ a, (none_TokenFor s, a); Revoke := λ _ a, (Ok (), a) |}.

(** [TokenFor] of refresh_token is not implemented. *)
Definition refresh_TokenFor : result (option BToken) := Err (EMsg "refresh-token broker: not implemented").
Definition refresh_broker : TokenBroker () :=
  {| TokenFor := λ _ _ _ _ a, (refresh_TokenFor, a); Revoke := λ _ a, (Ok (), a) |}.

(** ** Whose token, and for how long *)

Section ExchangeProofs.
Context {H : Type} {client : FormClient H} {sec : Secrets}.
Variable decodeBody : string → result TokenBody.

Lemma clamp_expiry p t : tok_Expiry (clamp p t) = tok_Expiry t `min` p_Expiry p.
Proof. unfold clamp. destruct (Z.ltb_spec (p_Expiry p) (tok_Expiry t)); cbn; lia. Qed.
Lemma clamp_value p t : tok_Value (clamp p t) = tok_Value t.
Proof. unfold clamp. by destruct (_ <? _). Qed.

(** A cache key determines the token hash and the server: hashes have no bar. *)
Lemma cacheKey_inj p s p' s' :
  CountByte (p_TokenHash p) "|" = 0%nat → CountByte (p_TokenHash p') "|" = 0%nat →
  cacheKey p s = cacheKey p' s' → p_TokenHash p = p_TokenHash p' ∧ s_Name s = s_Name s'.
Proof.
  unfold cacheKey. intros H1 H2 Heq.
  assert (Cut (p_TokenHash p +:+ "|" +:+ s_Name s) "|" = Cut (p_TokenHash p' +:+ "|" +:+ s_Name s') "|") as Hc by congruence.
  rewrite !str_app_cons, !str_app_nil_l, !Cut_byte_found in Hc by done. by simplify_eq.
Qed.

(** One use of the broker: a request for a token, or a revocation. *)
Record use := mkUse { u_cx : Context; u_now : Z; u_now2 : Z; u_p : Principal; u_s : Server; u_min : Z }.
Inductive bcall := BToken_for (u : use) | BRevoke (subject : string).

Definition do_use (u : use) (a : Exchange H) : result (option BToken) * Exchange H :=
  exchange_TokenFor decodeBody (u_cx u) (u_now u) (u_now2 u) (u_p u) (u_s u) (u_min u) a.
Definition do_bcall (c : bcall) (a : Exchange H) : Exchange H :=
  match c with BToken_for u => (do_use u a).2 | BRevoke sub => (exchange_Revoke sub a).2 end.
Definition run_bcalls (cs : list bcall) (a : Exchange H) : Exchange H := fold_left (λ a c, do_bcall c a) cs a.

(** Use [u], made in state [a], exchanged its caller's token for [t]. *)
Definition minted (u : use) (a : Exchange H) (t : BToken) : Prop :=
  ∃ t0, (exchange decodeBody (u_cx u) (u_now2 u) (p_RawToken (u_p u)) (u_s u) (ex_idp a)).1 = Ok t0 ∧ t = clamp (u_p u) t0.

Lemma mint_cases u a :
  match mint decodeBody (u_cx u) (u_now2 u) (u_p u) (u_s u) a with
  | (Ok (Some t), a') => minted u a t ∧ ex_cache a' = <[cacheKey (u_p u) (u_s u) := t]> (ex_cache a)
  | (Ok None, _) => False
  | (Err _, a') => ex_cache a' = ex_cache a
  end.
Proof.
  unfold mint, minted. destruct (exchange _ _ _ _ _ _) as [[t|e] h]; cbn; [|done]. split; [by eauto|done].
Qed.

(** A use answers without a token, from the cache, or with a token it minted. *)
Lemma do_use_cases u a :
  match do_use u a with
  | (Ok None, a') => a' = a
  | (Ok (Some t), a') =>
      (a' = a ∧ ex_cache a !! cacheKey (u_p u) (u_s u) = Some t ∧ u_min u < tok_Expiry t - u_now u) ∨
      (minted u a t ∧ ex_cache a' = <[cacheKey (u_p u) (u_s u) := t]> (ex_cache a))
  | (Err _, a') => ex_cache a' = ex_cache a
  end.
Proof.
  unfold do_use, exchange_TokenFor. destruct (no_user_token _); [done|].
  pose proof (mint_cases u a) as Hm.
  destruct (ex_cache a !! _) as [t|] eqn:Hc; [destruct (Z.ltb_spec (u_min u) (tok_Expiry t - u_now u))|].
  1: by left.
  all: destruct (mint _ _ _ _ _ _) as [[[t'|]|e] a']; [right; done|done|done].
Qed.

(** Every cached token was minted by an earlier use under its key. *)
Lemma run_bcalls_cache cs a k t :
  ex_cache a = ∅ → ex_cache (run_bcalls cs a) !! k = Some t →
  ∃ cs1 u cs2, cs = cs1 ++ BToken_for u :: cs2 ∧ cacheKey (u_p u) (u_s u) = k ∧ minted u (run_bcalls cs1 a) t.
Proof.
  intros H0. induction cs as [|c cs IH] using rev_ind; [cbn; by rewrite H0, lookup_empty|].
  assert (Hold : ex_cache (run_bcalls cs a) !! k = Some t → ∃ cs1 u cs2, cs ++ [c] = cs1 ++ BToken_for u :: cs2 ∧
    cacheKey (u_p u) (u_s u) = k ∧ minted u (run_bcalls cs1 a) t).
  { intros (cs1 & u & cs2 & -> & Hr)%IH. exists cs1, u, (cs2 ++ [c]). by rewrite <- app_assoc. }
  unfold run_bcalls. rewrite fold_left_app. cbn. fold (run_bcalls cs a).
  destruct c as [u|sub]; cbn; [|by rewrite lookup_empty].
  pose proof (do_use_cases u (run_bcalls cs a)) as Hu.
  destruct (do_use u _) as [[[t'|]|e] a']; cbn; [|by subst|by rewrite Hu].
  destruct Hu as [(-> & _)|[Hm ->]]; [done|].
  intros [[<- <-]|[_ ?]]%lookup_insert_Some; [exists cs, u, []; done|auto].
Qed.

(** Principals with the same token hash stem from the same token: they expire
    together, and their hash has no bar. *)
Definition hashes_ok (ps : list Principal) : Prop :=
  (∀ p, p ∈ ps → CountByte (p_TokenHash p) "|" = 0%nat) ∧
  (∀ p q, p ∈ ps → q ∈ ps → p_TokenHash p = p_TokenHash q → p_Expiry p = p_Expiry q).
Definition users (cs : list bcall) : list Principal :=
  omap (λ c, match c with BToken_for u => Some (u_p u) | BRevoke _ => None end) cs.

(** C17. The broker hands a caller only tokens minted from the caller's own access
    token for the same server: after any uses and revocations, the token either
    was exchanged right now, or comes from the cache with more than the asked
    time left and was exchanged earlier for a token of the same hash.  Either way
    it never outlives the access token it was minted from. *)
Theorem TokenFor_own_token cs u a t a' :
  ex_cache a = ∅ → hashes_ok (u_p u :: users cs) →
  do_use u (run_bcalls cs a) = (Ok (Some t), a') →
  tok_Expiry t ≤ p_Expiry (u_p u) ∧
  (minted u (run_bcalls cs a) t ∨
   u_min u < tok_Expiry t - u_now u ∧
   ∃ cs1 u0 cs2, cs = cs1 ++ BToken_for u0 :: cs2 ∧ p_TokenHash (u_p u0) = p_TokenHash (u_p u) ∧
     s_Name (u_s u0) = s_Name (u_s u) ∧ minted u0 (run_bcalls cs1 a) t).
Proof.
  intros H0 [Hbar Hexp] Hu. pose proof (do_use_cases u (run_bcalls cs a)) as Hc. rewrite Hu in Hc.
  destruct Hc as [(_ & Hl & Hmin)|[Hm _]].
  - apply run_bcalls_cache in Hl as (cs1 & u0 & cs2 & -> & Hk & Hm); [|done].
    assert (u_p u0 ∈ u_p u :: users (cs1 ++ BToken_for u0 :: cs2)) as Hin.
    { right. unfold users. rewrite omap_app, elem_of_app. right. left. }
    apply cacheKey_inj in Hk as [Hh Hs]; [|apply Hbar; [done || by left]..].
    split; [|right; split; [done|]; by exists cs1, u0, cs2].
    destruct Hm as (t0 & _ & ->). rewrite clamp_expiry, (Hexp (u_p u0) (u_p u)); [lia|done|by left|done].
  - split; [|by left]. destruct Hm as (t0 & _ & ->). rewrite clamp_expiry. lia.
Qed.

(** After a revocation the next use asks the provider. *)
Lemma Revoke_forgets sub u a :
  no_user_token (u_s u) = false →
  do_use u (exchange_Revoke sub a).2 = mint decodeBody (u_cx u) (u_now2 u) (u_p u) (u_s u) (exchange_Revoke sub a).2.
Proof. unfold do_use, exchange_TokenFor. by intros ->. Qed.

(** A freshly minted token may have less time left than was asked for. *)
Lemma mint_ignores_minRemaining u a t a' :
  ex_cache a !! cacheKey (u_p u) (u_s u) = None → do_use u a = (Ok (Some t), a') →
  ∀ m, do_use (mkUse (u_cx u) (u_now u) (u_now2 u) (u_p u) (u_s u) m) a = (Ok (Some t), a').
Proof. unfold do_use, exchange_TokenFor. cbn. intros -> Hu m. exact Hu. Qed.
End ExchangeProofs.

(** ** Witnesses *)
Module BrokerWitness.
(** A token endpoint that numbers the tokens it issues; they live 300 s. *)
#[local] Instance client0 : FormClient Z := {|
  NewRequest := λ _, Ok (); Client_Do := λ _ (n : Z), (Ok (200, Itoa n), n + 1) |}.
#[local] Instance sec0 : Secrets := StaticSecrets {["BROKER_SECRET" := "s3cret"]}.
Definition dec0 (raw : string) : result TokenBody := Ok (mkTokenBody ("at-" +:+ raw) "" 300 "" "").
Definition jira0 : Server := sample_server "jira" TokenEnv None.
Definition use0 (t : Z) : use :=
  mkUse IdentityWitness.cx0 t (t + 1) IdentityWitness.bob0 jira0 (60 * Second).
Definition tok0 : BToken := mkBToken "at-0" (100 * Second) "Bearer".

(** The second request 20 s later gets the cached token, cut to the caller's expiry. *)
Lemma TokenFor_own_token_witness :
  (do_use dec0 (use0 (30 * Second)) (run_bcalls dec0 [BToken_for (use0 (10 * Second))] (mkExchange ∅ 0))).1 = Ok (Some tok0) ∧
  tok_Expiry tok0 ≤ 100 * Second.
Proof.
  split; [vm_compute; reflexivity|].
  eapply (TokenFor_own_token dec0 [BToken_for (use0 (10 * Second))] (use0 (30 * Second)) (mkExchange ∅ 0) tok0);
    [reflexivity| |vm_compute; reflexivity].
  split; cbn [users omap list_omap].
  - intros p Hp. repeat (apply elem_of_cons in Hp as [->|Hp]; [vm_compute; reflexivity|]). by apply not_elem_of_nil in Hp.
  - intros p q Hp Hq _.
    repeat (apply elem_of_cons in Hp as [->|Hp]; [|]); try by apply not_elem_of_nil in Hp.
    all: repeat (apply elem_of_cons in Hq as [->|Hq]; [reflexivity|]); by apply not_elem_of_nil in Hq.
Defined.

(** A token that lives for two seconds is handed out although 60 s were asked for. *)
Example mint_short_lived :
  let short (_ : string) := Ok (mkTokenBody "at" "" 2 "" "") in
  let '(r, _) := do_use short (use0 (10 * Second)) (mkExchange ∅ 0) in
  match r with Ok (Some t) => tok_Expiry t - 10 * Second < u_min (use0 0) | _ => False end.
Proof. vm_compute. reflexivity. Qed.
End BrokerWitness.
