(* ===== verification/RoutingMemory.v ===== *)
(** * internal/adapters/routing/memory: the in-process routing table

    [Memory] and every operation of adapter.go.  Go's map iteration order is
    unspecified; [ListPods] uses one order and its theorem is about the set. *)

From S2P Require Import Prelude GoStd Config Core Contracts.

Local Open Scope Z_scope.

Module Memory.

(** [type Memory struct] *)
Record Memory := mkMemory {
  pods : gmap PodKey Pod; sessions : gmap string McpSession;
  active : gmap string Z; inflight : gmap string Z }.

(** [func NewMemory() *Memory] *)
Definition NewMemory : Memory := mkMemory ∅ ∅ ∅ ∅.

Definition GetPod (key : PodKey) (m : Memory) : result Pod * Memory :=
  match pods m !! key with
  | None => (Err ErrNotFound, m)
  | Some p => (Ok p, m)
  end.

Definition PutPod (p : Pod) (m : Memory) : result () * Memory :=
  (Ok (), mkMemory (<[pod_Key p := p]> (pods m)) (sessions m) (active m) (inflight m)).

Definition DeletePod (key : PodKey) (m : Memory) : result () * Memory :=
  let m1 := match pods m !! key with
            | Some p => mkMemory (pods m) (sessions m) (delete (pod_Name p) (active m))
                          (delete (pod_Name p) (inflight m))
            | None => m
            end in
  (Ok (), mkMemory (delete key (pods m1)) (sessions m1) (active m1) (inflight m1)).

Definition ListPods (subject : string) (m : Memory) : result (list Pod) * Memory :=
  (Ok (List.filter (λ p, String.eqb subject "" || String.eqb (pk_Subject (pod_Key p)) subject)
         (map_to_list (pods m)).*2), m).

Definition counted (p : Pod) : bool :=
  negb (bool_decide (pod_Phase p = PhaseGone) || bool_decide (pod_Phase p = PhaseTerminating)).

(** The counting loop over the pods (shared shape with the redis adapter). *)
Definition count_pods (subject serverType : string) (ps : list Pod) : Z * Z :=
  (Z.of_nat (length (List.filter (λ p, counted p && String.eqb (pk_Subject (pod_Key p)) subject) ps)),
   Z.of_nat (length (List.filter (λ p, counted p && String.eqb (pk_ServerType (pod_Key p)) serverType) ps))).

Definition CountPods (subject serverType : string) (m : Memory) : result (Z * Z * Z) * Memory :=
  let '(perUser, perType) := count_pods subject serverType (map_to_list (pods m)).*2 in
  (Ok (perUser, perType, Z.of_nat (size (pods m))), m).

Definition GetSession (id : string) (m : Memory) : result McpSession * Memory :=
  match sessions m !! id with
  | None => (Err ErrNotFound, m)
  | Some s => (Ok s, m)
  end.

Definition PutSession (s : McpSession) (m : Memory) : result () * Memory :=
  (Ok (), mkMemory (pods m) (<[ms_ID s := s]> (sessions m)) (active m) (inflight m)).

Definition DeleteSession (id : string) (m : Memory) : result () * Memory :=
  (Ok (), mkMemory (pods m) (delete id (sessions m)) (active m) (inflight m)).

Definition DeleteSessionsForPod (podName : string) (m : Memory) : result () * Memory :=
  (Ok (), mkMemory (pods m) (filter (λ kv, ms_PodName kv.2 ≠ podName) (sessions m)) (active m) (inflight m)).

Definition Touch (podName : string) (at_ : Z) (m : Memory) : result () * Memory :=
  (Ok (), mkMemory (pods m) (sessions m) (<[podName := at_]> (active m)) (inflight m)).

Definition LastActive (podName : string) (m : Memory) : result Z * Memory :=
  match active m !! podName with
  | None => (Err ErrNotFound, m)
  | Some t => (Ok t, m)
  end.

Definition InFlight (podName : string) (delta : Z) (m : Memory) : result Z * Memory :=
  let n := default 0 (inflight m !! podName) + delta in
  let n := if n <? 0 then 0 else n in
  (Ok n, mkMemory (pods m) (sessions m) (active m) (<[podName := n]> (inflight m))).

#[global] Instance table : RoutingTable Memory := {|
  Contracts.GetPod := GetPod; Contracts.PutPod := PutPod; Contracts.DeletePod := DeletePod;
  Contracts.ListPods := ListPods; Contracts.CountPods := CountPods;
  Contracts.GetSession := GetSession; Contracts.PutSession := PutSession;
  Contracts.DeleteSession := DeleteSession; Contracts.DeleteSessionsForPod := DeleteSessionsForPod;
  Contracts.Touch := Touch; Contracts.LastActive := LastActive; Contracts.InFlight := InFlight |}.

(** ** Invariant and laws *)

(** Every pod is stored under its own key and no in-flight counter is negative. *)
Record ok (m : Memory) : Prop := {
  ok_key : ∀ k p, pods m !! k = Some p → pod_Key p = k;
  ok_inflight : ∀ n z, inflight m !! n = Some z → 0 ≤ z }.

Lemma ok_NewMemory : ok NewMemory.
Proof. split; intros *; simpl; by rewrite lookup_empty. Qed.

Lemma ok_PutPod p m : ok m → ok (PutPod p m).2.
Proof.
  intros [Hk Hi]. split; simpl; [|done]. intros k q.
  rewrite lookup_insert. case_decide; naive_solver.
Qed.

Lemma ok_DeletePod k m : ok m → ok (DeletePod k m).2.
Proof.
  intros [Hk Hi]. unfold DeletePod.
  split; simpl; intros k'; destruct (pods m !! k); simpl; intros *; rewrite ?lookup_delete;
    repeat case_decide; naive_solver.
Qed.

Lemma ok_InFlight n d m : ok m → ok (InFlight n d m).2.
Proof.
  intros [Hk Hi]. split; simpl; [done|]. intros n' z. rewrite lookup_insert.
  case_decide; [|naive_solver]. case_match; intros; simplify_eq; bprop; lia.
Qed.

(** A call of the table, as another component makes it. *)
Inductive call :=
| CPutPod (p : Pod) | CDeletePod (k : PodKey) | CPutSession (s : McpSession)
| CDeleteSession (id : string) | CDeleteSessionsForPod (n : string)
| CTouch (n : string) (t : Z) | CInFlight (n : string) (d : Z).

Definition run (c : call) (m : Memory) : Memory :=
  match c with
  | CPutPod p => (PutPod p m).2
  | CDeletePod k => (DeletePod k m).2
  | CPutSession s => (PutSession s m).2
  | CDeleteSession id => (DeleteSession id m).2
  | CDeleteSessionsForPod n => (DeleteSessionsForPod n m).2
  | CTouch n t => (Touch n t m).2
  | CInFlight n d => (InFlight n d m).2
  end.

Lemma ok_run c m : ok m → ok (run c m).
Proof.
  destruct c; unfold run; auto using ok_PutPod, ok_DeletePod, ok_InFlight.
  all: intros [Hk Hi]; by split.
Qed.

#[global] Program Instance laws : RoutingTableLaws Memory := {| rt_ok := ok; rt_avail := λ _, True |}.
Next Obligation. intros k t H. unfold Contracts.GetPod; simpl. unfold GetPod. by destruct (pods t !! k). Qed.
Next Obligation. intros. by apply ok_PutPod. Qed.
Next Obligation. intros. by apply ok_DeletePod. Qed.
Next Obligation.
  unfold Contracts.GetPod; simpl. unfold GetPod. intros k t p t' [Hk _].
  case_match; naive_solver.
Qed.
Next Obligation.
  unfold Contracts.GetPod, Contracts.PutPod; simpl. intros p t t' _ _ [= <-] _.
  unfold GetPod; simpl. rewrite lookup_insert_eq. eauto.
Qed.
Next Obligation.
  unfold Contracts.GetPod, Contracts.DeletePod; simpl. unfold DeletePod. intros k t t' _ [= <-] _.
  unfold GetPod; simpl. rewrite lookup_delete_eq. eauto.
Qed.
Next Obligation.
  unfold Contracts.GetPod, Contracts.PutPod; simpl. intros p k t t' _ [Hn _] Hne [= <-] _ _.
  unfold GetPod; simpl. rewrite lookup_insert_ne by congruence. by destruct (pods t !! k).
Qed.
Next Obligation.
  unfold Contracts.GetSession, Contracts.PutSession; simpl. intros s t t' _ _ [= <-] _.
  unfold GetSession; simpl. rewrite lookup_insert_eq. eauto.
Qed.

(** ** Properties *)

(** The in-flight counter after a sequence of adjustments: each one adds its
    delta and a negative sum is reset to zero. *)
Definition clamp_sum (ds : list Z) (z : Z) : Z := fold_left (λ acc d, Z.max 0 (acc + d)) ds z.

Lemma inflight_InFlight n d m : inflight (InFlight n d m).2 !! n = Some (Z.max 0 (default 0 (inflight m !! n) + d)).
Proof. simpl. rewrite lookup_insert_eq. f_equal. case_match; bprop; lia. Qed.


(** Balanced use of the in-flight counter: [n] requests that each add one and
    take one back leave the counter where it was. *)
Lemma inflight_balanced n m z :
  inflight m !! n = Some z → 0 ≤ z →
  inflight (InFlight n (-1) (InFlight n 1 m).2).2 !! n = Some z.
Proof.
  intros Hz Hpos. rewrite inflight_InFlight, inflight_InFlight, Hz. simpl. f_equal. lia.
Qed.

Lemma elem_of_ListPods subject m p :
  (∀ k q, pods m !! k = Some q → pod_Key q = k) →
  p ∈ List.filter (λ p, String.eqb subject "" || String.eqb (pk_Subject (pod_Key p)) subject)
        (map_to_list (pods m)).*2 ↔
  pods m !! pod_Key p = Some p ∧ (subject = "" ∨ pk_Subject (pod_Key p) = subject).
Proof.
  intros Hk. rewrite list_elem_of_In, filter_In, <- list_elem_of_In, orb_true_iff, !String.eqb_eq.
  rewrite list_elem_of_fmap. split.
  - intros [([k q] & -> & Hin%elem_of_map_to_list) Hs]. simpl in *.
    split; [by rewrite (Hk _ _ Hin)|done].
  - intros [Hp Hs]. split; [|done]. exists (pod_Key p, p). by rewrite elem_of_map_to_list.
Qed.
End Memory.
