(* ===== verification/RoutingRedis.v ===== *)
(** * internal/adapters/routing/redis: the routing table shared by the replicas

    Every operation of adapter.go over two parameters: the Redis server
    ([RedisAPI], with its documented behaviour as [RedisLaws]) and the JSON
    encoding of the two record types ([JSONCodec]).  Each replica also holds an
    in-process [Memory] that fronts Redis. *)

From S2P Require Import Prelude GoStd Sha256 Config Core Fixtures Contracts RoutingMemory.

Local Open Scope Z_scope.

(** ** The store *)

Inductive rval := RStr (s : string) | RSet (s : gset string).

(** The write commands the adapter pipelines; a time to live of 0 is none. *)
Inductive rcmd :=
| CSet (k v : string) (ttl : Z)
| CDel (ks : list string)
| CSAdd (k m : string)
| CSRem (k m : string)
| CExpire (k : string) (ttl : Z).

Class RedisAPI (R : Type) := {
  redis_Get : string → R → result (option string);        (* Ok None is redis.Nil *)
  redis_SMembers : string → R → result (list string);
  redis_Exec : list rcmd → R → result () * R;              (* one MULTI/EXEC transaction *)
  redis_IncrBy : string → Z → R → result Z * R }.

Definition rset (o : option rval) : gset string := match o with Some (RSet s) => s | _ => ∅ end.
Definition rstr (o : option rval) : option string := match o with Some (RStr s) => Some s | _ => None end.

Definition apply_cmd (c : rcmd) (m : gmap string rval) : gmap string rval :=
  match c with
  | CSet k v _ => <[k := RStr v]> m
  | CDel ks => foldr delete m ks
  | CSAdd k x => <[k := RSet ({[x]} ∪ rset (m !! k))]> m
  | CSRem k x => match m !! k with Some (RSet s) => <[k := RSet (s ∖ {[x]})]> m | _ => m end
  | CExpire _ _ => m
  end.
Definition apply_cmds (cs : list rcmd) (m : gmap string rval) : gmap string rval :=
  fold_left (λ m c, apply_cmd c m) cs m.

(** Documented behaviour of the server, on the keys it holds ([redis_view]):
    reads return what is stored, a successful transaction applies all its
    commands, a failed one all or none, INCRBY adds to the integer stored and fails when the sum leaves int64. *)
Class RedisLaws (R : Type) `{!RedisAPI R} := {
  redis_view : R → gmap string rval;
  redis_Get_ok : ∀ k r o, redis_Get k r = Ok o → o = rstr (redis_view r !! k);
  redis_SMembers_ok : ∀ k r l, redis_SMembers k r = Ok l → ∀ x, x ∈ l ↔ x ∈ rset (redis_view r !! k);
  redis_Exec_ok : ∀ cs r r', redis_Exec cs r = (Ok (), r') → redis_view r' = apply_cmds cs (redis_view r);
  redis_Exec_err : ∀ cs r e r', redis_Exec cs r = (Err e, r') →
    redis_view r' = redis_view r ∨ redis_view r' = apply_cmds cs (redis_view r);
  redis_IncrBy_ok : ∀ k d r n r', redis_IncrBy k d r = (Ok n, r') →
    n = default 0 (rstr (redis_view r !! k) ≫= Atoi) + d ∧ in_int64 n = true ∧
    redis_view r' = <[k := RStr (Itoa n)]> (redis_view r) }.

(** [type podRecord struct] *)
Record podRecord := mkPodRecord {
  pr_Subject : string; pr_ServerType : string; pr_Name : string; pr_Endpoint : string;
  pr_Phase : Phase; pr_CreatedAt : Z; pr_ConfigHash : string; pr_MAC : option (list Z) }.

(** [type sessionRecord struct] *)
Record sessionRecord := mkSessionRecord { sr_Session : McpSession; sr_MAC : option (list Z) }.

Module Redis.
Section Redis.
Context {R : Type} {Rapi : RedisAPI R} {aead : AEAD}
  {jpod : JSONCodec podRecord} {jsess : JSONCodec sessionRecord}.

(** [type Redis struct]: the client, the key prefix, the session TTL, the KEK of
    the pod-token cipher (None: stored as-is), the record MAC key (None:
    disabled), the in-process cache, and the nonces crypto/rand will return. *)
Record Redis := mkRedis {
  c : R; prefix : string; maxAge : Z; Cipher : option (list Z); macKey : option (list Z);
  mem : Memory.Memory; nonces : nat → list Z; drawn : nat }.

(** [func NewRedis]; [New] then sets [macKey]. *)
Definition NewRedis (c : R) (prefix : string) (maxAge : Z) (cipher macKey : option (list Z))
    (nonces : nat → list Z) : Redis :=
  mkRedis c prefix maxAge cipher macKey Memory.NewMemory nonces 0.

Definition set_c (x : R) (r : Redis) : Redis :=
  mkRedis x (prefix r) (maxAge r) (Cipher r) (macKey r) (mem r) (nonces r) (drawn r).
Definition set_mem (x : Memory.Memory) (r : Redis) : Redis :=
  mkRedis (c r) (prefix r) (maxAge r) (Cipher r) (macKey r) x (nonces r) (drawn r).
Definition draw (r : Redis) : Redis :=
  mkRedis (c r) (prefix r) (maxAge r) (Cipher r) (macKey r) (mem r) (nonces r) (S (drawn r)).

(** [func (r *Redis) k(parts ...string) string] *)
Definition k (r : Redis) (parts : list string) : string := prefix r +:+ Join parts ":".

(** [func (r *Redis) podMAC(rec *podRecord) []byte] *)
Definition podMAC (r : Redis) (rec : podRecord) : option (list Z) :=
  match macKey r with
  | None => None
  | Some mk => Some (MAC mk ["pod"; pr_Subject rec; pr_ServerType rec; pr_Name rec;
                             pr_Endpoint rec; pr_ConfigHash rec])
  end.

(** [func (r *Redis) sessionMAC(s *McpSession) []byte] *)
Definition sessionMAC (r : Redis) (s : McpSession) : option (list Z) :=
  match macKey r with
  | None => None
  | Some mk => Some (MAC mk ["sess"; ms_ID s; ms_Subject s; ms_ServerType s; ms_PodName s;
                             ms_UpstreamSessionID s])
  end.

Definition podKeyOf (r : Redis) (key : PodKey) : string :=
  k r ["pod"; pk_ServerType key; UserHash (pk_Subject key)].

(** The part of [GetPod] after the cache missed: read and verify the record. *)
Definition loadPod (key : PodKey) (r : Redis) : result Pod * Redis :=
  match redis_Get (podKeyOf r key) (c r) with
  | Ok None => (Err ErrNotFound, set_mem (Memory.DeletePod key (mem r)).2 r)
  | Err e => (Err e, r)
  | Ok (Some raw) =>
      match json_Unmarshal raw with
      | Err e => (Err e, r)
      | Ok rec =>
          if negb (MACEqual (pr_MAC rec) (podMAC r rec))
          then (Err (EWrap ("routing record for " +:+ pr_Name rec +:+ " failed authentication") ErrNotFound), r)
          else
            let p tok := mkPod key (pr_Name rec) (pr_Endpoint rec) (pr_Phase rec)
                           (pr_CreatedAt rec) (pr_ConfigHash rec) tok in
            let ret p := (Ok p, set_mem (Memory.PutPod p (mem r)).2 r) in
            match redis_Get (k r ["podtok"; pr_Name rec]) (c r) with
            | Ok (Some tok) =>
                match Cipher r with
                | None => ret (p tok)
                | Some kek =>
                    match AESGCM_Open kek tok with
                    | Ok tok => ret (p tok)
                    | Err e => (Err (EWrap "pod token" e), r)
                    end
                end
            | _ => ret (p "")
            end
      end
  end.

Definition GetPod (key : PodKey) (r : Redis) : result Pod * Redis :=
  match Memory.GetPod key (mem r) with
  | (Ok p, _) => if bool_decide (pod_Phase p = PhaseReady) then (Ok p, r) else loadPod key r
  | _ => loadPod key r
  end.

Definition PutPod (p : Pod) (r : Redis) : result () * Redis :=
  let rec0 := mkPodRecord (pk_Subject (pod_Key p)) (pk_ServerType (pod_Key p)) (pod_Name p)
                (pod_Endpoint p) (pod_Phase p) (pod_CreatedAt p) (pod_ConfigHash p) None in
  let rec := mkPodRecord (pr_Subject rec0) (pr_ServerType rec0) (pr_Name rec0) (pr_Endpoint rec0)
               (pr_Phase rec0) (pr_CreatedAt rec0) (pr_ConfigHash rec0) (podMAC r rec0) in
  let pipe := [CSet (podKeyOf r (pod_Key p)) (json_Marshal rec) 0;
               CSAdd (k r ["pods:by-user"; pk_Subject (pod_Key p)]) (pk_ServerType (pod_Key p));
               CSAdd (k r ["pods:all"]) (pk_ServerType (pod_Key p) +:+ "|" +:+ pk_Subject (pod_Key p))] in
  let '(tokcmd, r) :=
    if String.eqb (pod_PodToken p) "" then ([], r)
    else match Cipher r with
         | None => ([CSet (k r ["podtok"; pod_Name p]) (pod_PodToken p) 0], r)
         | Some kek => ([CSet (k r ["podtok"; pod_Name p])
                           (AESGCM_Seal kek (nonces r (drawn r)) (pod_PodToken p)) 0], draw r)
         end in
  match redis_Exec (pipe ++ tokcmd) (c r) with
  | (Err e, c') => (Err e, set_c c' r)
  | (Ok _, c') => (Ok (), set_mem (Memory.PutPod p (mem r)).2 (set_c c' r))
  end.

Definition DeletePod (key : PodKey) (r : Redis) : result () * Redis :=
  let name := PodKey_Name key in
  let '(err, c') := redis_Exec
    [CDel [podKeyOf r key; k r ["podtok"; name]; k r ["active"; name]; k r ["inflight"; name]];
     CSRem (k r ["pods:by-user"; pk_Subject key]) (pk_ServerType key);
     CSRem (k r ["pods:all"]) (pk_ServerType key +:+ "|" +:+ pk_Subject key)] (c r) in
  (err, set_mem (Memory.DeletePod key (mem r)).2 (set_c c' r)).

(** The loop of [ListPods]: keys whose record cannot be read are skipped. *)
Fixpoint getPods (keys : list PodKey) (r : Redis) : list Pod * Redis :=
  match keys with
  | [] => ([], r)
  | key :: keys' =>
      let '(res, r1) := GetPod key r in
      let '(ps, r2) := getPods keys' r1 in
      (match res with Ok p => p :: ps | Err _ => ps end, r2)
  end.

(** A member of the set [pods:all]: the text before and after its first bar. *)
Definition parseMember (e : string) : list PodKey :=
  match Cut e "|" with
  | (st, subj, true) => [mkPodKey subj st]
  | _ => []
  end.

Definition ListPods (subject : string) (r : Redis) : result (list Pod) * Redis :=
  let keys :=
    if negb (String.eqb subject "") then
      match redis_SMembers (k r ["pods:by-user"; subject]) (c r) with
      | Ok types => Ok (mkPodKey subject <$> types)
      | Err e => Err e
      end
    else
      match redis_SMembers (k r ["pods:all"]) (c r) with
      | Ok all => Ok (List.flat_map parseMember all)
      | Err e => Err e
      end in
  match keys with
  | Err e => (Err e, r)
  | Ok keys => let '(ps, r') := getPods keys r in (Ok ps, r')
  end.

Definition CountPods (subject serverType : string) (r : Redis) : result (Z * Z * Z) * Redis :=
  match ListPods "" r with
  | (Err e, r') => (Err e, r')
  | (Ok ps, r') =>
      let '(perUser, perType) := Memory.count_pods subject serverType ps in
      (Ok (perUser, perType, Z.of_nat (length ps)), r')
  end.

Definition GetSession (id : string) (r : Redis) : result McpSession * Redis :=
  match redis_Get (k r ["sess"; id]) (c r) with
  | Ok None => (Err ErrNotFound, r)
  | Err e => (Err e, r)
  | Ok (Some raw) =>
      match json_Unmarshal raw with
      | Err e => (Err e, r)
      | Ok rec =>
          if negb (MACEqual (sr_MAC rec) (sessionMAC r (sr_Session rec)))
          then (Err (EWrap ("session record " +:+ id +:+ " failed authentication") ErrNotFound), r)
          else (Ok (sr_Session rec), r)
      end
  end.

Definition PutSession (s : McpSession) (r : Redis) : result () * Redis :=
  let '(err, c') := redis_Exec
    [CSet (k r ["sess"; ms_ID s]) (json_Marshal (mkSessionRecord s (sessionMAC r s))) (maxAge r);
     CSAdd (k r ["sess:by-pod"; ms_PodName s]) (ms_ID s);
     CExpire (k r ["sess:by-pod"; ms_PodName s]) (maxAge r)] (c r) in
  (err, set_c c' r).

Definition DeleteSession (id : string) (r : Redis) : result () * Redis :=
  match GetSession id r with
  | (Err _, r) => (Ok (), r)
  | (Ok s, r) =>
      let '(err, c') := redis_Exec
        [CDel [k r ["sess"; id]]; CSRem (k r ["sess:by-pod"; ms_PodName s]) id] (c r) in
      (err, set_c c' r)
  end.

Definition DeleteSessionsForPod (podName : string) (r : Redis) : result () * Redis :=
  match redis_SMembers (k r ["sess:by-pod"; podName]) (c r) with
  | Err e => (Err e, r)
  | Ok ids =>
      let keys := k r ["sess:by-pod"; podName] :: ((λ id, k r ["sess"; id]) <$> ids) in
      let '(err, c') := redis_Exec [CDel keys] (c r) in (err, set_c c' r)
  end.

Definition Touch (podName : string) (at_ : Z) (r : Redis) : result () * Redis :=
  let '(err, c') := redis_Exec [CSet (k r ["active"; podName]) (Itoa (Unix at_)) 0] (c r) in
  (err, set_c c' r).

Definition LastActive (podName : string) (r : Redis) : result Z * Redis :=
  match redis_Get (k r ["active"; podName]) (c r) with
  | Ok None => (Err ErrNotFound, r)
  | Err e => (Err e, r)
  | Ok (Some v) =>
      match Atoi v with
      | Some n => (Ok (time_Unix n), r)
      | None => (Err (EMsg "strconv.ParseInt"), r)
      end
  end.

Definition InFlight (podName : string) (delta : Z) (r : Redis) : result Z * Redis :=
  let key := k r ["inflight"; podName] in
  let expire r := set_c (redis_Exec [CExpire key Hour] (c r)).2 r in
  if delta =? 0 then
    match redis_Get key (c r) with
    | Ok None => (Ok 0, r)
    | Err e => (Err e, r)
    | Ok (Some v) => (Ok (default 0 (Atoi v)), expire r)
    end
  else
    match redis_IncrBy key delta (c r) with
    | (Err e, c') => (Err e, set_c c' r)
    | (Ok n, c') =>
        let r := set_c c' r in
        if n <? 0 then (Ok 0, expire (set_c (redis_Exec [CSet key "0" Hour] (c r)).2 r))
        else (Ok n, expire r)
    end.

#[global] Instance table : RoutingTable Redis := {|
  Contracts.GetPod := GetPod; Contracts.PutPod := PutPod; Contracts.DeletePod := DeletePod;
  Contracts.ListPods := ListPods; Contracts.CountPods := CountPods;
  Contracts.GetSession := GetSession; Contracts.PutSession := PutSession;
  Contracts.DeleteSession := DeleteSession; Contracts.DeleteSessionsForPod := DeleteSessionsForPod;
  Contracts.Touch := Touch; Contracts.LastActive := LastActive; Contracts.InFlight := InFlight |}.
End Redis.
Arguments Redis : clear implicits.

(** ** Laws *)

(** A sequence of in-flight adjustments of one pod on any routing table, up to
    the first error, and the values it returned. *)
Fixpoint inflights {T} `{!RoutingTable T} (n : string) (ds : list Z) (t : T) : result (list Z) * T :=
  match ds with
  | [] => (Ok [], t)
  | d :: ds' =>
      match Contracts.InFlight n d t with
      | (Err e, t1) => (Err e, t1)
      | (Ok z, t1) =>
          match inflights n ds' t1 with
          | (Ok zs, t2) => (Ok (z :: zs), t2)
          | (Err e, t2) => (Err e, t2)
          end
      end
  end.

(** Two replicas: one store, the same prefix and keys, their own caches. *)
Definition same_deployment {R} (r r2 : Redis R) : Prop :=
  c r2 = c r ∧ prefix r2 = prefix r ∧ Cipher r2 = Cipher r ∧ macKey r2 = macKey r.

Section Laws.
Context {R : Type} {Rapi : RedisAPI R} {Rlaws : RedisLaws R} {aead : AEAD}
  {jpod : JSONCodec podRecord} {jsess : JSONCodec sessionRecord}.
Implicit Types (r : Redis R).

Notation view r := (redis_view (c r)).

(** Keys of different families never coincide, and a pod key determines the pod
    name. *)
Lemma k_pod_podtok r a b d : k r ["pod"; a; b] ≠ k r ["podtok"; d].
Proof. unfold k. intros H%str_app_inj_l. cbv in H. discriminate. Qed.
Lemma k_pod_by_user r a b d : k r ["pod"; a; b] ≠ k r ["pods:by-user"; d].
Proof. unfold k. intros H%str_app_inj_l. cbv in H. discriminate. Qed.
Lemma k_pod_all r a b : k r ["pod"; a; b] ≠ k r ["pods:all"].
Proof. unfold k. intros H%str_app_inj_l. cbv in H. discriminate. Qed.
Lemma k_podtok_by_user r d e : k r ["podtok"; d] ≠ k r ["pods:by-user"; e].
Proof. unfold k. intros H%str_app_inj_l. cbv in H. discriminate. Qed.
Lemma k_podtok_all r d : k r ["podtok"; d] ≠ k r ["pods:all"].
Proof. unfold k. intros H%str_app_inj_l. cbv in H. discriminate. Qed.
Lemma k_pod_active r a b d : k r ["pod"; a; b] ≠ k r ["active"; d].
Proof. unfold k. intros H%str_app_inj_l. cbv in H. discriminate. Qed.
Lemma k_pod_inflight r a b d : k r ["pod"; a; b] ≠ k r ["inflight"; d].
Proof. unfold k. intros H%str_app_inj_l. cbv in H. discriminate. Qed.

Lemma k_podtok_inj r n n' : k r ["podtok"; n] = k r ["podtok"; n'] → n = n'.
Proof. unfold k. intros H%str_app_inj_l. unfold Join in H. do 2 apply str_app_inj_l in H. done. Qed.

Lemma podKeyOf_eq r key key' : podKeyOf r key = podKeyOf r key' ↔ PodKey_Name key = PodKey_Name key'.
Proof.
  unfold podKeyOf, k, PodKey_Name, Join. split.
  - intros H%str_app_inj_l. do 2 apply str_app_inj_l in H.
    apply str_app_inj_len_r in H as [-> H]; [|by rewrite !str_length_app, !UserHash_length].
    apply str_app_inj_l in H. by rewrite H.
  - intros H. apply PodKey_Name_inj in H as [-> ->]. done.
Qed.

Lemma k_sess_by_pod r id n :
  IsMcpSessionID id = true → k r ["sess"; id] ≠ k r ["sess:by-pod"; n].
Proof.
  unfold IsMcpSessionID, k. intros Hid H%str_app_inj_l. bprop.
  apply HasPrefix_spec in H0 as [s ->]. cbv in H. discriminate.
Qed.

Hint Resolve k_pod_podtok k_pod_by_user k_pod_all k_podtok_by_user k_podtok_all
  k_pod_active k_pod_inflight not_eq_sym : rkeys.

(** The invariant: the cache is well formed, the records under pod keys carry
    the name of their key, and nonces have AES-GCM's size. *)
Record ok (r : Redis R) : Prop := {
  ok_mem : Memory.ok (mem r);
  ok_rec : ∀ key raw rec, view r !! podKeyOf r key = Some (RStr raw) →
    json_Unmarshal raw = Ok rec → pr_Name rec = PodKey_Name key;
  ok_nonce : ∀ i, length (nonces r i) = aead_NonceSize ∧ Forall is_byte (nonces r i) }.

(** The store answers reads. *)
Definition avail (r : Redis R) : Prop := ∀ key, ∃ o, redis_Get key (c r) = Ok o.

Lemma avail_Get r key : avail r → redis_Get key (c r) = Ok (rstr (view r !! key)).
Proof. intros H. destruct (H key) as [o Ho]. by rewrite Ho, (redis_Get_ok _ _ _ Ho). Qed.

Lemma ok_set_mem r m : ok r → Memory.ok m → ok (set_mem m r).
Proof. intros [? ? ?] ?. by split. Qed.

Lemma loadPod_cases key r :
  (∃ e, loadPod key r = (Err e, r)) ∨
  loadPod key r = (Err ErrNotFound, set_mem (Memory.DeletePod key (mem r)).2 r) ∨
  (∃ p, pod_Key p = key ∧ loadPod key r = (Ok p, set_mem (Memory.PutPod p (mem r)).2 r)).
Proof.
  unfold loadPod. repeat case_match; simplify_eq; eauto;
    right; right; eexists; (split; [|reflexivity]); done.
Qed.

Lemma ok_loadPod key r : ok r → ok (loadPod key r).2.
Proof.
  intros H. destruct (loadPod_cases key r) as [[e ->]|[->|(p & _ & ->)]]; cbn [snd]; [done|..];
    apply ok_set_mem; auto using Memory.ok_DeletePod, Memory.ok_PutPod, ok_mem.
Qed.

Lemma ok_GetPod key r : ok r → ok (GetPod key r).2.
Proof. intros H. unfold GetPod. repeat case_match; auto using ok_loadPod. Qed.

(** What a transaction of [PutPod] does to the keys the reads look at. *)
Definition put_record r p : podRecord :=
  let rec tag := mkPodRecord (pk_Subject (pod_Key p)) (pk_ServerType (pod_Key p)) (pod_Name p)
    (pod_Endpoint p) (pod_Phase p) (pod_CreatedAt p) (pod_ConfigHash p) tag in
  rec (podMAC r (rec None)).

Definition put_token r p : string :=
  match Cipher r with
  | None => pod_PodToken p
  | Some kek => AESGCM_Seal kek (nonces r (drawn r)) (pod_PodToken p)
  end.

Definition put_cmds r p : list rcmd :=
  [CSet (podKeyOf r (pod_Key p)) (json_Marshal (put_record r p)) 0;
   CSAdd (k r ["pods:by-user"; pk_Subject (pod_Key p)]) (pk_ServerType (pod_Key p));
   CSAdd (k r ["pods:all"]) (pk_ServerType (pod_Key p) +:+ "|" +:+ pk_Subject (pod_Key p))] ++
  (if String.eqb (pod_PodToken p) "" then [] else [CSet (k r ["podtok"; pod_Name p]) (put_token r p) 0]).

Lemma PutPod_cases p r :
  ∃ r0 err c', c r0 = c r ∧ prefix r0 = prefix r ∧ Cipher r0 = Cipher r ∧ macKey r0 = macKey r ∧
    mem r0 = mem r ∧ nonces r0 = nonces r ∧ redis_Exec (put_cmds r p) (c r) = (err, c') ∧
    PutPod p r = match err with
                 | Err e => (Err e, set_c c' r0)
                 | Ok _ => (Ok (), set_mem (Memory.PutPod p (mem r)).2 (set_c c' r0))
                 end.
Proof.
  unfold PutPod, put_cmds, put_record, put_token.
  destruct (String.eqb (pod_PodToken p) ""), (Cipher r) eqn:HC; cbn beta iota zeta;
    destruct (redis_Exec _ _) as [err c'] eqn:Hx;
    [exists r|exists r|exists (draw r)|exists r]; exists err, c'; split_and!; try done; by destruct err.
Qed.

Lemma put_lookup_pod r p m key :
  apply_cmds (put_cmds r p) m !! podKeyOf r key =
  if decide (PodKey_Name key = PodKey_Name (pod_Key p)) then Some (RStr (json_Marshal (put_record r p)))
  else m !! podKeyOf r key.
Proof.
  unfold put_cmds, apply_cmds. rewrite fold_left_app. cbn [fold_left apply_cmd].
  assert (∀ m', fold_left (λ m c, apply_cmd c m) (if String.eqb (pod_PodToken p) "" then []
    else [CSet (k r ["podtok"; pod_Name p]) (put_token r p) 0]) m' !! podKeyOf r key =
    m' !! podKeyOf r key) as ->.
  { intros m'. case_match; simpl; [done|]. rewrite lookup_insert_ne; unfold podKeyOf; eauto with rkeys. }
  rewrite (lookup_insert_ne _ (k r ["pods:all"])) by (unfold podKeyOf; eauto with rkeys).
  rewrite (lookup_insert_ne _ (k r ["pods:by-user"; _])) by (unfold podKeyOf; eauto with rkeys).
  case_decide as Hd.
  - apply (podKeyOf_eq r) in Hd. rewrite Hd. apply lookup_insert_eq.
  - apply lookup_insert_ne. rewrite podKeyOf_eq. congruence.
Qed.

Lemma put_lookup_tok r p m n :
  apply_cmds (put_cmds r p) m !! k r ["podtok"; n] =
  if decide (n = pod_Name p ∧ pod_PodToken p ≠ "") then Some (RStr (put_token r p))
  else m !! k r ["podtok"; n].
Proof.
  unfold put_cmds, apply_cmds. rewrite fold_left_app. cbn [fold_left apply_cmd].
  case_match eqn:Ht; bprop; cbn [fold_left apply_cmd].
  - rewrite !lookup_insert_ne by (unfold podKeyOf; eauto with rkeys).
    rewrite decide_False by naive_solver. done.
  - rewrite lookup_insert. case_decide as Hk.
    + apply k_podtok_inj in Hk as ->. by rewrite decide_True.
    + rewrite !lookup_insert_ne by (unfold podKeyOf; eauto with rkeys).
      rewrite decide_False; [done|]. intros [-> _]. done.
Qed.

Lemma redis_ok_PutPod p r : ok r → pod_wf p → ok (PutPod p r).2.
Proof.
  intros Hok [Hn _].
  destruct (PutPod_cases p r) as (r0 & err & c' & Hc & Hp & HC & Hm & Hmem & Hno & Hx & ->).
  assert (∀ r1, c r1 = c' → prefix r1 = prefix r → Memory.ok (mem r1) → nonces r1 = nonces r → ok r1) as Hgo.
  { intros r1 <- Hp1 Hm1 Hn1. split; [done| |rewrite Hn1; apply Hok].
    intros key raw rec. assert (podKeyOf r1 key = podKeyOf r key) as ->.
    { unfold podKeyOf, k. by rewrite Hp1. }
    assert (∀ m, m = view r ∨ m = apply_cmds (put_cmds r p) (view r) →
      m !! podKeyOf r key = Some (RStr raw) → json_Unmarshal raw = Ok rec → pr_Name rec = PodKey_Name key) as Hv.
    { intros m [->| ->]; [apply Hok|]. rewrite put_lookup_pod. case_decide as Hd; [|apply Hok].
      intros [= <-]. rewrite json_roundtrip. intros [= <-]. simpl. congruence. }
    apply Hv. destruct err as [[]|e].
    - right. by apply redis_Exec_ok in Hx.
    - by apply redis_Exec_err in Hx. }
  destruct err; apply Hgo; try done; cbn; rewrite ?Hmem; try (by apply Memory.ok_PutPod, Hok); by apply Hok.
Qed.

Definition del_cmds r key : list rcmd :=
  let name := PodKey_Name key in
  [CDel [podKeyOf r key; k r ["podtok"; name]; k r ["active"; name]; k r ["inflight"; name]];
   CSRem (k r ["pods:by-user"; pk_Subject key]) (pk_ServerType key);
   CSRem (k r ["pods:all"]) (pk_ServerType key +:+ "|" +:+ pk_Subject key)].

Lemma srem_lookup_ne key x m i : i ≠ key → apply_cmd (CSRem key x) m !! i = m !! i.
Proof. intros. simpl. repeat case_match; rewrite ?lookup_insert_ne; done. Qed.

Lemma del_lookup_pod r key m key' :
  apply_cmds (del_cmds r key) m !! podKeyOf r key' =
  if decide (PodKey_Name key' = PodKey_Name key) then None else m !! podKeyOf r key'.
Proof.
  unfold del_cmds, apply_cmds. cbn [fold_left].
  rewrite !srem_lookup_ne by (unfold podKeyOf; eauto with rkeys). cbn [apply_cmd foldr].
  case_decide as Hd.
  - apply (podKeyOf_eq r) in Hd. rewrite Hd. apply lookup_delete_eq.
  - rewrite lookup_delete_ne by (rewrite podKeyOf_eq; congruence).
    rewrite !lookup_delete_ne by (unfold podKeyOf; eauto with rkeys). done.
Qed.

Lemma redis_ok_DeletePod key r : ok r → ok (DeletePod key r).2.
Proof.
  intros Hok. unfold DeletePod. fold (del_cmds r key).
  destruct (redis_Exec (del_cmds r key) (c r)) as [err c'] eqn:Hx. cbn [snd].
  apply ok_set_mem; [|apply Memory.ok_DeletePod, Hok].
  split; [apply Hok| |apply Hok]. cbn. intros key' raw rec.
  change (podKeyOf (set_c c' r) key') with (podKeyOf r key').
  assert (redis_view c' = view r ∨ redis_view c' = apply_cmds (del_cmds r key) (view r)) as Hv.
  { destruct err as [[]|e]; [right; by apply redis_Exec_ok in Hx|by apply redis_Exec_err in Hx]. }
  destruct Hv as [->| ->]; [apply Hok|]. rewrite del_lookup_pod. case_decide; [done|apply Hok].
Qed.

(** The read path of a record the adapter wrote. *)
Lemma loadPod_written key r rec tok :
  avail r → view r !! podKeyOf r key = Some (RStr (json_Marshal rec)) →
  pr_MAC rec = podMAC r rec →
  view r !! k r ["podtok"; pr_Name rec] = Some (RStr tok) →
  (loadPod key r).1 =
    match Cipher r with
    | None => Ok (mkPod key (pr_Name rec) (pr_Endpoint rec) (pr_Phase rec) (pr_CreatedAt rec) (pr_ConfigHash rec) tok)
    | Some kek => match AESGCM_Open kek tok with
      | Ok t => Ok (mkPod key (pr_Name rec) (pr_Endpoint rec) (pr_Phase rec) (pr_CreatedAt rec) (pr_ConfigHash rec) t)
      | Err e => Err (EWrap "pod token" e)
      end
    end.
Proof.
  intros Hav Hrec Hmac Htok. unfold loadPod.
  rewrite avail_Get, Hrec by done. cbn [rstr]. rewrite json_roundtrip, Hmac, MACEqual_refl. cbn [negb].
  rewrite avail_Get, Htok by done. cbn [rstr]. repeat case_match; simplify_eq; done.
Qed.

(** A written record, read back by any replica with the same configuration. *)
Lemma load_after_put p r r2 :
  ok r → pod_wf p → view r2 = apply_cmds (put_cmds r p) (view r) → avail r2 →
  prefix r2 = prefix r → Cipher r2 = Cipher r → macKey r2 = macKey r →
  (loadPod (pod_Key p) r2).1 = Ok p.
Proof.
  intros Hok [Hn Ht] Hx Hav Hp HC Hm.
  assert (∀ parts, k r2 parts = k r parts) as Hk by (intros; unfold k; by rewrite Hp).
  assert (∀ key, podKeyOf r2 key = podKeyOf r key) as Hpk by (intros; apply Hk).
  assert (∀ rec, podMAC r2 rec = podMAC r rec) as Hmac by (intros; unfold podMAC; by rewrite Hm).
  rewrite (loadPod_written _ r2 (put_record r p) (put_token r p)).
  - unfold put_token. rewrite HC. destruct (Cipher r) as [kek|]; [|by destruct p].
    rewrite AESGCM_roundtrip by apply Hok. by destruct p.
  - done.
  - rewrite Hpk, Hx, put_lookup_pod. by rewrite decide_True.
  - rewrite Hmac. done.
  - cbn [put_record pr_Name]. rewrite Hk, Hx, put_lookup_tok. by rewrite decide_True.
Qed.

Lemma put_get p r r' :
  ok r → pod_wf p → PutPod p r = (Ok (), r') → avail r' → ∃ r'', GetPod (pod_Key p) r' = (Ok p, r'').
Proof.
  intros Hok Hwf Hput Hav.
  destruct (PutPod_cases p r) as (r0 & err & c' & Hc & Hp & HC & Hm & Hmem & Hno & Hx & He).
  rewrite He in Hput. destruct err as [[]|]; [|done]. injection Hput as <-.
  apply redis_Exec_ok in Hx.
  unfold GetPod, Memory.GetPod. cbn [mem set_mem snd Memory.PutPod Memory.pods]. rewrite lookup_insert_eq.
  case_bool_decide; [by eauto|].
  pose proof (load_after_put p r (set_mem _ (set_c c' r0)) Hok Hwf Hx Hav Hp HC Hm) as Hload.
  destruct (loadPod _ _) as [res r'']. simpl in Hload. subst. eauto.
Qed.

Lemma delete_get key r r' :
  DeletePod key r = (Ok (), r') → avail r' →
  ∃ r'', GetPod key r' = (Err ErrNotFound, r'').
Proof.
  unfold DeletePod. fold (del_cmds r key).
  destruct (redis_Exec (del_cmds r key) (c r)) as [err c'] eqn:Hx. intros [= -> <-] Hav.
  apply redis_Exec_ok in Hx. set (r' := set_mem _ _) in *.
  assert (loadPod key r' = (Err ErrNotFound, set_mem (Memory.DeletePod key (mem r')).2 r')) as Hl.
  { unfold loadPod. rewrite avail_Get by done. change (podKeyOf r' key) with (podKeyOf r key).
    change (view r') with (redis_view c'). rewrite Hx, del_lookup_pod, decide_True; done. }
  assert (Memory.pods (mem r') !! key = None) as Hm.
  { unfold r'; cbn. case_match; cbn; apply lookup_delete_eq. }
  unfold GetPod, Memory.GetPod. rewrite Hm, Hl. eauto.
Qed.

(** The result of [loadPod] depends on two keys of the store only. *)
Lemma loadPod_frame key r r' :
  avail r → avail r' → prefix r' = prefix r → Cipher r' = Cipher r → macKey r' = macKey r →
  (∀ key raw rec, view r !! podKeyOf r key = Some (RStr raw) →
    json_Unmarshal raw = Ok rec → pr_Name rec = PodKey_Name key) →
  view r' !! podKeyOf r key = view r !! podKeyOf r key →
  view r' !! k r ["podtok"; PodKey_Name key] = view r !! k r ["podtok"; PodKey_Name key] →
  (loadPod key r').1 = (loadPod key r).1.
Proof.
  intros Hav Hav' Hp HC Hm Hrec Hv1 Hv2. unfold loadPod.
  assert (∀ parts, k r' parts = k r parts) as Hk by (intros; unfold k; by rewrite Hp).
  assert (podKeyOf r' key = podKeyOf r key) as -> by apply Hk.
  rewrite !(avail_Get r), !(avail_Get r'), Hv1 by done.
  destruct (view r !! podKeyOf r key) as [[raw|]|] eqn:E; simpl; [|done..].
  destruct (json_Unmarshal raw) as [rec|] eqn:Er; [|done].
  unfold podMAC. rewrite Hm, HC. case_match; [done|].
  rewrite (Hrec _ _ _ E Er), !avail_Get by done. rewrite Hk, Hv2.
  repeat case_match; simplify_eq; done.
Qed.

Lemma put_get_ne p key r r' :
  ok r → pod_wf p → PodKey_Name key ≠ pod_Name p → PutPod p r = (Ok (), r') →
  avail r → avail r' → (GetPod key r').1 = (GetPod key r).1.
Proof.
  intros Hok [Hn Ht] Hne Hput Hav Hav'.
  destruct (PutPod_cases p r) as (r0 & err & c' & Hc & Hp & HC & Hm & Hmem & Hno & Hx & He).
  rewrite He in Hput. destruct err as [[]|]; [|done]. injection Hput as <-.
  apply redis_Exec_ok in Hx. set (r' := set_mem _ _) in *.
  assert ((loadPod key r').1 = (loadPod key r).1) as Hl.
  { apply loadPod_frame; [done|done|exact Hp|exact HC|exact Hm|apply Hok|..]; change (view r') with (redis_view c'); rewrite Hx.
    - rewrite put_lookup_pod, decide_False by congruence. done.
    - rewrite put_lookup_tok, decide_False by naive_solver. done. }
  assert (Memory.pods (mem r') !! key = Memory.pods (mem r) !! key) as Hmem'.
  { cbn. rewrite lookup_insert_ne by congruence. done. }
  unfold GetPod, Memory.GetPod. rewrite Hmem'. destruct (Memory.pods (mem r) !! key); [|done].
  by destruct (bool_decide _).
Qed.

Lemma put_get_session s r r' :
  IsMcpSessionID (ms_ID s) = true → PutSession s r = (Ok (), r') → avail r' →
  GetSession (ms_ID s) r' = (Ok s, r').
Proof.
  intros Hid. unfold PutSession. destruct (redis_Exec _ _) as [err c'] eqn:Hx. intros [= -> <-] Hav.
  apply redis_Exec_ok in Hx. unfold GetSession. rewrite avail_Get by done.
  change (k (set_c c' r)) with (k r). cbn [c set_c]. rewrite Hx. unfold apply_cmds. cbn [fold_left apply_cmd].
  rewrite lookup_insert_ne by (by apply not_eq_sym, k_sess_by_pod).
  rewrite lookup_insert_eq. simpl. rewrite json_roundtrip. simpl.
  change (sessionMAC (set_c c' r) s) with (sessionMAC r s). by rewrite MACEqual_refl.
Qed.

#[global] Program Instance laws : RoutingTableLaws (Redis R) := {| rt_ok := ok; rt_avail := avail |}.
Next Obligation. intros. by apply ok_GetPod. Qed.
Next Obligation. intros. by apply redis_ok_PutPod. Qed.
Next Obligation. intros. by apply redis_ok_DeletePod. Qed.
Next Obligation.
  unfold Contracts.GetPod; simpl. unfold GetPod. intros key r p r' Hok.
  assert (∀ p r', loadPod key r = (Ok p, r') → pod_Key p = key) as Hl.
  { intros ? ?. destruct (loadPod_cases key r) as [[e ->]|[->|(q & Hq & ->)]]; naive_solver. }
  unfold Memory.GetPod. repeat case_match; intros; simplify_eq; eauto.
  destruct (ok_mem _ Hok). eauto.
Qed.
Next Obligation. intros. eapply put_get; eauto. Qed.
Next Obligation.
  intros key r r' _ Hd Hav. destruct (delete_get _ _ _ Hd Hav) as [r'' H]. by exists ErrNotFound, r''.
Qed.
Next Obligation. intros. eapply put_get_ne; eauto. Qed.
Next Obligation. intros s r r' _ Hid Hp Hav. eexists. by apply put_get_session in Hp. Qed.

(** ** Properties *)

Lemma PutPod_Ok p r r' :
  PutPod p r = (Ok (), r') →
  view r' = apply_cmds (put_cmds r p) (view r) ∧ prefix r' = prefix r ∧ Cipher r' = Cipher r ∧
  macKey r' = macKey r ∧ mem r' = (Memory.PutPod p (mem r)).2.
Proof.
  destruct (PutPod_cases p r) as (r0 & err & c' & Hc & Hp & HC & Hm & Hmem & Hno & Hx & ->).
  destruct err as [[]|]; [|done]. intros [= <-]. apply redis_Exec_ok in Hx. done.
Qed.

(** C18. A pod one gateway replica wrote is the pod every other replica of the
    deployment routes to: with a cold (or not yet Ready) cache entry the other
    replica reads back the same key, name, endpoint, phase, creation time,
    configuration hash and, through the sealed store, the same pod token. *)
Theorem PutPod_visible_to_replicas p r r' r2 :
  ok r → pod_wf p → PutPod p r = (Ok (), r') →
  same_deployment r' r2 → avail r2 →
  (∀ q, Memory.pods (mem r2) !! pod_Key p = Some q → pod_Phase q ≠ PhaseReady) →
  (GetPod (pod_Key p) r2).1 = Ok p.
Proof.
  intros Hok Hwf Hput (Hc & Hp & HC & Hm) Hav Hcold.
  apply PutPod_Ok in Hput as (Hv & Hp' & HC' & Hm' & _).
  assert ((loadPod (pod_Key p) r2).1 = Ok p) as Hl.
  { apply (load_after_put p r); [done|done|by rewrite Hc|done|congruence..]. }
  unfold GetPod, Memory.GetPod. destruct (Memory.pods (mem r2) !! pod_Key p) eqn:E; [|done].
  rewrite bool_decide_eq_false_2; eauto.
Qed.


(** The tag does not bind the record to the key it is stored under: a
    tagged record of one user, copied under another user's pod key, is returned
    to that other user with the first user's endpoint and pod token.  (The field
    comment of [macKey] says a store compromise cannot point a user at another
    pod.) *)
Theorem GetPod_accepts_copied_record victim key r p tok :
  avail r → pod_wf p → pod_Key p = victim →
  Memory.pods (mem r) !! key = None →
  view r !! podKeyOf r key = Some (RStr (json_Marshal (put_record r p))) →
  view r !! k r ["podtok"; PodKey_Name victim] = Some (RStr tok) →
  match Cipher r with None => tok = pod_PodToken p | Some kek => AESGCM_Open kek tok = Ok (pod_PodToken p) end →
  (GetPod key r).1 = Ok (mkPod key (PodKey_Name victim) (pod_Endpoint p) (pod_Phase p)
                           (pod_CreatedAt p) (pod_ConfigHash p) (pod_PodToken p)).
Proof.
  intros Hav [Hn Ht] <- Hcold Hrec Htok Hopen. unfold GetPod, Memory.GetPod. rewrite Hcold.
  rewrite (loadPod_written _ _ (put_record r p) tok); [|done|done|done|by cbn [put_record pr_Name]; rewrite Hn].
  cbn [put_record pr_Name pr_Endpoint pr_Phase pr_CreatedAt pr_ConfigHash]. rewrite Hn.
  destruct (Cipher r); [by rewrite Hopen|by subst].
Qed.

(** Two users whose subjects share the 32-bit user hash share one pod record:
    once the pod of the first is stored, the second user's lookup returns the
    first user's endpoint and pod token under the second user's key. *)
Theorem UserHash_collision_crosses_users p r r' key :
  ok r → pod_wf p → PutPod p r = (Ok (), r') → avail r' →
  key ≠ pod_Key p → PodKey_Name key = PodKey_Name (pod_Key p) →
  Memory.pods (mem r) !! key = None →
  (GetPod key r').1 = Ok (mkPod key (pod_Name p) (pod_Endpoint p) (pod_Phase p)
                            (pod_CreatedAt p) (pod_ConfigHash p) (pod_PodToken p)).
Proof.
  intros Hok Hwf Hput Hav Hne Hname Hcold.
  destruct (PutPod_Ok _ _ _ Hput) as (Hv & Hp & HC & Hm & Hmem).
  unfold GetPod, Memory.GetPod. rewrite Hmem. cbn [snd Memory.PutPod Memory.pods].
  rewrite lookup_insert_ne, Hcold by done.
  pose proof (load_after_put p r r' Hok Hwf Hv Hav Hp HC Hm) as Hl.
  unfold loadPod in Hl |- *.
  replace (podKeyOf r' key) with (podKeyOf r' (pod_Key p)) by (symmetry; by apply podKeyOf_eq).
  repeat case_match; simplify_eq/=; try done; by rewrite <- Hl.
Qed.

(** A replica that cached a pod as Ready keeps returning it, whatever another
    replica does to the shared store. *)
Lemma Ready_cache_is_not_revalidated key r p c' :
  Memory.pods (mem r) !! key = Some p → pod_Phase p = PhaseReady →
  GetPod key (set_c c' r) = (Ok p, set_c c' r).
Proof.
  intros Hm Hr. unfold GetPod, Memory.GetPod. cbn [mem set_c]. rewrite Hm.
  by rewrite bool_decide_eq_true_2.
Qed.

(** *** In-flight counters and activity times *)

Definition counter r n : Z := default 0 (rstr (view r !! k r ["inflight"; n]) ≫= Atoi).

(** Transactions never fail (their errors are dropped by [InFlight]). *)
Definition exec_up : Prop := ∀ (x : R) cs, (redis_Exec cs x).1 = Ok ().

Lemma exec_view (x : R) cs : exec_up → redis_view (redis_Exec cs x).2 = apply_cmds cs (redis_view x).
Proof.
  intros Hup. specialize (Hup x cs). destruct (redis_Exec cs x) as [[[]|] x'] eqn:E; [|done].
  by apply redis_Exec_ok in E.
Qed.

Lemma counter_set_c r n x z :
  in_int64 z = true → redis_view x !! k r ["inflight"; n] = Some (RStr (Itoa z)) →
  counter (set_c x r) n = z.
Proof.
  intros Hz Hx. unfold counter. change (k (set_c x r)) with (k r). cbn [c set_c].
  rewrite Hx. cbn [rstr mbind option_bind]. by rewrite Atoi_Itoa.
Qed.

Lemma InFlight_step n d r z r' :
  exec_up → 0 ≤ counter r n →
  InFlight n d r = (Ok z, r') →
  z = Z.max 0 (counter r n + d) ∧ counter r' n = z.
Proof.
  intros Hup Hpos. unfold InFlight. destruct (Z.eqb_spec d 0) as [->|Hd].
  - destruct (redis_Get _ _) as [[v|]|] eqn:E; [|..|done]; apply redis_Get_ok in E; intros [= <- <-];
      unfold counter in *; rewrite <- E in *; cbn [mbind option_bind default] in *.
    + split; [lia|]. change (k (set_c _ r)) with (k r). cbn [c set_c].
      rewrite exec_view by done. cbn. change (prefix r +:+ "inflight:" +:+ n) with (k r ["inflight"; n]).
      cbn in E. change (prefix r +:+ "inflight:" +:+ n) with (k r ["inflight"; n]) in E. by rewrite <- E.
    + split; [lia|done].
  - destruct (redis_IncrBy _ _ _) as [[z'|] x] eqn:E; [|done]. apply redis_IncrBy_ok in E as (Hz & Hr & Hv).
    fold (counter r n) in Hz. destruct (Z.ltb_spec z' 0); intros [= <- <-]; (split; [lia|]).
    + rewrite <- (counter_set_c r n (redis_Exec [CExpire (k r ["inflight"; n]) Hour]
        (redis_Exec [CSet (k r ["inflight"; n]) "0" Hour] x).2).2 0); [done|done|].
      rewrite !exec_view by done. cbn [apply_cmds fold_left apply_cmd]. by rewrite lookup_insert_eq.
    + rewrite <- (counter_set_c r n (redis_Exec [CExpire (k r ["inflight"; n]) Hour] x).2 z'); [done|done|].
      rewrite exec_view by done. cbn [apply_cmds fold_left apply_cmd]. rewrite Hv. by rewrite lookup_insert_eq.
Qed.


(** Activity times survive the store with second precision: after a
    successful touch the table reports a time at most one second before it and
    never after it, for every time whose Unix seconds fit int64. *)
Theorem Touch_LastActive n at_ r r' :
  in_int64 (Unix at_) = true → Touch n at_ r = (Ok (), r') → avail r' →
  ∃ t, LastActive n r' = (Ok t, r') ∧ at_ - Second < t ≤ at_.
Proof.
  intros Hat. unfold Touch. destruct (redis_Exec _ _) as [err x] eqn:E. intros [= -> <-] Hav.
  apply redis_Exec_ok in E. exists (time_Unix (Unix at_)). split.
  - unfold LastActive. rewrite avail_Get by done. change (k (set_c x r)) with (k r). cbn [c set_c].
    rewrite E. cbn [apply_cmds fold_left apply_cmd]. rewrite lookup_insert_eq. cbn [rstr].
    by rewrite Atoi_Itoa.
  - unfold time_Unix, Unix. pose proof (Z.div_mod at_ Second). pose proof (Z.mod_pos_bound at_ Second).
    unfold Second in *. lia.
Qed.
End Laws.
End Redis.

(** ** A concrete store and the witnesses *)

Definition toy_IncrBy (key : string) (d : Z) (m : gmap string rval) : result Z * gmap string rval :=
  let n := default 0 (rstr (m !! key) ≫= Atoi) + d in
  if in_int64 n then (Ok n, <[key := RStr (Itoa n)]> m) else (Err (EMsg "ERR increment would overflow"), m).

#[global] Instance toy_redis : RedisAPI (gmap string rval) := {|
  redis_Get := λ key m, Ok (rstr (m !! key));
  redis_SMembers := λ key m, Ok (elements (rset (m !! key)));
  redis_Exec := λ cs m, (Ok (), apply_cmds cs m);
  redis_IncrBy := toy_IncrBy |}.

#[global] Program Instance toy_redis_laws : RedisLaws (gmap string rval) := {| redis_view := id |}.
Next Obligation. intros k r o [= <-]. done. Qed.
Next Obligation. intros k r l [= <-] x. by rewrite elem_of_elements. Qed.
Next Obligation. intros cs r r' [= <-]. done. Qed.
Next Obligation. intros cs r e r' [=]. Qed.
Next Obligation.
  simpl. unfold toy_IncrBy. intros k d r n r' H. case_match; [|done]. by injection H as <- <-.
Qed.

Definition phase_code (p : Phase) : nat :=
  match p with
  | PhaseUnset => 0 | PhasePending => 1 | PhaseStarting => 2 | PhaseReady => 3
  | PhaseIdle => 4 | PhaseTerminating => 5 | PhaseFailed => 6 | PhaseGone => 7
  end.
Definition code_phase (n : nat) : Phase :=
  match n with
  | 0 => PhaseUnset | 1 => PhasePending | 2 => PhaseStarting | 3 => PhaseReady
  | 4 => PhaseIdle | 5 => PhaseTerminating | 6 => PhaseFailed | _ => PhaseGone
  end%nat.
#[global] Program Instance Phase_countable : Countable Phase := inj_countable' phase_code code_phase _.
Next Obligation. by intros []. Qed.

#[global] Instance podRecord_eq_dec : EqDecision podRecord.
Proof. solve_decision. Defined.
#[global] Program Instance podRecord_countable : Countable podRecord :=
  inj_countable' (λ r, (pr_Subject r, pr_ServerType r, pr_Name r, pr_Endpoint r, pr_Phase r,
                        pr_CreatedAt r, pr_ConfigHash r, pr_MAC r))
    (λ '(a, b, c, d, e, f, g, h), mkPodRecord a b c d e f g h) _.
Next Obligation. by intros []. Qed.
#[global] Instance sessionRecord_eq_dec : EqDecision sessionRecord.
Proof. solve_decision. Defined.
#[global] Program Instance sessionRecord_countable : Countable sessionRecord :=
  inj_countable' (λ r, let s := sr_Session r in
      (ms_ID s, ms_Subject s, ms_ServerType s, ms_PodName s, ms_UpstreamSessionID s, ms_ClientName s,
       ms_ProtocolVersion s, ms_Lazy s, ms_CreatedAt s, sr_MAC r))
    (λ '(a, b, c, d, e, f, g, h, i, j), mkSessionRecord (mkMcpSession a b c d e f g h i) j) _.
Next Obligation. by intros [[] ]. Qed.

#[global] Instance podRecord_codec : JSONCodec podRecord := countable_codec podRecord.
#[global] Instance sessionRecord_codec : JSONCodec sessionRecord := countable_codec sessionRecord.

Module RedisWitness.
Import Redis.

Definition r0 : Redis (gmap string rval) :=
  NewRedis ∅ "jug:" (12 * Hour) (Some (replicate 32 7)) (Some (replicate 32 9)) (λ _, replicate 12 5).

Lemma r0_ok : ok r0.
Proof.
  split.
  - apply Memory.ok_NewMemory.
  - intros key raw rec. cbn. by rewrite lookup_empty.
  - intros i. split; [done|]. apply Forall_replicate. unfold is_byte. lia.
Qed.

Lemma toy_avail (r : Redis (gmap string rval)) : avail r.
Proof. intros key. eexists. reflexivity. Qed.

Definition alice : PodKey := mkPodKey "alice" "jira".
Definition pod_of (key : PodKey) : Pod :=
  mkPod key (PodKey_Name key) "https://10.0.0.7:8443" PhaseReady 1000 "cafe" "pod-token".

Lemma pod_of_wf key : pod_wf (pod_of key).
Proof. done. Qed.

(** Alice's pod is written by one replica and read by another with an empty cache. *)
Lemma PutPod_visible_to_replicas_witness :
  let r' := (PutPod (pod_of alice) r0).2 in
  (GetPod alice (set_mem Memory.NewMemory r')).1 = Ok (pod_of alice).
Proof.
  intros r'. apply (PutPod_visible_to_replicas (pod_of alice) r0 r').
  - apply r0_ok.
  - apply pod_of_wf.
  - reflexivity.
  - done.
  - apply toy_avail.
  - intros q. cbn. by rewrite lookup_empty.
Defined.


(** The store holds Alice's pod; Mallory's record is a copy of Alice's. *)
Definition mallory : PodKey := mkPodKey "mallory" "jira".
Definition r_copied : Redis (gmap string rval) :=
  let r := set_mem Memory.NewMemory (PutPod (pod_of alice) r0).2 in
  set_c (<[podKeyOf r mallory := RStr (json_Marshal (put_record r (pod_of alice)))]> (c r)) r.

Lemma GetPod_accepts_copied_record_witness :
  (GetPod mallory r_copied).1 =
    Ok (mkPod mallory (PodKey_Name alice) "https://10.0.0.7:8443" PhaseReady 1000 "cafe" "pod-token").
Proof.
  apply (GetPod_accepts_copied_record alice mallory r_copied (pod_of alice) (put_token r0 (pod_of alice))).
  - apply toy_avail.
  - apply pod_of_wf.
  - reflexivity.
  - reflexivity.
  - vm_compute. reflexivity.
  - vm_compute. reflexivity.
  - vm_compute. reflexivity.
Defined.

Lemma UserHash_collision_crosses_users_witness :
  let p := pod_of (mkPodKey collide1 "jira") in
  let key := mkPodKey collide2 "jira" in
  (GetPod key (PutPod p r0).2).1 =
    Ok (mkPod key (pod_Name p) "https://10.0.0.7:8443" PhaseReady 1000 "cafe" "pod-token").
Proof.
  intros p key. apply (UserHash_collision_crosses_users p r0 (PutPod p r0).2 key).
  - apply r0_ok.
  - apply pod_of_wf.
  - reflexivity.
  - apply toy_avail.
  - done.
  - symmetry. apply PodKey_Name_collision.
  - reflexivity.
Defined.


Lemma Touch_LastActive_witness :
  let at_ := time_Unix 1700000000 + 999 in
  ∃ t, LastActive "jira-1" (Touch "jira-1" at_ r0).2 = (Ok t, (Touch "jira-1" at_ r0).2) ∧
    at_ - Second < t ≤ at_.
Proof.
  intros at_. apply (Touch_LastActive "jira-1" at_ r0).
  - reflexivity.
  - reflexivity.
  - apply toy_avail.
Defined.
End RedisWitness.
