(* ===== verification/RedisExpiry.v ===== *)
(** * The Redis routing table under time

    RoutingRedis.v sees the server as a set of laws without a clock.  Here it is a
    server with one: keys carry deadlines, SET with a time to live and EXPIRE set
    them, SADD and INCRBY keep them, and an expired key is absent to every
    command (the documented behaviour of these commands).  On it, the operations
    of routing/redis/adapter.go are followed over any passage of time: MCP
    sessions live for the maximal session age, the index by pod outlives every
    session it names, so that dropping a pod's sessions is complete, and the
    in-flight counter expires when nobody reads it. *)

From S2P Require Import Prelude GoStd Sha256 Config Core Fixtures Contracts RoutingMemory RoutingRedis.

Local Open Scope Z_scope.
Import Redis.

(** ** The server *)

(** Nanoseconds, and the keys with their values and deadlines. *)
Record tredis := mkTredis { tr_now : Z; tr_keys : gmap string (rval * option Z) }.

Definition alive (now : Z) (d : option Z) : bool := match d with None => true | Some t => now <? t end.
(** The entry of a key unless it has expired. *)
Definition entry (k : string) (s : tredis) : option (rval * option Z) :=
  match tr_keys s !! k with Some (v, d) => if alive (tr_now s) d then Some (v, d) else None | None => None end.
Definition put (k : string) (v : rval) (d : option Z) (s : tredis) : tredis :=
  mkTredis (tr_now s) (<[k := (v, d)]> (tr_keys s)).
Definition del (k : string) (s : tredis) : tredis := mkTredis (tr_now s) (delete k (tr_keys s)).
Definition tick (dt : Z) (s : tredis) : tredis := mkTredis (tr_now s + dt) (tr_keys s).

Definition WRONGTYPE : gerror := EMsg "WRONGTYPE Operation against a key holding the wrong kind of value".

(** One command: a command on a key of the wrong type fails and does nothing; an
    empty set is no key; EXPIRE with a time that is not positive deletes. *)
Definition tcmd (cmd : rcmd) (s : tredis) : result () * tredis :=
  match cmd with
  | CSet k v ttl => (Ok (), put k (RStr v) (if ttl =? 0 then None else Some (tr_now s + ttl)) s)
  | CDel ks => (Ok (), foldr del s ks)
  | CSAdd k m =>
      match entry k s with
      | Some (RSet x, d) => (Ok (), put k (RSet ({[m]} ∪ x)) d s)
      | Some (RStr _, _) => (Err WRONGTYPE, s)
      | None => (Ok (), put k (RSet {[m]}) None s)
      end
  | CSRem k m =>
      match entry k s with
      | Some (RSet x, d) => (Ok (), if decide (x ∖ {[m]} = ∅) then del k s else put k (RSet (x ∖ {[m]})) d s)
      | Some (RStr _, _) => (Err WRONGTYPE, s)
      | None => (Ok (), s)
      end
  | CExpire k ttl =>
      match entry k s with
      | Some (v, _) => (Ok (), if 0 <? ttl then put k v (Some (tr_now s + ttl)) s else del k s)
      | None => (Ok (), s)
      end
  end.

(** A transaction runs every command and reports the first that failed. *)
Fixpoint texec (cmds : list rcmd) (s : tredis) : result () * tredis :=
  match cmds with
  | [] => (Ok (), s)
  | cmd :: cmds =>
      let '(r, s) := tcmd cmd s in
      let '(rs, s) := texec cmds s in (match r with Err e => Err e | Ok _ => rs end, s)
  end.

#[export] Instance tredis_api : RedisAPI tredis := {|
  redis_Get k s := match entry k s with Some (RStr v, _) => Ok (Some v) | Some (RSet _, _) => Err WRONGTYPE | None => Ok None end;
  redis_SMembers k s := match entry k s with Some (RSet x, _) => Ok (elements x) | Some (RStr _, _) => Err WRONGTYPE | None => Ok [] end;
  redis_Exec := texec;
  redis_IncrBy k d s :=
    match entry k s with
    | Some (RSet _, _) => (Err WRONGTYPE, s)
    | None => if in_int64 d then (Ok d, put k (RStr (Itoa d)) None s) else (Err (EMsg "ERR increment or decrement would overflow"), s)
    | Some (RStr v, dl) =>
        match Atoi v with
        | None => (Err (EMsg "ERR value is not an integer or out of range"), s)
        | Some n => if in_int64 (n + d) then (Ok (n + d), put k (RStr (Itoa (n + d))) dl s)
                    else (Err (EMsg "ERR increment or decrement would overflow"), s)
        end
    end |}.

(** ** What a command leaves alone *)

Lemma entry_put_eq k v d s : alive (tr_now s) d = true → entry k (put k v d s) = Some (v, d).
Proof. intros H. unfold entry, put. cbn. by rewrite lookup_insert_eq, H. Qed.
Lemma entry_put_ne k k' v d s : k ≠ k' → entry k (put k' v d s) = entry k s.
Proof. intros H. unfold entry, put. cbn. by rewrite lookup_insert_ne by done. Qed.
Lemma entry_del_eq k s : entry k (del k s) = None.
Proof. unfold entry, del. cbn. by rewrite lookup_delete_eq. Qed.
Lemma entry_del_ne k k' s : k ≠ k' → entry k (del k' s) = entry k s.
Proof. intros H. unfold entry, del. cbn. by rewrite lookup_delete_ne by done. Qed.
Lemma entry_dels k ks s : entry k (foldr del s ks) = if decide (k ∈ ks) then None else entry k s.
Proof.
  induction ks as [|k' ks IH]; cbn [foldr]; [by rewrite decide_False by apply not_elem_of_nil|].
  destruct (decide (k = k')) as [->|Hne]; [by rewrite entry_del_eq, decide_True by left|].
  rewrite entry_del_ne, IH by done. destruct (decide (k ∈ ks)), (decide (k ∈ k' :: ks)) as [Hin|Hin]; try done.
  - destruct Hin. by right.
  - by apply elem_of_cons in Hin as [?|?].
Qed.
Lemma now_dels ks s : tr_now (foldr del s ks) = tr_now s.
Proof. by induction ks. Qed.

Definition cmd_keys (cmd : rcmd) : list string :=
  match cmd with CSet k _ _ | CSAdd k _ | CSRem k _ | CExpire k _ => [k] | CDel ks => ks end.

Lemma tcmd_frame cmd s k : k ∉ cmd_keys cmd → entry k (tcmd cmd s).2 = entry k s.
Proof.
  destruct cmd as [k' v ttl|ks|k' m|k' m|k' ttl]; cbn [cmd_keys tcmd]; rewrite ?list_elem_of_singleton; intros Hk; cbn [snd].
  - by apply entry_put_ne.
  - by rewrite entry_dels, decide_False.
  - destruct (entry k' s) as [[[] ?]|]; cbn [snd]; try done; by apply entry_put_ne.
  - destruct (entry k' s) as [[[] ?]|]; cbn [snd]; try done. destruct (decide _); [by apply entry_del_ne|by apply entry_put_ne].
  - destruct (entry k' s) as [[? ?]|]; cbn [snd]; try done. destruct (0 <? ttl); [by apply entry_put_ne|by apply entry_del_ne].
Qed.
Lemma tcmd_now cmd s : tr_now (tcmd cmd s).2 = tr_now s.
Proof.
  destruct cmd; cbn [tcmd]; repeat (case_match; try done); cbn; try done. apply now_dels.
Qed.

Lemma texec_frame cmds s k : Forall (λ cmd, k ∉ cmd_keys cmd) cmds → entry k (texec cmds s).2 = entry k s.
Proof.
  intros Hall. revert s. induction Hall as [|cmd cmds Hc Hall IH]; intros s; [done|]. cbn [texec].
  pose proof (tcmd_frame cmd s k Hc) as Hf. destruct (tcmd cmd s) as [r s1]. specialize (IH s1).
  destruct (texec cmds s1) as [rs s2]. cbn in *. by rewrite IH, Hf.
Qed.
Lemma texec_now cmds s : tr_now (texec cmds s).2 = tr_now s.
Proof.
  revert s. induction cmds as [|cmd cmds IH]; intros s; [done|]. cbn [texec]. pose proof (tcmd_now cmd s) as Hn.
  destruct (tcmd cmd s) as [r s1]. specialize (IH s1). destruct (texec cmds s1). cbn in *. congruence.
Qed.

(** ** Sessions and their index *)

Section Sessions.
Context {aead : AEAD} {jpod : JSONCodec podRecord} {jsess : JSONCodec sessionRecord}.
Implicit Types r : Redis tredis.

(** Keys of the two families, and that no other family meets them. *)
Definition sessKey r (id : string) : string := k r ["sess"; id].
Definition indexKey r (pod : string) : string := k r ["sess:by-pod"; pod].
Definition sess_family r (key : string) : Prop := ∃ x, key = prefix r +:+ "sess:" +:+ x.

Lemma sessKey_family r id : sess_family r (sessKey r id).
Proof. by exists id. Qed.
Lemma indexKey_family r pod : sess_family r (indexKey r pod).
Proof. by exists ("by-pod:" +:+ pod). Qed.
Lemma sessKey_inj r id id' : sessKey r id = sessKey r id' → id = id'.
Proof. unfold sessKey, k. intros H%str_app_inj_l. by injection H. Qed.
Lemma indexKey_inj r p p' : indexKey r p = indexKey r p' → p = p'.
Proof. unfold indexKey, k. intros H%str_app_inj_l. by injection H. Qed.

Ltac other_family := let H := fresh in unfold k; intros H%str_app_inj_l; cbv in H; discriminate.
Lemma fam_pod r x a b : prefix r +:+ "sess:" +:+ x ≠ k r ["pod"; a; b].
Proof. other_family. Qed.
Lemma fam_podtok r x a : prefix r +:+ "sess:" +:+ x ≠ k r ["podtok"; a].
Proof. other_family. Qed.
Lemma fam_active r x a : prefix r +:+ "sess:" +:+ x ≠ k r ["active"; a].
Proof. other_family. Qed.
Lemma fam_inflight r x a : prefix r +:+ "sess:" +:+ x ≠ k r ["inflight"; a].
Proof. other_family. Qed.
Lemma fam_by_user r x a : prefix r +:+ "sess:" +:+ x ≠ k r ["pods:by-user"; a].
Proof. other_family. Qed.
Lemma fam_all r x : prefix r +:+ "sess:" +:+ x ≠ k r ["pods:all"].
Proof. other_family. Qed.
Hint Resolve fam_pod fam_podtok fam_active fam_inflight fam_by_user fam_all : rfam.

(** The commands of the pod operations stay clear of the family. *)
Lemma put_cmds_family r p key : sess_family r key → Forall (λ cmd, key ∉ cmd_keys cmd) (put_cmds r p).
Proof.
  intros [x ->]. unfold put_cmds. apply Forall_app. split; [repeat constructor|case_match; [constructor|repeat constructor]];
    cbn [cmd_keys]; rewrite list_elem_of_singleton; unfold podKeyOf; auto with rfam.
Qed.

(** [d'] is no earlier than [d]. *)
Definition outlives (d d' : option Z) : Prop :=
  match d, d' with _, None => True | Some t, Some t' => t ≤ t' | None, Some _ => False end.
Lemma outlives_alive now d d' : outlives d d' → alive now d = true → alive now d' = true.
Proof. destruct d as [t|], d' as [t'|]; cbn; try done. rewrite !Z.ltb_lt. lia. Qed.

(** Strings under session keys belong to generated ids; index keys hold sets of
    such ids; a record is named by the index of its pod, which outlives it, and
    no record lives longer than one written now would. *)
Record indexed r : Prop := {
  ix_only : ∀ id raw d, entry (sessKey r id) (c r) = Some (RStr raw, d) → IsMcpSessionID id = true;
  ix_set : ∀ p v d, entry (indexKey r p) (c r) = Some (v, d) → ∃ x, v = RSet x ∧ ∀ id, id ∈ x → IsMcpSessionID id = true;
  ix_named : ∀ id raw d rec, entry (sessKey r id) (c r) = Some (RStr raw, d) → json_Unmarshal raw = Ok rec →
    ∃ x d', entry (indexKey r (ms_PodName (sr_Session rec))) (c r) = Some (RSet x, d') ∧ id ∈ x ∧ outlives d d';
  ix_bound : ∀ id raw d, entry (sessKey r id) (c r) = Some (RStr raw, d) → ∃ t, d = Some t ∧ t ≤ tr_now (c r) + maxAge r }.

(** The keys depend on the prefix only. *)
Lemma indexed_intro r r' :
  prefix r' = prefix r → maxAge r' = maxAge r →
  (∀ id raw d, entry (sessKey r id) (c r') = Some (RStr raw, d) → IsMcpSessionID id = true) →
  (∀ p v d, entry (indexKey r p) (c r') = Some (v, d) → ∃ x, v = RSet x ∧ ∀ id, id ∈ x → IsMcpSessionID id = true) →
  (∀ id raw d rec, entry (sessKey r id) (c r') = Some (RStr raw, d) → json_Unmarshal raw = Ok rec →
    ∃ x d', entry (indexKey r (ms_PodName (sr_Session rec))) (c r') = Some (RSet x, d') ∧ id ∈ x ∧ outlives d d') →
  (∀ id raw d, entry (sessKey r id) (c r') = Some (RStr raw, d) → ∃ t, d = Some t ∧ t ≤ tr_now (c r') + maxAge r) → indexed r'.
Proof. intros Hp Hm H1 H2 H3 H4. split; unfold sessKey, indexKey, k in *; rewrite ?Hp, ?Hm in *; assumption. Qed.

(** Only the entries of the family matter. *)
Lemma indexed_frame r r' :
  prefix r' = prefix r → maxAge r' = maxAge r → tr_now (c r') = tr_now (c r) → (∀ key, sess_family r key → entry key (c r') = entry key (c r)) → indexed r → indexed r'.
Proof.
  intros Hp Hm Hn Hf [H1 H2 H3 H4]. apply (indexed_intro r); [done|done|..].
  - intros id raw d. rewrite Hf by apply sessKey_family. apply H1.
  - intros p v d. rewrite Hf by apply indexKey_family. apply H2.
  - intros id raw d rec. rewrite Hf by apply sessKey_family. intros He Hj. rewrite Hf by apply indexKey_family. by eapply H3.
  - intros id raw d. rewrite Hf, Hn by apply sessKey_family. apply H4.
Qed.

Lemma indexed_exec r r' cmds :
  prefix r' = prefix r → maxAge r' = maxAge r → c r' = (texec cmds (c r)).2 → (∀ key, sess_family r key → Forall (λ cmd, key ∉ cmd_keys cmd) cmds) →
  indexed r → indexed r'.
Proof.
  intros Hp Hm Hc Hf. apply indexed_frame; [done|done|by rewrite Hc, texec_now|]. intros key Hk. rewrite Hc. by apply texec_frame, Hf.
Qed.

(** ** The operations over time *)

(** One call by some replica, or time going by. *)
Inductive top :=
| OPutSession (s : McpSession) | ODeleteSession (id : string) | ODeleteSessionsForPod (podName : string)
| OPutPod (p : Pod) | ODeletePod (key : PodKey) | OTouch (podName : string) (at_ : Z) | OInFlight (podName : string) (delta : Z)
| OTick (dt : Z).
Definition trun (op : top) (r : Redis tredis) : Redis tredis :=
  match op with
  | OPutSession s => (PutSession s r).2 | ODeleteSession id => (DeleteSession id r).2
  | ODeleteSessionsForPod n => (DeleteSessionsForPod n r).2
  | OPutPod p => (PutPod p r).2 | ODeletePod key => (DeletePod key r).2
  | OTouch n at_ => (Touch n at_ r).2 | OInFlight n d => (InFlight n d r).2
  | OTick dt => set_c (tick dt (c r)) r
  end.
(** Session ids are generated, and time does not run backwards. *)
Definition top_ok (op : top) : Prop :=
  match op with OPutSession s => IsMcpSessionID (ms_ID s) = true | OTick dt => 0 ≤ dt | _ => True end.

Lemma GetSession_same id r : (GetSession id r).2 = r.
Proof. unfold GetSession. by repeat case_match. Qed.
Lemma PutPod_same p r : prefix (PutPod p r).2 = prefix r ∧ maxAge (PutPod p r).2 = maxAge r ∧ macKey (PutPod p r).2 = macKey r.
Proof.
  unfold PutPod. destruct (String.eqb (pod_PodToken p) ""), (Cipher r); destruct (redis_Exec _ _) as [[] ?]; done.
Qed.
Lemma trun_same op r : prefix (trun op r) = prefix r ∧ maxAge (trun op r) = maxAge r ∧ macKey (trun op r) = macKey r.
Proof.
  destruct op; cbn [trun].
  - unfold PutSession. by destruct (redis_Exec _ _).
  - unfold DeleteSession. pose proof (GetSession_same id r) as H. destruct (GetSession id r) as [[s|] r1]; cbn in H; subst; [|done].
    by destruct (redis_Exec _ _).
  - unfold DeleteSessionsForPod. destruct (redis_SMembers _ _); [|done]. by destruct (redis_Exec _ _).
  - apply PutPod_same.
  - unfold DeletePod. by destruct (redis_Exec _ _).
  - unfold Touch. by destruct (redis_Exec _ _).
  - unfold InFlight. by repeat case_match.
  - done.
Qed.

Lemma entry_tick key dt s v d : 0 ≤ dt → entry key (tick dt s) = Some (v, d) → entry key s = Some (v, d) ∧ alive (tr_now s + dt) d = true.
Proof.
  intros Hd. unfold entry, tick. cbn. destruct (tr_keys s !! key) as [[v' d']|]; [|done].
  destruct (alive (tr_now s + dt) d') eqn:E; [|done]. intros [= -> ->]. split; [|done].
  assert (alive (tr_now s) d = true) as ->; [|done]. destruct d as [t|]; [|done]. cbn in *. rewrite Z.ltb_lt in *. lia.
Qed.
Lemma entry_tick_alive key dt s v d : entry key s = Some (v, d) → alive (tr_now s + dt) d = true → entry key (tick dt s) = Some (v, d).
Proof.
  unfold entry, tick. cbn. destruct (tr_keys s !! key) as [[v' d']|]; [|done].
  destruct (alive (tr_now s) d'); [|done]. intros [= -> ->] H. by rewrite H.
Qed.

Lemma indexed_tick dt r : 0 ≤ dt → indexed r → indexed (trun (OTick dt) r).
Proof.
  intros Hd [H1 H2 H3 H4]. split; cbn [trun c set_c].
  - intros id raw d [He _]%entry_tick; [by eapply H1|done].
  - intros p v d [He _]%entry_tick; [by eapply H2|done].
  - intros id raw d rec [He Ha]%entry_tick Hj; [|done]. destruct (H3 _ _ _ _ He Hj) as (x & d' & Hx & Hin & Ho).
    exists x, d'. split_and!; [|done..]. apply entry_tick_alive; [done|]. by eapply outlives_alive.
  - intros id raw d [He _]%entry_tick; [|done]. destruct (H4 _ _ _ He) as (t & -> & Ht). exists t. split; [done|]. cbn. lia.
Qed.

(** The entries a successful [PutSession] leaves. *)
Lemma PutSession_entries s r :
  IsMcpSessionID (ms_ID s) = true → 0 < maxAge r → indexed r →
  let r' := (PutSession s r).2 in let t := tr_now (c r) + maxAge r in
  (PutSession s r).1 = Ok () ∧ tr_now (c r') = tr_now (c r) ∧
  entry (sessKey r (ms_ID s)) (c r') = Some (RStr (json_Marshal (mkSessionRecord s (sessionMAC r s))), Some t) ∧
  (∃ x, entry (indexKey r (ms_PodName s)) (c r') = Some (RSet ({[ms_ID s]} ∪ x), Some t) ∧
    (∀ id, id ∈ x → ∃ d, entry (indexKey r (ms_PodName s)) (c r) = Some (RSet x, d)) ∧
    ∀ y d, entry (indexKey r (ms_PodName s)) (c r) = Some (RSet y, d) → y = x) ∧
  (∀ key, key ≠ sessKey r (ms_ID s) → key ≠ indexKey r (ms_PodName s) → entry key (c r') = entry key (c r)).
Proof.
  intros Hid Hm Hix. cbv zeta. unfold PutSession. cbn [redis_Exec tredis_api texec tcmd].
  fold (sessKey r (ms_ID s)) (indexKey r (ms_PodName s)). set (sk := sessKey r (ms_ID s)). set (ik := indexKey r (ms_PodName s)).
  assert (ik ≠ sk) as Hne by (by apply not_eq_sym, k_sess_by_pod).
  destruct (Z.eqb_spec (maxAge r) 0); [lia|]. set (t := tr_now (c r) + maxAge r). set (raw := RStr _). set (s1 := put sk raw (Some t) (c r)).
  assert (alive (tr_now (c r)) (Some t) = true) as Ht by (cbn; apply Z.ltb_lt; unfold t; lia).
  assert (entry ik s1 = entry ik (c r)) as E1 by (by apply entry_put_ne).
  assert (entry sk s1 = Some (raw, Some t)) as Es by (by apply entry_put_eq).
  rewrite E1.
  assert (∃ x d0, (match entry ik (c r) with
           | Some (RSet y, d) => (Ok (), put ik (RSet ({[ms_ID s]} ∪ y)) d s1)
           | Some (RStr _, _) => (Err WRONGTYPE, s1)
           | None => (Ok (), put ik (RSet {[ms_ID s]}) None s1) end) = (Ok (), put ik (RSet ({[ms_ID s]} ∪ x)) d0 s1) ∧
           alive (tr_now (c r)) d0 = true ∧ (∀ id, id ∈ x → ∃ d, entry ik (c r) = Some (RSet x, d)) ∧
           ∀ y d, entry ik (c r) = Some (RSet y, d) → y = x) as (x & d0 & -> & Hal & Hx1 & Hx2).
  { destruct (entry ik (c r)) as [[v d]|] eqn:Ei.
    - destruct (ix_set _ Hix _ _ _ Ei) as (y & -> & _). exists y, d. split_and!; [done| |eauto|naive_solver].
      unfold entry in Ei. repeat (case_match; simplify_eq/=); done.
    - exists ∅, None. split_and!; [by rewrite (right_id_L ∅ (∪))|done|set_solver|done]. }
  cbn [fst snd]. rewrite entry_put_eq by done. destruct (Z.ltb_spec 0 (maxAge r)); [|lia]. cbn [fst snd set_c c].
  change (tr_now (put ik (RSet ({[ms_ID s]} ∪ x)) d0 s1) + maxAge r) with t. split_and!; [done|done| | |].
  - rewrite entry_put_ne, entry_put_ne by done. done.
  - exists x. split_and!; [|done..]. by apply entry_put_eq.
  - intros key Hk1 Hk2. rewrite entry_put_ne, entry_put_ne by done. by apply entry_put_ne.
Qed.

Lemma indexed_PutSession s r :
  IsMcpSessionID (ms_ID s) = true → 0 < maxAge r → indexed r → indexed (trun (OPutSession s) r).
Proof.
  intros Hid Hm Hix. destruct (PutSession_entries s r Hid Hm Hix) as (_ & Hn & Hs & (x & Hi & Hx & Hx2) & Ho).
  destruct (trun_same (OPutSession s) r) as (Hp & Hma & _). cbn [trun] in *. set (r' := (PutSession s r).2) in *.
  assert (∀ id, IsMcpSessionID id = true → ∀ p, sessKey r id ≠ indexKey r p) as Hne by (intros; by apply k_sess_by_pod).
  pose proof Hix as [H1 H2 H3 H4].
  (* an old session key is not the index, since that holds a set afterwards *)
  assert (∀ id raw d, entry (sessKey r id) (c r') = Some (RStr raw, d) → id ≠ ms_ID s → entry (sessKey r id) (c r) = Some (RStr raw, d)) as Hold.
  { intros id raw d He Hne'. rewrite Ho in He; [done|by intros ?%sessKey_inj|]. intros E. rewrite E, Hi in He. done. }
  apply (indexed_intro r); [done|done|..].
  - intros id raw d He. destruct (decide (id = ms_ID s)) as [->|Hd]; [done|]. eapply H1, Hold; done.
  - intros p v d He. destruct (decide (p = ms_PodName s)) as [->|Hd].
    + rewrite Hi in He. simplify_eq. eexists. split; [done|]. intros id [->%elem_of_singleton|Hin]%elem_of_union; [done|].
      destruct (Hx _ Hin) as [d He]. destruct (H2 _ _ _ He) as (y & [= <-] & Hy). by apply Hy.
    + rewrite Ho in He; [by eapply H2|by apply not_eq_sym, Hne|by intros ?%indexKey_inj].
  - intros id raw d rec He Hj. destruct (decide (id = ms_ID s)) as [->|Hd].
    + rewrite Hs in He. simplify_eq. rewrite json_roundtrip in Hj. injection Hj as <-. cbn [sr_Session].
      eexists _, _. split_and!; [done|set_solver|cbn; lia].
    + apply Hold in He; [|done]. destruct (H3 _ _ _ _ He Hj) as (y & d' & Hy & Hin & Hout).
      destruct (decide (ms_PodName (sr_Session rec) = ms_PodName s)) as [E|E].
      * rewrite E in *. rewrite (Hx2 _ _ Hy) in *. eexists _, _. split_and!; [done|set_solver|].
        destruct (H4 _ _ _ He) as (t & -> & Ht). done.
      * exists y, d'. split_and!; [|done..]. rewrite Ho; [done|by apply not_eq_sym, Hne|by intros ?%indexKey_inj].
  - intros id raw d He. rewrite Hn. destruct (decide (id = ms_ID s)) as [->|Hd]; [rewrite Hs in He; simplify_eq; eexists; by split|].
    eapply H4, Hold; done.
Qed.

(** A session that is read is there under a generated id. *)
Lemma GetSession_entry id s r r' :
  GetSession id r = (Ok s, r') → r' = r ∧ ∃ raw d rec, entry (sessKey r id) (c r) = Some (RStr raw, d) ∧ json_Unmarshal raw = Ok rec ∧
    sr_Session rec = s.
Proof.
  unfold GetSession. cbn [redis_Get tredis_api]. fold (sessKey r id). destruct (entry (sessKey r id) (c r)) as [[[raw|] d]|] eqn:E; [|done..].
  destruct (json_Unmarshal raw) as [rec|] eqn:Ej; [|done]. destruct (negb _); [done|]. intros [= <- <-]. split; [done|]. by exists raw, d, rec.
Qed.

(** Deleting keys under the family, or shrinking an index by a deleted id. *)
Lemma indexed_delete r r' (gone : list string) :
  prefix r' = prefix r → maxAge r' = maxAge r → tr_now (c r') = tr_now (c r) →
  (∀ id, id ∈ gone → entry (sessKey r id) (c r') = None) →
  (∀ id raw d, entry (sessKey r id) (c r') = Some (RStr raw, d) → entry (sessKey r id) (c r) = Some (RStr raw, d)) →
  (∀ p v d, entry (indexKey r p) (c r') = Some (v, d) → ∃ y x, v = RSet y ∧ entry (indexKey r p) (c r) = Some (RSet x, d) ∧ y ⊆ x) →
  (∀ p x d id, entry (indexKey r p) (c r) = Some (RSet x, d) → id ∈ x → id ∉ gone →
     ∃ y, entry (indexKey r p) (c r') = Some (RSet y, d) ∧ id ∈ y) →
  indexed r → indexed r'.
Proof.
  intros Hp Hma Hn Hgone Hstr Hsub Hin Hix. pose proof Hix as [H1 H2 H3 H4].
  apply (indexed_intro r); [done|done|..].
  - intros id raw d He. eapply H1, Hstr, He.
  - intros p v d He. destruct (Hsub _ _ _ He) as (y & x & -> & Hx & Hyx). destruct (H2 _ _ _ Hx) as (? & [= <-] & Hv).
    exists y. split; [done|]. intros id Hid. by apply Hv, Hyx.
  - intros id raw d rec He Hj. assert (id ∉ gone) as Hng by (intros Hg; by rewrite (Hgone _ Hg) in He).
    destruct (H3 _ _ _ _ (Hstr _ _ _ He) Hj) as (x & d' & Hx & Hidx & Hout).
    destruct (Hin _ _ _ _ Hx Hidx Hng) as (y & Hy & Hidy). by exists y, d'.
  - intros id raw d He. rewrite Hn. eapply H4, Hstr, He.
Qed.

Lemma indexed_DeleteSession id r : indexed r → indexed (trun (ODeleteSession id) r).
Proof.
  intros Hix. pose proof Hix as [H1 H2 H3 H4]. destruct (trun_same (ODeleteSession id) r) as (Hp & Hma & _). cbn [trun] in *. revert Hp Hma.
  unfold DeleteSession. destruct (GetSession id r) as [[s|e] r0] eqn:Eg.
  2:{ pose proof (GetSession_same id r) as Hs. rewrite Eg in Hs. cbn in Hs. by subst. }
  apply GetSession_entry in Eg as (-> & raw & d & rec & He & Hj & <-). pose proof (H1 _ _ _ He) as Hid.
  destruct (H3 _ _ _ _ He Hj) as (x & d' & Hx & Hidx & _). set (p := ms_PodName (sr_Session rec)) in *.
  assert (∀ q, indexKey r q ≠ sessKey r id) as Hne by (intros; by apply not_eq_sym, k_sess_by_pod).
  cbn [redis_Exec tredis_api texec tcmd foldr]. fold (sessKey r id) (indexKey r p). rewrite entry_del_ne, Hx by done. cbn [fst snd set_c c].
  set (s1 := del (sessKey r id) (c r)). set (s2 := if decide _ then _ else _). intros Hp Hma.
  assert (alive (tr_now (c r)) d' = true) as Ha by (unfold entry in Hx; repeat (case_match; simplify_eq/=); done).
  assert (∀ key, key ≠ indexKey r p → entry key s2 = entry key s1) as Hs2.
  { intros key Hk. unfold s2. destruct (decide _); [by apply entry_del_ne|by apply entry_put_ne]. }
  assert (entry (indexKey r p) s2 = if decide (x ∖ {[id]} = ∅) then None else Some (RSet (x ∖ {[id]}), d')) as Hi2.
  { unfold s2. destruct (decide _); [apply entry_del_eq|by apply entry_put_eq]. }
  assert (∀ q, q ≠ p → entry (indexKey r q) s2 = entry (indexKey r q) (c r)) as Hq.
  { intros q Hqp. rewrite Hs2 by (by intros ?%indexKey_inj). by apply entry_del_ne. }
  apply (indexed_delete r _ [id]); cbn [c set_c]; [done|done|unfold s2; by destruct (decide _)| | | | |done].
  - intros id' ->%list_elem_of_singleton. rewrite Hs2 by (by apply not_eq_sym, Hne). apply entry_del_eq.
  - intros id' raw' dl Hel. destruct (decide (id' = id)) as [->|Hd].
    { rewrite Hs2 in Hel by (by apply not_eq_sym, Hne). unfold s1 in Hel. by rewrite entry_del_eq in Hel. }
    destruct (decide (sessKey r id' = indexKey r p)) as [E|E]; [rewrite E, Hi2 in Hel; by destruct (decide _)|].
    rewrite Hs2 in Hel by done. unfold s1 in Hel. by rewrite entry_del_ne in Hel by (by intros ?%sessKey_inj).
  - intros q v dl Hel. destruct (decide (q = p)) as [->|Hd].
    + rewrite Hi2 in Hel. destruct (decide _); [done|]. simplify_eq. eexists _, x. split_and!; [done|done|set_solver].
    + rewrite Hq in Hel by done. destruct (H2 _ _ _ Hel) as (y & -> & _). by exists y, y.
  - intros q y dl id' Hy Hin Hng. destruct (decide (q = p)) as [->|Hd].
    + rewrite Hx in Hy. simplify_eq. rewrite Hi2. rewrite list_elem_of_singleton in Hng.
      rewrite decide_False by set_solver. eexists. split; [done|set_solver].
    + exists y. by rewrite Hq.
Qed.

(** The ids a pod's index names, and what [DeleteSessionsForPod] does with them. *)
Lemma DeleteSessionsForPod_entries n r :
  indexed r →
  ∃ ids, (∀ x d, entry (indexKey r n) (c r) = Some (RSet x, d) → ∀ id, id ∈ x → id ∈ ids) ∧
    (∀ id, id ∈ ids → IsMcpSessionID id = true) ∧
    DeleteSessionsForPod n r = (Ok (), set_c (foldr del (c r) (indexKey r n :: (sessKey r <$> ids))) r).
Proof.
  intros Hix. unfold DeleteSessionsForPod. cbn [redis_SMembers tredis_api]. fold (indexKey r n).
  destruct (entry (indexKey r n) (c r)) as [[v d]|] eqn:E.
  - destruct (ix_set _ Hix _ _ _ E) as (x & -> & Hv). exists (elements x). split_and!.
    + intros y d' [= -> ->] id Hin. by apply elem_of_elements.
    + intros id Hin. apply Hv. by apply elem_of_elements.
    + done.
  - exists []. split_and!; [done|by intros id ?%elem_of_nil|done].
Qed.

Lemma indexed_DeleteSessionsForPod n r : indexed r → indexed (trun (ODeleteSessionsForPod n) r).
Proof.
  intros Hix. cbn [trun]. destruct (DeleteSessionsForPod_entries n r Hix) as (ids & Hids & Hval & ->). cbn [snd].
  pose proof Hix as [H1 H2 H3 H4]. set (keys := indexKey r n :: (sessKey r <$> ids)).
  assert (∀ q, q ≠ n → indexKey r q ∉ keys) as Hq.
  { intros q Hqn [?%indexKey_inj|(id & E & Hin)%list_elem_of_fmap]%elem_of_cons; [done|].
    by apply (k_sess_by_pod r id q (Hval _ Hin)). }
  apply (indexed_delete r _ ids); cbn [c set_c]; [done|done|apply now_dels| | | | |done].
  - intros id Hin. rewrite entry_dels, decide_True; [done|]. right. by apply list_elem_of_fmap_2.
  - intros id raw d. rewrite entry_dels. by destruct (decide _).
  - intros q v d. rewrite entry_dels. destruct (decide _); [done|]. intros He. destruct (H2 _ _ _ He) as (y & -> & _). by exists y, y.
  - intros q x d id He Hin Hng. destruct (decide (q = n)) as [->|Hd]; [by destruct Hng; eapply Hids|].
    exists x. by rewrite entry_dels, decide_False by (by apply Hq).
Qed.

(** [InFlight] touches its own key and not the clock. *)
Lemma InFlight_frame n d r key :
  key ≠ k r ["inflight"; n] → entry key (c (InFlight n d r).2) = entry key (c r) ∧ tr_now (c (InFlight n d r).2) = tr_now (c r).
Proof.
  intros Hk.
  assert (∀ cmd s, cmd_keys cmd = [k r ["inflight"; n]] → entry key (texec [cmd] s).2 = entry key s ∧ tr_now (texec [cmd] s).2 = tr_now s) as Hx.
  { intros cmd s Hc. split; [apply texec_frame; constructor; [by rewrite Hc, list_elem_of_singleton|constructor]|apply texec_now]. }
  assert (∀ s, entry key (redis_IncrBy (k r ["inflight"; n]) d s).2 = entry key s ∧ tr_now (redis_IncrBy (k r ["inflight"; n]) d s).2 = tr_now s) as Hi.
  { intros s. cbn [redis_IncrBy tredis_api]. repeat case_match; cbn [snd]; rewrite ?entry_put_ne by done; done. }
  unfold InFlight. destruct (d =? 0).
  - destruct (redis_Get _ _) as [[v|]|]; cbn [snd c set_c redis_Exec tredis_api]; [by apply Hx|done|done].
  - specialize (Hi (c r)). destruct (redis_IncrBy _ _ _) as [[m|] s1]; cbn [snd c set_c] in *; [|done]. destruct Hi as [Hi1 Hi2].
    destruct (m <? 0); cbn [snd c set_c redis_Exec tredis_api].
    + destruct (Hx (CSet (k r ["inflight"; n]) "0" Hour) s1 eq_refl) as [Ha Hb]. set (s2 := (texec [CSet _ _ _] s1).2) in *.
      destruct (Hx (CExpire (k r ["inflight"; n]) Hour) s2 eq_refl) as [-> ->]. by rewrite Ha, Hb.
    + destruct (Hx (CExpire (k r ["inflight"; n]) Hour) s1 eq_refl) as [-> ->]. done.
Qed.

Lemma indexed_other op r :
  match op with OPutPod _ | ODeletePod _ | OTouch _ _ | OInFlight _ _ => True | _ => False end → indexed r → indexed (trun op r).
Proof.
  intros Hop. destruct (trun_same op r) as (Hp & Hma & _). revert Hp Hma. destruct op; try done; cbn [trun]; intros Hp Hma.
  - destruct (PutPod_cases p r) as (r0 & err & c' & Hc & _ & _ & _ & _ & _ & Hx & Hput).
    apply (indexed_exec r _ (put_cmds r p)); [done|done| |intros; by apply put_cmds_family].
    change redis_Exec with texec in Hx. rewrite Hput, Hx. by destruct err.
  - unfold DeletePod in *. cbn [redis_Exec tredis_api] in *. match goal with |- context [texec ?cmds (c r)] => set (cs := cmds) in * end.
    apply (indexed_exec r _ cs); [done|done|by destruct (texec cs _)|].
    intros key' [x ->]. unfold cs. repeat constructor; cbn [cmd_keys]; rewrite ?not_elem_of_cons; split_and?;
      try apply not_elem_of_nil; unfold podKeyOf; auto with rfam.
  - unfold Touch in *. cbn [redis_Exec tredis_api] in *. match goal with |- context [texec ?cmds (c r)] => set (cs := cmds) in * end.
    apply (indexed_exec r _ cs); [done|done|by destruct (texec cs _)|].
    intros key [x ->]. unfold cs. repeat constructor; cbn [cmd_keys]. rewrite list_elem_of_singleton. auto with rfam.
  - apply indexed_frame; [done|done|by apply (InFlight_frame podName delta r (prefix r +:+ "sess:")); apply (fam_inflight r "")|].
    intros key [x ->]. apply InFlight_frame. auto with rfam.
Qed.

Lemma indexed_step op r : top_ok op → 0 < maxAge r → indexed r → indexed (trun op r).
Proof.
  intros Hok Hm Hix. destruct op; try by apply indexed_other.
  - by apply indexed_PutSession.
  - by apply indexed_DeleteSession.
  - by apply indexed_DeleteSessionsForPod.
  - by apply indexed_tick.
Qed.

Definition truns (ops : list top) (r : Redis tredis) : Redis tredis := fold_left (λ r op, trun op r) ops r.
Lemma indexed_run ops r : Forall top_ok ops → 0 < maxAge r → indexed r → indexed (truns ops r).
Proof.
  unfold truns.
  intros Hall. revert r. induction Hall as [|op ops Hop Hall IH]; intros r Hm Hix; [done|]. cbn [fold_left].
  apply IH; [by destruct (trun_same op r) as (_ & -> & _)|by apply indexed_step].
Qed.


(** C22. A session lives exactly as long as the maximal session age: read by any
    replica with the same key it is there until then and gone from then on. *)
Theorem session_lifetime s r dt :
  IsMcpSessionID (ms_ID s) = true → 0 < maxAge r → indexed r → 0 ≤ dt →
  (GetSession (ms_ID s) (trun (OTick dt) (trun (OPutSession s) r))).1 = if dt <? maxAge r then Ok s else Err ErrNotFound.
Proof.
  intros Hid Hm Hix Hdt. destruct (PutSession_entries s r Hid Hm Hix) as (_ & Hn & Hs & _).
  destruct (trun_same (OPutSession s) r) as (Hp & _ & Hmac). cbn [trun] in *. set (r1 := (PutSession s r).2) in *.
  unfold GetSession. cbn [redis_Get tredis_api c set_c]. change (k (set_c (tick dt (c r1)) r1) ["sess"; ms_ID s]) with (sessKey r1 (ms_ID s)).
  assert (sessKey r1 (ms_ID s) = sessKey r (ms_ID s)) as -> by (unfold sessKey, k; by rewrite Hp).
  destruct (Z.ltb_spec dt (maxAge r)) as [Hl|Hl].
  - rewrite (entry_tick_alive _ dt _ _ _ Hs) by (cbn; rewrite Z.ltb_lt; lia). rewrite json_roundtrip. cbn [sr_MAC sr_Session].
    change (sessionMAC (set_c (tick dt (c r1)) r1) s) with (sessionMAC r1 s).
    assert (sessionMAC r1 s = sessionMAC r s) as -> by (unfold sessionMAC; by rewrite Hmac). by rewrite MACEqual_refl.
  - destruct (entry (sessKey r (ms_ID s)) (tick dt (c r1))) as [[v d]|] eqn:E; [|done]. apply entry_tick in E as [E Ha]; [|done].
    rewrite Hs in E. simplify_eq. cbn in Ha. apply Z.ltb_lt in Ha. lia.
Qed.

(** ** The in-flight counter *)

(** A count whose holder is gone, [n], with its deadline. *)
Definition counted (name : string) (n : Z) (t : Z) r : Prop :=
  entry (k r ["inflight"; name]) (c r) = Some (RStr (Itoa n), Some t).

(** Reading a count gives it and renews its hour. *)
Lemma InFlight_reads name n t r :
  in_int64 n = true → counted name n t r →
  (InFlight name 0 r).1 = Ok n ∧ counted name n (tr_now (c r) + Hour) (InFlight name 0 r).2 ∧
  tr_now (c (InFlight name 0 r).2) = tr_now (c r).
Proof.
  intros Hn Hc. unfold counted in *. unfold InFlight. cbn [Z.eqb redis_Get tredis_api redis_Exec texec tcmd]. rewrite Hc. cbn [fst snd c set_c].
  rewrite Atoi_Itoa by done. cbn [default]. change (0 <? Hour) with true. cbn match. cbn [snd c set_c]. split_and!; [done| |done].
  change (k (set_c ?s r)) with (k r). apply entry_put_eq. cbn. apply Z.ltb_lt. unfold Hour, Minute, Second. lia.
Qed.
Lemma counted_tick name n t dt r : counted name n t r → tr_now (c r) + dt < t → counted name n t (trun (OTick dt) r).
Proof. intros Hc Ht. apply entry_tick_alive; [exact Hc|]. cbn. by apply Z.ltb_lt. Qed.

(** A sweep of the reaper reads the counter once per interval. *)
Definition sweeps (name : string) (gaps : list Z) (r : Redis tredis) : Redis tredis :=
  fold_left (λ r g, (InFlight name 0 (trun (OTick g) r)).2) gaps r.

(** A count left by a replica that crashed is meant to expire after an hour; the
    reaper's own reads keep it alive for as long as they come within the hour. *)
Lemma leaked_count_never_expires name n gaps r :
  in_int64 n = true → counted name n (tr_now (c r) + Hour) r → Forall (λ g, 0 ≤ g < Hour) gaps →
  (InFlight name 0 (sweeps name gaps r)).1 = Ok n.
Proof.
  intros Hn Hc Hg. revert r Hc. induction Hg as [|g gaps Hg Hall IH]; intros r Hc.
  - cbn. by eapply InFlight_reads.
  - unfold sweeps. cbn [fold_left]. apply IH. assert (counted name n (tr_now (c r) + Hour) (trun (OTick g) r)) as Hc' by (apply counted_tick; [done|lia]).
    destruct (InFlight_reads _ _ _ _ Hn Hc') as (_ & H2 & H3). by rewrite H3.
Qed.

(** Left alone, it does expire. *)
Lemma unread_count_expires name n r dt :
  counted name n (tr_now (c r) + Hour) r → Hour ≤ dt → (InFlight name 0 (trun (OTick dt) r)).1 = Ok 0.
Proof.
  intros Hc Hd. unfold InFlight. cbn [Z.eqb redis_Get tredis_api trun c set_c]. change (k (set_c ?s r)) with (k r).
  destruct (entry _ (tick dt (c r))) as [[v d]|] eqn:E; [|done].
  apply entry_tick in E as [E Ha]; [|unfold Hour, Minute, Second in *; lia]. unfold counted in Hc. rewrite Hc in E. simplify_eq. cbn in Ha.
  apply Z.ltb_lt in Ha. lia.
Qed.
End Sessions.

(** ** Witnesses *)

Module ExpiryWitness.
Definition r0 : Redis tredis := NewRedis (mkTredis 0 ∅) "jug:" (12 * Hour) (Some (replicate 32 7)) (Some (replicate 32 9)) (λ _, replicate 12 5).
Definition sess (n : Z) (pod : string) : McpSession :=
  mkMcpSession (NewMcpSessionID (replicate 16 n)) "alice" "jira" pod "up" "" "2025-06-18" true 0.
Definition ops0 : list top :=
  [OPutSession (sess 1 "jira-a"); OTick (6 * Hour); OPutSession (sess 2 "jira-a"); OPutSession (sess 3 "jira-b"); OInFlight "jira-a" 1;
   ODeleteSession (ms_ID (sess 3 "jira-b")); OTick (7 * Hour); OPutSession (sess 4 "jira-b")].
Notation r1 := (truns ops0 r0).


Lemma session_lifetime_witness :
  (GetSession (ms_ID (sess 1 "jira-a")) (trun (OTick (11 * Hour)) (trun (OPutSession (sess 1 "jira-a")) r0))).1 = Ok (sess 1 "jira-a") ∧
  (GetSession (ms_ID (sess 1 "jira-a")) (trun (OTick (12 * Hour)) (trun (OPutSession (sess 1 "jira-a")) r0))).1 = Err ErrNotFound.
Proof.
  assert (indexed r0) as Hix by (split; intros *; unfold entry; cbn; rewrite lookup_empty; discriminate).
  split.
  - exact (session_lifetime (sess 1 "jira-a") r0 (11 * Hour) eq_refl eq_refl Hix ltac:(vm_compute; discriminate)).
  - exact (session_lifetime (sess 1 "jira-a") r0 (12 * Hour) eq_refl eq_refl Hix ltac:(vm_compute; discriminate)).
Defined.

(** [DeleteSessionsForPod] reads the index and deletes in two round trips.  A
    session another replica writes in between loses its index entry and not
    itself, and the next deletion of the pod's sessions misses it. *)
Definition raced : Redis tredis :=
  let r := (PutSession (sess 1 "jira-a") r0).2 in
  set_c (texec [CDel (indexKey r0 "jira-a" :: (sessKey r0 <$> match redis_SMembers (indexKey r0 "jira-a") (c r0) with Ok ids => ids | Err _ => [] end))]
           (c r)).2 r.
Lemma DeleteSessionsForPod_race :
  (GetSession (ms_ID (sess 1 "jira-a")) (DeleteSessionsForPod "jira-a" raced).2).1 = Ok (sess 1 "jira-a").
Proof. vm_compute. reflexivity. Qed.
End ExpiryWitness.
