(* ===== verification/Vault.v ===== *)
(** * The user-secret vault

    internal/core/vault.go (sealing of a user's third-party credentials under a
    key only the user holds, and to a pod's ephemeral key) and the two
    [UserSecretStore] adapters, internal/adapters/secrets/memory and redis. *)

From S2P Require Import Prelude GoStd Sha256 Config Core Fixtures Contracts RoutingMemory RoutingRedis.

Local Open Scope Z_scope.

(** ** vault.go *)

Definition VaultVersion : Z := 1.

(** [type ArgonParams struct] *)
Record ArgonParams := mkArgonParams { ap_Time : Z; ap_Memory : Z; ap_Threads : Z }.
Definition DefaultArgon : ArgonParams := mkArgonParams 3 (64 * 1024) 4.

(** [type SealedEntry struct] *)
Record SealedEntry := mkSealedEntry {
  se_Version : Z; se_Salt : list Z; se_Argon : ArgonParams; se_WrappedDEK : list Z;
  se_Nonce : list Z; se_Ciphertext : list Z; se_Names : list string; se_UpdatedAt : Z }.

#[export] Instance ArgonParams_eq_dec : EqDecision ArgonParams.
Proof. solve_decision. Defined.
#[export] Instance SealedEntry_eq_dec : EqDecision SealedEntry.
Proof. solve_decision. Defined.

Notation secrets := (gmap string string).

(** [func aad(parts ...string) []byte] *)
Definition aad (parts : list string) : list Z := Sum256 (mac_input parts).

(** nacl box ([golang.org/x/crypto/nacl/box]): anonymous sealing to a public key. *)
Class NaclBox := {
  box_Pair : list Z → list Z → Prop;                              (* public, private *)
  box_SealAnonymous : list Z → list Z → list Z → list Z;          (* randomness, message, public *)
  box_OpenAnonymous : list Z → list Z → list Z → option (list Z); (* blob, public, private *)
  box_open_seal : ∀ rnd pt pub priv, box_Pair pub priv →
    box_OpenAnonymous (box_SealAnonymous rnd pt pub) pub priv = Some pt }.

Section Vault.
Context {aead : AEAD} {jsec : JSONCodec secrets}.

(** [func SealEntry]: [dek], [nonce] and [wn] are the bytes read from
    crypto/rand (32, 12 and 12), [now] the clock. *)
Definition SealEntry (userKey salt : list Z) (params : ArgonParams) (subject adapter : string)
    (secs : secrets) (dek nonce wn : list Z) (now : Z) : result SealedEntry :=
  if negb (length userKey =? 32)%nat then Err (EMsg "vault: user key must be 32 bytes")
  else
    let plaintext := string_bytes (json_Marshal secs) in
    if negb (aes_key_ok dek) then Err (EMsg "crypto/aes: invalid key size")
    else
      let ct := aead_seal dek nonce plaintext (aad [subject; adapter; Itoa VaultVersion]) in
      if negb (aes_key_ok userKey) then Err (EMsg "crypto/aes: invalid key size")
      else
        let wrapped := wn ++ aead_seal userKey wn dek (aad [subject; adapter]) in
        Ok (mkSealedEntry VaultVersion salt params wrapped nonce ct (map_to_list secs).*1 now).

(** [func OpenEntry]; [Open] of crypto/cipher's GCM panics on a nonce of the
    wrong length. *)
Definition OpenEntry (userKey : list Z) (subject adapter : string) (e : option SealedEntry)
    : outcome (result secrets) :=
  match e with
  | None => Done (Err (EMsg "vault: unsupported entry version"))
  | Some e =>
      if negb (se_Version e =? VaultVersion) then Done (Err (EMsg "vault: unsupported entry version"))
      else if negb (aes_key_ok userKey) then Done (Err (EMsg "crypto/aes: invalid key size"))
      else
        let ns := aead_NonceSize in
        if (length (se_WrappedDEK e) <? ns)%nat then Done (Err ErrVaultKey)
        else
          match aead_open userKey (take ns (se_WrappedDEK e)) (drop ns (se_WrappedDEK e)) (aad [subject; adapter]) with
          | None => Done (Err ErrVaultKey)
          | Some dek =>
              if negb (aes_key_ok dek) then Done (Err (EMsg "crypto/aes: invalid key size"))
              else if negb (length (se_Nonce e) =? ns)%nat then Panic
              else
                match aead_open dek (se_Nonce e) (se_Ciphertext e)
                        (aad [subject; adapter; Itoa (se_Version e)]) with
                | None => Done (Err ErrVaultKey)
                | Some pt => Done (json_Unmarshal (bytes_string pt))
                end
          end
  end.

(** [func SealToPod] *)
Definition SealToPod {nb : NaclBox} (rnd podPublic : list Z) (secs : secrets) : list Z :=
  box_SealAnonymous rnd (string_bytes (json_Marshal secs)) podPublic.

(** [func (k *PodKeyPair) OpenFromClient] *)
Definition OpenFromClient {nb : NaclBox} (pub priv : list Z) (blob : list Z) : result secrets :=
  match box_OpenAnonymous blob pub priv with
  | None => Err (EMsg "sealed secrets: cannot open with this pod's key")
  | Some pt => json_Unmarshal (bytes_string pt)
  end.
End Vault.

(** [type UserSecretStore interface] of contracts/secrets.go. *)
Class UserSecretStore (S : Type) := {
  Sec_Put : string → string → SealedEntry → S → result () * S;
  Sec_Get : string → string → S → result SealedEntry;
  Sec_List : string → S → result (list string);
  Sec_Delete : string → string → S → result () * S;
  Sec_DeleteAll : string → S → result () * S }.

(** ** internal/adapters/secrets/memory *)

Module SecretsMemory.

(** [type Store struct]: subject → adapter → entry. *)
Record Store := mkStore { m : gmap string (gmap string SealedEntry) }.
Definition NewStore : Store := mkStore ∅.

Definition Put (subject adapter : string) (e : SealedEntry) (s : Store) : result () * Store :=
  (Ok (), mkStore (<[subject := <[adapter := e]> (default ∅ (m s !! subject))]> (m s))).
Definition Get (subject adapter : string) (s : Store) : result SealedEntry :=
  match m s !! subject ≫= (λ x, x !! adapter) with Some e => Ok e | None => Err ErrNotFound end.
Definition List_ (subject : string) (s : Store) : result (list string) :=
  Ok (map_to_list (default ∅ (m s !! subject))).*1.
Definition Delete (subject adapter : string) (s : Store) : result () * Store :=
  (Ok (), mkStore (match m s !! subject with
                   | Some x => <[subject := delete adapter x]> (m s)
                   | None => m s
                   end)).
Definition DeleteAll (subject : string) (s : Store) : result () * Store :=
  (Ok (), mkStore (delete subject (m s))).

#[global] Instance store : UserSecretStore Store := {|
  Sec_Put := Put; Sec_Get := Get; Sec_List := List_; Sec_Delete := Delete; Sec_DeleteAll := DeleteAll |}.
End SecretsMemory.

(** ** internal/adapters/secrets/redis *)

Module SecretsRedis.
Section Store.
Context {R : Type} {Rapi : RedisAPI R} {jse : JSONCodec SealedEntry}.

(** [type Store struct] *)
Record Store := mkStore { c : R; prefix : string }.

Definition key (s : Store) (subject adapter : string) : string :=
  prefix s +:+ "usersecret:" +:+ subject +:+ ":" +:+ adapter.
Definition index (s : Store) (subject : string) : string := prefix s +:+ "usersecrets:" +:+ subject.

Definition exec (cs : list rcmd) (s : Store) : result () * Store :=
  let '(err, c') := redis_Exec cs (c s) in (err, mkStore c' (prefix s)).

Definition Put (subject adapter : string) (e : SealedEntry) (s : Store) : result () * Store :=
  exec [CSet (key s subject adapter) (json_Marshal e) 0; CSAdd (index s subject) adapter] s.
Definition Get (subject adapter : string) (s : Store) : result SealedEntry :=
  match redis_Get (key s subject adapter) (c s) with
  | Ok None => Err ErrNotFound
  | Err e => Err e
  | Ok (Some raw) => json_Unmarshal raw
  end.
Definition List_ (subject : string) (s : Store) : result (list string) :=
  redis_SMembers (index s subject) (c s).
Definition Delete (subject adapter : string) (s : Store) : result () * Store :=
  exec [CDel [key s subject adapter]; CSRem (index s subject) adapter] s.
Definition DeleteAll (subject : string) (s : Store) : result () * Store :=
  match List_ subject s with
  | Err e => (Err e, s)
  | Ok adapters => exec [CDel (index s subject :: (key s subject <$> adapters))] s
  end.

#[global] Instance store : UserSecretStore Store := {|
  Sec_Put := Put; Sec_Get := Get; Sec_List := List_; Sec_Delete := Delete; Sec_DeleteAll := DeleteAll |}.
End Store.
Arguments Store : clear implicits.
End SecretsRedis.

(** ** Sealing theorems *)

Section VaultProofs.
Context {aead : AEAD} {jsec : JSONCodec secrets}.

(** What a successful [SealEntry] produced. *)
Lemma SealEntry_Ok userKey salt params subject adapter secs dek nonce wn now e :
  SealEntry userKey salt params subject adapter secs dek nonce wn now = Ok e →
  length userKey = 32%nat ∧ aes_key_ok dek = true ∧
  e = mkSealedEntry VaultVersion salt params (wn ++ aead_seal userKey wn dek (aad [subject; adapter]))
        nonce (aead_seal dek nonce (string_bytes (json_Marshal secs)) (aad [subject; adapter; Itoa VaultVersion]))
        (map_to_list secs).*1 now.
Proof. unfold SealEntry. cases. apply Nat.eqb_eq in Heqb. naive_solver. Qed.

Lemma key32_ok key : length key = 32%nat → aes_key_ok key = true.
Proof. intros H. unfold aes_key_ok. by rewrite H. Qed.

Lemma OpenEntry_sealed userKey salt params subject adapter secs dek nonce wn now e :
  length nonce = aead_NonceSize → length wn = aead_NonceSize →
  SealEntry userKey salt params subject adapter secs dek nonce wn now = Ok e →
  OpenEntry userKey subject adapter (Some e) = Done (Ok secs).
Proof.
  intros Hn Hw (Hk & Hd & ->)%SealEntry_Ok. unfold OpenEntry; cbn [se_Version se_WrappedDEK se_Nonce se_Ciphertext].
  rewrite Z.eqb_refl, key32_ok by done. cbn [negb].
  rewrite length_app, Hw. destruct (Nat.ltb_spec (aead_NonceSize + length (aead_seal userKey wn dek (aad [subject; adapter]))) aead_NonceSize); [lia|].
  rewrite take_app_length', drop_app_length' by done. rewrite aead_open_seal, Hd, Hn, Nat.eqb_refl. cbn [negb].
  by rewrite aead_open_seal, bytes_string_bytes, json_roundtrip.
Qed.

(** A sealed entry opens, for the same user key, subject and adapter, to
    exactly the secrets that were sealed: no error path and no panic is taken. *)
Theorem OpenEntry_SealEntry userKey salt params subject adapter secs dek nonce wn now e :
  length nonce = aead_NonceSize → length wn = aead_NonceSize →
  SealEntry userKey salt params subject adapter secs dek nonce wn now = Ok e →
  OpenEntry userKey subject adapter (Some e) = Done (Ok secs).
Proof. apply OpenEntry_sealed. Qed.

(** An entry is bound to its owner and adapter: unless SHA-256 collides on
    the two inputs, an entry sealed for one (subject, adapter) pair is refused
    for every other pair, with the wrong-key error and even under the right user
    key, because AES-GCM rejects another additional data. *)
Theorem SealEntry_binds_owner userKey salt params subject adapter secs dek nonce wn now e subject' adapter' :
  length wn = aead_NonceSize →
  Forall no_nul [subject; adapter; subject'; adapter'] →
  SealEntry userKey salt params subject adapter secs dek nonce wn now = Ok e →
  (∀ ad, ad ≠ aad [subject; adapter] →
     aead_open userKey wn (aead_seal userKey wn dek (aad [subject; adapter])) ad = None) →
  (aad [subject'; adapter'] = aad [subject; adapter] →
     mac_input [subject'; adapter'] = mac_input [subject; adapter]) →
  (subject', adapter') ≠ (subject, adapter) →
  OpenEntry userKey subject' adapter' (Some e) = Done (Err ErrVaultKey).
Proof.
  intros Hw Hnul (Hk & Hd & ->)%SealEntry_Ok Hauth Hcoll Hne. unfold OpenEntry.
  cbn [se_Version se_WrappedDEK se_Nonce se_Ciphertext]. rewrite take_app_length', drop_app_length' by done.
  rewrite Z.eqb_refl, key32_ok by done. cbn [negb]. rewrite Hauth; [by case_match|].
  intros Heq. apply Hcoll, mac_input_inj in Heq; [naive_solver|..];
    rewrite !Forall_cons in Hnul; rewrite !Forall_cons; naive_solver.
Qed.

(** A user key that fits and a well-formed wrapped key are not enough: a stored
    entry whose nonce has another length than GCM's makes the opener panic. *)
Lemma OpenEntry_nonce_panic userKey subject adapter e dek :
  se_Version e = VaultVersion → length userKey = 32%nat →
  (aead_NonceSize ≤ length (se_WrappedDEK e))%nat →
  aead_open userKey (take aead_NonceSize (se_WrappedDEK e)) (drop aead_NonceSize (se_WrappedDEK e))
    (aad [subject; adapter]) = Some dek →
  aes_key_ok dek = true → length (se_Nonce e) ≠ aead_NonceSize →
  OpenEntry userKey subject adapter (Some e) = Panic.
Proof.
  intros Hv Hk Hlen Ho Hd Hn. unfold OpenEntry. rewrite Hv, Z.eqb_refl, key32_ok by done. cbn [negb].
  destruct (Nat.ltb_spec (length (se_WrappedDEK e)) aead_NonceSize); [lia|]. rewrite Ho, Hd. cbn [negb].
  by apply Nat.eqb_neq in Hn as ->.
Qed.

(** Tier B: the pod opens what the companion sealed to its public key. *)
Lemma OpenFromClient_SealToPod {nb : NaclBox} rnd pub priv secs :
  box_Pair pub priv → OpenFromClient pub priv (SealToPod rnd pub secs) = Ok secs.
Proof.
  intros H. unfold OpenFromClient, SealToPod. by rewrite box_open_seal, bytes_string_bytes, json_roundtrip.
Qed.
End VaultProofs.

(** ** The shared store behaves like the in-process one *)

Inductive sop :=
| SPut (subject adapter : string) (e : SealedEntry) | SGet (subject adapter : string)
| SList (subject : string) | SDelete (subject adapter : string) | SDeleteAll (subject : string).

(** What the caller of an operation sees; a listing is a set of adapters. *)
Inductive sresp :=
| RUnit (r : result ()) | REntry (r : result SealedEntry) | RList (r : result (gset string)).

Definition sadapter (o : sop) : list string :=
  match o with SPut _ a _ | SGet _ a | SDelete _ a => [a] | _ => [] end.
Definition list_resp (r : result (list string)) : sresp :=
  RList match r with Ok l => Ok (list_to_set l) | Err e => Err e end.

Definition mem_step (o : sop) (s : SecretsMemory.Store) : sresp * SecretsMemory.Store :=
  match o with
  | SPut u a e => let '(r, s') := SecretsMemory.Put u a e s in (RUnit r, s')
  | SGet u a => (REntry (SecretsMemory.Get u a s), s)
  | SList u => (list_resp (SecretsMemory.List_ u s), s)
  | SDelete u a => let '(r, s') := SecretsMemory.Delete u a s in (RUnit r, s')
  | SDeleteAll u => let '(r, s') := SecretsMemory.DeleteAll u s in (RUnit r, s')
  end.

(** Adapters are server type names, which have no colon. *)
Definition colon_free (a : string) : Prop := CountByte a ":" = 0%nat.

Lemma colon_split_inj s s' a a' :
  colon_free a → colon_free a' → s +:+ ":" +:+ a = s' +:+ ":" +:+ a' → s = s' ∧ a = a'.
Proof.
  unfold colon_free. intros Ha Ha'. revert s'.
  assert (∀ t, CountByte (t +:+ ":" +:+ a) ":" ≠ 0%nat ∧ CountByte (t +:+ ":" +:+ a') ":" ≠ 0%nat) as Hc.
  { intros t. rewrite !CountByte_app. simpl. lia. }
  induction s as [|x s IH]; intros [|x' s'];
    rewrite ?str_app_nil_l, ?str_app_cons, ?(str_app_cons _ ""), ?str_app_nil_l; intros H; simplify_eq.
  - done.
  - by destruct (Hc s').
  - by destruct (Hc s).
  - destruct (IH s') as [-> ->]; [|done]. by rewrite !(str_app_cons _ ""), !str_app_nil_l.
Qed.

Section Refine.
Context {R : Type} {Rapi : RedisAPI R} {Rlaws : RedisLaws R} {jse : JSONCodec SealedEntry}.
Import SecretsRedis.
Implicit Types (s : Store R).

Definition redis_step (o : sop) (s : Store R) : sresp * Store R :=
  match o with
  | SPut u a e => let '(r, s') := Put u a e s in (RUnit r, s')
  | SGet u a => (REntry (Get u a s), s)
  | SList u => (list_resp (List_ u s), s)
  | SDelete u a => let '(r, s') := Delete u a s in (RUnit r, s')
  | SDeleteAll u => let '(r, s') := DeleteAll u s in (RUnit r, s')
  end.

(** The server answers every command. *)
Record redis_up : Prop := {
  up_get : ∀ k (x : R), is_ok (redis_Get k x) = true;
  up_members : ∀ k (x : R), is_ok (redis_SMembers k x) = true;
  up_exec : ∀ cs (x : R), (redis_Exec cs x).1 = Ok () }.

Notation lookup2 mm u a := (SecretsMemory.m mm !! u ≫= (λ x, x !! a)).

(** The simulation relation. *)
Record rel (s : Store R) (mm : SecretsMemory.Store) : Prop := {
  rel_entry : ∀ u a, colon_free a →
    rstr (redis_view (c s) !! key s u a) = json_Marshal <$> lookup2 mm u a;
  rel_index : ∀ u a, a ∈ rset (redis_view (c s) !! index s u) ↔ is_Some (lookup2 mm u a);
  rel_colon : ∀ u a, is_Some (lookup2 mm u a) → colon_free a }.

Lemma key_inj s u a u' a' : colon_free a → colon_free a' → key s u a = key s u' a' → u = u' ∧ a = a'.
Proof. intros Ha Ha' H%str_app_inj_l%str_app_inj_l. by apply colon_split_inj. Qed.
Lemma index_inj s u u' : index s u = index s u' → u = u'.
Proof. intros H%str_app_inj_l%str_app_inj_l. done. Qed.
Lemma key_index s u a u' : key s u a ≠ index s u'.
Proof. unfold key, index. intros H%str_app_inj_l. cbv in H. discriminate. Qed.
Hint Resolve key_index not_eq_sym : rkeys.

Lemma exec_ok cs s : redis_up → ∃ x, exec cs s = (Ok (), mkStore x (prefix s)) ∧
  redis_view x = apply_cmds cs (redis_view (c s)).
Proof.
  intros Hup. unfold exec. pose proof (up_exec Hup cs (c s)) as He.
  destruct (redis_Exec cs (c s)) as [err x] eqn:E. simpl in He. subst. apply redis_Exec_ok in E. eauto.
Qed.

Lemma lookup2_Put mm u a e u' a' :
  lookup2 (SecretsMemory.Put u a e mm).2 u' a' =
  if decide (u' = u ∧ a' = a) then Some e else lookup2 mm u' a'.
Proof.
  simpl. rewrite lookup_insert. case_decide as Hu; subst; simpl.
  - rewrite lookup_insert. repeat case_decide; try naive_solver.
    by destruct (SecretsMemory.m mm !! u'); simpl; rewrite ?lookup_empty.
  - rewrite decide_False by naive_solver. done.
Qed.

Lemma lookup2_Delete mm u a u' a' :
  lookup2 (SecretsMemory.Delete u a mm).2 u' a' =
  if decide (u' = u ∧ a' = a) then None else lookup2 mm u' a'.
Proof.
  simpl. destruct (SecretsMemory.m mm !! u) as [x|] eqn:E.
  - rewrite lookup_insert. case_decide as Hu; subst; simpl.
    + rewrite lookup_delete, E. simpl. repeat case_decide; naive_solver.
    + rewrite decide_False by naive_solver. done.
  - case_decide as H; [|done]. destruct H as [-> _]. by rewrite E.
Qed.

Lemma lookup2_DeleteAll mm u u' a' :
  lookup2 (SecretsMemory.DeleteAll u mm).2 u' a' = if decide (u' = u) then None else lookup2 mm u' a'.
Proof. simpl. rewrite lookup_delete. repeat case_decide; naive_solver. Qed.

Lemma rel_Put s mm u a e : redis_up → rel s mm → colon_free a →
  (Put u a e s).1 = Ok () ∧ rel (Put u a e s).2 (SecretsMemory.Put u a e mm).2.
Proof.
  intros Hup [He Hi Hc] Ha. unfold Put. destruct (exec_ok
    [CSet (key s u a) (json_Marshal e) 0; CSAdd (index s u) a] s Hup) as (x & -> & Hv).
  split; [done|]. cbn [snd]. unfold apply_cmds in Hv; cbn [fold_left apply_cmd] in Hv.
  split; cbn [c]; [intros u' a' Ha'|intros u' a'|intros u' a']; rewrite lookup2_Put.
  - change (key (mkStore x (prefix s))) with (key s). rewrite Hv.
    rewrite lookup_insert_ne by eauto with rkeys. rewrite lookup_insert.
    destruct (decide (u' = u ∧ a' = a)) as [[-> ->]|Hn]; [by rewrite decide_True|].
    rewrite decide_False; [by apply He|]. intros []%key_inj; naive_solver.
  - change (index (mkStore x (prefix s))) with (index s). rewrite Hv.
    rewrite lookup_insert. case_decide as Hu.
    + apply index_inj in Hu as <-. simpl. rewrite lookup_insert_ne by eauto with rkeys.
      rewrite elem_of_union, elem_of_singleton, Hi. case_decide; naive_solver.
    + rewrite lookup_insert_ne by eauto with rkeys. rewrite Hi, decide_False by naive_solver. done.
  - case_decide as H; [naive_solver|apply Hc].
Qed.

Lemma rel_Delete s mm u a : redis_up → rel s mm → colon_free a →
  (Delete u a s).1 = Ok () ∧ rel (Delete u a s).2 (SecretsMemory.Delete u a mm).2.
Proof.
  intros Hup [He Hi Hc] Ha. unfold Delete. destruct (exec_ok
    [CDel [key s u a]; CSRem (index s u) a] s Hup) as (x & -> & Hv).
  split; [done|]. cbn [snd]. unfold apply_cmds in Hv; cbn [fold_left] in Hv.
  split; cbn [c]; [intros u' a' Ha'|intros u' a'|intros u' a']; rewrite lookup2_Delete.
  - change (key (mkStore x (prefix s))) with (key s). rewrite Hv.
    rewrite Redis.srem_lookup_ne by eauto with rkeys. cbn [apply_cmd foldr].
    rewrite lookup_delete.
    destruct (decide (u' = u ∧ a' = a)) as [[-> ->]|Hn]; [by rewrite decide_True|].
    rewrite decide_False; [by apply He|]. intros []%key_inj; naive_solver.
  - change (index (mkStore x (prefix s))) with (index s). rewrite Hv.
    destruct (decide (u' = u)) as [->|Hu].
    + specialize (Hi u a'). cbn [apply_cmd foldr]. rewrite lookup_delete_ne by eauto with rkeys.
      destruct (redis_view (c s) !! index s u) as [[]|] eqn:E; simpl in *;
        rewrite ?lookup_insert_eq, ?lookup_delete_ne, ?E by eauto with rkeys; simpl;
        rewrite ?elem_of_difference, ?elem_of_singleton, Hi;
        destruct (decide (u = u ∧ a' = a)) as [[_ ->]|Hn]; (split; [|try by intros []]);
        try (intros H; by apply Hi, not_elem_of_empty in H); naive_solver.
    + rewrite Redis.srem_lookup_ne by (intros H%index_inj; done). cbn [apply_cmd foldr].
      rewrite lookup_delete_ne by eauto with rkeys. rewrite Hi, decide_False by naive_solver. done.
  - case_decide as H; [by intros []|apply Hc].
Qed.

Lemma foldr_delete_lookup (ks : list string) (m : gmap string rval) i :
  foldr delete m ks !! i = if decide (i ∈ ks) then None else m !! i.
Proof.
  induction ks as [|k ks IH]; cbn [foldr].
  { case_decide as H; [by apply not_elem_of_nil in H|done]. }
  rewrite lookup_delete, IH. repeat case_decide; rewrite ?elem_of_cons in *; naive_solver.
Qed.

Lemma rel_DeleteAll s mm u : redis_up → rel s mm →
  (DeleteAll u s).1 = Ok () ∧ rel (DeleteAll u s).2 (SecretsMemory.DeleteAll u mm).2.
Proof.
  intros Hup [He Hi Hc]. unfold DeleteAll, List_. pose proof (up_members Hup (index s u) (c s)) as Hm.
  destruct (redis_SMembers (index s u) (c s)) as [adapters|] eqn:Hl; [|done].
  pose proof (redis_SMembers_ok _ _ _ Hl) as Hmem.
  destruct (exec_ok [CDel (index s u :: (key s u <$> adapters))] s Hup) as (x & -> & Hv).
  split; [done|]. cbn [snd]. unfold apply_cmds in Hv; cbn [fold_left apply_cmd] in Hv.
  assert (∀ u' a', colon_free a' → is_Some (lookup2 mm u' a') →
    key s u' a' ∈ index s u :: (key s u <$> adapters) ↔ u' = u) as Hin.
  { intros u' a' Ha' Hs. rewrite elem_of_cons, list_elem_of_fmap. split.
    - intros [H|(a & H & Ha)]; [by apply key_index in H|].
      apply key_inj in H as [-> _]; [done|done|]. apply (Hc u), Hi, Hmem, Ha.
    - intros ->. right. exists a'. split; [done|]. by apply Hmem, Hi. }
  assert (∀ u', index s u' ∈ index s u :: (key s u <$> adapters) ↔ u' = u) as Hin'.
  { intros u'. rewrite elem_of_cons, list_elem_of_fmap. split; [|naive_solver].
    intros [H|(a & H & _)]; [by apply index_inj in H|]. symmetry in H. by apply key_index in H. }
  split; cbn [c]; [intros u' a' Ha'|intros u' a'|intros u' a']; rewrite lookup2_DeleteAll.
  - change (key (mkStore x (prefix s))) with (key s). rewrite Hv, foldr_delete_lookup.
    specialize (He u' a' Ha'). specialize (Hin u' a' Ha').
    destruct (decide (u' = u)) as [->|Hu].
    + destruct (lookup2 mm u a') as [e|] eqn:E.
      * rewrite decide_True by (apply Hin; eauto). done.
      * case_decide; [done|]. by rewrite He.
    + destruct (lookup2 mm u' a') as [e|] eqn:E.
      * rewrite decide_False by (rewrite Hin; eauto). done.
      * case_decide; [done|]. by rewrite He.
  - change (index (mkStore x (prefix s))) with (index s). rewrite Hv, foldr_delete_lookup.
    specialize (Hin' u'). destruct (decide (u' = u)) as [->|Hu].
    + rewrite decide_True by (by apply Hin'). simpl. split; [by intros ?%not_elem_of_empty|by intros []].
    + rewrite decide_False by (by rewrite Hin'). apply Hi.
  - case_decide; [by intros []|apply Hc].
Qed.

Lemma rel_Get s mm u a : redis_up → rel s mm → colon_free a → Get u a s = SecretsMemory.Get u a mm.
Proof.
  intros Hup [He Hi Hc] Ha. unfold Get, SecretsMemory.Get.
  pose proof (up_get Hup (key s u a) (c s)) as Hg.
  destruct (redis_Get _ _) as [o|] eqn:E; [|done]. apply redis_Get_ok in E as ->.
  rewrite He by done. destruct (lookup2 mm u a); simpl; by rewrite ?json_roundtrip.
Qed.

Lemma rel_List s mm u : redis_up → rel s mm → list_resp (List_ u s) = list_resp (SecretsMemory.List_ u mm).
Proof.
  intros Hup [He Hi Hc]. unfold List_, SecretsMemory.List_, list_resp.
  pose proof (up_members Hup (index s u) (c s)) as Hg.
  destruct (redis_SMembers _ _) as [l|] eqn:E; [|done]. do 2 f_equal.
  apply set_eq. intros a. rewrite !elem_of_list_to_set, (redis_SMembers_ok _ _ _ E), Hi.
  rewrite list_elem_of_fmap. split.
  - intros [e He']. destruct (SecretsMemory.m mm !! u) as [x|] eqn:Ex; [|done].
    exists (a, e). by rewrite elem_of_map_to_list.
  - intros ([a' e] & -> & Hin). rewrite elem_of_map_to_list in Hin.
    destruct (SecretsMemory.m mm !! u); simpl in *; [eauto|by rewrite lookup_empty in Hin].
Qed.

(** Run a sequence of operations and collect what the caller sees. *)
Fixpoint run_all {S} (step : sop → S → sresp * S) (ops : list sop) (s : S) : list sresp :=
  match ops with
  | [] => []
  | o :: ops' => let '(r, s') := step o s in r :: run_all step ops' s'
  end.

Lemma sim_step o s mm : redis_up → rel s mm → Forall colon_free (sadapter o) →
  (redis_step o s).1 = (mem_step o mm).1 ∧ rel (redis_step o s).2 (mem_step o mm).2.
Proof.
  intros Hup Hr Ha. destruct o as [u a e|u a|u|u a|u]; simpl in Ha; rewrite ?Forall_cons in Ha.
  - destruct (rel_Put s mm u a e Hup Hr) as [H1 H2]; [naive_solver|].
    unfold redis_step, mem_step. destruct (Put u a e s), (SecretsMemory.Put u a e mm) eqn:E.
    injection E as <- <-. simpl in *. by subst.
  - unfold redis_step, mem_step. simpl. by rewrite (rel_Get s mm) by naive_solver.
  - unfold redis_step, mem_step. cbn [fst snd]. by rewrite (rel_List s mm).
  - destruct (rel_Delete s mm u a Hup Hr) as [H1 H2]; [naive_solver|].
    unfold redis_step, mem_step. destruct (Delete u a s), (SecretsMemory.Delete u a mm) eqn:E.
    injection E as <- <-. simpl in *. by subst.
  - destruct (rel_DeleteAll s mm u Hup Hr) as [H1 H2].
    unfold redis_step, mem_step. destruct (DeleteAll u s), (SecretsMemory.DeleteAll u mm) eqn:E.
    injection E as <- <-. simpl in *. by subst.
Qed.

(** C33. The Redis store of sealed user secrets refines the in-process one: from
    an empty store, every sequence of put, get, list, delete and delete-all
    calls (adapters without a colon, a server that answers) returns the same
    results on both, so one user's entries never appear under another's name
    and delete-all leaves nothing behind. *)
Theorem secrets_redis_refines_memory s ops :
  redis_up → redis_view (c s) = ∅ → Forall colon_free (ops ≫= sadapter) →
  run_all redis_step ops s = run_all mem_step ops SecretsMemory.NewStore.
Proof.
  intros Hup Hempty Hops.
  assert (rel s SecretsMemory.NewStore) as Hr.
  { split; rewrite ?Hempty; cbn; intros; rewrite ?lookup_empty; try done.
    - split; [set_solver|by intros []].
    - by destruct H. }
  clear Hempty. revert s Hr Hops. generalize SecretsMemory.NewStore as mm.
  induction ops as [|o ops IH]; intros mm s Hr Hops; [done|]. cbn [run_all].
  cbn in Hops. apply Forall_app in Hops as [Ho Hops].
  destruct (sim_step o s mm Hup Hr Ho) as [H1 H2].
  destruct (redis_step o s) as [r1 s1], (mem_step o mm) as [r2 m1]. simpl in *. subst. f_equal. by apply IH.
Qed.
End Refine.

(** ** Witnesses *)

#[global] Instance secrets_codec : JSONCodec secrets := countable_codec secrets.
#[global] Program Instance SealedEntry_countable : Countable SealedEntry :=
  inj_countable' (λ e, (se_Version e, se_Salt e, ap_Time (se_Argon e), ap_Memory (se_Argon e),
      ap_Threads (se_Argon e), se_WrappedDEK e, se_Nonce e, se_Ciphertext e, se_Names e, se_UpdatedAt e))
    (λ '(a, b, t, mm, th, w, n, ct, ns, u), mkSealedEntry a b (mkArgonParams t mm th) w n ct ns u) _.
Next Obligation. by intros [? ? [] ]. Qed.
#[global] Instance SealedEntry_codec : JSONCodec SealedEntry := countable_codec SealedEntry.

Module VaultWitness.
Definition user_key : list Z := replicate 32 3.
Definition jira_secrets : secrets := {["JIRA_TOKEN" := "s3cret"]}.
Definition sealed : result SealedEntry :=
  SealEntry user_key [] DefaultArgon "alice" "jira" jira_secrets
    (replicate 32 8) (replicate 12 1) (replicate 12 2) 77.
Definition entry : SealedEntry :=
  match sealed with Ok e => e | Err _ => mkSealedEntry 0 [] DefaultArgon [] [] [] [] 0 end.

Lemma OpenEntry_SealEntry_witness :
  OpenEntry user_key "alice" "jira" (Some entry) = Done (Ok jira_secrets).
Proof.
  apply (OpenEntry_SealEntry user_key [] DefaultArgon "alice" "jira" jira_secrets
    (replicate 32 8) (replicate 12 1) (replicate 12 2) 77); [reflexivity..|vm_compute; reflexivity].
Defined.

Lemma SealEntry_binds_owner_witness :
  OpenEntry user_key "mallory" "jira" (Some entry) = Done (Err ErrVaultKey).
Proof.
  apply (SealEntry_binds_owner user_key [] DefaultArgon "alice" "jira" jira_secrets
    (replicate 32 8) (replicate 12 1) (replicate 12 2) 77 entry "mallory" "jira").
  - reflexivity.
  - repeat (apply Forall_cons; split; [repeat (apply Forall_cons; split; [vm_compute; discriminate|]); apply Forall_nil, I|]).
    apply Forall_nil, I.
  - vm_compute. reflexivity.
  - intros ad Had. apply toy_open_wrong_aad, Had.
  - vm_compute. discriminate.
  - discriminate.
Defined.

(** A user's entry with an empty nonce makes the opener panic. *)
Lemma OpenEntry_panics : OpenEntry user_key "alice" "jira"
  (Some (mkSealedEntry (se_Version entry) [] DefaultArgon (se_WrappedDEK entry) [] [] [] 0)) = Panic.
Proof. vm_compute. reflexivity. Qed.

Definition empty_store : SecretsRedis.Store (gmap string rval) := SecretsRedis.mkStore ∅ "jug:".
Definition calls : list sop :=
  [SPut "alice" "jira" entry; SPut "alice" "wiki" entry; SGet "bob" "jira"; SDelete "alice" "wiki";
   SList "alice"; SDeleteAll "alice"; SGet "alice" "jira"].

Lemma secrets_redis_refines_memory_witness :
  run_all redis_step calls empty_store = run_all mem_step calls SecretsMemory.NewStore.
Proof.
  apply secrets_redis_refines_memory.
  - split; reflexivity.
  - reflexivity.
  - repeat (apply Forall_cons; split; [reflexivity|]). apply Forall_nil, I.
Defined.
End VaultWitness.
