(* ===== verification/Policy.v ===== *)
(** * internal/adapters/policy/groups: grants from group membership

    [Grants] and [ToolRule] of adapter.go at one configuration version, and the
    characterisation of both: who may use a server type, with which caps, and
    which tools are visible under which name. *)

From S2P Require Import Prelude GoStd Config Core Contracts.

Local Open Scope Z_scope.

(** [func asStrings(v any) []string] *)
Definition asStrings (v : any) : list string :=
  match v with
  | AStrings l => l
  | AList l => omap (λ e, match e with AString s => Some s | _ => None end) l
  | _ => []
  end.

(** [func (a *Adapter) alwaysGroups() map[string]bool], as the list of its keys. *)
Definition alwaysGroups (opts : Options) : list string :=
  match opts !! "always_groups" with Some raw => asStrings raw | None => [] end.

(** The loop state of [Grants]. *)
Record acc := mkAcc {
  a_types : list string; a_groups : list string; a_admin : bool; a_pods : Z; a_lazy : bool }.

(** The server types one group entry adds. *)
Definition entryTypes (c : Config) (st : string) : list string :=
  if String.eqb st "*" then ServerNames c
  else match Config_Server c st with Some _ => [st] | None => [] end.

(** The body of the loop over [c.Authorization.Groups]. *)
Definition groupStep (c : Config) (p : Principal) (always : list string) (a : acc) (grp : Group) : acc :=
  if negb (InGroup p (gr_Name grp)) && negb (contains always (gr_Name grp)) then a
  else {| a_types := a_types a ++ (gr_ServerTypes grp ≫= entryTypes c);
          a_groups := a_groups a ++ [gr_Name grp];
          a_admin := if gr_Admin grp then true else a_admin a;
          a_pods := if gr_PodsPerUser grp >? a_pods a then gr_PodsPerUser grp else a_pods a;
          a_lazy := match gr_Tools grp with
                    | Some t => if String.eqb (gt_Loading t) "lazy" then true else a_lazy a
                    | None => a_lazy a
                    end |}.

(** [func (a *Adapter) Grants(p *core.Principal, clientName string) core.Grants] *)
Definition Adapter_Grants (c : Config) (opts : Options) (p : Principal) (clientName : string) : Grants :=
  let init := mkAcc [] [] (HasScope p (sc_Admin (id_Scopes (c_Identity c))))
                (cap_PodsPerUser (g_Caps (c_Gateway c)))
                (String.eqb (to_DefaultLoading (g_Tools (c_Gateway c))) "lazy") in
  let a := fold_left (groupStep c p (alwaysGroups opts)) (az_Groups (c_Authorization c)) init in
  let lazy1 := fold_left (λ l lg, if existsb (String.eqb lg) (a_groups a) then true else l)
                 (to_LazyForGroups (g_Tools (c_Gateway c))) (a_lazy a) in
  let lazy2 := fold_left (λ l lc, if negb (String.eqb clientName "") && HasPrefixFold clientName lc then true else l)
                 (to_LazyForClients (g_Tools (c_Gateway c))) lazy1 in
  NewGrants (p_Subject p) (a_types a) (a_groups a) (a_admin a) (a_pods a) lazy2.

(** The zero [core.ToolRule]: hidden. *)
Definition hidden : ToolRule := mkToolRule false "".

(** [func (a *Adapter) ToolRule(g core.Grants, s *config.Server, upstream string) core.ToolRule] *)
Definition Adapter_ToolRule (g : Grants) (s : Server) (upstream : string) : ToolRule :=
  let after_expose :=
    if match te_Groups (s_Tools s) !! upstream with
       | Some groups => negb (gr_IsAdmin g) && negb (existsb (Grants_InGroup g) groups)
       | None => false
       end then hidden
    else mkToolRule true (default upstream (te_Rename (s_Tools s) !! upstream)) in
  match te_Expose (s_Tools s) with
  | Some ex =>
      let listed := contains (ex_Names ex) upstream in
      if String.eqb (ex_Mode ex) "allow" then if negb listed then hidden else after_expose
      else if String.eqb (ex_Mode ex) "deny" then if listed then hidden else after_expose
      else after_expose
  | None => after_expose
  end.

(** The adapter as the interface the gateway and the router use. *)
Definition groups_policy (c : Config) (opts : Options) : AccessPolicy := {|
  Policy_Grants := Adapter_Grants c opts; Policy_ToolRule := Adapter_ToolRule |}.

(** ** Specification *)

(** The group entries of the configuration that apply to the caller. *)
Definition applies (opts : Options) (p : Principal) (grp : Group) : Prop :=
  gr_Name grp ∈ p_Groups p ∨ gr_Name grp ∈ alwaysGroups opts.

#[export] Instance applies_dec opts p grp : Decision (applies opts p grp).
Proof. unfold applies. apply _. Defined.

Definition appliedGroups (c : Config) (opts : Options) (p : Principal) : list Group :=
  filter (applies opts p) (az_Groups (c_Authorization c)).

Lemma groupStep_applies c opts p a grp :
  groupStep c p (alwaysGroups opts) a grp =
  if decide (applies opts p grp) then
    {| a_types := a_types a ++ (gr_ServerTypes grp ≫= entryTypes c);
       a_groups := a_groups a ++ [gr_Name grp];
       a_admin := gr_Admin grp || a_admin a;
       a_pods := Z.max (a_pods a) (gr_PodsPerUser grp);
       a_lazy := bool_decide (gt_Loading <$> gr_Tools grp = Some "lazy") || a_lazy a |}
  else a.
Proof.
  unfold groupStep. rewrite <- negb_orb.
  assert (InGroup p (gr_Name grp) || contains (alwaysGroups opts) (gr_Name grp) = true ↔ applies opts p grp) as Ha.
  { unfold InGroup, applies. by rewrite orb_true_iff, !contains_spec. }
  destruct (InGroup _ _ || contains _ _); cbn [negb].
  - rewrite decide_True by (by apply Ha). f_equal.
    + rewrite Z.gtb_ltb. destruct (Z.ltb_spec (a_pods a) (gr_PodsPerUser grp)); lia.
    + destruct (gr_Tools grp) as [t|]; simpl; [|done].
      destruct (String.eqb_spec (gt_Loading t) "lazy") as [->|Hl]; [done|].
      rewrite bool_decide_eq_false_2; [done|]. intros [=]; done.
  - rewrite decide_False; [done|]. by rewrite <- Ha.
Qed.

Lemma fold_groups c opts p gs a :
  let a' := fold_left (groupStep c p (alwaysGroups opts)) gs a in
  let ap := filter (applies opts p) gs in
  a_types a' = a_types a ++ (ap ≫= λ g, gr_ServerTypes g ≫= entryTypes c) ∧
  a_groups a' = a_groups a ++ (gr_Name <$> ap) ∧
  a_admin a' = (existsb gr_Admin ap || a_admin a) ∧
  a_pods a' = foldr Z.max (a_pods a) (gr_PodsPerUser <$> ap) ∧
  a_lazy a' = (existsb (λ g, bool_decide (gt_Loading <$> gr_Tools g = Some "lazy")) ap || a_lazy a).
Proof.
  revert a. induction gs as [|g gs IH]; intros a; simpl.
  { by rewrite !app_nil_r. }
  rewrite groupStep_applies, filter_cons. destruct (decide (applies opts p g)) as [Hg|Hg].
  - set (a1 := mkAcc _ _ _ _ _). destruct (IH a1) as (H1 & H2 & H3 & H4 & H5).
    rewrite H1, H2, H3, H4, H5. unfold a1. cbn. rewrite <- !app_assoc. split_and!; try done.
    + rewrite orb_assoc. f_equal. apply orb_comm.
    + clear. induction (filter (applies opts p) gs) as [|g' l IH]; csimpl; lia.
    + rewrite orb_assoc. f_equal. apply orb_comm.
  - apply IH.
Qed.

Lemma fold_or {A} (f : A → bool) l b :
  fold_left (λ acc x, if f x then true else acc) l b = b || existsb f l.
Proof.
  revert b. induction l as [|x l IH]; intros b; simpl; [by rewrite orb_false_r|].
  rewrite IH. destruct (f x), b; done.
Qed.

Lemma elem_of_entryTypes c st t :
  t ∈ entryTypes c st ↔ (st = "*" ∧ t ∈ ServerNames c) ∨ (st ≠ "*" ∧ st = t ∧ t ∈ ServerNames c).
Proof.
  unfold entryTypes. destruct (String.eqb_spec st "*") as [->|Hne]; [naive_solver|].
  destruct (Config_Server c st) as [s|] eqn:E; unfold Config_Server, ServerNames in *.
  - apply find_some_elem in E as [Hin Hs%String.eqb_eq]. rewrite list_elem_of_singleton. split.
    + intros ->. right. split_and!; [done..|]. rewrite <- Hs. by apply list_elem_of_fmap_2.
    + naive_solver.
  - rewrite elem_of_nil. split; [done|]. intros [?|(_ & -> & Hin)]; [naive_solver|].
    apply list_elem_of_fmap in Hin as (s & -> & Hin). eapply find_none_elem in E; [|done].
    by rewrite String.eqb_refl in E.
Qed.

(** The fields of the grants in terms of the applied groups. *)
Lemma Grants_fields c opts p client :
  let g := Adapter_Grants c opts p client in
  let ap := appliedGroups c opts p in
  gr_Subject g = p_Subject p ∧
  gr_Types g = sortedUnique (ap ≫= λ g, gr_ServerTypes g ≫= entryTypes c) ∧
  gr_Groups g = sortedUnique (gr_Name <$> ap) ∧
  gr_IsAdmin g = (existsb gr_Admin ap || HasScope p (sc_Admin (id_Scopes (c_Identity c)))) ∧
  gr_Pods g = foldr Z.max (cap_PodsPerUser (g_Caps (c_Gateway c))) (gr_PodsPerUser <$> ap) ∧
  gr_LazyTools g =
    ((existsb (λ g, bool_decide (gt_Loading <$> gr_Tools g = Some "lazy")) ap
      || String.eqb (to_DefaultLoading (g_Tools (c_Gateway c))) "lazy")
     || existsb (λ lg, existsb (String.eqb lg) (gr_Name <$> ap)) (to_LazyForGroups (g_Tools (c_Gateway c)))
     || existsb (λ lc, negb (String.eqb client "") && HasPrefixFold client lc)
          (to_LazyForClients (g_Tools (c_Gateway c)))).
Proof.
  intros g ap. unfold g, Adapter_Grants, NewGrants, ap, appliedGroups. cbn [gr_Subject gr_Types gr_Groups gr_IsAdmin gr_Pods gr_LazyTools].
  match goal with |- context [fold_left (groupStep _ _ _) _ ?i] =>
    destruct (fold_groups c opts p (az_Groups (c_Authorization c)) i) as (H1 & H2 & H3 & H4 & H5) end.
  rewrite !fold_or, H1, H2, H3, H4, H5. done.
Qed.

Lemma foldr_max_le l b x : x ∈ b :: l → x ≤ foldr Z.max b l.
Proof.
  induction l as [|y l IH]; rewrite !elem_of_cons; simpl.
  - intros [->|H]; [lia|by apply not_elem_of_nil in H].
  - rewrite elem_of_cons in IH. intros [->|[->|H]]; [|lia|]; etrans; [apply IH; eauto|lia|apply IH; eauto|lia].
Qed.

Lemma foldr_max_in l b : foldr Z.max b l ∈ b :: l.
Proof.
  induction l as [|y l IH]; simpl; [left|].
  rewrite !elem_of_cons in *. destruct (Z.max_spec y (foldr Z.max b l)) as [[_ ->]|[_ ->]]; naive_solver.
Qed.

(** The two checks of [ToolRule] in turn. *)
Definition exposed (s : Server) (tool : string) : bool :=
  match te_Expose (s_Tools s) with
  | Some ex => if String.eqb (ex_Mode ex) "allow" then contains (ex_Names ex) tool
               else if String.eqb (ex_Mode ex) "deny" then negb (contains (ex_Names ex) tool)
               else true
  | None => true
  end.
Definition restricted (g : Grants) (s : Server) (tool : string) : bool :=
  match te_Groups (s_Tools s) !! tool with
  | Some groups => negb (gr_IsAdmin g) && negb (existsb (Grants_InGroup g) groups)
  | None => false
  end.

Lemma ToolRule_checks g s tool :
  Adapter_ToolRule g s tool =
  if exposed s tool && negb (restricted g s tool)
  then mkToolRule true (default tool (te_Rename (s_Tools s) !! tool)) else hidden.
Proof.
  unfold Adapter_ToolRule. fold (restricted g s tool). unfold exposed.
  destruct (restricted g s tool), (te_Expose (s_Tools s)) as [ex|]; cbn [negb andb]; try done;
    destruct (String.eqb (ex_Mode ex) "allow"), (String.eqb (ex_Mode ex) "deny"), (contains (ex_Names ex) tool); done.
Qed.

Lemma exposed_spec s tool : exposed s tool = true ↔
  ∀ ex, te_Expose (s_Tools s) = Some ex →
    (ex_Mode ex = "allow" → tool ∈ ex_Names ex) ∧ (ex_Mode ex = "deny" → tool ∉ ex_Names ex).
Proof.
  unfold exposed. destruct (te_Expose (s_Tools s)) as [ex|]; [|done].
  trans ((ex_Mode ex = "allow" → tool ∈ ex_Names ex) ∧ (ex_Mode ex = "deny" → tool ∉ ex_Names ex));
    [|split; [by intros H x [= <-]|eauto]].
  rewrite <- contains_spec. destruct (String.eqb_spec (ex_Mode ex) "allow") as [->|Ha].
  { split; [|by intros [H _]; apply H]. intros H. split; [done|discriminate]. }
  destruct (String.eqb_spec (ex_Mode ex) "deny") as [->|Hd]; [|naive_solver].
  rewrite negb_true_iff, <- not_true_iff_false. split; [|by intros [_ H]; apply H].
  intros H. split; [discriminate|done].
Qed.

Lemma restricted_spec g s tool : restricted g s tool = false ↔
  ∀ gs, te_Groups (s_Tools s) !! tool = Some gs →
    gr_IsAdmin g = true ∨ ∃ grp, grp ∈ gs ∧ grp ∈ gr_Groups g.
Proof.
  unfold restricted. destruct (te_Groups (s_Tools s) !! tool) as [gs|]; [|naive_solver].
  rewrite andb_false_iff, !negb_false_iff, existsb_elem. unfold Grants_InGroup.
  setoid_rewrite contains_spec. naive_solver.
Qed.

(** ** Properties *)

(** C38. Access is granted by group membership and nothing else: a caller may
    use a server type exactly when the type is configured and some group that
    applies to the caller (held, or an always-on group) lists it or lists the
    wildcard.  A group naming a type that is not configured grants nothing. *)
Theorem Grants_Allows_iff c opts p client st :
  st ≠ "" →
  Allows (Adapter_Grants c opts p client) st = true ↔
  st ∈ ServerNames c ∧
  ∃ grp, grp ∈ az_Groups (c_Authorization c) ∧ applies opts p grp ∧
         (st ∈ gr_ServerTypes grp ∨ "*" ∈ gr_ServerTypes grp).
Proof.
  intros Hst. unfold Allows. rewrite contains_spec.
  destruct (Grants_fields c opts p client) as (_ & -> & _).
  rewrite elem_of_sortedUnique, list_elem_of_bind. setoid_rewrite list_elem_of_bind.
  setoid_rewrite elem_of_entryTypes. unfold appliedGroups. setoid_rewrite list_elem_of_filter.
  destruct (decide (st = "*")); naive_solver.
Qed.

(** The per-user pod cap of a caller is the largest of the gateway default
    and the caps of the groups that apply: never below the default, never above
    what some applying group configures; administration comes only from the
    admin scope or an applying admin group. *)
Theorem Grants_caps_admin c opts p client :
  let g := Adapter_Grants c opts p client in
  let dflt := cap_PodsPerUser (g_Caps (c_Gateway c)) in
  (∀ grp, grp ∈ appliedGroups c opts p → gr_PodsPerUser grp ≤ gr_Pods g) ∧ dflt ≤ gr_Pods g ∧
  (gr_Pods g = dflt ∨ ∃ grp, grp ∈ appliedGroups c opts p ∧ gr_Pods g = gr_PodsPerUser grp) ∧
  (gr_IsAdmin g = true ↔
     sc_Admin (id_Scopes (c_Identity c)) ∈ p_Scopes p ∨
     ∃ grp, grp ∈ appliedGroups c opts p ∧ gr_Admin grp = true).
Proof.
  intros g dflt. destruct (Grants_fields c opts p client) as (_ & _ & _ & Ha & Hp & _).
  fold g in Ha, Hp. fold dflt in Hp. rewrite Ha, Hp. split_and!.
  - intros grp Hin. apply foldr_max_le. right. by apply list_elem_of_fmap_2.
  - apply foldr_max_le. left.
  - pose proof (foldr_max_in (gr_PodsPerUser <$> appliedGroups c opts p) dflt) as H.
    rewrite elem_of_cons, list_elem_of_fmap in H. naive_solver.
  - rewrite orb_true_iff, existsb_elem. unfold HasScope. rewrite contains_spec. naive_solver.
Qed.

(** A tool is visible exactly when the server's allow list contains it (if
    it has one), its deny list does not, and the tool has no group restriction
    or the caller is an administrator or in one of the tool's groups; a visible
    tool carries its configured new name or its own. *)
Theorem ToolRule_iff g s tool :
  let r := Adapter_ToolRule g s tool in
  (tr_Visible r = true ↔
     (∀ ex, te_Expose (s_Tools s) = Some ex →
        (ex_Mode ex = "allow" → tool ∈ ex_Names ex) ∧ (ex_Mode ex = "deny" → tool ∉ ex_Names ex)) ∧
     (∀ gs, te_Groups (s_Tools s) !! tool = Some gs →
        gr_IsAdmin g = true ∨ ∃ grp, grp ∈ gs ∧ grp ∈ gr_Groups g)) ∧
  (tr_Visible r = true → tr_Name r = default tool (te_Rename (s_Tools s) !! tool)) ∧
  (tr_Visible r = false → tr_Name r = "").
Proof.
  cbv zeta. rewrite ToolRule_checks, <- exposed_spec, <- restricted_spec.
  destruct (exposed s tool), (restricted g s tool); naive_solver.
Qed.

(** ** Witness *)

Module PolicyWitness.
Definition eve : Principal := mkPrincipal "eve" "eve" "user" "" ["eng"] [] "" 0 "" "".

(** An engineer may use jira and not the atlassian server. *)
Lemma Grants_Allows_iff_witness :
  Allows (Adapter_Grants sample_config ∅ eve "") "jira" = true.
Proof.
  apply (Grants_Allows_iff sample_config ∅ eve "" "jira"); [discriminate|].
  split; [left|]. exists (mkGroup "eng" ["jira"] 0 false None). split_and!; [left|left; left|left; left].
Defined.

Example eve_not_atlassian : Allows (Adapter_Grants sample_config ∅ eve "") "mcp-atlassian" = false.
Proof. vm_compute. reflexivity. Qed.
End PolicyWitness.
