(* ===== verification/Manager.v ===== *)
(** * internal/gateway/manager.go: the session manager

    [EnsurePod] (grant check, caps, creation, cold-start hold), [Release],
    [ReleaseAll] and [SessionsFor], over the contracts of the routing table, the
    provisioner and the token broker.  The clock and the tick channel are a
    function from the iteration of the hold loop to the time read there. *)

From S2P Require Import Prelude GoStd Config Core Contracts RoutingMemory Policy.

Local Open Scope Z_scope.

(** [func newPodToken() string] on the 32 bytes read from crypto/rand. *)
Definition newPodToken (b : list Z) : string := base64url_EncodeToString b.

(** The shared state the manager's collaborators keep. *)
Record world (T P B : Type) := mkWorld { w_table : T; w_prov : P; w_broker : B }.
Arguments mkWorld {T P B}. Arguments w_table {T P B}. Arguments w_prov {T P B}. Arguments w_broker {T P B}.

(** What one request sees of its environment: the current time, the random bytes
    of a new pod token, the time at each iteration of the hold loop and whether
    the request context is done there. *)
Record reqenv := mkReqenv { e_now : Z; e_rand : list Z; e_clock : nat → Z; e_done : nat → bool }.

Definition set_phase_endpoint (ph : Phase) (ep : string) (p : Pod) : Pod :=
  mkPod (pod_Key p) (pod_Name p) ep ph (pod_CreatedAt p) (pod_ConfigHash p) (pod_PodToken p).

Definition ctx_err : gerror := EMsg "context canceled".

Section Manager.
Context {T P B : Type} {tbl : RoutingTable T} {prov : Provisioner P} {brk : TokenBroker B} {pol : AccessPolicy}.

Notation W := (world T P B).

Definition on_table {A} (f : T → A * T) (w : W) : A * W :=
  let '(a, t) := f (w_table w) in (a, mkWorld t (w_prov w) (w_broker w)).
Definition on_prov {A} (f : P → A * P) (w : W) : A * W :=
  let '(a, q) := f (w_prov w) in (a, mkWorld (w_table w) q (w_broker w)).
Definition on_broker {A} (f : B → A * B) (w : W) : A * W :=
  let '(a, b) := f (w_broker w) in (a, mkWorld (w_table w) (w_prov w) b).

(** The loop of [hold]: [i] counts iterations, [None] is out of fuel. *)
Fixpoint holdLoop (fuel : nat) (env : reqenv) (deadline : Z) (i : nat) (pod : Pod) (srv : Server)
    (key : PodKey) (w : W) : option (result (Pod * Server) * W) :=
  match fuel with
  | O => None
  | S fuel' =>
      match on_prov (Prov_Status key) w with
      | (Err e, w) => Some (Err e, w)
      | (Ok st, w) =>
          match pst_Phase st with
          | PhaseReady =>
              let pod := set_phase_endpoint PhaseReady (pst_Endpoint st) pod in
              match on_table (PutPod pod) w with
              | (Err e, w) => Some (Err e, w)
              | (Ok _, w) => Some (Ok (pod, srv), (on_table (Touch (pod_Name pod) (e_clock env i)) w).2)
              end
          | PhaseFailed =>
              let w := (on_prov (Prov_Release key) w).2 in
              let w := (on_table (DeletePod key) w).2 in
              Some (Err (EWrap (pst_Message st) ErrPodFailed), w)
          | _ =>
              if deadline <? e_clock env i then Some (Err ErrColdStart, w)
              else if e_done env i then Some (Err ctx_err, w)
              else holdLoop fuel' env deadline (S i) pod srv key w
          end
      end
  end.

(** [func (m *Manager) hold] *)
Definition hold (fuel : nat) (env : reqenv) (pod : Pod) (srv : Server) (key : PodKey) (budget : Z) (w : W) :=
  holdLoop fuel env (e_clock env 0 + budget) 0 pod srv key w.

(** The admission half of [EnsurePod]: configuration, grants, lookup and caps;
    [Ok (pod, _)] has [None] when a pod must be created. *)
Definition admission (l : Loaded) (p : Principal) (serverType : string) (w : W)
    : result (option Pod * Server) * W :=
  let cfg := ld_Config l in
  match Config_Server cfg serverType with
  | None => (Err ErrUnknownType, w)
  | Some srv =>
      let grants := Policy_Grants p "" in
      if negb (Allows grants serverType) then (Err ErrNotGranted, w)
      else
        let key := mkPodKey (p_Subject p) serverType in
        match on_table (GetPod key) w with
        | (Ok pod, w) => (Ok (Some pod, srv), w)
        | (Err e, w) =>
            if negb (errors_Is e ErrNotFound) then (Err e, w)
            else
              match on_table (CountPods (p_Subject p) serverType) w with
              | (Err e, w) => (Err e, w)
              | (Ok (perUser, perType, total), w) =>
                  if (gr_Pods grants <=? perUser) || (s_MaxPods srv <=? perType)
                     || (cap_TotalPods (g_Caps (c_Gateway cfg)) <=? total)
                  then (Err ErrCapReached, w)
                  else (Ok (None, srv), w)
              end
        end
  end.

(** The creation half: record the pod, then ask the provisioner for it. *)
Definition create (l : Loaded) (env : reqenv) (key : PodKey) (srv : Server) (w : W) : result Pod * W :=
  let pod := mkPod key (PodKey_Name key) "" PhasePending (e_now env) (ld_Hash l) (newPodToken (e_rand env)) in
  match on_table (PutPod pod) w with
  | (Err e, w) => (Err e, w)
  | (Ok _, w) =>
      match on_prov (Prov_Ensure (mkSpawnSpec key srv (c_Network (ld_Config l)) (ld_Hash l) (pod_PodToken pod))) w with
      | (Err e, w) => (Err (EWrap "spawn" e), (on_table (DeletePod key) w).2)
      | (Ok _, w) => (Ok pod, w)
      end
  end.

(** [func (m *Manager) EnsurePod] *)
Definition EnsurePod (fuel : nat) (l : Loaded) (env : reqenv) (p : Principal) (serverType : string) (w : W)
    : option (result (Pod * Server) * W) :=
  match admission l p serverType w with
  | (Err e, w) => Some (Err e, w)
  | (Ok (found, srv), w) =>
      let key := mkPodKey (p_Subject p) serverType in
      let '(res, w) := match found with
                       | Some pod => (Ok pod, w)
                       | None => create l env key srv w
                       end in
      match res with
      | Err e => Some (Err e, w)
      | Ok pod =>
          if bool_decide (pod_Phase pod = PhaseReady) then Some (Ok (pod, srv), w)
          else hold fuel env pod srv key
                 (Duration_Or (g_ColdStartBudget (c_Gateway (ld_Config l))) (60 * Second)) w
      end
  end.

(** [func (m *Manager) Release] *)
Definition Release (key : PodKey) (w : W) : result () * W :=
  let '(err, w) := on_prov (Prov_Release key) w in
  let go w := on_table (DeletePod key) (on_table (DeleteSessionsForPod (PodKey_Name key)) w).2 in
  match err with
  | Err e => if negb (errors_Is e ErrNotFound) then (Err e, w) else go w
  | Ok _ => go w
  end.

(** The loop of [ReleaseAll]: the non-nil errors in order. *)
Fixpoint releasePods (ps : list Pod) (w : W) : list gerror * W :=
  match ps with
  | [] => ([], w)
  | p :: ps' =>
      let '(err, w1) := Release (pod_Key p) w in
      let '(errs, w2) := releasePods ps' w1 in
      (match err with Err e => e :: errs | Ok _ => errs end, w2)
  end.

(** [func (m *Manager) ReleaseAll] *)
Definition ReleaseAll (subject : string) (w : W) : result () * W :=
  match on_table (ListPods subject) w with
  | (Err e, w) => (Err e, w)
  | (Ok pods, w) =>
      let '(errs, w) := releasePods pods w in
      let '(err, w) := on_broker (Revoke subject) w in
      (errors_Join (errs ++ match err with Err e => [e] | Ok _ => [] end), w)
  end.

(** The loop of [SessionsFor]: an error of a read gives the zero value. *)
Fixpoint podViews (ps : list Pod) (w : W) : list SessionView * W :=
  match ps with
  | [] => ([], w)
  | p :: ps' =>
      let '(la, w) := on_table (LastActive (pod_Name p)) w in
      let '(inflight, w) := on_table (InFlight (pod_Name p) 0) w in
      let v := mkSessionView (pod_Name p) (pk_ServerType (pod_Key p)) (pk_Subject (pod_Key p)) (pod_Phase p)
                 (pod_Name p) (pod_CreatedAt p)
                 (match la with Ok t => if IsZero t then None else Some t | Err _ => None end)
                 (match inflight with Ok n => n | Err _ => 0 end) in
      let '(vs, w) := podViews ps' w in
      (v :: vs, w)
  end.

(** [func (m *Manager) SessionsFor] *)
Definition SessionsFor (subject : string) (w : W) : result (list SessionView) * W :=
  match on_table (ListPods subject) w with
  | (Err e, w) => (Err e, w)
  | (Ok pods, w) => let '(vs, w) := podViews pods w in (Ok vs, w)
  end.

(** ** Termination of the hold *)

(** Iterations a budget allows: one per half-second tick, plus the first and the
    one that sees the deadline passed. *)
Definition tick : Z := 500 * Millisecond.
Definition hold_fuel (budget : Z) : nat := S (S (Z.to_nat (budget / tick))).

(** The ticker's contract: iteration [i] has received [i] ticks, so at least
    [i] periods have passed since the first reading of the clock. *)
Definition ticker_ok (env : reqenv) : Prop := ∀ i, e_clock env 0 + Z.of_nat i * tick ≤ e_clock env i.

Lemma holdLoop_terminates fuel env deadline i pod srv key w :
  ticker_ok env → deadline < e_clock env 0 + Z.of_nat (i + fuel) * tick → (0 < fuel)%nat →
  deadline < e_clock env 0 + Z.of_nat (i + fuel - 1) * tick →
  is_Some (holdLoop fuel env deadline i pod srv key w).
Proof.
  intros Htick. revert i w. induction fuel as [|fuel IH]; intros i w Hd Hf Hd1; [lia|]. cbn [holdLoop].
  destruct (on_prov (Prov_Status key) w) as [[st|e] w1]; [|by eauto].
  destruct (pst_Phase st);
    try (destruct (on_table (PutPod _) w1) as [[[]|] w2]); eauto;
    (destruct (Z.ltb_spec deadline (e_clock env i)); [by eauto|]; destruct (e_done env i); [by eauto|];
     destruct fuel as [|fuel]; [specialize (Htick i); replace (i + 1 - 1)%nat with i in Hd1 by lia; lia|];
     apply IH; [|lia|]; [replace (S i + S fuel)%nat with (i + S (S fuel))%nat by lia; lia|];
     replace (S i + S fuel - 1)%nat with (i + S (S fuel) - 1)%nat by lia; lia).
Qed.

Lemma hold_terminates env pod srv key budget w :
  ticker_ok env → 0 ≤ budget → is_Some (hold (hold_fuel budget) env pod srv key budget w).
Proof.
  intros Htick Hb. unfold hold, hold_fuel. pose proof (Z.div_mod budget tick) as Hdm.
  pose proof (Z.mod_pos_bound budget tick) as Hm. pose proof (Z.div_pos budget tick) as Hp.
  assert (0 < tick) by (unfold tick, Millisecond; lia).
  apply holdLoop_terminates; [done| |lia|]; unfold tick, Millisecond in *; lia.
Qed.
End Manager.

(** ** What a successful call returns *)

Section Sound.
Context {T P B : Type} {tbl : RoutingTable T} {laws : RoutingTableLaws T} {prov : Provisioner P}
  {brk : TokenBroker B} {pol : AccessPolicy}.
Notation W := (world T P B).

Lemma on_table_eq {A} (f : T → A * T) (w w' : W) a :
  on_table f w = (a, w') ↔ ∃ t, f (w_table w) = (a, t) ∧ w' = mkWorld t (w_prov w) (w_broker w).
Proof. unfold on_table. destruct (f (w_table w)) as [a' t]. naive_solver. Qed.

Lemma on_prov_table {A} (f : P → A * P) (w : W) : w_table (on_prov f w).2 = w_table w.
Proof. unfold on_prov. by destruct (f (w_prov w)). Qed.

Lemma admission_Ok l p st (w w' : W) found srv :
  rt_ok (w_table w) →
  admission l p st w = (Ok (found, srv), w') →
  Config_Server (ld_Config l) st = Some srv ∧ Allows (Policy_Grants p "") st = true ∧
  (∀ pod, found = Some pod → pod_Key pod = mkPodKey (p_Subject p) st).
Proof.
  intros Hok. unfold admission. destruct (Config_Server (ld_Config l) st) as [s|] eqn:Es; [|done].
  destruct (Allows (Policy_Grants p "") st) eqn:Ha; cbn [negb]; [|done].
  destruct (on_table (GetPod (mkPodKey (p_Subject p) st)) w) as [[pod|e] w1] eqn:Eg.
  - intros [= <- <- <-]. split_and!; [done..|]. intros ? [= <-].
    apply on_table_eq in Eg as (t & Ht & ->). by eapply rt_get_key.
  - destruct (errors_Is e ErrNotFound); cbn [negb]; [|done].
    destruct (on_table (CountPods (p_Subject p) st) w1) as [[[[u ty] to]|] w2]; [|done].
    case_match; [done|]. intros [= <- <- <-]. done.
Qed.

Lemma holdLoop_Ok fuel env deadline i pod srv key (w w' : W) pod' srv' :
  holdLoop fuel env deadline i pod srv key w = Some (Ok (pod', srv'), w') →
  srv' = srv ∧ pod_Key pod' = pod_Key pod ∧ pod_Name pod' = pod_Name pod ∧
  pod_PodToken pod' = pod_PodToken pod ∧ pod_Phase pod' = PhaseReady.
Proof.
  revert i w. induction fuel as [|fuel IH]; intros i w; [done|]. cbn [holdLoop].
  destruct (on_prov (Prov_Status key) w) as [[st|e] w1]; [|done].
  destruct (pst_Phase st); try (destruct (on_table (PutPod _) w1) as [[[]|] w2]); try done;
    try (destruct (deadline <? e_clock env i), (e_done env i); try done; by apply IH).
  intros [= <- <- <-]. done.
Qed.

(** What the data plane gets from the session manager is the caller's own:
    a successful call returns a Ready pod stored under the caller's subject and
    the requested server type, with that type's configuration, and only if the
    type is configured and the policy grants it to the caller. *)
Lemma EnsurePod_sound fuel l env p st (w w' : W) pod srv :
  rt_ok (w_table w) →
  EnsurePod fuel l env p st w = Some (Ok (pod, srv), w') →
  pod_Key pod = mkPodKey (p_Subject p) st ∧ pod_Phase pod = PhaseReady ∧
  Config_Server (ld_Config l) st = Some srv ∧ Allows (Policy_Grants p "") st = true.
Proof.
  intros Hok. unfold EnsurePod. destruct (admission l p st w) as [[[found srv0]|e] w1] eqn:Ea; [|done].
  apply admission_Ok in Ea as (Hs & Ha & Hf); [|done].
  set (key := mkPodKey (p_Subject p) st) in *.
  assert (∀ pod0 w2, match found with Some pod0 => (Ok pod0, w1) | None => create l env key srv0 w1 end = (Ok pod0, w2) →
    pod_Key pod0 = key) as Hkey.
  { intros pod0 w2. destruct found as [q|]; [intros [= <- <-]; eauto|]. unfold create.
    destruct (on_table (PutPod _) w1) as [[[]|] w3]; [|done].
    destruct (on_prov _ w3) as [[?|] w4]; [|done]. by intros [= <- <-]. }
  destruct (match found with Some pod0 => (Ok pod0, w1) | None => create l env key srv0 w1 end)
    as [[pod0|e] w2] eqn:Ec; [|done]. specialize (Hkey _ _ eq_refl).
  case_bool_decide as Hph.
  - intros [= <- <- <-]. done.
  - unfold hold. intros (-> & -> & _ & _ & ->)%holdLoop_Ok. done.
Qed.


(** The call always returns: whatever the provisioner answers, with the
    ticker delivering one tick per half second, the hold ends within
    budget / 500ms + 2 polls, so no request waits on a pod forever. *)
Theorem EnsurePod_terminates l env p st (w : W) :
  ticker_ok env → 0 ≤ g_ColdStartBudget (c_Gateway (ld_Config l)) →
  is_Some (EnsurePod (hold_fuel (Duration_Or (g_ColdStartBudget (c_Gateway (ld_Config l))) (60 * Second)))
             l env p st w).
Proof.
  intros Htick Hb. unfold EnsurePod. destruct (admission l p st w) as [[[found srv]|e] w1]; [|by eauto].
  destruct (match found with Some pod0 => (Ok pod0, w1) | None => create _ _ _ _ w1 end) as [[pod|e] w2]; [|by eauto].
  case_bool_decide; [by eauto|]. apply hold_terminates; [done|].
  unfold Duration_Or. case_match; unfold Second; lia.
Qed.

(** A pod record that never became Ready and whose status cannot be read
    (for example because its Session object is gone) is never replaced: every
    later call for the same caller and type reports the status error and leaves
    the record in place, so the caller is locked out until someone deletes it. *)
Theorem EnsurePod_stale_record_locks_out fuel l env p st (w : W) srv pod t e q :
  (0 < fuel)%nat →
  Config_Server (ld_Config l) st = Some srv → Allows (Policy_Grants p "") st = true →
  GetPod (mkPodKey (p_Subject p) st) (w_table w) = (Ok pod, t) → pod_Phase pod ≠ PhaseReady →
  Prov_Status (mkPodKey (p_Subject p) st) (w_prov w) = (Err e, q) →
  EnsurePod fuel l env p st w = Some (Err e, mkWorld t q (w_broker w)).
Proof.
  intros Hf Hs Ha Hg Hph Hst. destruct fuel as [|fuel]; [lia|]. unfold EnsurePod, admission. rewrite Hs, Ha. cbn [negb].
  unfold on_table at 1. rewrite Hg. rewrite bool_decide_eq_false_2 by done.
  unfold hold. cbn [holdLoop]. unfold on_prov. cbn [w_prov w_table w_broker]. by rewrite Hst.
Qed.
End Sound.

(** ** Caps, on the in-process table *)

Section Caps.
Context {P B : Type} {prov : Provisioner P} {brk : TokenBroker B} {pol : AccessPolicy}.
Notation Mem := Memory.Memory.
Notation W := (world Mem P B).

Definition keys (m : Mem) : gset PodKey := dom (Memory.pods m).
Definition user_keys (s : string) (D : gset PodKey) : gset PodKey := filter (λ k, pk_Subject k = s) D.
Definition type_keys (st : string) (D : gset PodKey) : gset PodKey := filter (λ k, pk_ServerType k = st) D.

(** Within the caps: [U] bounds the pods of each user. *)
Record caps_ok (cfg : Config) (U : string → Z) (D : gset PodKey) : Prop := {
  caps_total : Z.of_nat (size D) ≤ cap_TotalPods (g_Caps (c_Gateway cfg));
  caps_type : ∀ st srv, Config_Server cfg st = Some srv → Z.of_nat (size (type_keys st D)) ≤ s_MaxPods srv;
  caps_user : ∀ s, Z.of_nat (size (user_keys s D)) ≤ U s }.

(** Pods as the manager stores them: under their key, Pending or Ready. *)
Record table_ok (m : Mem) : Prop := {
  tok_key : ∀ k p, Memory.pods m !! k = Some p → pod_Key p = k;
  tok_phase : ∀ k p, Memory.pods m !! k = Some p → pod_Phase p = PhasePending ∨ pod_Phase p = PhaseReady }.

Lemma caps_ok_subset cfg U D D' : caps_ok cfg U D → D' ⊆ D → caps_ok cfg U D'.
Proof.
  intros [Ht Hty Hu] Hsub. split.
  - apply subseteq_size in Hsub. lia.
  - intros st srv Hs. specialize (Hty st srv Hs). assert (type_keys st D' ⊆ type_keys st D) as Hx%subseteq_size.
    { unfold type_keys. intros x. rewrite !elem_of_filter. naive_solver. } lia.
  - intros s. specialize (Hu s). assert (user_keys s D' ⊆ user_keys s D) as Hx%subseteq_size.
    { unfold user_keys. intros x. rewrite !elem_of_filter. naive_solver. } lia.
Qed.

Lemma size_filter_insert (Q : PodKey → Prop) `{∀ k, Decision (Q k)} k (D : gset PodKey) :
  k ∉ D → size (filter Q ({[k]} ∪ D)) = ((if decide (Q k) then 1 else 0) + size (filter Q D))%nat.
Proof.
  intros Hk. rewrite filter_union_L, filter_singleton_L by apply _. case_decide as Hq.
  - rewrite size_union, size_singleton; [done|].
    intros x. rewrite elem_of_singleton, elem_of_filter. naive_solver.
  - by rewrite union_empty_l_L.
Qed.

Lemma caps_ok_insert cfg U D k srv :
  caps_ok cfg U D → k ∉ D → Config_Server cfg (pk_ServerType k) = Some srv →
  Z.of_nat (size (user_keys (pk_Subject k) D)) < U (pk_Subject k) →
  Z.of_nat (size (type_keys (pk_ServerType k) D)) < s_MaxPods srv →
  Z.of_nat (size D) < cap_TotalPods (g_Caps (c_Gateway cfg)) →
  caps_ok cfg U ({[k]} ∪ D).
Proof.
  intros [Ht Hty Hu] Hk Hs H1 H2 H3. split.
  - rewrite size_union, size_singleton by set_solver. lia.
  - intros st srv' Hs'. specialize (Hty st srv' Hs'). unfold type_keys in *. rewrite size_filter_insert by done.
    case_decide; subst; [|lia]. rewrite Hs in Hs'. injection Hs' as <-. lia.
  - intros s. specialize (Hu s). unfold user_keys in *. rewrite size_filter_insert by done. case_decide; subst; lia.
Qed.

(** The counts of [CountPods] are sizes of key sets. *)
Lemma count_dom (f : Pod → bool) (Q : PodKey → Prop) `{∀ k, Decision (Q k)} (m : gmap PodKey Pod) :
  (∀ k p, m !! k = Some p → f p = true ↔ Q k) →
  length (List.filter f (map_to_list m).*2) = size (filter Q (dom m)).
Proof.
  induction m as [|k p m Hk IH] using map_ind; intros Hf.
  { rewrite map_to_list_empty, dom_empty_L, filter_empty_L by apply _. by rewrite size_empty. }
  rewrite dom_insert_L, size_filter_insert by (by rewrite not_elem_of_dom).
  rewrite <- IH.
  - rewrite map_to_list_insert by done. cbn. specialize (Hf k p (lookup_insert_eq _ _ _)).
    destruct (f p), (decide (Q k)); naive_solver.
  - intros k' p' Hp'. apply Hf. rewrite lookup_insert_ne; naive_solver.
Qed.

Lemma CountPods_keys m subject st :
  table_ok m →
  Memory.CountPods subject st m =
  (Ok (Z.of_nat (size (user_keys subject (keys m))), Z.of_nat (size (type_keys st (keys m))),
       Z.of_nat (size (keys m))), m).
Proof.
  intros [Hk Hp]. unfold Memory.CountPods, Memory.count_pods, keys.
  assert (∀ k p, Memory.pods m !! k = Some p → Memory.counted p = true) as Hc.
  { intros k p Hl. unfold Memory.counted. destruct (Hp _ _ Hl) as [-> | ->]; done. }
  rewrite (count_dom _ (λ k, pk_Subject k = subject)), (count_dom _ (λ k, pk_ServerType k = st)), size_dom; [done|..];
    intros k p Hl; rewrite andb_true_iff, String.eqb_eq, (Hc _ _ Hl), (Hk _ _ Hl); naive_solver.
Qed.

Lemma table_ok_PutPod p m :
  table_ok m → (pod_Phase p = PhasePending ∨ pod_Phase p = PhaseReady) → table_ok (Memory.PutPod p m).2.
Proof.
  intros [Hk Hp] Hph. split; simpl; intros k q; rewrite lookup_insert; case_decide; naive_solver.
Qed.

Lemma table_ok_DeletePod k m : table_ok m → table_ok (Memory.DeletePod k m).2.
Proof.
  intros [Hk Hp]. split; intros k' q; simpl; destruct (Memory.pods m !! k); simpl; rewrite lookup_delete;
    case_decide; naive_solver.
Qed.

Lemma keys_PutPod p m : keys (Memory.PutPod p m).2 = {[pod_Key p]} ∪ keys m.
Proof. unfold keys. simpl. apply dom_insert_L. Qed.

Lemma keys_DeletePod k m : keys (Memory.DeletePod k m).2 ⊆ keys m.
Proof. unfold keys, Memory.DeletePod. destruct (Memory.pods m !! k); simpl; rewrite dom_delete_L; set_solver. Qed.

(** The invariant of the manager's state. *)
Definition inv cfg U (w : W) : Prop := table_ok (w_table w) ∧ caps_ok cfg U (keys (w_table w)).

Lemma inv_prov {A} cfg U (f : P → A * P) (w : W) : inv cfg U w → inv cfg U (on_prov f w).2.
Proof. unfold inv. by rewrite on_prov_table. Qed.

Lemma inv_DeletePod cfg U key (w : W) : inv cfg U w → inv cfg U (on_table (DeletePod key) w).2.
Proof.
  intros [Hok Hc]. split; cbn.
  - by apply table_ok_DeletePod.
  - eapply caps_ok_subset; [done|]. apply keys_DeletePod.
Qed.

Lemma inv_PutPod_present cfg U pod (w : W) :
  inv cfg U w → pod_Key pod ∈ keys (w_table w) → (pod_Phase pod = PhasePending ∨ pod_Phase pod = PhaseReady) →
  inv cfg U (on_table (PutPod pod) w).2.
Proof.
  intros [Hok Hc] Hin Hph. unfold inv, on_table. cbn [Contracts.PutPod Memory.table].
  destruct (Memory.PutPod pod (w_table w)) as [r m] eqn:E.
  assert (m = (Memory.PutPod pod (w_table w)).2) as -> by (by rewrite E). cbn [snd w_table].
  split; [by apply table_ok_PutPod|]. rewrite keys_PutPod.
  replace ({[pod_Key pod]} ∪ keys (w_table w)) with (keys (w_table w)) by set_solver. done.
Qed.

Lemma keys_prov {A} (f : P → A * P) (w : W) : keys (w_table (on_prov f w).2) = keys (w_table w).
Proof. by rewrite on_prov_table. Qed.

Lemma inv_holdLoop cfg U fuel env deadline i pod srv (w w' : W) res :
  inv cfg U w → pod_Key pod ∈ keys (w_table w) →
  holdLoop fuel env deadline i pod srv (pod_Key pod) w = Some (res, w') → inv cfg U w'.
Proof.
  revert i w. induction fuel as [|fuel IH]; intros i w Hinv Hin; [done|]. cbn [holdLoop].
  pose proof (inv_prov cfg U (Prov_Status (pod_Key pod)) w Hinv) as Hinv1.
  pose proof (keys_prov (Prov_Status (pod_Key pod)) w) as Hk1.
  destruct (on_prov (Prov_Status (pod_Key pod)) w) as [[st|e] w1]; cbn [snd] in *; [|by intros [= <- <-]].
  destruct (pst_Phase st);
    try (destruct (deadline <? e_clock env i), (e_done env i); intros; simplify_eq; try done; eapply IH; eauto; by rewrite Hk1).
  - set (pod' := set_phase_endpoint _ _ _).
    assert (inv cfg U (on_table (PutPod pod') w1).2) as Hinv2.
    { apply inv_PutPod_present; [done|by rewrite Hk1|by right]. }
    destruct (on_table (PutPod pod') w1) as [[[]|e] w2]; cbn [snd] in *; intros [= <- <-]; [|done].
    destruct Hinv2 as [[] ?]. by split.
  - intros [= <- <-]. apply inv_DeletePod. by apply inv_prov.
Qed.

(** Admission: the caps checks make room for the new key. *)
Lemma admission_caps l U p st (w w' : W) found srv :
  inv (ld_Config l) U w → gr_Pods (Policy_Grants p "") ≤ U (p_Subject p) →
  admission l p st w = (Ok (found, srv), w') →
  w' = w ∧
  match found with
  | Some pod => pod_Key pod = mkPodKey (p_Subject p) st ∧ mkPodKey (p_Subject p) st ∈ keys (w_table w)
  | None => mkPodKey (p_Subject p) st ∉ keys (w_table w) ∧
            caps_ok (ld_Config l) U ({[mkPodKey (p_Subject p) st]} ∪ keys (w_table w))
  end.
Proof.
  intros [Hok Hc] HU. unfold admission. destruct (Config_Server (ld_Config l) st) as [s|] eqn:Es; [|done].
  destruct (Allows (Policy_Grants p "") st); cbn [negb]; [|done].
  unfold on_table at 1. cbn [Contracts.GetPod Memory.table]. unfold Memory.GetPod.
  destruct (Memory.pods (w_table w) !! mkPodKey (p_Subject p) st) as [pod|] eqn:Ep.
  - intros [= <- <- <-]. split; [by destruct w|]. split; [by apply Hok|]. apply elem_of_dom. eauto.
  - change (errors_Is ErrNotFound ErrNotFound) with true. cbn [negb].
    unfold on_table. cbn [Contracts.CountPods Memory.table w_table w_prov w_broker]. rewrite CountPods_keys by done.
    case_match eqn:Hcap; [done|]. bprop. intros [= <- <- <-]. split; [by destruct w|].
    split; [by apply not_elem_of_dom|].
    eapply caps_ok_insert; [done|by apply not_elem_of_dom|exact Es|cbn; lia|cbn; lia|lia].
Qed.

Lemma inv_create l U env key srv (w w' : W) res :
  inv (ld_Config l) U w → caps_ok (ld_Config l) U ({[key]} ∪ keys (w_table w)) →
  create l env key srv w = (res, w') →
  inv (ld_Config l) U w' ∧ (∀ pod, res = Ok pod → pod_Key pod = key ∧ key ∈ keys (w_table w')).
Proof.
  intros [Hok Hc] Hcap. unfold create. set (pod := mkPod _ _ _ _ _ _ _).
  unfold on_table at 1. cbn [Contracts.PutPod Memory.table].
  destruct (Memory.PutPod pod (w_table w)) as [r m] eqn:E.
  assert (r = Ok ()) as -> by (by injection E). assert (m = (Memory.PutPod pod (w_table w)).2) as -> by (by rewrite E).
  set (w1 := mkWorld _ _ _).
  assert (inv (ld_Config l) U w1) as Hinv.
  { split; [by apply table_ok_PutPod; [|left]|]. cbn [w1 w_table]. rewrite keys_PutPod. done. }
  assert (key ∈ keys (w_table w1)) as Hin.
  { cbn [w1 w_table]. rewrite keys_PutPod. set_solver. }
  match goal with |- context [on_prov ?f w1] =>
    pose proof (inv_prov _ U f w1 Hinv) as Hinv1; pose proof (keys_prov f w1) as Hk1; destruct (on_prov f w1) as [[st|e] w2] end;
    cbn [snd] in *; intros [= <- <-].
  - split; [done|]. intros ? [= <-]. rewrite Hk1. done.
  - split; [by apply inv_DeletePod|done].
Qed.

Lemma inv_EnsurePod fuel l U env p st (w w' : W) res :
  inv (ld_Config l) U w → gr_Pods (Policy_Grants p "") ≤ U (p_Subject p) →
  EnsurePod fuel l env p st w = Some (res, w') → inv (ld_Config l) U w'.
Proof.
  intros Hinv HU. unfold EnsurePod. destruct (admission l p st w) as [[[found srv]|e] w1] eqn:Ea.
  2:{ intros [= <- <-]. revert Ea. unfold admission.
      destruct (Config_Server (ld_Config l) st); [|by intros [= _ <-]].
      destruct (Allows _ _); cbn [negb]; [|by intros [= _ <-]].
      unfold on_table at 1. cbn [Contracts.GetPod Memory.table]. unfold Memory.GetPod.
      destruct (Memory.pods (w_table w) !! _); [done|]. change (errors_Is ErrNotFound ErrNotFound) with true.
      cbn [negb]. unfold on_table. cbn [Contracts.CountPods Memory.table w_table w_prov w_broker].
      rewrite CountPods_keys by apply Hinv. case_match; [|done]. intros [= _ <-]. by destruct w. }
  apply admission_caps with (U := U) in Ea as [-> Hf]; [|done..].
  set (key := mkPodKey (p_Subject p) st) in *.
  destruct (match found with Some pod0 => (Ok pod0, w) | None => create l env key srv w end) as [res0 w2] eqn:Ec.
  assert (inv (ld_Config l) U w2 ∧ (∀ pod, res0 = Ok pod → pod_Key pod = key ∧ key ∈ keys (w_table w2))) as [Hinv2 Hpod].
  { destruct found as [q|]; [injection Ec as <- <-; split; [done|]; intros ? [= <-]; done|].
    eapply inv_create; eauto; apply Hf. }
  destruct res0 as [pod|e]; [|by intros [= <- <-]]. destruct (Hpod pod eq_refl) as [Hk Hin].
  case_bool_decide; [by intros [= <- <-]|]. unfold hold. rewrite <- Hk. intros Hh.
  eapply inv_holdLoop; [exact Hinv2|by rewrite Hk|exact Hh].
Qed.

Lemma inv_Release cfg U key (w : W) : inv cfg U w → inv cfg U (Release key w).2.
Proof.
  intros Hinv. unfold Release. pose proof (inv_prov cfg U (Prov_Release key) w Hinv) as H1.
  destruct (on_prov (Prov_Release key) w) as [err w1]. cbn [snd] in H1.
  assert (inv cfg U (on_table (DeletePod key) (on_table (DeleteSessionsForPod (PodKey_Name key)) w1).2).2) as H2.
  { apply inv_DeletePod. destruct H1 as [[] ?]. by split. }
  destruct err as [[]|e]; [done|]. by case_match.
Qed.

Lemma inv_releasePods cfg U ps (w : W) : inv cfg U w → inv cfg U (releasePods ps w).2.
Proof.
  revert w. induction ps as [|q ps IH]; intros w Hinv; [done|]. cbn [releasePods].
  pose proof (inv_Release cfg U (pod_Key q) w Hinv) as H1.
  destruct (Release (pod_Key q) w) as [err w1]. specialize (IH w1 H1). by destruct (releasePods ps w1).
Qed.

Lemma inv_ReleaseAll cfg U s (w : W) : inv cfg U w → inv cfg U (ReleaseAll s w).2.
Proof.
  intros Hinv. unfold ReleaseAll. unfold on_table at 1. cbn [Contracts.ListPods Memory.table Memory.ListPods].
  match goal with |- context [releasePods ?ps ?w0] => pose proof (inv_releasePods cfg U ps w0 Hinv) as H1;
    destruct (releasePods ps w0) as [errs w1] end.
  unfold on_broker. destruct (Revoke s (w_broker w1)) as [err b]. exact H1.
Qed.

(** The calls other components make, one at a time. *)
Inductive mcall :=
| MEnsure (fuel : nat) (env : reqenv) (p : Principal) (st : string)
| MRelease (key : PodKey) | MReleaseAll (subject : string).

Definition mrun (l : Loaded) (w : W) (c : mcall) : W :=
  match c with
  | MEnsure fuel env p st => match EnsurePod fuel l env p st w with Some (_, w') => w' | None => w end
  | MRelease key => (Release key w).2
  | MReleaseAll s => (ReleaseAll s w).2
  end.

(** The pod caps hold: whatever sequence of ensure, release and release-all
    calls runs (one after the other), for any answers of the provisioner, the
    table never holds more pods than the total cap, than a server type's
    maximum, or than the cap of a user, starting within them. *)
Theorem caps_never_exceeded l U cs (w : W) :
  inv (ld_Config l) U w →
  (∀ fuel env p st, MEnsure fuel env p st ∈ cs → gr_Pods (Policy_Grants p "") ≤ U (p_Subject p)) →
  caps_ok (ld_Config l) U (keys (w_table (fold_left (mrun l) cs w))).
Proof.
  intros Hinv HU. cut (inv (ld_Config l) U (fold_left (mrun l) cs w)); [by intros []|].
  revert w Hinv. induction cs as [|c cs IH]; intros w Hinv; [done|]. cbn [fold_left].
  apply IH; [intros; eapply HU; by right|]. destruct c as [fuel env p st|key|s]; cbn [mrun].
  - destruct (EnsurePod fuel l env p st w) as [[res w']|] eqn:E; [|done].
    eapply inv_EnsurePod; [done| |exact E]. eapply HU. by left.
  - by apply inv_Release.
  - by apply inv_ReleaseAll.
Qed.

(** One successful release on the in-process table. *)
Lemma Release_Ok_table key (w w' : W) :
  Release key w = (Ok (), w') →
  w_table w' = (Memory.DeletePod key (Memory.DeleteSessionsForPod (PodKey_Name key) (w_table w)).2).2.
Proof.
  unfold Release. pose proof (on_prov_table (Prov_Release key) w) as Ht.
  destruct (on_prov (Prov_Release key) w) as [er w4]. cbn [snd] in Ht. rewrite <- Ht.
  destruct er as [[]|e]; [by intros [= <-]|]. case_match; [done|]. by intros [= <-].
Qed.

Lemma Release_Ok_lookup key (w w' : W) :
  Release key w = (Ok (), w') →
  (∀ k, Memory.pods (w_table w') !! k = if decide (k = key) then None else Memory.pods (w_table w) !! k) ∧
  Memory.sessions (w_table w') = filter (λ kv, ms_PodName kv.2 ≠ PodKey_Name key) (Memory.sessions (w_table w)).
Proof.
  intros ->%Release_Ok_table. split.
  - intros k. simpl. destruct (Memory.pods (w_table w) !! key); simpl;
      rewrite lookup_delete; repeat case_decide; naive_solver.
  - simpl. by destruct (Memory.pods (w_table w) !! key).
Qed.

Lemma releasePods_done ps (w0 w1 : W) :
  releasePods ps w0 = ([], w1) →
  (∀ k, k ∈ pod_Key <$> ps → Memory.pods (w_table w1) !! k = None) ∧
  (∀ k, Memory.pods (w_table w0) !! k = None → Memory.pods (w_table w1) !! k = None) ∧
  (∀ id s, Memory.sessions (w_table w1) !! id = Some s →
     Memory.sessions (w_table w0) !! id = Some s ∧ ∀ k, k ∈ pod_Key <$> ps → ms_PodName s ≠ PodKey_Name k).
Proof.
  revert w0. induction ps as [|q ps IH]; intros w0; cbn [releasePods].
  { intros [= <-]. split_and!; [by intros k ?%not_elem_of_nil|done|]. intros id s Hs. split; [done|].
    by intros k ?%not_elem_of_nil. }
  destruct (Release (pod_Key q) w0) as [err w2] eqn:Er. destruct (releasePods ps w2) as [errs' w3] eqn:Ep.
  intros [= Herr <-]. destruct err as [[]|]; [|done]. subst errs'.
  destruct (IH w2 Ep) as (I1 & I2 & I3). apply Release_Ok_lookup in Er as [Hp2 Hs2]. split_and!.
  - intros k. csimpl. rewrite elem_of_cons. intros [->|Hk]; [|by apply I1]. apply I2. rewrite Hp2.
    by rewrite decide_True.
  - intros k Hk. apply I2. rewrite Hp2. by case_decide.
  - intros id s Hs. apply I3 in Hs as [Hs Hn]. rewrite Hs2 in Hs.
    apply map_lookup_filter_Some in Hs as [Hs Hq]. split; [done|].
    intros k. csimpl. rewrite elem_of_cons. intros [->|Hk]; [done|by apply Hn].
Qed.

Lemma ReleaseAll_removes subject (w w' : W) :
  subject ≠ "" → table_ok (w_table w) →
  ReleaseAll subject w = (Ok (), w') →
  (∀ st, Memory.pods (w_table w') !! mkPodKey subject st = None) ∧
  (∀ id s st, Memory.sessions (w_table w') !! id = Some s →
     Memory.pods (w_table w) !! mkPodKey subject st ≠ None → ms_PodName s ≠ PodKey_Name (mkPodKey subject st)).
Proof.
  intros Hne Hok. unfold ReleaseAll. unfold on_table at 1. cbn [Contracts.ListPods Memory.table Memory.ListPods].
  set (ps := List.filter _ _).
  replace (mkWorld (w_table w) (w_prov w) (w_broker w)) with w by (by destruct w).
  assert (∀ st p, Memory.pods (w_table w) !! mkPodKey subject st = Some p → mkPodKey subject st ∈ pod_Key <$> ps) as Hps.
  { intros st p Hp. assert (pod_Key p = mkPodKey subject st) as Hk by (by apply Hok).
    apply list_elem_of_fmap. exists p. split; [done|]. unfold ps.
    rewrite Memory.elem_of_ListPods by apply Hok. rewrite Hk. eauto. }
  destruct (releasePods ps w) as [errs w1] eqn:Er. unfold on_broker.
  destruct (Revoke subject (w_broker w1)) as [err b]. intros [= Hj <-].
  assert (errs = []) as -> by (destruct errs; [done|]; done).
  destruct (releasePods_done ps w w1 Er) as (R1 & R2 & R3). cbn [w_table]. split.
  - intros st. destruct (Memory.pods (w_table w) !! mkPodKey subject st) as [p|] eqn:Ep; eauto.
  - intros id s st Hs Hp. destruct (Memory.pods (w_table w) !! mkPodKey subject st) as [p|] eqn:Ep; [|done].
    eapply R3; eauto.
Qed.

(** Revocation is complete: when revoking a user reports success, no pod of
    that user is left in the table and no MCP session points at one of them. *)
Theorem ReleaseAll_complete subject (w w' : W) :
  subject ≠ "" → table_ok (w_table w) →
  ReleaseAll subject w = (Ok (), w') →
  (∀ st, Memory.pods (w_table w') !! mkPodKey subject st = None) ∧
  (∀ id s st, Memory.sessions (w_table w') !! id = Some s →
     Memory.pods (w_table w) !! mkPodKey subject st ≠ None → ms_PodName s ≠ PodKey_Name (mkPodKey subject st)).
Proof. apply ReleaseAll_removes. Qed.
End Caps.

(** ** Concrete collaborators, witnesses and the admission race *)

Module ManagerWitness.

(** A provisioner whose pods are Ready after the given number of polls. *)
Definition toy_prov := gmap PodKey nat.
Definition ready_status (k : PodKey) (ph : Phase) : PodStatus :=
  mkPodStatus (PodKey_Name k) ph "https://10.0.0.9:8443" "" 0.
#[global] Instance toy_provisioner : Provisioner toy_prov := {|
  Prov_Ensure := λ sp p, (Ok (ready_status (sp_Key sp) PhasePending), <[sp_Key sp := 2%nat]> p);
  Prov_Status := λ k p, match p !! k with
                        | None => (Err ErrNotFound, p)
                        | Some O => (Ok (ready_status k PhaseReady), p)
                        | Some (S n) => (Ok (ready_status k PhaseStarting), <[k := n]> p)
                        end;
  Prov_Release := λ k p, (Ok (), delete k p);
  Prov_Logs := λ _ _ _, Ok "" |}.

#[global] Instance toy_broker : TokenBroker () := {|
  TokenFor := λ _ _ _ _ b, (Ok None, b); Revoke := λ _ b, (Ok (), b) |}.

Definition env0 : reqenv :=
  mkReqenv 1000 (replicate 32 65) (λ i, 1000 + Z.of_nat i * tick) (λ _, false).
Definition bob : Principal := mkPrincipal "bob" "bob" "user" "" ["platform"] [] "" 0 "" "".
Definition w0 : world Memory.Memory toy_prov () := mkWorld Memory.NewMemory ∅ ().

Definition loaded (c : Config) : Loaded := mkLoaded c "cfg1" "juggernaut.yaml".
#[local] Instance policy : AccessPolicy := groups_policy sample_config ∅.

Definition after : option (result (Pod * Server) * world Memory.Memory toy_prov ()) :=
  EnsurePod 5 (loaded sample_config) env0 bob "jira" w0.
Definition bob_pod : Pod :=
  mkPod (mkPodKey "bob" "jira") (PodKey_Name (mkPodKey "bob" "jira")) "https://10.0.0.9:8443" PhaseReady 1000 "cfg1"
    (newPodToken (replicate 32 65)).
Definition w_after : world Memory.Memory toy_prov () :=
  match after with Some (_, w) => w | None => w0 end.

(** The lemma at a concrete request: Bob's pod is Ready after two polls. *)
Lemma EnsurePod_sound_example :
  after = Some (Ok (bob_pod, default (sample_server "" TokenNone None) (Config_Server sample_config "jira")), w_after) ∧
  pod_Key bob_pod = mkPodKey "bob" "jira".
Proof.
  assert (after = Some (Ok (bob_pod, default (sample_server "" TokenNone None) (Config_Server sample_config "jira")), w_after))
    as E by (vm_compute; reflexivity).
  split; [exact E|].
  destruct (EnsurePod_sound (laws:=Memory.laws) 5 (loaded sample_config) env0 bob "jira" w0 w_after bob_pod
    (default (sample_server "" TokenNone None) (Config_Server sample_config "jira")) Memory.ok_NewMemory E) as [H _].
  exact H.
Defined.


Lemma EnsurePod_terminates_witness :
  is_Some (EnsurePod (hold_fuel (60 * Second)) (loaded sample_config) env0 bob "jira" w0).
Proof.
  apply (EnsurePod_terminates (loaded sample_config) env0 bob "jira" w0).
  - intros i. simpl. lia.
  - vm_compute. discriminate.
Defined.

(** The record exists, Pending, and the provisioner does not know the pod. *)
Definition w_stale : world Memory.Memory toy_prov () :=
  mkWorld (Memory.PutPod (set_phase_endpoint PhasePending "" bob_pod) Memory.NewMemory).2 ∅ ().

Lemma EnsurePod_stale_record_locks_out_witness :
  EnsurePod 5 (loaded sample_config) env0 bob "jira" w_stale = Some (Err ErrNotFound, w_stale).
Proof.
  apply (EnsurePod_stale_record_locks_out 5 (loaded sample_config) env0 bob "jira" w_stale
    (default (sample_server "" TokenNone None) (Config_Server sample_config "jira"))
    (set_phase_endpoint PhasePending "" bob_pod) (w_table w_stale) ErrNotFound ∅).
  - lia.
  - vm_compute. reflexivity.
  - vm_compute. reflexivity.
  - reflexivity.
  - discriminate.
  - reflexivity.
Defined.

Lemma inv_empty cfg U :
  0 ≤ cap_TotalPods (g_Caps (c_Gateway cfg)) → (∀ st srv, Config_Server cfg st = Some srv → 0 ≤ s_MaxPods srv) →
  (∀ s, 0 ≤ U s) → inv cfg U w0.
Proof.
  intros Ht Hs HU. unfold inv, keys; cbn. split; [split; intros k p; cbn; by rewrite lookup_empty|].
  rewrite dom_empty_L. split.
  - by rewrite size_empty.
  - intros st srv H. unfold type_keys. rewrite filter_empty_L by apply _. rewrite size_empty. by eapply Hs.
  - intros s. unfold user_keys. rewrite filter_empty_L by apply _. by rewrite size_empty.
Qed.

Lemma caps_never_exceeded_witness :
  caps_ok sample_config (λ _, 4) (keys (w_table (fold_left (mrun (loaded sample_config))
    [MEnsure 5 env0 bob "jira"; MEnsure 5 env0 bob "mcp-atlassian"; MRelease (mkPodKey "bob" "jira"); MReleaseAll "bob"] w0))).
Proof.
  apply (caps_never_exceeded (loaded sample_config)).
  - apply inv_empty; [vm_compute; discriminate| |done].
    intros st srv [Hin _]%find_some_elem. vm_compute in Hin.
    repeat (apply elem_of_cons in Hin as [->|Hin]; [vm_compute; discriminate|]). by apply not_elem_of_nil in Hin.
  - intros fuel env p st Hin. repeat (apply elem_of_cons in Hin as [[= -> -> -> ->]|Hin]; [vm_compute; discriminate|]).
    repeat (apply elem_of_cons in Hin as [[=]|Hin]). by apply not_elem_of_nil in Hin.
Defined.

Lemma ReleaseAll_complete_witness :
  Memory.pods (w_table (ReleaseAll "bob" w_after).2) !! mkPodKey "bob" "jira" = None.
Proof.
  apply (ReleaseAll_complete "bob" w_after (ReleaseAll "bob" w_after).2).
  - discriminate.
  - replace (w_table w_after) with (Memory.mkMemory {[mkPodKey "bob" "jira" := bob_pod]} ∅
      {[PodKey_Name (mkPodKey "bob" "jira") := 1000 + 2 * tick]} ∅) by (vm_compute; reflexivity).
    split; intros k p; cbn; intros [<- <-]%lookup_singleton_Some; [reflexivity|by right].
  - vm_compute. reflexivity.
Defined.

(** The same configuration with one pod per user and no group raising it. *)
Definition race_config : Config :=
  let g := c_Gateway sample_config in
  mkConfig (c_APIVersion sample_config) (c_Kind sample_config) (c_Identity sample_config)
    (mkGateway (g_PublicURL g) (g_Listeners g) (g_AllowInsecureAdmin g) (g_Runtime g) (g_ColdStartBudget g)
       (g_IdleTimeout g) (g_MaxSessionAge g) (g_MaxBodyBytes g) (mkCaps 1 3) (g_Tools g) (g_Routing g)
       (g_UserSecrets g) (g_Redis g) (g_Audit g) (g_Telemetry g))
    (c_Network sample_config) (c_Servers sample_config)
    (mkAuthorization "" ∅ [mkGroup "platform" ["*"] 0 false None]).
End ManagerWitness.

(** Two requests of one user for different server types, their admissions
    interleaved before either creation. *)
Definition race : result (Z * nat) :=
  let pol := groups_policy ManagerWitness.race_config ∅ in
  let l := ManagerWitness.loaded ManagerWitness.race_config in
  let bob := ManagerWitness.bob in
  let env := ManagerWitness.env0 in
  match admission (pol:=pol) l bob "jira" ManagerWitness.w0 with
  | (Ok (None, s1), w) =>
      match admission (pol:=pol) l bob "mcp-atlassian" w with
      | (Ok (None, s2), w) =>
          let w := (create l env (mkPodKey "bob" "jira") s1 w).2 in
          let w := (create l env (mkPodKey "bob" "mcp-atlassian") s2 w).2 in
          Ok (gr_Pods (Policy_Grants (AccessPolicy:=pol) bob ""), size (user_keys "bob" (keys (w_table w))))
      | _ => Err ErrCapReached
      end
  | _ => Err ErrCapReached
  end.

(** The caps are checked and the pod recorded in two steps, without a lock
    or a transaction around them: when two requests of one user interleave, both
    are admitted and the user ends up with two pods under a cap of one. *)
Theorem concurrent_admission_exceeds_cap : race = Ok (1, 2%nat).
Proof. vm_compute. reflexivity. Qed.
