(* ===== verification/Proxy.v ===== *)
(** * internal/mcpproxy: forwarding a request to a session pod

    [Forward] of proxy.go: the headers the pod receives and the headers the
    client gets back, and [verifyChain] of tls.go.  The HTTP client and the
    certificate parser are parameters; bodies are streamed through unchanged
    and stay abstract. *)

From S2P Require Import Prelude GoStd Config Core Contracts.

Local Open Scope Z_scope.

Definition HeaderPodToken : string := "X-Juggernaut-Pod-Token".
Definition HeaderSubject : string := "X-Juggernaut-Subject".
Definition HeaderSessionID : string := "Mcp-Session-Id".
Definition HeaderProtocolV : string := "MCP-Protocol-Version".
Definition HeaderServerType : string := "X-Juggernaut-Server-Type".

(** [type Upstream struct] *)
Record Upstream := mkUpstream {
  up_Endpoint : string; up_Path : string; up_PodToken : string; up_UpstreamSessionID : string;
  up_NewSessionID : string; up_Subject : string; up_ServerType : string;
  up_UserToken : string; up_TokenHeader : string; up_TokenScheme : string; up_Extra : Header }.

(** [type Result struct] *)
Record Result := mkResult { rs_Status : Z; rs_UpstreamSessionID : string }.

Definition hopByHop : list string :=
  ["connection"; "keep-alive"; "transfer-encoding"; "upgrade"; "content-length"; "host"].

Definition addAll (k : string) (vv : list string) (dst : Header) : Header :=
  fold_left (λ d v, Header_Add k v d) vv dst.

(** [func copyHeaders(dst, src http.Header)] *)
Definition copyHeaders (dst src : Header) : Header :=
  fold_left (λ d kv, if contains hopByHop (ToLower kv.1) then d else addAll kv.1 kv.2 d)
    (map_to_list src) dst.

Definition isJuggernaut (k : string) : bool := HasPrefix (ToLower k) "x-juggernaut-".

(** The first part of [Forward]'s header rewriting: what is kept of the client's
    headers. *)
Definition stripClient (client : Header) : Header :=
  let h := copyHeaders ∅ client in
  let h := Header_Del "Authorization" h in
  let h := Header_Del "Cookie" h in
  fold_left (λ d k, if isJuggernaut k then Header_Del k d else d) (map_to_list h).*1 h.

(** The request headers [Forward] sends, from the client's headers. *)
Definition forwardHeaders (client : Header) (up : Upstream) : Header :=
  let h := stripClient client in
  let h := Header_Set HeaderPodToken (up_PodToken up) h in
  let h := Header_Set HeaderSubject (up_Subject up) h in
  let h := Header_Set HeaderServerType (up_ServerType up) h in
  let h := if String.eqb (up_UpstreamSessionID up) "" then Header_Del HeaderSessionID h
           else Header_Set HeaderSessionID (up_UpstreamSessionID up) h in
  let h := fold_left (λ d kv, addAll kv.1 kv.2 (Header_Del kv.1 d)) (map_to_list (up_Extra up)) h in
  if String.eqb (up_UserToken up) "" then h
  else Header_Set (or_str (up_TokenHeader up) "Authorization")
         (if String.eqb (up_TokenScheme up) "" then up_UserToken up
          else up_TokenScheme up +:+ " " +:+ up_UserToken up) h.

(** The response headers the client gets ([w.Header()] starts as [base]). *)
Definition responseHeaders (base resp : Header) (up : Upstream) : Header :=
  let h := copyHeaders base resp in
  let h := Header_Del HeaderSessionID h in
  let h := Header_Del HeaderPodToken h in
  if negb (String.eqb (Header_Get resp HeaderSessionID) "") && negb (String.eqb (up_NewSessionID up) "")
  then Header_Set HeaderSessionID (up_NewSessionID up) h else h.

(** One HTTP exchange with a pod. *)
Record UpReq := mkUpReq { rq_Method : string; rq_URL : string; rq_Header : Header }.
Record UpResp := mkUpResp { rp_Status : Z; rp_Header : Header; rp_Body : string }.

(** The response written to the client; a JSON-RPC error object as its code and
    message. *)
Inductive body := BText (s : string) | BRPCError (code : Z) (msg : string).
Record Response := mkResponse { w_Status : Z; w_Header : Header; w_Body : body }.

Class HTTPClient (U : Type) := {
  client_Do : UpReq → U → result UpResp * U;
  url_ok : string → bool }.   (* [url.Parse] and [http.NewRequest] accept it *)

Definition strip_slashes (s : string) : string := TrimRight s (Ascii.eqb "/").

(** [func (p *Proxy) Forward]: nothing is written to [w] on an error. *)
Definition Forward {U} `{!HTTPClient U} (method : string) (client : Header) (up : Upstream) (u : U)
    : option Response * result Result * U :=
  let target := strip_slashes (up_Endpoint up) +:+ up_Path up in
  if negb (url_ok target) then (None, Err (EMsg "parse"), u)
  else
    match client_Do (mkUpReq method target (forwardHeaders client up)) u with
    | (Err e, u) => (None, Err e, u)
    | (Ok resp, u) =>
        let res := mkResult (rp_Status resp) (Header_Get (rp_Header resp) HeaderSessionID) in
        (Some (mkResponse (rp_Status resp) (responseHeaders ∅ (rp_Header resp) up) (BText (rp_Body resp))), Ok res, u)
    end.

(** [func (p *Proxy) SessionKey]; [dec] reads the publicKey field of the body. *)
Definition SessionKey {U} `{!HTTPClient U} (dec : string → result string) (endpoint token : string) (u : U)
    : result string * U :=
  let target := strip_slashes endpoint +:+ "/session-key" in
  if negb (url_ok target) then (Err (EMsg "parse"), u)
  else
    match client_Do (mkUpReq "GET" target (Header_Set HeaderPodToken token ∅)) u with
    | (Err e, u) => (Err e, u)
    | (Ok resp, u) =>
        if negb (rp_Status resp =? 200) then (Err (EMsg "status"), u)
        else (dec (rp_Body resp), u)
    end.

(** ** tls.go *)

(** What [verifyChain] uses of crypto/x509. *)
Class X509 := {
  x_cert : Type;
  x_Parse : string → option x_cert;
  x_Verify : x_cert → list x_cert → bool;   (* against the pod CA, for server auth *)
  x_URIs : x_cert → list string }.

(** [func (p *PodTLS) verifyChain(rawCerts [][]byte, wantPod string) error] *)
Definition verifyChain {x : X509} (trustDomain : string) (rawCerts : list string) (wantPod : string) : result () :=
  match rawCerts with
  | [] => Err (EMsg "pod presented no certificate")
  | raw0 :: rest =>
      match x_Parse raw0 with
      | None => Err (EMsg "x509: malformed certificate")
      | Some leaf =>
          if negb (x_Verify leaf (omap x_Parse rest)) then Err (EMsg "pod certificate")
          else
            let prefix := "spiffe://" +:+ trustDomain +:+ "/session/" in
            if existsb (λ s, (String.length prefix <? String.length s)%nat &&
                             String.eqb (str_take (String.length prefix) s) prefix &&
                             (String.eqb wantPod "" || String.eqb (str_drop (String.length prefix) s) wantPod))
                 (x_URIs leaf)
            then Ok () else Err (EMsg "pod certificate has no session identity")
      end
  end.

(** [ClientConfig]'s [VerifyPeerCertificate] callback. *)
Definition VerifyPeerCertificate {x : X509} (trustDomain : string) (rawCerts : list string) : result () :=
  verifyChain trustDomain rawCerts "".

(** ** Lemmas *)

#[local] Arguments contains : simpl never.

(** Headers as net/http delivers them: every name in canonical form. *)
Definition canonical (h : Header) : Prop := ∀ k, is_Some (h !! k) → CanonicalHeaderKey k = k.

Lemma addAll_lookup k vv d k' :
  CanonicalHeaderKey k = k →
  addAll k vv d !! k' =
  if decide (k' = k) then match vv with [] => d !! k | _ => Some (default [] (d !! k) ++ vv) end else d !! k'.
Proof.
  intros Hk. unfold addAll. revert d. induction vv as [|v vv IH]; intros d; simpl; [by case_decide; subst|].
  rewrite IH. unfold Header_Add. rewrite Hk. case_decide as Hd; subst.
  - rewrite lookup_insert_eq. simpl. destruct vv; [done|]. by rewrite <- app_assoc.
  - by rewrite lookup_insert_ne by congruence.
Qed.

(** What survives a copy: no hop-by-hop header and no header without a value. *)
Definition kept (k : string) (o : option (list string)) : option (list string) :=
  if contains hopByHop (ToLower k) then None else match o with Some (v :: vv) => Some (v :: vv) | _ => None end.

Lemma copyHeaders_fold (l : list (string * list string)) (d : Header) k :
  NoDup l.*1 → (∀ kv, kv ∈ l → CanonicalHeaderKey kv.1 = kv.1 ∧ d !! kv.1 = None) →
  fold_left (λ d kv, if contains hopByHop (ToLower kv.1) then d else addAll kv.1 kv.2 d) l d !! k =
  match kept k ((list_to_map l : Header) !! k) with Some vv => Some vv | None => d !! k end.
Proof.
  revert d. induction l as [|[k0 vv] l IH]; intros d Hnd Hl; csimpl.
  { rewrite lookup_empty. unfold kept. by destruct (contains _ _). }
  inversion Hnd as [|? ? Hk0 Hnd']; subst.
  destruct (Hl (k0, vv)) as [Hc Hd]; [by left|]. simpl in *. rewrite IH; [|done|].
  2:{ intros kv Hkv. destruct (Hl kv) as [? Hdk]; [by right|]. split; [done|]. destruct (contains hopByHop (ToLower k0)); [done|].
      rewrite addAll_lookup by done. rewrite decide_False; [done|]. intros <-.
      apply Hk0, list_elem_of_fmap. eauto. }
  rewrite lookup_insert. case_decide as Hk; subst.
  - assert ((list_to_map l : Header) !! k = None) as -> by (by apply not_elem_of_list_to_map_1).
    unfold kept. destruct (contains hopByHop (ToLower k)); [done|].
    rewrite addAll_lookup, decide_True by done. rewrite Hd. by destruct vv.
  - destruct (kept k _); [done|]. destruct (contains hopByHop (ToLower k0)); [done|].
    by rewrite addAll_lookup, decide_False by congruence.
Qed.

Lemma copyHeaders_lookup src k : canonical src → copyHeaders ∅ src !! k = kept k (src !! k).
Proof.
  intros Hc. unfold copyHeaders. rewrite copyHeaders_fold.
  - rewrite list_to_map_to_list, lookup_empty. by destruct (kept k (src !! k)).
  - apply NoDup_fst_map_to_list.
  - intros [k' vv] Hin%elem_of_map_to_list. split; [apply Hc; eauto|apply lookup_empty].
Qed.

Lemma del_fold_lookup (ks : list string) (h : Header) k :
  (∀ k, k ∈ ks → CanonicalHeaderKey k = k) →
  fold_left (λ d k, if isJuggernaut k then Header_Del k d else d) ks h !! k =
  if decide (k ∈ ks ∧ isJuggernaut k = true) then None else h !! k.
Proof.
  revert h. induction ks as [|k0 ks IH]; intros h Hc; cbn [fold_left].
  { rewrite decide_False; [done|]. by intros [?%not_elem_of_nil _]. }
  rewrite IH by (intros; apply Hc; by right).
  assert (CanonicalHeaderKey k0 = k0) as Hk0 by (apply Hc; by left).
  destruct (decide (k ∈ ks ∧ isJuggernaut k = true)) as [[H1 H2]|Hn].
  - rewrite decide_True; [done|]. split; [by right|done].
  - destruct (isJuggernaut k0) eqn:Ej.
    + unfold Header_Del. rewrite Hk0, lookup_delete. case_decide as Hd; subst.
      * rewrite decide_True; [done|]. split; [by left|done].
      * rewrite decide_False; [done|]. intros [[->|?]%elem_of_cons ?]; naive_solver.
    + rewrite decide_False; [done|]. intros [[->|?]%elem_of_cons ?]; [congruence|naive_solver].
Qed.

(** Client headers that must not influence what the pod receives. *)
Definition withheld (k : string) : bool :=
  contains ["authorization"; "cookie"; "mcp-session-id"] (ToLower k) || isJuggernaut k || contains hopByHop (ToLower k).

Lemma stripClient_lookup client k :
  canonical client →
  stripClient client !! k =
  if bool_decide (k = "Authorization" ∨ k = "Cookie") || isJuggernaut k then None else kept k (client !! k).
Proof.
  intros Hc. unfold stripClient. set (h := Header_Del "Cookie" _).
  assert (∀ k, h !! k = if bool_decide (k = "Authorization" ∨ k = "Cookie") then None else kept k (client !! k)) as Hh.
  { intros k'. unfold h, Header_Del. change (CanonicalHeaderKey "Cookie") with "Cookie".
    change (CanonicalHeaderKey "Authorization") with "Authorization".
    rewrite !lookup_delete, copyHeaders_lookup by done. repeat case_decide; case_bool_decide; naive_solver. }
  rewrite del_fold_lookup.
  - rewrite Hh. destruct (isJuggernaut k) eqn:Ej; rewrite ?orb_true_r, ?orb_false_r.
    + case_decide as Hd; [done|]. destruct (h !! k) as [v|] eqn:E.
      * destruct Hd. split; [|done]. apply list_elem_of_fmap. exists (k, v). by rewrite elem_of_map_to_list.
      * by rewrite <- Hh.
    + rewrite decide_False; [done|]. by intros [_ ?].
  - intros k' ([k2 v] & -> & Hin%elem_of_map_to_list)%list_elem_of_fmap. simpl. rewrite Hh in Hin.
    case_bool_decide; [done|]. apply Hc. unfold kept in Hin. destruct (contains _ _); [done|].
    destruct (client !! k2); eauto.
Qed.

Lemma withheld_spec k :
  withheld k = false → k ≠ "Authorization" ∧ k ≠ "Cookie" ∧ k ≠ HeaderSessionID ∧
  isJuggernaut k = false ∧ contains hopByHop (ToLower k) = false.
Proof.
  unfold withheld. rewrite !orb_false_iff, contains_false. intros [[Hk ->] ->]. split_and!; try done;
    intros ->; apply Hk; vm_compute; set_solver.
Qed.

(** The headers before the secrets and the token depend on the client's through
    the headers that are not withheld only. *)
Definition beforeExtra (client : Header) (up : Upstream) : Header :=
  let h := Header_Set HeaderServerType (up_ServerType up)
             (Header_Set HeaderSubject (up_Subject up) (Header_Set HeaderPodToken (up_PodToken up) (stripClient client))) in
  if String.eqb (up_UpstreamSessionID up) "" then Header_Del HeaderSessionID h
  else Header_Set HeaderSessionID (up_UpstreamSessionID up) h.

Lemma beforeExtra_lookup client up k :
  canonical client →
  beforeExtra client up !! k =
  if decide (k = HeaderSessionID) then
    (if String.eqb (up_UpstreamSessionID up) "" then None else Some [up_UpstreamSessionID up])
  else if decide (k = HeaderServerType) then Some [up_ServerType up]
  else if decide (k = HeaderSubject) then Some [up_Subject up]
  else if decide (k = HeaderPodToken) then Some [up_PodToken up]
  else if withheld k then None else kept k (client !! k).
Proof.
  intros Hc. unfold beforeExtra, Header_Del, Header_Set.
  change (CanonicalHeaderKey HeaderSessionID) with HeaderSessionID.
  change (CanonicalHeaderKey HeaderServerType) with HeaderServerType.
  change (CanonicalHeaderKey HeaderSubject) with HeaderSubject.
  change (CanonicalHeaderKey HeaderPodToken) with HeaderPodToken.
  assert (k ≠ HeaderSessionID → stripClient client !! k = if withheld k then None else kept k (client !! k)) as Hs.
  { intros Hk. rewrite stripClient_lookup by done. destruct (withheld k) eqn:Ew.
    - case_match eqn:E1; [done|]. apply orb_false_iff in E1 as [Hb Hj]. bprop.
      unfold withheld in Ew. rewrite Hj in Ew. unfold kept.
      destruct (contains hopByHop (ToLower k)) eqn:Eh; [done|]. rewrite !orb_false_r, contains_spec in Ew.
      destruct (client !! k) as [vv|] eqn:Ev; [|done]. exfalso.
      assert (CanonicalHeaderKey k = k) as Hck by (apply Hc; eauto).
      rewrite <- Hck, <- (CanonicalHeaderKey_of_lower k) in Hk, Hb.
      rewrite !elem_of_cons in Ew. destruct Ew as [E|[E|[E|E%not_elem_of_nil]]]; [| | |done];
        rewrite E in Hk, Hb; vm_compute in Hk, Hb; naive_solver.
    - apply withheld_spec in Ew as (? & ? & ? & -> & ?). rewrite bool_decide_eq_false_2 by naive_solver. done. }
  destruct (decide (k = HeaderSessionID)) as [->|Hk].
  { destruct (String.eqb _ _); [apply lookup_delete_eq|apply lookup_insert_eq]. }
  specialize (Hs Hk).
  destruct (String.eqb _ _); [rewrite lookup_delete_ne by congruence|rewrite lookup_insert_ne by congruence];
    repeat (case_decide as Hd; [subst k; apply lookup_insert_eq|rewrite lookup_insert_ne by congruence; clear Hd]);
    exact Hs.
Qed.

(** ** Properties *)

(** C5. Nothing the client controls reaches the pod beyond plain headers: two
    requests that differ only in their Authorization, Cookie, Mcp-Session-Id,
    X-Juggernaut-* or hop-by-hop headers are forwarded with exactly the same
    headers.  The caller's own bearer token and cookies therefore never leave
    the gateway, and pod token, subject, server type, session id and secrets
    cannot be spoofed by a header. *)
Theorem Forward_noninterference c1 c2 up :
  canonical c1 → canonical c2 → (∀ k, withheld k = false → c1 !! k = c2 !! k) →
  forwardHeaders c1 up = forwardHeaders c2 up.
Proof.
  intros H1 H2 Heq. assert (beforeExtra c1 up = beforeExtra c2 up) as Hb.
  { apply map_eq. intros k. rewrite !beforeExtra_lookup by done. repeat (case_decide; [done|]).
    destruct (withheld k) eqn:Ew; [done|]. by rewrite Heq. }
  unfold forwardHeaders. fold (beforeExtra c1 up) (beforeExtra c2 up). by rewrite Hb.
Qed.

Lemma extra_fold_lookup (l : list (string * list string)) (h : Header) k :
  (∀ kv, kv ∈ l → CanonicalHeaderKey kv.1 = kv.1 ∧ kv.1 ≠ k) →
  fold_left (λ d kv, addAll kv.1 kv.2 (Header_Del kv.1 d)) l h !! k = h !! k.
Proof.
  revert h. induction l as [|kv l IH]; intros h Hl; [done|]. cbn [fold_left].
  destruct (Hl kv) as [Hc Hne]; [by left|]. rewrite IH by (intros; apply Hl; by right).
  rewrite addAll_lookup, decide_False by congruence. unfold Header_Del. by rewrite Hc, lookup_delete_ne.
Qed.

(** The pod is told who it serves: unless a configured secret or token
    header has that very name, the request carries the pod's own token, the
    caller's subject and server type, and the upstream session id or none. *)
Theorem Forward_identity_headers client up k :
  canonical client → canonical (up_Extra up) →
  k ∈ [HeaderPodToken; HeaderSubject; HeaderServerType; HeaderSessionID] →
  up_Extra up !! k = None → CanonicalHeaderKey (or_str (up_TokenHeader up) "Authorization") ≠ k →
  forwardHeaders client up !! k =
    (if decide (k = HeaderSessionID) then
       if String.eqb (up_UpstreamSessionID up) "" then None else Some [up_UpstreamSessionID up]
     else if decide (k = HeaderServerType) then Some [up_ServerType up]
     else if decide (k = HeaderSubject) then Some [up_Subject up] else Some [up_PodToken up]).
Proof.
  intros Hc He Hk Hx Ht. unfold forwardHeaders. fold (beforeExtra client up).
  set (h := fold_left _ _ _).
  assert (h !! k = beforeExtra client up !! k) as Hh.
  { apply extra_fold_lookup. intros [k' v] Hin%elem_of_map_to_list. simpl. split; [apply He; eauto|]. congruence. }
  assert ((if String.eqb (up_UserToken up) "" then h else
    Header_Set (or_str (up_TokenHeader up) "Authorization") (if String.eqb (up_TokenScheme up) "" then up_UserToken up
          else up_TokenScheme up +:+ " " +:+ up_UserToken up) h) !! k = h !! k) as ->.
  { destruct (String.eqb (up_UserToken up) ""); [done|]. unfold Header_Set. by rewrite lookup_insert_ne. }
  rewrite Hh, beforeExtra_lookup by done. repeat (case_decide; [done|]).
  exfalso. rewrite !elem_of_cons, elem_of_nil in Hk. naive_solver.
Qed.

Lemma Header_Get_lookup (h : Header) k : Header_Get h k = match h !! CanonicalHeaderKey k with Some (v :: _) => v | _ => "" end.
Proof. done. Qed.

(** The client never learns the pod's session id or token: the session id of
    the response is the gateway-issued one when the pod started a session on
    this request and none otherwise, and the pod token header is absent. *)
Theorem Forward_hides_upstream_session resp up :
  Header_Get (responseHeaders ∅ resp up) HeaderSessionID =
    (if String.eqb (Header_Get resp HeaderSessionID) "" then "" else up_NewSessionID up) ∧
  responseHeaders ∅ resp up !! HeaderPodToken = None.
Proof.
  unfold responseHeaders. set (h := Header_Del HeaderPodToken _).
  assert (h !! HeaderSessionID = None ∧ h !! HeaderPodToken = None) as [Hs Hp].
  { unfold h, Header_Del. change (CanonicalHeaderKey HeaderSessionID) with HeaderSessionID.
    change (CanonicalHeaderKey HeaderPodToken) with HeaderPodToken.
    rewrite lookup_delete_eq, lookup_delete_ne by done. by rewrite lookup_delete_eq. }
  destruct (String.eqb (Header_Get resp HeaderSessionID) "") eqn:E; cbn [negb andb].
  - split; [|done]. rewrite Header_Get_lookup. change (CanonicalHeaderKey HeaderSessionID) with HeaderSessionID. by rewrite Hs.
  - destruct (String.eqb_spec (up_NewSessionID up) "") as [->|Hn]; cbn [negb].
    + split; [|done]. rewrite Header_Get_lookup. change (CanonicalHeaderKey HeaderSessionID) with HeaderSessionID. by rewrite Hs.
    + split; [by rewrite Header_Get_Set, decide_True|].
      unfold Header_Set. change (CanonicalHeaderKey HeaderSessionID) with HeaderSessionID. by rewrite lookup_insert_ne.
Qed.

(** Mutual TLS does not bind a connection to the pod it was opened for: the
    check the gateway installs accepts a certificate of the pod CA that names
    any session pod.  (The [PodTLS] comment says the connection is refused when
    the certificate names another pod; that needs the pod name [verifyChain]
    takes, which [ClientConfig] leaves empty.) *)
Theorem mtls_accepts_any_pod {x : X509} td raw rest leaf other want :
  x_Parse raw = Some leaf → x_Verify leaf (omap x_Parse rest) = true →
  x_URIs leaf = ["spiffe://" +:+ td +:+ "/session/" +:+ other] → other ≠ "" → want ≠ "" → other ≠ want →
  VerifyPeerCertificate td (raw :: rest) = Ok () ∧ is_ok (verifyChain td (raw :: rest) want) = false.
Proof.
  intros Hp Hv Hu Ho Hw Hne. unfold VerifyPeerCertificate, verifyChain. rewrite Hp, Hv, Hu. cbn [negb existsb].
  set (pre := "spiffe://" +:+ td +:+ "/session/").
  replace ("spiffe://" +:+ td +:+ "/session/" +:+ other) with (pre +:+ other) by (unfold pre; by rewrite !str_app_assoc).
  rewrite str_take_app, str_drop_app, String.eqb_refl, str_length_app.
  assert (0 < String.length other)%nat by (destruct other; simpl; [done|lia]).
  destruct (Nat.ltb_spec (String.length pre) (String.length pre + String.length other)); [|lia].
  cbn [andb orb]. split; [done|]. destruct (String.eqb_spec want ""); [done|].
  destruct (String.eqb_spec other want); [done|]. done.
Qed.

(** ** Witnesses *)

Module ProxyWitness.
Definition up0 : Upstream :=
  mkUpstream "https://10.0.0.9:8443" "/mcp" "pod-token" "up-1" "" "alice" "jira" "user-token" "Authorization" "Bearer"
    {["X-Juggernaut-Secret-Jira_token" := ["s3cret"]]}.
Definition req (auth : string) : Header :=
  {["Authorization" := [auth]; "X-Juggernaut-Subject" := [auth]; "Accept" := ["application/json"]]}.

Lemma req_canonical auth : canonical (req auth).
Proof.
  intros k [v Hv]. unfold req in Hv. rewrite !lookup_insert_Some, lookup_singleton_Some in Hv.
  destruct Hv as [[<- _]|(_ & [[<- _]|(_ & <- & _)])]; reflexivity.
Qed.

Lemma Forward_noninterference_witness :
  forwardHeaders (req "Bearer mallory") up0 = forwardHeaders (req "Bearer alice") up0.
Proof.
  apply Forward_noninterference.
  - apply req_canonical.
  - apply req_canonical.
  - intros k Hk. destruct (withheld_spec k Hk) as (H1 & _ & _ & Hj & _). unfold req.
    rewrite !(lookup_insert_ne _ "Authorization") by congruence.
    rewrite !(lookup_insert_ne _ "X-Juggernaut-Subject") by (intros <-; discriminate). reflexivity.
Defined.

Lemma Forward_identity_headers_witness :
  forwardHeaders (req "mallory") up0 !! HeaderSubject = Some ["alice"].
Proof.
  apply (Forward_identity_headers (req "mallory") up0 HeaderSubject).
  - apply req_canonical.
  - intros k [v Hv]. cbn in Hv. apply lookup_singleton_Some in Hv as [<- _]. reflexivity.
  - right; left.
  - reflexivity.
  - discriminate.
Defined.

#[local] Instance toy_x509 : X509 := {|
  x_cert := string; x_Parse := Some; x_Verify := λ _ _, true;
  x_URIs := λ c, ["spiffe://" +:+ "jug" +:+ "/session/" +:+ c] |}.

Lemma mtls_accepts_any_pod_witness :
  VerifyPeerCertificate "jug" ["mallory-pod"] = Ok () ∧ is_ok (verifyChain "jug" ["mallory-pod"] "alice-pod") = false.
Proof.
  apply (mtls_accepts_any_pod (x:=toy_x509) "jug" "mallory-pod" [] "mallory-pod" "mallory-pod" "alice-pod");
    try reflexivity; discriminate.
Defined.
End ProxyWitness.
