(* ===== verification/Gateway.v ===== *)
(** * internal/gateway: the HTTP surface

    authn.go ([Wrap]), handlers_mcp.go ([adapterMCP], [injectUserToken],
    [writeEnsureError]), usersecrets.go ([ResolveUserSecrets], [Headers],
    /me/secrets) and handlers_control.go, over the contracts.  A response is its
    status, the headers the code sets and its body. *)

From S2P Require Import Prelude GoStd Sha256 Config Core Fixtures Contracts RoutingMemory RoutingRedis Vault Policy Manager Proxy.

Local Open Scope Z_scope.

(** What a handler answers: an error text, a JSON value, or a bare status. *)
Inductive hresp (A : Type) :=
| HError (status : Z) (msg : string)
| HJSON (status : Z) (body : A)
| HStatus (status : Z).
Arguments HError {A}. Arguments HJSON {A}. Arguments HStatus {A}.

Definition hstatus {A} (r : hresp A) : Z := match r with HError s _ | HJSON s _ | HStatus s => s end.

(** [http.Error]: the text with a newline. *)
Definition http_Error (status : Z) (msg : string) : Response := mkResponse status ∅ (BText (msg +:+ String "010" "")).

(** [func writeJSONRPCError] *)
Definition writeJSONRPCError (status code : Z) (msg : string) : Response :=
  mkResponse status (Header_Set "Content-Type" "application/json" ∅) (BRPCError code msg).

(** A handler that returns without writing: net/http answers 200 with no body. *)
Definition nothing_written : Response := mkResponse 200 ∅ (BText "").

(** ** authn.go *)

(** [func (a *Authn) Wrap]: a rejection, or the principal the handler runs with. *)
Definition Wrap `{!IdentityProvider} (requiredScope : string) (req : RequestInfo) : Response + Principal :=
  let reject reason desc status :=
    mkResponse status (Header_Set "WWW-Authenticate" (Challenge reason desc requiredScope) ∅) (BText "") in
  let hasBearer := (Bearer req).2 in
  match Resolve req with
  | Err _ =>
      if negb hasBearer then inl (reject ChallengeMissing "" 401)
      else inl (reject ChallengeInvalidToken "token validation failed" 401)
  | Ok p =>
      if negb (String.eqb requiredScope "") && negb (HasScope p requiredScope)
      then inl (reject ChallengeInsufficientScope ("scope " +:+ requiredScope +:+ " required") 403)
      else inr p
  end.

(** ** handlers_mcp.go: errors *)

(** [func (s *Server) writeEnsureError] *)
Definition writeEnsureError (e : gerror) : Response :=
  if errors_Is e ErrUnknownType then http_Error 404 "unknown adapter"
  else if errors_Is e ErrNotGranted then http_Error 403 "adapter not granted to caller"
  else if errors_Is e ErrCapReached then
    mkResponse 429 (Header_Set "Retry-After" "30" ∅) (BText ("pod cap reached" +:+ String "010" ""))
  else if errors_Is e ErrColdStart then
    let r := writeJSONRPCError 503 (-32000) "session pod starting; retry" in
    mkResponse (w_Status r) (Header_Set "Retry-After" "10" (w_Header r)) (w_Body r)
  else writeJSONRPCError 502 (-32000) "session pod unavailable".

(** ** usersecrets.go *)

(** [type UserSecretHeaders struct] *)
Record UserSecretHeaders := mkUserSecretHeaders { ush_Plain : secrets; ush_Sealed : string }.

Definition ErrMissingUserSecret (adapter name : string) : gerror :=
  EMsg ("adapter " +:+ adapter +:+ " requires user secret " +:+ name).

(** [if _, have := out.Plain[name]; !have { out.Plain[name] = v }] *)
Definition put_absent (name v : string) (m : secrets) : secrets :=
  match m !! name with Some _ => m | None => <[name := v]> m end.

(** The loop state of [ResolveUserSecrets]: [out] and [storeErr]. *)
Record racc := mkRacc { ra_out : UserSecretHeaders; ra_err : option gerror }.

Section Secrets.
Context {S : Type} {sst : UserSecretStore S} {aead : AEAD} {jsec : JSONCodec secrets}.

Definition declaredNames (us : UserSecrets) : list string := us_Name <$> us_Items us.

(** [case "header"]: the declared names the client sent. *)
Definition fromHeaders (cfg : UserSecretsGateway) (hdr : Header) (declared : list string) (a : racc) : racc :=
  let plain := fold_left (λ m name,
      let v := Header_Get hdr (usg_SecretHeaderPrefix cfg +:+ name) in
      if String.eqb v "" then m else put_absent name v m) declared (ush_Plain (ra_out a)) in
  mkRacc (mkUserSecretHeaders plain (ush_Sealed (ra_out a))) (ra_err a).

(** [case "store"]: the caller's vault entry opened with the key of this request. *)
Definition fromStore (cfg : UserSecretsGateway) (hdr : Header) (declared : list string) (subject name : string)
    (store : option S) (a : racc) : outcome (result racc) :=
  match store with
  | None => Done (Ok a)
  | Some st =>
      let keyB64 := Header_Get hdr (usg_VaultKeyHeader cfg) in
      if String.eqb keyB64 "" then Done (Ok a)
      else
        match base64url_DecodeString keyB64 with
        | Some key =>
            if negb (length key =? 32)%nat then
              Done (Ok (mkRacc (ra_out a) (Some (EMsg "vault key header is not 32 base64url bytes"))))
            else
              match Sec_Get subject name st with
              | Err e => if errors_Is e ErrNotFound then Done (Ok a) else Done (Err e)
              | Ok entry =>
                  match OpenEntry key subject name (Some entry) with
                  | Panic => Panic
                  | Done (Err e) => Done (Ok (mkRacc (ra_out a) (Some e)))
                  | Done (Ok vals) =>
                      let plain := fold_left (λ m kv,
                          if contains declared kv.1 then put_absent kv.1 kv.2 m else m)
                          (map_to_list vals) (ush_Plain (ra_out a)) in
                      Done (Ok (mkRacc (mkUserSecretHeaders plain (ush_Sealed (ra_out a))) (ra_err a)))
                  end
              end
        | None => Done (Ok (mkRacc (ra_out a) (Some (EMsg "vault key header is not 32 base64url bytes"))))
        end
  end.

(** [case "sealed"]: the blob for the pod, forwarded as it is. *)
Definition fromSealed (cfg : UserSecretsGateway) (hdr : Header) (name : string) (a : racc) : racc :=
  let v := Header_Get hdr (usg_SealedHeaderPrefix cfg +:+ name) in
  if String.eqb v "" then a else mkRacc (mkUserSecretHeaders (ush_Plain (ra_out a)) v) (ra_err a).

(** The loop over [srv.UserSecrets.Sources]. *)
Fixpoint resolveSources (cfg : UserSecretsGateway) (hdr : Header) (declared : list string) (subject name : string)
    (store : option S) (sources : list string) (a : racc) : outcome (result racc) :=
  match sources with
  | [] => Done (Ok a)
  | src :: rest =>
      let go := resolveSources cfg hdr declared subject name store rest in
      if String.eqb src "header" then go (fromHeaders cfg hdr declared a)
      else if String.eqb src "store" then
        match fromStore cfg hdr declared subject name store a with
        | Panic => Panic
        | Done (Err e) => Done (Err e)
        | Done (Ok a) => go a
        end
      else if String.eqb src "sealed" then go (fromSealed cfg hdr name a)
      else go a
  end.

(** A required item no source gave. *)
Definition missingItem (out : UserSecretHeaders) (it : UserSecretItem) : bool :=
  us_Required it && negb (bool_decide (is_Some (ush_Plain out !! us_Name it))) && String.eqb (ush_Sealed out) "".

(** [func (s *Server) ResolveUserSecrets] *)
Definition ResolveUserSecrets (cfg : Config) (hdr : Header) (p : Principal) (srv : Server) (store : option S)
    : outcome (result UserSecretHeaders) :=
  match s_UserSecrets srv with
  | None => Done (Ok (mkUserSecretHeaders ∅ ""))
  | Some us =>
      match resolveSources (g_UserSecrets (c_Gateway cfg)) hdr (declaredNames us) (p_Subject p) (s_Name srv) store
              (us_Sources us) (mkRacc (mkUserSecretHeaders ∅ "") None) with
      | Panic => Panic
      | Done (Err e) => Done (Err e)
      | Done (Ok a) =>
          match List.find (missingItem (ra_out a)) (us_Items us) with
          | None => Done (Ok (ra_out a))
          | Some it =>
              let miss := ErrMissingUserSecret (s_Name srv) (us_Name it) in
              Done (Err (match ra_err a with Some _ => EWrap "(vault)" miss | None => miss end))
          end
      end
  end.

(** [func (u *UserSecretHeaders) Headers] *)
Definition Headers (u : UserSecretHeaders) (cfg : UserSecretsGateway) : Header :=
  let h := fold_left (λ h kv, Header_Set (usg_SecretHeaderPrefix cfg +:+ kv.1) kv.2 h) (map_to_list (ush_Plain u)) ∅ in
  if String.eqb (ush_Sealed u) "" then h
  else Header_Set (TrimSuffix (usg_SealedHeaderPrefix cfg) "-") (ush_Sealed u) h.
End Secrets.

(** ** The server and the data plane *)

(** The state behind the handlers: the session manager's collaborators, the
    secret store (nil disables it), the pods as the HTTP client sees them, and
    the audit records of user-initiated changes. *)
Record gstate (T P B S U : Type) := mkGstate {
  gs_world : world T P B; gs_store : option S; gs_up : U; gs_audit : list (string * string * string) }.
Arguments mkGstate {T P B S U}. Arguments gs_world {T P B S U}. Arguments gs_store {T P B S U}.
Arguments gs_up {T P B S U}. Arguments gs_audit {T P B S U}.

(** [type RequestEvent struct], less its duration. *)
Record RequestEvent := mkRequestEvent {
  ev_Subject : string; ev_ServerType : string; ev_PodName : string; ev_SessionID : string;
  ev_Method : string; ev_Status : Z; ev_Err : option gerror }.

Section Server.
Context {T P B S U : Type} {tbl : RoutingTable T} {prov : Provisioner P} {brk : TokenBroker B}
  {sst : UserSecretStore S} {http : HTTPClient U} {pol : AccessPolicy} {aead : AEAD} {jsec : JSONCodec secrets}.
Notation G := (gstate T P B S U).

(** The process environment and file system [StaticRef.Resolve] reads. *)
Context (lookupEnv readFile : string → option string).

Definition set_world (w : world T P B) (s : G) : G := mkGstate w (gs_store s) (gs_up s) (gs_audit s).
Definition set_up (u : U) (s : G) : G := mkGstate (gs_world s) (gs_store s) u (gs_audit s).
Definition on_world {A} (f : world T P B → A * world T P B) (s : G) : A * G :=
  let '(a, w) := f (gs_world s) in (a, set_world w s).

(** [up] with a downstream token. *)
Definition set_token (tok hdr scheme : string) (up : Upstream) : Upstream :=
  mkUpstream (up_Endpoint up) (up_Path up) (up_PodToken up) (up_UpstreamSessionID up) (up_NewSessionID up)
    (up_Subject up) (up_ServerType up) tok hdr scheme (up_Extra up).
Definition set_extra (h : Header) (up : Upstream) : Upstream :=
  mkUpstream (up_Endpoint up) (up_Path up) (up_PodToken up) (up_UpstreamSessionID up) (up_NewSessionID up)
    (up_Subject up) (up_ServerType up) (up_UserToken up) (up_TokenHeader up) (up_TokenScheme up) h.
Definition set_new_session (id : string) (up : Upstream) : Upstream :=
  mkUpstream (up_Endpoint up) (up_Path up) (up_PodToken up) (up_UpstreamSessionID up) id
    (up_Subject up) (up_ServerType up) (up_UserToken up) (up_TokenHeader up) (up_TokenScheme up) (up_Extra up).

(** [func (s *Server) injectUserToken] *)
Definition injectUserToken (now : Z) (p : Principal) (srv : Server) (up : Upstream) (w : world T P B)
    : result Upstream * world T P B :=
  match t_Mode (s_Token srv) with
  | TokenNone => (Ok up, w)
  | TokenStatic =>
      match SecretRef_Resolve lookupEnv readFile (t_StaticRef (s_Token srv)) with
      | Err e => (Err e, w)
      | Ok v => (Ok (set_token v (t_Header (s_Token srv)) (t_Scheme (s_Token srv)) up), w)
      end
  | mode =>
      match on_broker (TokenFor now p srv (60 * Second)) w with
      | (Err e, w) => (Err e, w)
      | (Ok None, w) => (Ok up, w)
      | (Ok (Some tok), w) =>
          (Ok (if bool_decide (mode = TokenHeader)
               then set_token (tok_Value tok) (t_Header (s_Token srv)) (t_Scheme (s_Token srv)) up
               else set_token (tok_Value tok) "Authorization" "Bearer" up), w)
      end
  end.

(** What a request brings: method, headers, adapter name, the environment of
    [EnsurePod] and the 16 random bytes of a new session id. *)
Record mcpreq := mkMcpreq {
  mr_Method : string; mr_Header : Header; mr_Name : string; mr_Env : reqenv; mr_SID : list Z }.

(** [adapterMCP] on DELETE: end the MCP session, keep the pod. *)
Definition deleteMCP (r : mcpreq) (p : Principal) (s : G) : Response * G :=
  let id := Header_Get (mr_Header r) HeaderSessionID in
  match on_world (on_table (GetSession id)) s with
  | (Ok ms, s) =>
      if negb (String.eqb (ms_Subject ms) (p_Subject p)) then (http_Error 404 "unknown session", s)
      else (mkResponse 204 ∅ (BText ""), (on_world (on_table (DeleteSession id)) s).2)
  | (Err _, s) => (http_Error 404 "unknown session", s)
  end.

(** [adapterMCP] up to the call of [Forward]: a response, or the pod, the session
    the client named and the upstream request.  [None]: the hold ran out of fuel. *)
Definition prepareMCP (fuel : nat) (l : Loaded) (r : mcpreq) (p : Principal) (s : G)
    : option (outcome ((Response + Pod * option McpSession * Upstream) * G)) :=
  let cfg := ld_Config l in
  let name := mr_Name r in
  match Config_Server cfg name with
  | None => Some (Done (inl (writeEnsureError ErrUnknownType), s))
  | Some srvDecl =>
      if negb (Allows (Policy_Grants p "") name) then Some (Done (inl (writeEnsureError ErrNotGranted), s))
      else
        let pre := match s_UserSecrets srvDecl with
                   | Some _ => ResolveUserSecrets cfg (mr_Header r) p srvDecl (gs_store s)
                   | None => Done (Ok (mkUserSecretHeaders ∅ ""))
                   end in
        match pre with
        | Panic => Some Panic
        | Done (Err e) => Some (Done (inl (writeJSONRPCError 422 (-32001) "missing user secret"), s))
        | Done (Ok _) =>
            match EnsurePod fuel l (mr_Env r) p name (gs_world s) with
            | None => None
            | Some (Err e, w) => Some (Done (inl (writeEnsureError e), set_world w s))
            | Some (Ok (pod, srv), w) =>
                let s := set_world w s in
                let clientSID := Header_Get (mr_Header r) HeaderSessionID in
                let '(found, s) :=
                  if String.eqb clientSID "" then (Ok None, s)
                  else match on_world (on_table (GetSession clientSID)) s with
                       | (Err e, s) => (Err e, s)
                       | (Ok ms, s) =>
                           if negb (String.eqb (ms_Subject ms) (p_Subject p)) || negb (String.eqb (ms_PodName ms) (pod_Name pod))
                           then (Err ErrNotFound, s) else (Ok (Some ms), s)
                       end in
                match found with
                | Err _ => Some (Done (inl (http_Error 404 "session not found"), s))
                | Ok ms =>
                    let up := mkUpstream (pod_Endpoint pod) "/mcp" (pod_PodToken pod)
                                (match ms with Some ms => ms_UpstreamSessionID ms | None => "" end)
                                "" (p_Subject p) name "" "" "" ∅ in
                    match on_world (injectUserToken (e_now (mr_Env r)) p srv up) s with
                    | (Err e, s) => Some (Done (inl (writeJSONRPCError 502 (-32000) "could not obtain a downstream token"), s))
                    | (Ok up, s) =>
                        match ResolveUserSecrets cfg (mr_Header r) p srv (gs_store s) with
                        | Panic => Some Panic
                        | Done (Err e) => Some (Done (inl (writeJSONRPCError 422 (-32001) "missing user secret"), s))
                        | Done (Ok sec) =>
                            Some (Done (inr (pod, ms, set_extra (Headers sec (g_UserSecrets (c_Gateway cfg))) up), s))
                        end
                    end
                end
            end
        end
  end.

(** A session-less POST mints a session and its id. *)
Definition mintSession (r : mcpreq) (p : Principal) (pod : Pod) (ms : option McpSession) (up : Upstream)
    : option McpSession * Upstream :=
  match ms with
  | None =>
      if String.eqb (mr_Method r) "POST" then
        let id := NewMcpSessionID (mr_SID r) in
        (Some (mkMcpSession id (p_Subject p) (mr_Name r) (pod_Name pod) "" ""
                 (Header_Get (mr_Header r) HeaderProtocolV) false (e_now (mr_Env r))), set_new_session id up)
      else (None, up)
  | Some _ => (ms, up)
  end.

(** The session is stored only if the pod started one; the id of the event. *)
Definition recordSession (ms : option McpSession) (res : result Result) (s : G) : string * G :=
  match ms with
  | None => ("", s)
  | Some m =>
      if String.eqb (ms_UpstreamSessionID m) "" then
        match res with
        | Ok res =>
            if String.eqb (rs_UpstreamSessionID res) "" then ("", s)
            else
              let m := mkMcpSession (ms_ID m) (ms_Subject m) (ms_ServerType m) (ms_PodName m)
                         (rs_UpstreamSessionID res) (ms_ClientName m) (ms_ProtocolVersion m) (ms_Lazy m) (ms_CreatedAt m) in
              (ms_ID m, (on_world (on_table (PutSession m)) s).2)
        | Err _ => ("", s)
        end
      else (ms_ID m, s)
  end.

(** [adapterMCP] from the in-flight count to the audit event. *)
Definition forwardMCP (r : mcpreq) (p : Principal) (pod : Pod) (ms : option McpSession) (up : Upstream) (s : G)
    : Response * RequestEvent * G :=
  let s := (on_world (on_table (InFlight (pod_Name pod) 1)) s).2 in
  let s := (on_world (on_table (Touch (pod_Name pod) (e_now (mr_Env r)))) s).2 in
  let '(ms, up) := mintSession r p pod ms up in
  let '(resp, res, u) := Forward (mr_Method r) (mr_Header r) up (gs_up s) in
  let '(sid, s) := recordSession ms res (set_up u s) in
  let ev := mkRequestEvent (p_Subject p) (mr_Name r) (pod_Name pod) sid (mr_Method r)
              (match res with Ok res => rs_Status res | Err _ => 0 end)
              (match res with Ok _ => None | Err e => Some e end) in
  let s := (on_world (on_table (InFlight (pod_Name pod) (-1))) s).2 in
  (default nothing_written resp, ev, s).

(** [func (s *Server) adapterMCP] *)
Definition adapterMCP (fuel : nat) (l : Loaded) (r : mcpreq) (p : Principal) (s : G)
    : option (outcome (Response * G)) :=
  if String.eqb (mr_Method r) "DELETE" then Some (Done (deleteMCP r p s))
  else
    match prepareMCP fuel l r p s with
    | None => None
    | Some Panic => Some Panic
    | Some (Done (inl resp, s)) => Some (Done (resp, s))
    | Some (Done (inr (pod, ms, up), s)) =>
        let '(resp, _, s) := forwardMCP r p pod ms up s in Some (Done (resp, s))
    end.
End Server.

(** ** handlers_control.go *)

(** [type AdapterView struct] (durations as nanoseconds). *)
Record AdapterView := mkAdapterView {
  av_Name : string; av_Description : string; av_Image : string; av_Transport : Transport;
  av_TokenMode : TokenMode; av_Egress : list Egress; av_IdleTimeout : Duration; av_MaxSessionAge : Duration;
  av_RuntimeClassName : string; av_ConfigHash : string }.

(** [func adapterView] *)
Definition adapterView (l : Loaded) (s : Server) : AdapterView :=
  let g := c_Gateway (ld_Config l) in
  mkAdapterView (s_Name s) (s_Description s) (s_Image s) (s_Transport s) (t_Mode (s_Token s)) (s_Egress s)
    (Duration_Or (s_IdleTimeout s) (g_IdleTimeout g)) (Duration_Or (s_MaxSessionAge s) (g_MaxSessionAge g))
    (s_RuntimeClassName s) (ld_Hash l).

Record toolView := mkToolView { tv_Name : string; tv_Adapter : string }.

Section Control.
Context {T P B S U : Type} {tbl : RoutingTable T} {prov : Provisioner P} {brk : TokenBroker B}
  {sst : UserSecretStore S} {http : HTTPClient U} {pol : AccessPolicy}.
Notation G := (gstate T P B S U).

Definition listAdapters (l : Loaded) (p : Principal) : list AdapterView :=
  let g := Policy_Grants p "" in
  adapterView l <$> List.filter (λ s, Allows g (s_Name s)) (c_Servers (ld_Config l)).

Definition getAdapter (l : Loaded) (p : Principal) (name : string) : hresp AdapterView :=
  match Config_Server (ld_Config l) name with
  | None => HError 404 "not found"
  | Some srv => if negb (Allows (Policy_Grants p "") name) then HError 404 "not found"
                else HJSON 200 (adapterView l srv)
  end.

(** [adapterStatus]: the number of the adapter's pods per phase, and the cap. *)
Definition adapterStatus (l : Loaded) (name : string) (s : G) : hresp (list (Phase * nat) * Z) * G :=
  match Config_Server (ld_Config l) name with
  | None => (HError 404 "not found", s)
  | Some srv =>
      match on_world (on_table (ListPods "")) s with
      | (Err e, s) => (HError 500 "routing table", s)
      | (Ok pods, s) =>
          let mine := List.filter (λ p, String.eqb (pk_ServerType (pod_Key p)) name) pods in
          let phases := [PhasePending; PhaseStarting; PhaseReady; PhaseIdle; PhaseTerminating; PhaseFailed; PhaseGone] in
          let counts := omap (λ ph, match length (List.filter (λ p, bool_decide (pod_Phase p = ph)) mine) with
                                    | O => None | n => Some (ph, n) end) phases in
          (HJSON 200 (counts, s_MaxPods srv), s)
      end
  end.

(** [adapterLogs]: [user] and [tailLines] are the query parameters. *)
Definition adapterLogs (p : Principal) (name user : string) (tailLines : Z) (s : G) : hresp string :=
  if negb (String.eqb user "") && negb (String.eqb user (p_Subject p)) && negb (gr_IsAdmin (Policy_Grants p ""))
  then HError 403 "admin scope required to read other users' logs"
  else
    let subject := if negb (String.eqb user "") && negb (String.eqb user (p_Subject p)) then user else p_Subject p in
    match Prov_Logs (mkPodKey subject name) tailLines (w_prov (gs_world s)) with
    | Err e => HError 404 "logs"
    | Ok logs => HJSON 200 logs
    end.

Definition listTools (l : Loaded) (p : Principal) : list toolView :=
  let g := Policy_Grants p "" in
  let sep := to_NamespaceSeparator (g_Tools (c_Gateway (ld_Config l))) in
  List.flat_map (λ srv,
    match te_Expose (s_Tools srv) with
    | Some ex =>
        if negb (Allows g (s_Name srv)) || negb (String.eqb (ex_Mode ex) "allow") then []
        else omap (λ n, let rule := Policy_ToolRule g srv n in
                        if tr_Visible rule then Some (mkToolView (s_Name srv +:+ sep +:+ tr_Name rule) (s_Name srv)) else None)
               (ex_Names ex)
    | None => []
    end) (c_Servers (ld_Config l)).

Definition listSessions (p : Principal) (s : G) : hresp (list SessionView) * G :=
  match on_world (SessionsFor (p_Subject p)) s with
  | (Err e, s) => (HError 500 "routing table", s)
  | (Ok vs, s) => (HJSON 200 vs, s)
  end.

Definition getSession (p : Principal) (id : string) (s : G) : hresp SessionView * G :=
  match on_world (SessionsFor (p_Subject p)) s with
  | (Err e, s) => (HError 500 "routing table", s)
  | (Ok vs, s) =>
      match List.find (λ v, String.eqb (sv_ID v) id) vs with
      | Some v => (HJSON 200 v, s)
      | None => (HError 404 "not found", s)
      end
  end.

Definition deleteSession (p : Principal) (id : string) (s : G) : hresp () * G :=
  match Cut id "-" with
  | (_, _, false) => (HError 400 "bad id", s)
  | (serverType, _, true) =>
      let key := mkPodKey (p_Subject p) serverType in
      let '(got, s) := on_world (on_table (GetPod key)) s in
      if match got with Err e => errors_Is e ErrNotFound | Ok _ => false end then (HError 404 "not found", s)
      else match on_world (Release key) s with
           | (Err e, s) => (HError 500 "release", s)
           | (Ok _, s) => (HStatus 202, s)
           end
  end.

(** [requireAdmin] and the two handlers it guards. *)
Definition requireAdmin (p : Principal) : bool := gr_IsAdmin (Policy_Grants p "").

Definition userSessions (p : Principal) (sub : string) (s : G) : hresp (list SessionView) * G :=
  if negb (requireAdmin p) then (HError 403 "admin required", s)
  else match on_world (SessionsFor sub) s with
       | (Err e, s) => (HError 500 "routing table", s)
       | (Ok vs, s) => (HJSON 200 vs, s)
       end.

Definition deleteUserSessions (p : Principal) (sub : string) (s : G) : hresp () * G :=
  if negb (requireAdmin p) then (HError 403 "admin required", s)
  else match on_world (ReleaseAll sub) s with
       | (Err e, s) => (HError 500 "release", s)
       | (Ok _, s) => (HStatus 202, s)
       end.

(** ** /me/secrets *)

Definition set_store (x : S) (s : G) : G := mkGstate (gs_world s) (Some x) (gs_up s) (gs_audit s).
Definition audit (action subject adapter : string) (names : list string) (s : G) : G :=
  mkGstate (gs_world s) (gs_store s) (gs_up s) (gs_audit s ++ [(subject, action, adapter +:+ " " +:+ Join names ",")]).

Definition meSecretsList (p : Principal) (s : G) : hresp (list (string * SealedEntry)) :=
  match gs_store s with
  | None => HError 501 "user secret store not configured"
  | Some st =>
      match Sec_List (p_Subject p) st with
      | Err e => HError 500 "store"
      | Ok adapters =>
          HJSON 200 (omap (λ a, match Sec_Get (p_Subject p) a st with Ok e => Some (a, e) | Err _ => None end) adapters)
      end
  end.

(** [meSecretsPut]: [body] is the decoded request body (at most 64 KiB). *)
Definition meSecretsPut (l : Loaded) (p : Principal) (adapter : string) (body : result SealedEntry) (s : G) : hresp () * G :=
  match gs_store s with
  | None => (HError 501 "user secret store not configured", s)
  | Some st =>
      match Config_Server (ld_Config l) adapter ≫= s_UserSecrets with
      | None => (HError 404 "adapter does not declare userSecrets", s)
      | Some us =>
          match body with
          | Err _ => (HError 400 "bad sealed entry", s)
          | Ok e =>
              if negb (se_Version e =? VaultVersion) || (length (se_Ciphertext e) =? 0)%nat
                 || (length (se_WrappedDEK e) =? 0)%nat || (length (se_Salt e) =? 0)%nat
              then (HError 400 "sealed entry is incomplete", s)
              else
                match List.find (λ n, negb (contains (declaredNames us) n)) (se_Names e) with
                | Some n => (HError 400 ("entry names undeclared secret " +:+ n), s)
                | None =>
                    match Sec_Put (p_Subject p) adapter e st with
                    | (Err _, st) => (HError 500 "store", set_store st s)
                    | (Ok _, st) =>
                        let s := audit "user_secrets.put" (p_Subject p) adapter (se_Names e) (set_store st s) in
                        (HStatus 204, (on_world (Release (mkPodKey (p_Subject p) adapter)) s).2)
                    end
                end
          end
      end
  end.

Definition meSecretsDelete (p : Principal) (adapter : string) (s : G) : hresp () * G :=
  match gs_store s with
  | None => (HError 501 "user secret store not configured", s)
  | Some st =>
      match Sec_Delete (p_Subject p) adapter st with
      | (Err _, st) => (HError 500 "store", set_store st s)
      | (Ok _, st) =>
          let s := audit "user_secrets.delete" (p_Subject p) adapter [] (set_store st s) in
          (HStatus 204, (on_world (Release (mkPodKey (p_Subject p) adapter)) s).2)
      end
  end.

(** [adapterSessionKey]: the public key of the caller's own pod. *)
Definition adapterSessionKey (fuel : nat) (l : Loaded) (env : reqenv) (dec : string → result string)
    (p : Principal) (name : string) (s : G) : option ((Response + string) * G) :=
  match EnsurePod fuel l env p name (gs_world s) with
  | None => None
  | Some (Err e, w) => Some (inl (writeEnsureError e), set_world w s)
  | Some (Ok (pod, _), w) =>
      let s := set_world w s in
      match SessionKey dec (pod_Endpoint pod) (pod_PodToken pod) (gs_up s) with
      | (Err e, u) => Some (inl (http_Error 502 "pod did not return a session key"), set_up u s)
      | (Ok key, u) => Some (inr key, set_up u s)
      end
  end.
End Control.

(** ** Properties of the data plane *)

Section Proofs.
Context {T P B S U : Type} {tbl : RoutingTable T} {laws : RoutingTableLaws T} {prov : Provisioner P}
  {brk : TokenBroker B} {sst : UserSecretStore S} {http : HTTPClient U} {pol : AccessPolicy}
  {aead : AEAD} {jsec : JSONCodec secrets}.
Notation G := (gstate T P B S U).
Context (lookupEnv readFile : string → option string).

Lemma injectUserToken_fields now p srv up (w w' : world T P B) up' :
  injectUserToken lookupEnv readFile now p srv up w = (Ok up', w') →
  up_Endpoint up' = up_Endpoint up ∧ up_Path up' = up_Path up ∧ up_PodToken up' = up_PodToken up ∧
  up_UpstreamSessionID up' = up_UpstreamSessionID up ∧ up_NewSessionID up' = up_NewSessionID up ∧
  up_Subject up' = up_Subject up ∧ up_ServerType up' = up_ServerType up.
Proof.
  unfold injectUserToken. destruct (t_Mode (s_Token srv)); intros H;
    try (destruct (on_broker (TokenFor now p srv (60 * Second)) w) as [[[tok|]|] w1]);
    try (destruct (SecretRef_Resolve lookupEnv readFile (t_StaticRef (s_Token srv))));
    try case_bool_decide; simplify_eq; done.
Qed.

(** C4. A request is forwarded only to the caller's own pod and session: the
    upstream of a forwarded request is the Ready pod of (caller, adapter), an
    adapter the caller is granted, with that pod's token and the caller's
    subject; a session id the client sent names a session of the same caller on
    that same pod, and only its upstream id is used. *)
Theorem adapterMCP_routes_own_pod fuel l r p (s s' : G) pod ms up :
  rt_ok (w_table (gs_world s)) →
  prepareMCP lookupEnv readFile fuel l r p s = Some (Done (inr (pod, ms, up), s')) →
  pod_Key pod = mkPodKey (p_Subject p) (mr_Name r) ∧ pod_Phase pod = PhaseReady ∧
  Allows (Policy_Grants p "") (mr_Name r) = true ∧
  up_Endpoint up = pod_Endpoint pod ∧ up_Path up = "/mcp" ∧ up_PodToken up = pod_PodToken pod ∧
  up_Subject up = p_Subject p ∧ up_ServerType up = mr_Name r ∧
  match ms with
  | None => Header_Get (mr_Header r) HeaderSessionID = "" ∧ up_UpstreamSessionID up = ""
  | Some m => ms_Subject m = p_Subject p ∧ ms_PodName m = pod_Name pod ∧
              up_UpstreamSessionID up = ms_UpstreamSessionID m
  end.
Proof.
  intros Hok. unfold prepareMCP. destruct (Config_Server (ld_Config l) (mr_Name r)) as [srv0|] eqn:Es; [|done].
  destruct (Allows (Policy_Grants p "") (mr_Name r)) eqn:Ha; cbn [negb]; [|done].
  set (pre := match s_UserSecrets srv0 with Some _ => _ | None => _ end). destruct pre as [[?|]|]; [|done..].
  destruct (EnsurePod fuel l (mr_Env r) p (mr_Name r) (gs_world s)) as [[[[pod0 srv]|e] w1]|] eqn:Ee; [|done..].
  pose proof (EnsurePod_sound _ _ _ _ _ _ _ _ _ Hok Ee) as (Hk & Hph & _ & _).
  destruct (String.eqb_spec (Header_Get (mr_Header r) HeaderSessionID) "") as [Hsid|Hsid].
  - destruct (on_world _ (set_world w1 s)) as [[up0|] s1] eqn:Ei; [|done].
    destruct (ResolveUserSecrets _ _ _ _ _) as [[sec|]|]; [|done..]. intros [= <- <- <- <-].
    unfold on_world in Ei. destruct (injectUserToken _ _ _ _ _ _ _) as [res w2] eqn:Einj. injection Ei as -> <-.
    apply injectUserToken_fields in Einj as (? & ? & ? & ? & ? & ? & ?). cbn in *. split_and!; done.
  - destruct (on_world (on_table _) _) as [[m|] s0] eqn:Eg; [|done].
    destruct (String.eqb_spec (ms_Subject m) (p_Subject p)) as [Hsub|]; cbn [negb orb]; [|done].
    destruct (String.eqb_spec (ms_PodName m) (pod_Name pod0)) as [Hpod|]; cbn [negb]; [|done].
    destruct (on_world _ s0) as [[up0|] s1] eqn:Ei; [|done].
    destruct (ResolveUserSecrets _ _ _ _ _) as [[sec|]|]; [|done..]. intros [= <- <- <- <-].
    unfold on_world in Ei. destruct (injectUserToken _ _ _ _ _ _ _) as [res w2] eqn:Einj. injection Ei as -> <-.
    apply injectUserToken_fields in Einj as (? & ? & ? & ? & ? & ? & ?). cbn in *. split_and!; done.
Qed.

(** When the pod cannot be reached the client is told the call succeeded:
    the handler writes nothing on a failed forward, so net/http answers 200 with
    an empty body, although the audit event records the error. *)
Theorem adapterMCP_upstream_failure_is_200 r p pod ms up (s : G) :
  (∀ req u, ∃ e, (client_Do req u).1 = Err e) →
  let '(resp, ev, _) := forwardMCP r p pod ms up s in
  w_Status resp = 200 ∧ w_Body resp = BText "" ∧ ev_Err ev ≠ None.
Proof.
  intros Hdown. unfold forwardMCP. set (s1 := (on_world (on_table (Touch _ _)) _).2). clearbody s1.
  destruct (mintSession r p pod ms up) as [ms1 up1].
  assert (∃ e u, Forward (mr_Method r) (mr_Header r) up1 (gs_up s1) = (None, Err e, u)) as (e & u & ->).
  { unfold Forward. case_match; [by eauto|]. match goal with |- context [client_Do ?q ?u] =>
      destruct (Hdown q u) as [e He]; destruct (client_Do q u) as [res u'] end. simpl in He. subst. eauto. }
  by destruct (recordSession _ _ _).
Qed.
End Proofs.

(** ** User secrets *)

Section SecretProofs.
Context {S : Type} {sst : UserSecretStore S} {aead : AEAD} {jsec : JSONCodec secrets}.

(** Where a resolved value may come from: the caller's own request header, or the
    caller's own vault entry opened with the key the caller sent. *)
Definition from_caller (cfg : UserSecretsGateway) (hdr : Header) (subject name : string) (store : option S)
    (n v : string) : Prop :=
  (Header_Get hdr (usg_SecretHeaderPrefix cfg +:+ n) = v ∧ v ≠ "") ∨
  ∃ st key e vals, store = Some st ∧ base64url_DecodeString (Header_Get hdr (usg_VaultKeyHeader cfg)) = Some key ∧
    Sec_Get subject name st = Ok e ∧ OpenEntry key subject name (Some e) = Done (Ok vals) ∧ vals !! n = Some v.

Section Sources.
Variables (cfg : UserSecretsGateway) (hdr : Header) (declared : list string) (subject name : string) (store : option S).

Definition plain_ok (m : secrets) : Prop :=
  ∀ n v, m !! n = Some v → n ∈ declared ∧ from_caller cfg hdr subject name store n v.

Lemma plain_ok_put_absent n v m :
  plain_ok m → n ∈ declared → from_caller cfg hdr subject name store n v → plain_ok (put_absent n v m).
Proof.
  intros Hm Hn Hv. unfold put_absent. destruct (m !! n); [done|]. intros n' v'.
  rewrite lookup_insert. case_decide as Hd; [|apply Hm]. subst n'. by intros [= <-].
Qed.

Lemma plain_ok_fromHeaders a :
  plain_ok (ush_Plain (ra_out a)) → plain_ok (ush_Plain (ra_out (fromHeaders cfg hdr declared a))).
Proof.
  unfold fromHeaders. cbn [ra_out ush_Plain]. generalize (ush_Plain (ra_out a)) as m.
  assert (∀ l m, (∀ n, n ∈ l → n ∈ declared) → plain_ok m → plain_ok (fold_left (λ m name0,
    let v := Header_Get hdr (usg_SecretHeaderPrefix cfg +:+ name0) in
    if String.eqb v "" then m else put_absent name0 v m) l m)) as H; [|eauto].
  induction l as [|n l IH]; intros m Hl Hm; [done|]. cbn [fold_left]. apply IH; [intros; apply Hl; by right|].
  cbv zeta. destruct (String.eqb_spec (Header_Get hdr (usg_SecretHeaderPrefix cfg +:+ n)) ""); [done|].
  apply plain_ok_put_absent; [done|apply Hl; by left|by left].
Qed.

Lemma plain_ok_fromStore a a' :
  plain_ok (ush_Plain (ra_out a)) → fromStore cfg hdr declared subject name store a = Done (Ok a') →
  plain_ok (ush_Plain (ra_out a')).
Proof.
  intros Hm. unfold fromStore. destruct store as [st|] eqn:Est; [|by intros [= <-]].
  destruct (String.eqb _ _); [by intros [= <-]|].
  destruct (base64url_DecodeString _) as [key|] eqn:Ek; [|by intros [= <-]].
  destruct (length key =? 32)%nat; cbn [negb]; [|by intros [= <-]].
  destruct (Sec_Get subject name st) as [e|e] eqn:Eg; [|by case_match; intros; simplify_eq].
  destruct (OpenEntry key subject name (Some e)) as [[vals|]|] eqn:Eo; [|by intros [= <-]|done].
  intros [= <-]. cbn [ra_out ush_Plain].
  assert (∀ l m, (∀ kv, kv ∈ l → vals !! kv.1 = Some kv.2) → plain_ok m → plain_ok (fold_left (λ m kv,
    if contains declared kv.1 then put_absent kv.1 kv.2 m else m) l m)) as H.
  { induction l as [|[n v] l IH]; intros m Hl Hm'; [done|]. cbn [fold_left]. apply IH; [intros; apply Hl; by right|].
    cbn [fst snd]. destruct (contains declared n) eqn:Ec; [|done]. apply contains_spec in Ec.
    apply plain_ok_put_absent; [done..|]. right. exists st, key, e, vals. split_and!; try done.
    apply (Hl (n, v)). by left. }
  apply H; [|done]. intros [n v] Hin. by apply elem_of_map_to_list in Hin.
Qed.

Lemma plain_ok_resolveSources sources a a' :
  plain_ok (ush_Plain (ra_out a)) →
  resolveSources cfg hdr declared subject name store sources a = Done (Ok a') → plain_ok (ush_Plain (ra_out a')).
Proof.
  revert a. induction sources as [|src rest IH]; intros a Hm; cbn [resolveSources]; [by intros [= <-]|].
  destruct (String.eqb src "header"); [apply IH; by apply plain_ok_fromHeaders|].
  destruct (String.eqb src "store").
  { destruct (fromStore cfg hdr declared subject name store a) as [[a1|]|] eqn:E; [|done..].
    apply IH. by eapply plain_ok_fromStore. }
  destruct (String.eqb src "sealed"); [|by apply IH]. apply IH. unfold fromSealed. by case_match.
Qed.
End Sources.

(** Secrets a pod receives are declared, complete and the caller's: every
    resolved value has a name the server type declares and comes from the
    caller's own header or the caller's own vault entry opened with the caller's
    key, and each required secret is resolved unless a sealed blob is sent. *)
Theorem ResolveUserSecrets_sound cfg hdr p srv (store : option S) us out :
  s_UserSecrets srv = Some us →
  ResolveUserSecrets cfg hdr p srv store = Done (Ok out) →
  (∀ n v, ush_Plain out !! n = Some v →
     n ∈ declaredNames us ∧ from_caller (g_UserSecrets (c_Gateway cfg)) hdr (p_Subject p) (s_Name srv) store n v) ∧
  (∀ it, it ∈ us_Items us → us_Required it = true → is_Some (ush_Plain out !! us_Name it) ∨ ush_Sealed out ≠ "").
Proof.
  intros Hus. unfold ResolveUserSecrets. rewrite Hus.
  destruct (resolveSources _ _ _ _ _ _ _ _) as [[a|]|] eqn:Er; [|done..].
  destruct (List.find _ _) eqn:Ef; [done|]. intros [= <-]. split.
  - apply plain_ok_resolveSources in Er; [exact Er|]. intros n v. cbn. by rewrite lookup_empty.
  - intros it Hin Hreq. eapply find_none_elem in Ef; [|done]. unfold missingItem in Ef. rewrite Hreq in Ef.
    cbn [andb] in Ef. apply andb_false_iff in Ef as [Ef|Ef]; bprop; eauto.
Qed.
End SecretProofs.

(** ** Control plane and counters, on the in-process table *)

Section MemoryProofs.
Context {P B S U : Type} {prov : Provisioner P} {brk : TokenBroker B} {sst : UserSecretStore S}
  {http : HTTPClient U} {pol : AccessPolicy}.
Notation G := (gstate Memory.Memory P B S U).

Lemma inflight_on_world (f : Memory.Memory → result () * Memory.Memory) (s : G) :
  (∀ m, Memory.inflight (f m).2 = Memory.inflight m) →
  Memory.inflight (w_table (gs_world (on_world (on_table f) s).2)) = Memory.inflight (w_table (gs_world s)).
Proof. intros H. unfold on_world, on_table. specialize (H (w_table (gs_world s))). by destruct (f _). Qed.

(** The in-flight count of a pod is released on every path of a forwarded
    request, whatever the pod answers: afterwards the counter is what it was,
    so a finished request never keeps a pod from being reaped and never makes a
    busy pod look idle. *)
Theorem forwardMCP_releases_inflight r p pod ms up (s : G) :
  (∀ z, Memory.inflight (w_table (gs_world s)) !! pod_Name pod = Some z → 0 ≤ z) →
  let '(_, _, s') := forwardMCP r p pod ms up s in
  default 0 (Memory.inflight (w_table (gs_world s')) !! pod_Name pod) =
  default 0 (Memory.inflight (w_table (gs_world s)) !! pod_Name pod).
Proof.
  intros Hpos. unfold forwardMCP.
  set (s0 := (on_world (on_table (InFlight _ _)) s).2).
  assert (Memory.inflight (w_table (gs_world s0)) !! pod_Name pod =
    Some (default 0 (Memory.inflight (w_table (gs_world s)) !! pod_Name pod) + 1)) as H0.
  { unfold s0. change (w_table (gs_world (on_world (on_table (InFlight (pod_Name pod) 1)) s).2))
      with (Memory.InFlight (pod_Name pod) 1 (w_table (gs_world s))).2.
    rewrite Memory.inflight_InFlight. f_equal.
    destruct (Memory.inflight _ !! pod_Name pod) eqn:E; simpl; [specialize (Hpos _ eq_refl)|]; lia. }
  set (s1 := (on_world (on_table (Touch _ _)) s0).2).
  assert (Memory.inflight (w_table (gs_world s1)) = Memory.inflight (w_table (gs_world s0))) as H1.
  { by apply inflight_on_world. }
  destruct (mintSession r p pod ms up) as [ms1 up1]. destruct (Forward _ _ _ _) as [[resp res] u].
  assert (Memory.inflight (w_table (gs_world (recordSession ms1 res (set_up u s1)).2)) =
    Memory.inflight (w_table (gs_world s1))) as H3.
  { unfold recordSession. destruct ms1 as [m|]; [|done].
    destruct (String.eqb (ms_UpstreamSessionID m) ""); [|done]. destruct res as [res|]; [|done].
    by destruct (String.eqb (rs_UpstreamSessionID res) ""). }
  destruct (recordSession ms1 res (set_up u s1)) as [sid s3].
  cbn [snd] in H3.
  change (w_table (gs_world (on_world (on_table (InFlight (pod_Name pod) (-1))) s3).2))
    with (Memory.InFlight (pod_Name pod) (-1) (w_table (gs_world s3))).2.
  rewrite Memory.inflight_InFlight, H3, H1, H0. cbn [default].
  destruct (Memory.inflight (w_table (gs_world s)) !! pod_Name pod) eqn:E; simpl; [specialize (Hpos _ eq_refl)|]; lia.
Qed.

Lemma on_world_GetPod key (s : G) :
  on_world (on_table (GetPod key)) s =
  (match Memory.pods (w_table (gs_world s)) !! key with Some p => Ok p | None => Err ErrNotFound end, s).
Proof.
  unfold on_world, on_table. cbn [Contracts.GetPod Memory.table]. unfold Memory.GetPod.
  destruct s as [[t ? ?] ? ? ?]; cbn. by destruct (Memory.pods t !! key).
Qed.

(** A session of a server type with a dash in its name cannot be deleted
    through its own id: the handler takes the text before the first dash as the
    type, so it looks at the caller's pod of that other type; without one it
    answers 404 and leaves the pod, with one it releases the wrong pod. *)
Theorem deleteSession_dashed_type p (s : G) pre rest :
  CountByte pre "-" = 0%nat →
  let key := mkPodKey (p_Subject p) (pre +:+ "-" +:+ rest) in
  let other := mkPodKey (p_Subject p) pre in
  (Memory.pods (w_table (gs_world s)) !! other = None →
     deleteSession p (PodKey_Name key) s = (HError 404 "not found", s)) ∧
  (∀ q, Memory.pods (w_table (gs_world s)) !! other = Some q →
     deleteSession p (PodKey_Name key) s =
       match on_world (Release other) s with
       | (Err e, s) => (HError 500 "release", s)
       | (Ok _, s) => (HStatus 202, s)
       end).
Proof.
  intros Hpre key other.
  assert (Cut (PodKey_Name key) "-" = (pre, rest +:+ "-" +:+ UserHash (p_Subject p), true)) as Hcut.
  { unfold PodKey_Name, key. cbn [pk_ServerType pk_Subject]. rewrite !str_app_assoc.
    change ("-" +:+ rest +:+ "-" +:+ UserHash (p_Subject p)) with (String "-" (rest +:+ "-" +:+ UserHash (p_Subject p))).
    by apply Cut_byte_found. }
  unfold deleteSession. rewrite Hcut. fold other. rewrite on_world_GetPod. split.
  - by intros ->.
  - by intros q ->.
Qed.
End MemoryProofs.

(** ** Witnesses *)

Module GatewayWitness.
Import ManagerWitness.

(** A pod that answers every request and starts a session, and one that is down. *)
#[local] Instance http_up : HTTPClient () := {|
  client_Do := λ _ u, (Ok (mkUpResp 200 {["Mcp-Session-Id" := ["up-1"]]} "hello"), u); url_ok := λ _, true |}.
Definition down := bool.
#[local] Instance http_down : HTTPClient down := {|
  client_Do := λ _ u, (Err (EMsg "connection refused"), u); url_ok := λ _, true |}.

#[local] Instance pol0 : AccessPolicy := groups_policy sample_config ∅.
Definition l0 : Loaded := loaded sample_config.
Definition no_file (_ : string) : option string := None.
Definition req0 : mcpreq :=
  mkMcpreq "POST" {["X-Juggernaut-Secret-Jira_token" := ["s3cret"]]} "jira" env0 (replicate 16 7).
Definition s0 {U} (u : U) : gstate Memory.Memory toy_prov () SecretsMemory.Store U :=
  mkGstate w0 (Some SecretsMemory.NewStore) u [].

Definition prepared :=
  prepareMCP (T:=Memory.Memory) (P:=toy_prov) (B:=()) (S:=SecretsMemory.Store) (U:=()) no_file no_file 5 l0 req0 bob (s0 ()).
Definition up_bob : Upstream :=
  mkUpstream "https://10.0.0.9:8443" "/mcp" (newPodToken (replicate 32 65)) "" "" "bob" "jira" "" "" ""
    {["X-Juggernaut-Secret-Jira_token" := ["s3cret"]]}.
Definition s_prepared : gstate Memory.Memory toy_prov () SecretsMemory.Store () :=
  match prepared with Some (Done (_, s)) => s | _ => s0 () end.

Lemma adapterMCP_routes_own_pod_witness :
  prepared = Some (Done (inr (bob_pod, None, up_bob), s_prepared)) ∧ pod_Key bob_pod = mkPodKey "bob" "jira".
Proof.
  assert (prepared = Some (Done (inr (bob_pod, None, up_bob), s_prepared))) as E by (vm_compute; reflexivity).
  split; [exact E|].
  destruct (adapterMCP_routes_own_pod (laws:=Memory.laws) no_file no_file 5 l0 req0 bob (s0 ()) s_prepared
    bob_pod None up_bob Memory.ok_NewMemory E) as [H _]. exact H.
Defined.

Lemma adapterMCP_upstream_failure_is_200_witness :
  let '(resp, ev, _) := forwardMCP (T:=Memory.Memory) (P:=toy_prov) (B:=()) (S:=SecretsMemory.Store) (U:=down)
    req0 bob bob_pod None up_bob (s0 true) in
  w_Status resp = 200 ∧ w_Body resp = BText "" ∧ ev_Err ev ≠ None.
Proof.
  apply (adapterMCP_upstream_failure_is_200 (T:=Memory.Memory) (P:=toy_prov) (B:=()) (S:=SecretsMemory.Store) (U:=down)).
  intros req u. eexists. reflexivity.
Defined.

Definition jira : Server := default (sample_server "" TokenNone None) (Config_Server sample_config "jira").
Definition out0 : UserSecretHeaders := mkUserSecretHeaders {["JIRA_TOKEN" := "s3cret"]} "".

Lemma ResolveUserSecrets_sound_witness :
  ResolveUserSecrets (S:=SecretsMemory.Store) sample_config (mr_Header req0) bob jira None = Done (Ok out0) ∧
  (is_Some (ush_Plain out0 !! "JIRA_TOKEN") ∨ ush_Sealed out0 ≠ "").
Proof.
  assert (ResolveUserSecrets (S:=SecretsMemory.Store) sample_config (mr_Header req0) bob jira None = Done (Ok out0))
    as E by (vm_compute; reflexivity).
  split; [exact E|].
  destruct (ResolveUserSecrets_sound sample_config (mr_Header req0) bob jira None
    (default (mkUserSecrets [] []) (s_UserSecrets jira)) out0 ltac:(vm_compute; reflexivity) E) as [_ H].
  apply (H (mkUserSecretItem "JIRA_TOKEN" "JIRA_TOKEN" "" "" true)); [vm_compute; left|reflexivity].
Defined.

Lemma forwardMCP_releases_inflight_witness :
  let '(_, _, s') := forwardMCP req0 bob bob_pod None up_bob (s0 ()) in
  default 0 (Memory.inflight (w_table (gs_world s')) !! pod_Name bob_pod) = 0.
Proof.
  apply (forwardMCP_releases_inflight req0 bob bob_pod None up_bob (s0 ())). intros z. cbn. by rewrite lookup_empty.
Defined.

Lemma deleteSession_dashed_type_witness :
  deleteSession bob (PodKey_Name (mkPodKey "bob" "mcp-atlassian")) (s0 ()) = (HError 404 "not found", s0 ()).
Proof. apply (deleteSession_dashed_type bob (s0 ()) "mcp" "atlassian"); reflexivity. Defined.
End GatewayWitness.
