(* ===== verification/GatewayServer.v ===== *)
(** * internal/gateway/server.go: the gateway's routes

    The route table of [Router] with the middleware in front of it, the public
    endpoints, and what the whole of it guarantees one tenant against another.
    The request routing of chi and its RealIP middleware are parameters: a route
    is the matched pattern with its parameters. *)

From S2P Require Import Prelude GoStd NetIP Sha256 Config Core Fixtures Contracts Context Identity RoutingMemory RoutingRedis Vault Policy Manager Proxy Gateway.

Local Open Scope Z_scope.

(** ** Routes *)

(** The patterns registered behind [authn.Wrap]. *)
Inductive proute :=
| RtMCP | RtAdapterMCP (r : mcpreq) | RtListAdapters | RtGetAdapter (name : string) | RtAdapterStatus (name : string)
| RtAdapterLogs (name user : string) (tailLines : Z) | RtListTools | RtGetTool (name : string)
| RtListSessions | RtGetSession (id : string) | RtDeleteSession (id : string)
| RtUserSessions (sub : string) | RtDeleteUserSessions (sub : string)
| RtMeSecretsList | RtMeSecretsPut (adapter : string) (body : result SealedEntry) | RtMeSecretsDelete (adapter : string)
| RtSessionKey (name : string) (env : reqenv) (dec : string → result string).
Inductive groute := RtHealthz | RtReadyz | RtPRM | RtProtected (r : proute).

(** What is written: a raw response or a handler's answer. *)
Inductive gresp := GResp (r : Response) | GHandler {A : Type} (r : hresp A).

(** [middleware.RealIP]: the client address from the headers and the peer. *)
Class RealIP := { realIP : Header → string → string }.
Definition with_RealIP `{!RealIP} (req : RequestInfo) : RequestInfo :=
  mkRequestInfo (ri_Header req) (ri_Method req) (ri_Path req) (realIP (ri_Header req) (ri_RemoteAddr req)).

Section Server.
Context {T P B S U : Type} {tbl : RoutingTable T} {prov : Provisioner P} {brk : TokenBroker B}
  {sst : UserSecretStore S} {http : HTTPClient U} {pol : AccessPolicy} {aead : AEAD} {jsec : JSONCodec secrets}
  {idp : IdentityProvider} {rip : RealIP}.
Notation G := (gstate T P B S U).
Context (lookupEnv readFile : string → option string).

(** [Hooks.RouterHandler], the document of [ProtectedResourceMetadata], and the
    scope of the configuration the routes were built with. *)
Context (routerHandler : option (Principal → G → option (outcome (Response * G)))) (prm_doc : option ProtectedResourceMetadata)
  (requiredScope : string).

(** [func (s *Server) readyz], [prm] and [routerOr501] *)
Definition readyz (s : G) : hresp () * G :=
  match on_world (on_table (CountPods "" "")) s with
  | (Err _, s) => (HError 503 "routing table unavailable", s)
  | (Ok _, s) => (HStatus 200, s)
  end.
Definition prm : hresp ProtectedResourceMetadata :=
  match prm_doc with
  | None => HError 404 "not applicable for this identity provider"
  | Some doc => HJSON 200 doc
  end.
Definition routerOr501 (p : Principal) (s : G) : option (outcome (Response * G)) :=
  match routerHandler with
  | Some h => h p s
  | None => Some (Done (writeJSONRPCError 501 (-32601) "the aggregated /mcp router is not enabled; use /adapters/{name}/mcp", s))
  end.

(** The handler of a protected route. *)
Definition phandle (fuel : nat) (l : Loaded) (p : Principal) (r : proute) (s : G) : option (outcome (gresp * G)) :=
  let pure {A} (h : hresp A) := Some (Done (GHandler h, s)) in
  let run {A} (x : hresp A * G) := Some (Done (GHandler x.1, x.2)) in
  let raw (x : option (outcome (Response * G))) :=
    match x with None => None | Some Panic => Some Panic | Some (Done (resp, s)) => Some (Done (GResp resp, s)) end in
  match r with
  | RtMCP => raw (routerOr501 p s)
  | RtAdapterMCP r => raw (adapterMCP lookupEnv readFile fuel l r p s)
  | RtListAdapters => pure (HJSON 200 (listAdapters l p))
  | RtGetAdapter name => pure (getAdapter l p name)
  | RtAdapterStatus name => run (adapterStatus l name s)
  | RtAdapterLogs name user n => pure (adapterLogs p name user n s)
  | RtListTools => pure (HJSON 200 (listTools l p))
  | RtGetTool _ => pure (HError (A:=()) 501 "tool metadata is served by the router in milestone 3")
  | RtListSessions => run (listSessions p s)
  | RtGetSession id => run (getSession p id s)
  | RtDeleteSession id => run (deleteSession p id s)
  | RtUserSessions sub => run (userSessions p sub s)
  | RtDeleteUserSessions sub => run (deleteUserSessions p sub s)
  | RtMeSecretsList => pure (meSecretsList p s)
  | RtMeSecretsPut a body => run (meSecretsPut l p a body s)
  | RtMeSecretsDelete a => run (meSecretsDelete p a s)
  | RtSessionKey name env dec =>
      match adapterSessionKey fuel l env dec p name s with
      | None => None
      | Some (inl resp, s) => Some (Done (GResp resp, s))
      | Some (inr key, s) => Some (Done (GHandler (HJSON 200 key), s))
      end
  end.

(** [func (s *Server) Router]: RealIP, then the route, authenticated if protected. *)
Definition gserve (fuel : nat) (l : Loaded) (req : RequestInfo) (r : groute) (s : G) : option (outcome (gresp * G)) :=
  match r with
  | RtHealthz => Some (Done (GHandler (HStatus (A:=()) 200), s))
  | RtReadyz => let '(h, s) := readyz s in Some (Done (GHandler h, s))
  | RtPRM => Some (Done (GHandler prm, s))
  | RtProtected r =>
      match Wrap requiredScope (with_RealIP req) with
      | inl resp => Some (Done (GResp resp, s))
      | inr p => phandle fuel l p r s
      end
  end.
End Server.

(** ** One tenant against another *)

Section Tenants.
Context {P B U : Type} {prov : Provisioner P} {brk : TokenBroker B} {http : HTTPClient U} {pol : AccessPolicy}
  {aead : AEAD} {jsec : JSONCodec secrets} {idp : IdentityProvider} {rip : RealIP}.
Notation W := (world Memory.Memory P B).
Notation G := (gstate Memory.Memory P B SecretsMemory.Store U).
Context (lookupEnv readFile : string → option string).

(** The pods of every other subject are where they were. *)
Definition others (sub : string) (w w' : W) : Prop :=
  ∀ key, pk_Subject key ≠ sub → Memory.pods (w_table w') !! key = Memory.pods (w_table w) !! key.

#[local] Instance others_preorder sub : PreOrder (others sub).
Proof. split; [by intros w key|]. intros w1 w2 w3 H1 H2 key Hk. by rewrite H2, H1. Qed.

(** A table operation that does not write pods. *)
Lemma others_table {A} sub (f : Memory.Memory → A * Memory.Memory) (w : W) :
  (∀ m, Memory.pods (f m).2 = Memory.pods m) → others sub w (on_table f w).2.
Proof. intros Hf key _. specialize (Hf (w_table w)). unfold on_table. destruct (f (w_table w)). cbn in *. by rewrite Hf. Qed.

Lemma others_prov {A} sub (f : P → A * P) (w : W) : others sub w (on_prov f w).2.
Proof. intros key _. by rewrite on_prov_table. Qed.
Lemma others_broker {A} sub (f : B → A * B) (w : W) : others sub w (on_broker f w).2.
Proof. intros key _. unfold on_broker. by destruct (f (w_broker w)). Qed.

Lemma others_PutPod sub pod (w : W) : pk_Subject (pod_Key pod) = sub → others sub w (on_table (PutPod pod) w).2.
Proof. intros <- key Hk. cbn. rewrite lookup_insert_ne; [done|]. by intros <-. Qed.
Lemma others_DeletePod sub key (w : W) : pk_Subject key = sub → others sub w (on_table (DeletePod key) w).2.
Proof.
  intros <- k Hk. cbn. unfold on_table. cbn. destruct (Memory.pods (w_table w) !! key); cbn; rewrite lookup_delete_ne; try done; by intros <-.
Qed.

Lemma others_Release sub key (w : W) : pk_Subject key = sub → others sub w (Release key w).2.
Proof.
  intros Hk. unfold Release. pose proof (others_prov sub (Prov_Release key) w) as H.
  destruct (on_prov (Prov_Release key) w) as [err w1]. cbn in H.
  assert (others sub w1 (on_table (DeletePod key) (on_table (DeleteSessionsForPod (PodKey_Name key)) w1).2).2) as Hgo.
  { etrans; [|by apply others_DeletePod]. by apply others_table. }
  destruct err as [|e]; [by etrans|]. destruct (errors_Is e ErrNotFound); cbn; [by etrans|done].
Qed.

Lemma others_admission l p st (w : W) : (admission l p st w).2 = w.
Proof.
  unfold admission. destruct (Config_Server _ _); [|done]. destruct (negb _); [done|].
  assert (∀ key, (on_table (GetPod key) w).2 = w) as Hg.
  { intros key. unfold on_table. cbn. unfold Memory.GetPod. destruct w. by destruct (Memory.pods _ !! key). }
  specialize (Hg (mkPodKey (p_Subject p) st)). destruct (on_table (GetPod _) w) as [[pod|e] w1]; cbn in Hg; subst; [done|].
  destruct (negb _); [done|]. unfold on_table. cbn. destruct w. cbn. by destruct (_ || _).
Qed.

(** What holds across every write the session manager makes for one subject. *)
Record confined (sub : string) (R : relation W) : Prop := {
  cf_pre : PreOrder R;
  cf_prov : ∀ A (f : P → A * P) w, R w (on_prov f w).2;
  cf_put : ∀ pod w, pk_Subject (pod_Key pod) = sub → R w (on_table (PutPod pod) w).2;
  cf_delete : ∀ key w, pk_Subject key = sub → R w (on_table (DeletePod key) w).2;
  cf_touch : ∀ n t w, R w (on_table (Touch n t) w).2 }.

Section Confined.
Context (sub : string) (R : relation W) (HR : confined sub R).
#[local] Instance confined_pre : PreOrder R := cf_pre _ _ HR.

Lemma holdLoop_confined fuel env deadline i pod srv key (w w' : W) res :
  pk_Subject (pod_Key pod) = sub → pk_Subject key = sub →
  holdLoop fuel env deadline i pod srv key w = Some (res, w') → R w w'.
Proof.
  intros Hp Hk. revert i w w' res. induction fuel as [|fuel IH]; intros i w w' res; [done|]. cbn [holdLoop].
  pose proof (cf_prov _ _ HR _ (Prov_Status key) w) as Hst.
  destruct (on_prov (Prov_Status key) w) as [[st|e] w1]; cbn in Hst; [|by intros [= _ <-]].
  assert (match (if deadline <? e_clock env i then Some (Err ErrColdStart, w1)
    else if e_done env i then Some (Err ctx_err, w1) else holdLoop fuel env deadline (S i) pod srv key w1) with
    | Some (_, w') => R w w' | None => True end) as Hwait.
  { destruct (deadline <? e_clock env i); [done|]. destruct (e_done env i); [done|].
    destruct (holdLoop _ _ _ _ _ _ _ _) as [[r0 w0]|] eqn:E; [|done]. etrans; [exact Hst|by eapply IH]. }
  destruct (pst_Phase st); try (intros E; rewrite E in Hwait; exact Hwait).
  - set (pod' := set_phase_endpoint _ _ _).
    pose proof (cf_put _ _ HR pod' w1 Hp) as Hput.
    destruct (on_table (PutPod pod') w1) as [[[]|e] w2]; cbn [snd] in Hput; intros [= _ <-]; etrans; [exact Hst| |exact Hst|exact Hput].
    etrans; [exact Hput|]. apply (cf_touch _ _ HR).
  - assert (R w1 (on_table (DeletePod key) (on_prov (Prov_Release key) w1).2).2) as Hrel.
    { etrans; [apply (cf_prov _ _ HR _ (Prov_Release key))|by apply (cf_delete _ _ HR)]. }
    intros [= _ <-]. etrans; [exact Hst|exact Hrel].
Qed.

Lemma create_confined l env key srv (w w' : W) res :
  pk_Subject key = sub → create l env key srv w = (res, w') → R w w'.
Proof.
  intros Hk. unfold create. set (pod := mkPod _ _ _ _ _ _ _).
  pose proof (cf_put _ _ HR pod w Hk) as Hp. destruct (on_table (PutPod pod) w) as [[[]|e] w1]; cbn [snd] in Hp; [|by intros [= _ <-]].
  match goal with |- context [on_prov ?f w1] => pose proof (cf_prov _ _ HR _ f w1) as He; destruct (on_prov f w1) as [[st|e] w2] end;
    cbn in He; [intros [= _ <-]; by etrans|].
  pose proof (cf_delete _ _ HR key w2 Hk) as Hd. intros [= _ <-]. etrans; [exact Hp|]. etrans; [exact He|exact Hd].
Qed.

Lemma EnsurePod_confined fuel l env p st (w w' : W) res :
  p_Subject p = sub → Memory.ok (w_table w) → EnsurePod fuel l env p st w = Some (res, w') → R w w'.
Proof.
  intros Hsub Hok. unfold EnsurePod. pose proof (others_admission l p st w) as Ha.
  destruct (admission l p st w) as [[[found srv]|e] w1] eqn:E; cbn in Ha; subst w1; [|by intros [= _ <-]].
  assert (∀ pod, found = Some pod → pk_Subject (pod_Key pod) = sub) as Hf.
  { intros pod ->. apply (admission_Ok (laws:=Memory.laws)) in E as (_ & _ & H); [|exact Hok]. by rewrite (H _ eq_refl). }
  destruct found as [pod|].
  - destruct (bool_decide _); [by intros [= _ <-]|]. intros H. eapply holdLoop_confined; [..|exact H]; [by apply Hf|done].
  - destruct (create l env _ srv w) as [[pod|e] w1] eqn:Ec; pose proof (λ H, create_confined _ _ _ _ _ _ _ H Ec) as Hc; specialize (Hc Hsub);
      [|by intros [= _ <-]].
    assert (pk_Subject (pod_Key pod) = sub) as Hp.
    { revert Ec. unfold create. repeat (case_match; simplify_eq/=; try done); intros [= <- _]; done. }
    destruct (bool_decide _); [by intros [= _ <-]|]. intros H. etrans; [exact Hc|]. eapply holdLoop_confined; [..|exact H]; done.
Qed.
End Confined.

Lemma others_confined sub : confined sub (others sub).
Proof.
  split; [apply _|intros; apply others_prov|intros; by apply others_PutPod|intros; by apply others_DeletePod|].
  intros n t w. by apply others_table.
Qed.

(** The table keeps its invariant. *)
Definition keeps_ok (w w' : W) : Prop := Memory.ok (w_table w) → Memory.ok (w_table w').
Lemma keeps_ok_confined sub : confined sub keeps_ok.
Proof.
  unfold keeps_ok. split.
  - split; [by intros ? ?|intros w1 w2 w3; auto].
  - intros A f w. by rewrite on_prov_table.
  - intros pod w _. cbn. apply Memory.ok_PutPod.
  - intros key w _. apply Memory.ok_DeletePod.
  - intros n t w. apply (Memory.ok_run (Memory.CTouch n t)).
Qed.

Lemma others_EnsurePod fuel l env p st (w w' : W) res :
  Memory.ok (w_table w) → EnsurePod fuel l env p st w = Some (res, w') → others (p_Subject p) w w'.
Proof. apply (EnsurePod_confined _ _ (others_confined _)). done. Qed.
Lemma ok_EnsurePod fuel l env p st (w w' : W) res :
  Memory.ok (w_table w) → EnsurePod fuel l env p st w = Some (res, w') → Memory.ok (w_table w').
Proof. intros Hok H. by eapply (EnsurePod_confined _ _ (keeps_ok_confined (p_Subject p))). Qed.

Lemma others_podViews sub ps (w : W) : others sub w (podViews ps w).2.
Proof.
  revert w. induction ps as [|q ps IH]; intros w; [done|]. cbn [podViews].
  assert (∀ m, Memory.pods (LastActive (pod_Name q) m).2 = Memory.pods m) as Hl.
  { intros m. cbn. unfold Memory.LastActive. by destruct (Memory.active m !! pod_Name q). }
  pose proof (others_table sub (LastActive (pod_Name q)) w Hl) as H1.
  destruct (on_table (LastActive (pod_Name q)) w) as [la w1]. cbn [snd] in H1.
  pose proof (others_table sub (InFlight (pod_Name q) 0) w1 ltac:(done)) as H2.
  destruct (on_table (InFlight (pod_Name q) 0) w1) as [n w2]. cbn [snd] in H2.
  specialize (IH w2). destruct (podViews ps w2) as [vs w3]. cbn [snd] in *. etrans; [exact H1|]. by etrans.
Qed.

Lemma others_SessionsFor sub sub' (w : W) : others sub w (SessionsFor sub' w).2.
Proof.
  unfold SessionsFor. pose proof (others_table sub (ListPods sub') w ltac:(done)) as H1.
  destruct (on_table (ListPods sub') w) as [[ps|e] w1]; cbn [snd] in *; [|done].
  pose proof (others_podViews sub ps w1) as H2. destruct (podViews ps w1). cbn in *. by etrans.
Qed.

(** The same of the whole state, with the sealed entries of other subjects. *)
Record others_g (sub : string) (s s' : G) : Prop := {
  og_pods : others sub (gs_world s) (gs_world s');
  og_secrets : ∀ sub', sub' ≠ sub → (λ st, SecretsMemory.m st !! sub') <$> gs_store s' = (λ st, SecretsMemory.m st !! sub') <$> gs_store s }.

#[local] Instance others_g_preorder sub : PreOrder (others_g sub).
Proof.
  split; [by intros s; split; [reflexivity|]|]. intros s1 s2 s3 [H1 H1'] [H2 H2']. split; [by etrans|].
  intros sub' Hn. by rewrite H2', H1'.
Qed.

Lemma others_g_on_world {A} sub (f : W → A * W) (s : G) : (∀ w, others sub w (f w).2) → others_g sub s (on_world f s).2.
Proof. intros Hf. specialize (Hf (gs_world s)). unfold on_world. destruct (f (gs_world s)). by split. Qed.

Lemma others_g_table {A} sub (f : Memory.Memory → A * Memory.Memory) (s : G) :
  (∀ m, Memory.pods (f m).2 = Memory.pods m) → others_g sub s (on_world (on_table f) s).2.
Proof. intros Hf. apply others_g_on_world. intros w. by apply others_table. Qed.

Lemma others_g_up sub u (s : G) : others_g sub s (set_up u s).
Proof. by split. Qed.
Lemma others_g_world sub w (s : G) : others sub (gs_world s) w → others_g sub s (set_world w s).
Proof. by split. Qed.

Lemma GetSession_pods id m : Memory.pods (GetSession id m).2 = Memory.pods m.
Proof. cbn. unfold Memory.GetSession. by destruct (Memory.sessions m !! id). Qed.
Lemma GetPod_pods key m : Memory.pods (GetPod key m).2 = Memory.pods m.
Proof. cbn. unfold Memory.GetPod. by destruct (Memory.pods m !! key). Qed.

Lemma others_injectUserToken sub now p srv up (w : W) : others sub w (injectUserToken lookupEnv readFile now p srv up w).2.
Proof.
  unfold injectUserToken. pose proof (others_broker sub (TokenFor now p srv (60 * Second)) w) as H.
  destruct (t_Mode _); try done; try (destruct (SecretRef_Resolve _ _ _); done);
    destruct (on_broker _ w) as [[[tok|]|e] w1]; exact H.
Qed.

Lemma others_prepareMCP fuel l r p (s s' : G) x :
  Memory.ok (w_table (gs_world s)) → prepareMCP lookupEnv readFile fuel l r p s = Some (Done (x, s')) → others_g (p_Subject p) s s'.
Proof.
  intros Hok. unfold prepareMCP. destruct (Config_Server _ _) as [srv0|]; [|by intros [= _ <-]].
  destruct (negb _); [by intros [= _ <-]|].
  destruct (match s_UserSecrets srv0 with Some _ => _ | None => _ end) as [[?|?]|]; [|by intros [= _ <-]|done].
  destruct (EnsurePod _ _ _ _ _ _) as [[[[pod srv]|e] w]|] eqn:Ee; [|intros [= _ <-]|done];
    pose proof (others_EnsurePod _ _ _ _ _ _ _ _ Hok Ee) as Hw; [|by apply others_g_world].
  pose proof (others_g_world _ _ s Hw) as H1. set (s1 := set_world w s) in *.
  assert (others_g (p_Subject p) s1 (if String.eqb (Header_Get (mr_Header r) HeaderSessionID) "" then (Ok None, s1)
    else match on_world (on_table (GetSession (Header_Get (mr_Header r) HeaderSessionID))) s1 with
         | (Err e, s) => (Err e, s)
         | (Ok ms, s) => if negb (String.eqb (ms_Subject ms) (p_Subject p)) || negb (String.eqb (ms_PodName ms) (pod_Name pod))
                         then (Err ErrNotFound, s) else (Ok (Some ms), s) end).2) as H2.
  { destruct (String.eqb _ _); [done|].
    pose proof (others_g_table (p_Subject p) (GetSession (Header_Get (mr_Header r) HeaderSessionID)) s1 (GetSession_pods _)) as H.
    destruct (on_world _ s1) as [[ms|e] s2]; cbn [snd] in *; [|done]. by destruct (_ || _). }
  destruct (if String.eqb _ _ then _ else _) as [found s2]. cbn [snd] in H2.
  destruct found as [ms|e]; [|intros [= _ <-]; by etrans].
  match goal with |- context [on_world ?f s2] =>
    pose proof (others_g_on_world (p_Subject p) f s2 (others_injectUserToken _ _ _ _ _)) as H3; destruct (on_world f s2) as [[up|e] s3] end;
    cbn [snd] in H3; [|intros [= _ <-]; etrans; [exact H1|by etrans]].
  destruct (ResolveUserSecrets _ _ _ _ _) as [[?|?]|]; [| |done]; intros [= _ <-]; (etrans; [exact H1|by etrans]).
Qed.

Lemma others_recordSession sub ms res (s : G) : others_g sub s (recordSession ms res s).2.
Proof.
  unfold recordSession. destruct ms as [m|]; [|done]. destruct (String.eqb _ _); [|done]. destruct res as [res|]; [|done].
  destruct (String.eqb _ _); [done|]. cbn [snd]. by apply others_g_table.
Qed.

Lemma others_forwardMCP sub r p pod ms up (s : G) : others_g sub s (forwardMCP r p pod ms up s).2.
Proof.
  unfold forwardMCP. pose proof (others_g_table sub (InFlight (pod_Name pod) 1) s ltac:(done)) as H1.
  set (s1 := (on_world (on_table (InFlight (pod_Name pod) 1)) s).2) in *.
  pose proof (others_g_table sub (Touch (pod_Name pod) (e_now (mr_Env r))) s1 ltac:(done)) as H2.
  set (s2 := (on_world (on_table (Touch _ _)) s1).2) in *.
  destruct (mintSession r p pod ms up) as [ms' up']. destruct (Forward _ _ _ _) as [[resp res] u].
  pose proof (others_recordSession sub ms' res (set_up u s2)) as H3. destruct (recordSession ms' res (set_up u s2)) as [sid s3].
  cbn [snd] in *. etrans; [exact H1|]. etrans; [exact H2|]. etrans; [apply others_g_up|]. etrans; [exact H3|]. by apply others_g_table.
Qed.

Lemma others_adapterMCP fuel l r p (s s' : G) resp :
  Memory.ok (w_table (gs_world s)) → adapterMCP lookupEnv readFile fuel l r p s = Some (Done (resp, s')) → others_g (p_Subject p) s s'.
Proof.
  intros Hok. unfold adapterMCP. destruct (String.eqb _ _).
  - unfold deleteMCP. pose proof (others_g_table (p_Subject p) (GetSession (Header_Get (mr_Header r) HeaderSessionID)) s (GetSession_pods _)) as H.
    destruct (on_world _ s) as [[ms|e] s1]; cbn [snd] in H; [|by intros [= _ <-]].
    destruct (negb _); [by intros [= _ <-]|].
    pose proof (others_g_table (p_Subject p) (DeleteSession (Header_Get (mr_Header r) HeaderSessionID)) s1 ltac:(done)) as Hd.
    intros [= _ <-]. etrans; [exact H|exact Hd].
  - destruct (prepareMCP _ _ _ _ _ _ _) as [[[[resp'|[[pod ms] up]] s1]|]|] eqn:Ep; try done;
      apply others_prepareMCP in Ep; try done; [by intros [= _ <-]|].
    pose proof (others_forwardMCP (p_Subject p) r p pod ms up s1) as Hf.
    destruct (forwardMCP r p pod ms up s1) as [[resp' ev] s2]. cbn [snd] in Hf. intros [= _ <-]. by etrans.
Qed.

Lemma others_g_Release sub key (s : G) : pk_Subject key = sub → others_g sub s (on_world (Release key) s).2.
Proof. intros Hk. apply others_g_on_world. intros w. by apply others_Release. Qed.

(** Replacing the caller's own entries, with an audit record. *)
Lemma others_g_store p st st' action adapter names (s : G) :
  gs_store s = Some st → (∀ sub', sub' ≠ p_Subject p → SecretsMemory.m st' !! sub' = SecretsMemory.m st !! sub') →
  others_g (p_Subject p) s (audit action (p_Subject p) adapter names (set_store st' s)).
Proof. intros Hs Hst. split; [reflexivity|]. intros sub' Hn. cbn. rewrite Hs. cbn. by rewrite Hst. Qed.

Lemma others_meSecretsPut l p adapter body (s : G) : others_g (p_Subject p) s (meSecretsPut l p adapter body s).2.
Proof.
  unfold meSecretsPut. destruct (gs_store s) as [st|] eqn:Es; [|done]. destruct (_ ≫= _) as [us|]; [|done].
  destruct body as [e|]; [|done]. destruct (_ || _); [done|]. destruct (List.find _ _); [done|]. cbn [Sec_Put SecretsMemory.store SecretsMemory.Put].
  etrans; [eapply (others_g_store p st _ "user_secrets.put"); [exact Es|]|by apply others_g_Release].
  intros sub' Hn. cbn. by rewrite lookup_insert_ne.
Qed.

Lemma others_meSecretsDelete p adapter (s : G) : others_g (p_Subject p) s (meSecretsDelete p adapter s).2.
Proof.
  unfold meSecretsDelete. destruct (gs_store s) as [st|] eqn:Es; [|done]. cbn [Sec_Delete SecretsMemory.store SecretsMemory.Delete].
  etrans; [eapply (others_g_store p st _ "user_secrets.delete"); [exact Es|]|by apply others_g_Release].
  intros sub' Hn. cbn. destruct (SecretsMemory.m st !! p_Subject p); [|done]. by rewrite lookup_insert_ne.
Qed.

Lemma others_deleteSession p id (s : G) : others_g (p_Subject p) s (deleteSession p id s).2.
Proof.
  unfold deleteSession. destruct (Cut id "-") as [[st rest] []]; [|done].
  pose proof (others_g_table (p_Subject p) (GetPod (mkPodKey (p_Subject p) st)) s (GetPod_pods _)) as H1.
  destruct (on_world (on_table (GetPod _)) s) as [got s1]. cbn [snd] in H1. destruct (match got with Ok _ => _ | Err _ => _ end); [done|].
  pose proof (others_g_Release (p_Subject p) (mkPodKey (p_Subject p) st) s1 eq_refl) as H2.
  destruct (on_world (Release _) s1) as [[]s2]; cbn [snd] in *; by etrans.
Qed.

Lemma others_sessions sub sub' (s : G) : others_g sub s (on_world (SessionsFor sub') s).2.
Proof. apply others_g_on_world, others_SessionsFor. Qed.

(** What is asked of the router behind the aggregated route. *)
Definition hook_isolated (router : option (Principal → G → option (outcome (Response * G)))) (p : Principal) (s : G) : Prop :=
  ∀ h resp s', router = Some h → h p s = Some (Done (resp, s')) → others_g (p_Subject p) s s'.

Lemma phandle_isolated router fuel l p r (s s' : G) resp :
  (r = RtMCP → hook_isolated router p s) → Memory.ok (w_table (gs_world s)) → requireAdmin p = false →
  phandle lookupEnv readFile router fuel l p r s = Some (Done (resp, s')) → others_g (p_Subject p) s s'.
Proof.
  intros Hr Hok Had. destruct r; cbn [phandle]; try (intros [= _ <-]; reflexivity).
  - unfold routerOr501. destruct router as [h|]; [|by intros [= _ <-]]. specialize (Hr eq_refl h).
    destruct (h p s) as [[[resp' s1]|]|]; try done. intros [= _ <-]. by eapply Hr.
  - destruct (adapterMCP _ _ _ _ _ _ _) as [[[resp' s1]|]|] eqn:E; try done. intros [= _ <-]. by eapply others_adapterMCP.
  - unfold adapterStatus. destruct (Config_Server _ _); [|by intros [= _ <-]].
    pose proof (others_g_table (p_Subject p) (ListPods "") s ltac:(done)) as H. destruct (on_world _ s) as [[]s1]; by intros [= _ <-].
  - unfold listSessions. pose proof (others_sessions (p_Subject p) (p_Subject p) s) as H. destruct (on_world _ s) as [[]s1]; by intros [= _ <-].
  - unfold getSession. pose proof (others_sessions (p_Subject p) (p_Subject p) s) as H. destruct (on_world _ s) as [[]s1]; [|by intros [= _ <-]].
    destruct (List.find _ _); by intros [= _ <-].
  - intros [= _ <-]. apply others_deleteSession.
  - unfold userSessions. rewrite Had. by intros [= _ <-].
  - unfold deleteUserSessions. rewrite Had. by intros [= _ <-].
  - intros [= _ <-]. apply others_meSecretsPut.
  - intros [= _ <-]. apply others_meSecretsDelete.
  - unfold adapterSessionKey. destruct (EnsurePod _ _ _ _ _ _) as [[[[pod srv]|e] w]|] eqn:Ee; [|intros [= _ <-]|done];
      pose proof (others_g_world _ _ s (others_EnsurePod _ _ _ _ _ _ _ _ Hok Ee)) as Hw; [|done].
    destruct (SessionKey _ _ _ _) as [[]u]; intros [= _ <-]; (etrans; [exact Hw|apply others_g_up]).
Qed.

(** Through every route: a request without a valid identity holding the required
    scope changes nothing, and one without admin rights leaves other subjects
    alone, provided the router does. *)
Lemma gserve_isolated router doc scope fuel l req r (s s' : G) resp :
  (∀ p, Resolve (with_RealIP req) = Ok p → r = RtMCP → hook_isolated router p s) → Memory.ok (w_table (gs_world s)) →
  gserve lookupEnv readFile router doc scope fuel l req (RtProtected r) s = Some (Done (resp, s')) →
  (s' = s ∧ ∃ hr, resp = GResp hr ∧ (w_Status hr = 401 ∨ w_Status hr = 403)) ∨
  ∃ p, Resolve (with_RealIP req) = Ok p ∧ (scope = "" ∨ HasScope p scope = true) ∧
    (requireAdmin p = false → others_g (p_Subject p) s s').
Proof.
  intros Hr Hok. unfold gserve, Wrap. destruct (Resolve (with_RealIP req)) as [p|e]; [specialize (Hr p eq_refl)|].
  - destruct (negb (String.eqb scope "") && negb (HasScope p scope)) eqn:Es.
    + intros [= <- <-]. left. split; [done|]. eexists. split; [done|]. by right.
    + intros H. right. exists p. split_and!; [done| |intros Had; by eapply phandle_isolated].
      apply andb_false_iff in Es as [Es|Es]; bprop; auto.
  - destruct (negb (Bearer (with_RealIP req)).2); intros [= <- <-]; left; (split; [done|]; eexists; split; [done|]; by left).
Qed.
End Tenants.

(** ** The client address *)

(** chi's documentation of RealIP: without a True-Client-IP header, the address in
    X-Real-IP replaces the peer's. *)
Definition realIP_header `{!RealIP} : Prop :=
  ∀ h peer, Header_Get h "True-Client-IP" = "" → ParseIP (Header_Get h "X-Real-IP") ≠ [] →
    realIP h peer = Header_Get h "X-Real-IP".

(** identity.type none lets in loopback peers only, but the address it looks at is
    the one the client names in a header: from any peer, a request with
    X-Real-IP: 127.0.0.1 is the configured principal. *)
Theorem none_loopback_is_spoofed `{!RealIP, !Secrets} cx req seed :
  realIP_header → id_AllowRemote (c_Identity (cx_Cfg cx)) = false → id_Principal (c_Identity (cx_Cfg cx)) = Some seed →
  Header_Get (ri_Header req) "True-Client-IP" = "" → Header_Get (ri_Header req) "X-Real-IP" = "127.0.0.1" →
  none_Resolve cx (with_RealIP req) = Done (Ok (FromSeed (cx_Cfg cx) seed "")).
Proof.
  intros Hip Ha Hs Ht Hx. unfold none_Resolve. rewrite Ha, Hs. cbn [ri_RemoteAddr with_RealIP].
  rewrite Hip; [|done|by rewrite Hx]. by rewrite Hx.
Qed.

(** ** Witnesses *)

Module GatewayServerWitness.
Import ManagerWitness GatewayWitness.
#[local] Existing Instance http_up.
#[local] Existing Instance pol0.
Definition dana : Principal := mkPrincipal "dana" "dana" "user" "" ["eng"] [] "" 0 "" "".
(** The header wins, as in chi. *)
#[local] Instance rip0 : RealIP := {|
  realIP h peer := if bool_decide (ParseIP (Header_Get h "X-Real-IP") = []) then peer else Header_Get h "X-Real-IP" |}.
#[local] Instance idp0 : IdentityProvider := {|
  Resolve req := if String.eqb (Bearer req).1 "dana-token" then Ok dana else Err ErrUnauthenticated;
  Challenge _ _ _ := "Bearer" |}.

Definition areq (tok : string) : RequestInfo :=
  mkRequestInfo {["Authorization" := ["Bearer " +:+ tok]]} "PUT" "/me/secrets/jira" "10.0.0.1:5000".
Definition entry0 : SealedEntry := mkSealedEntry 1 [1] (mkArgonParams 0 0 0) [1] [] [1] ["JIRA_TOKEN"] 0.
Definition put0 : groute := RtProtected (RtMeSecretsPut "jira" (Ok entry0)).
Definition served : option (outcome (gresp * gstate Memory.Memory toy_prov () SecretsMemory.Store ())) :=
  gserve no_file no_file None None "" 5 l0 (areq "dana-token") put0 (s0 ()).
Definition s1 : gstate Memory.Memory toy_prov () SecretsMemory.Store () :=
  match served with Some (Done (_, s)) => s | _ => s0 () end.

Definition seed0 : PrincipalSeed := mkPrincipalSeed "dev" [] [] "".
Definition id0 : Identity :=
  let i := c_Identity sample_config in
  mkIdentity "none" ∅ "" "" "" (Some seed0) false "" ∅ "" "" "" (id_Scopes i) (id_Introspection i) (id_Broker i) None.
Definition cx0 : Context :=
  mkContext (mkConfig "" "" id0 (c_Gateway sample_config) (c_Network sample_config) [] (c_Authorization sample_config)) ∅.
#[local] Instance sec0 : Secrets := StaticSecrets ∅.
Definition spoof : RequestInfo := mkRequestInfo {["X-Real-Ip" := ["127.0.0.1"]]} "POST" "/mcp" "203.0.113.9:4711".

Lemma none_loopback_is_spoofed_witness :
  none_Resolve cx0 spoof ≠ none_Resolve cx0 (with_RealIP spoof) ∧
  none_Resolve cx0 (with_RealIP spoof) = Done (Ok (FromSeed (cx_Cfg cx0) seed0 "")).
Proof.
  split; [vm_compute; discriminate|].
  assert realIP_header as Hip.
  { intros h peer _ H. unfold realIP, rip0. rewrite bool_decide_eq_false_2; [reflexivity|exact H]. }
  assert (Header_Get (ri_Header spoof) "True-Client-IP" = "") as Ht by (vm_compute; reflexivity).
  assert (Header_Get (ri_Header spoof) "X-Real-IP" = "127.0.0.1") as Hx by (vm_compute; reflexivity).
  exact (none_loopback_is_spoofed cx0 spoof seed0 Hip eq_refl eq_refl Ht Hx).
Defined.
End GatewayServerWitness.
