(* ===== verification/Cli.v ===== *)
(** * internal/cli: the user's side of the vault

    vaultfile.go, secrets.go and the request path of companion.go.  The vault key
    is derived and kept on the user's machine; the gateway is reached through
    /me/secrets, stated as an interface that Gateway.v's handlers implement.
    Argon2, the JSON of the vault file and the file system are parameters. *)

From S2P Require Import Prelude GoStd Sha256 Config Core Fixtures Contracts RoutingMemory RoutingRedis Vault Policy Manager Proxy Gateway.

Local Open Scope Z_scope.

(** [argon2.IDKey] with a 32-byte key, as [DeriveUserKey] calls it. *)
Class Argon2 := {
  argon2_IDKey : string → list Z → ArgonParams → list Z;
  argon2_length : ∀ p salt a, length (argon2_IDKey p salt a) = 32%nat;
  argon2_bytes : ∀ p salt a, Forall is_byte (argon2_IDKey p salt a) }.

(** ** vaultfile.go *)

(** [type VaultFile struct] *)
Record VaultFile := mkVaultFile { vf_Version : Z; vf_Subject : string; vf_Salt : list Z; vf_Argon : ArgonParams; vf_Key : string }.

Section Vaultfile.
Context `{!Argon2, !JSONCodec VaultFile}.

(** [func DeriveUserKey] of core/vault.go *)
Definition DeriveUserKey (passphrase : string) (salt : list Z) (a : ArgonParams) : list Z := argon2_IDKey passphrase salt a.

(** [func Dir] and [func vaultPath] *)
Definition Dir (home : string) (userConfigDir : result string) : result string :=
  if negb (String.eqb home "") then Ok home else (λ base, base +:+ "/juggernaut") <$> userConfigDir.
Definition vaultPath (home : string) (userConfigDir : result string) : result string :=
  (λ d, d +:+ "/vault.json") <$> Dir home userConfigDir.

(** [func InitVault]: [salt] are the random bytes of [NewSalt]. *)
Definition InitVault (path passphrase : string) (cacheKey : bool) (salt : list Z) (fs : gmap string string)
    : result VaultFile * gmap string string :=
  match fs !! path with
  | Some _ => (Err (EMsg "already exists"), fs)
  | None =>
      let key := if cacheKey then base64url_EncodeToString (DeriveUserKey passphrase salt DefaultArgon) else "" in
      let v := mkVaultFile 1 "" salt DefaultArgon key in
      (Ok v, <[path := json_Marshal v]> fs)
  end.

(** [func LoadVault] *)
Definition LoadVault (path : string) (fs : gmap string string) : result VaultFile :=
  match fs !! path with None => Err (EMsg "no vault") | Some b => json_Unmarshal b end.

(** [func (v *VaultFile) UserKey] *)
Definition UserKey (v : VaultFile) (passphrase : string) : result (list Z) :=
  if negb (String.eqb (vf_Key v) "") then
    match base64url_DecodeString (vf_Key v) with
    | Some k => if (length k =? 32)%nat then Ok k else Err (EMsg "vault file: bad cached key")
    | None => Err (EMsg "vault file: bad cached key")
    end
  else if String.eqb passphrase "" then Err (EMsg "vault key is not cached")
  else Ok (DeriveUserKey passphrase (vf_Salt v) (vf_Argon v)).
End Vaultfile.

(** ** secrets.go *)

(** [type Gateway]: the calls on /me/secrets, as the caller's own view. *)
Class MeSecrets (V : Type) := {
  me_List : V → result (list (string * option SealedEntry));
  me_Put : string → SealedEntry → V → result () * V }.

(** The random bytes of one [SealEntry]. *)
Record sealrnd := mkSealrnd { sr_dek : list Z; sr_nonce : list Z; sr_wn : list Z }.

Section Secrets.
Context `{!Argon2, !JSONCodec VaultFile} {aead : AEAD} {jsec : JSONCodec secrets} {V} `{!MeSecrets V}.

(** The loop of [SetSecrets]: the values of the adapter's existing entries. *)
Fixpoint mergeOld (userKey : list Z) (subject adapter : string) (es : list (string * option SealedEntry)) (merged : secrets)
    : outcome (result secrets) :=
  match es with
  | [] => Done (Ok merged)
  | (a, e) :: rest =>
      if negb (String.eqb a adapter) then mergeOld userKey subject adapter rest merged
      else match OpenEntry userKey subject adapter e with
           | Panic => Panic
           | Done (Err err) => Done (Err (EWrap "existing entry" err))
           | Done (Ok old) => mergeOld userKey subject adapter rest (old ∪ merged)
           end
  end.

(** [func SetSecrets] *)
Definition SetSecrets (vault : VaultFile) (userKey : list Z) (subject adapter : string) (values : secrets)
    (rnd : sealrnd) (now : Z) (v : V) : outcome (result () * V) :=
  match me_List v with
  | Err e => Done (Err e, v)
  | Ok es =>
      match mergeOld userKey subject adapter es ∅ with
      | Panic => Panic
      | Done (Err e) => Done (Err e, v)
      | Done (Ok merged) =>
          match SealEntry userKey (vf_Salt vault) (vf_Argon vault) subject adapter (values ∪ merged)
                  (sr_dek rnd) (sr_nonce rnd) (sr_wn rnd) now with
          | Err e => Done (Err e, v)
          | Ok sealed => Done (me_Put adapter sealed v)
          end
      end
  end.

(** The loop of [Rotate] over the entries, with the random bytes of each. *)
Fixpoint rotateEntries (oldKey newKey newSalt : list Z) (subject : string) (rnds : list sealrnd) (now : Z)
    (es : list (string * option SealedEntry)) (v : V) : outcome (result () * V) :=
  match es with
  | [] => Done (Ok (), v)
  | (a, e) :: rest =>
      match OpenEntry oldKey subject a e with
      | Panic => Panic
      | Done (Err err) => Done (Err (EWrap ("entry " +:+ a) err), v)
      | Done (Ok vals) =>
          let rnd := default (mkSealrnd [] [] []) (head rnds) in
          match SealEntry newKey newSalt DefaultArgon subject a vals (sr_dek rnd) (sr_nonce rnd) (sr_wn rnd) now with
          | Err err => Done (Err err, v)
          | Ok sealed =>
              match me_Put a sealed v with
              | (Err err, v) => Done (Err err, v)
              | (Ok _, v) => rotateEntries oldKey newKey newSalt subject (tail rnds) now rest v
              end
          end
      end
  end.

(** [func Rotate]: the vault file that is written at the end. *)
Definition Rotate (vault : VaultFile) (oldKey : list Z) (subject newPassphrase : string) (cacheKey : bool)
    (newSalt : list Z) (rnds : list sealrnd) (now : Z) (v : V) : outcome (result VaultFile * V) :=
  match me_List v with
  | Err e => Done (Err e, v)
  | Ok es =>
      let newKey := DeriveUserKey newPassphrase newSalt DefaultArgon in
      match rotateEntries oldKey newKey newSalt subject rnds now es v with
      | Panic => Panic
      | Done (Err e, v) => Done (Err e, v)
      | Done (Ok _, v) =>
          Done (Ok (mkVaultFile (vf_Version vault) (vf_Subject vault) newSalt DefaultArgon
                      (if cacheKey then base64url_EncodeToString newKey else "")), v)
      end
  end.
End Secrets.

(** ** companion.go *)

(** The headers [ServeHTTP] sends on: the local client's own credential headers
    are dropped, the user's token and the sealed blobs are added.  [sealed] is
    the result of [sealedHeaders]. *)
Definition companionHeaders (token : string) (sealed client : Header) : Header :=
  let keep k := negb (isJuggernaut k || EqualFold k "Authorization") in
  let h : Header := filter (λ kv, keep kv.1 = true) client in
  sealed ∪ Header_Set "Authorization" ("Bearer " +:+ token) h.

(** [type podKey struct] and the cache of [sealedHeaders] *)
Record podKey := mkPodKeyC { pc_key : list Z; pc_pod : string; pc_fetched : Z }.

(** [func (c *Companion) sealedHeaders]: [fetch] is the call of [SessionKey],
    [rnd] the randomness of a seal. *)
Fixpoint sealedHeaders {nb : NaclBox} {jsec : JSONCodec secrets} (prefix : string) (now : Z) (rnd : string → list Z)
    (fetch : string → result (list Z * string)) (plain : gmap string secrets) (adapters : list string)
    (keys : gmap string podKey) (h : Header) : result Header * gmap string podKey :=
  match adapters with
  | [] => (Ok h, keys)
  | a :: rest =>
      match plain !! a with
      | None => sealedHeaders prefix now rnd fetch plain rest keys h
      | Some vals =>
          let stale := match keys !! a with None => true | Some pk => 5 * Minute <? now - pc_fetched pk end in
          let got := if stale then (λ kp, mkPodKeyC kp.1 kp.2 now) <$> fetch a
                     else match keys !! a with Some pk => Ok pk | None => Err (EMsg "unreachable") end in
          match got with
          | Err e => (Err (EWrap ("adapter " +:+ a) e), keys)
          | Ok pk =>
              let keys := if stale then <[a := pk]> keys else keys in
              sealedHeaders prefix now rnd fetch plain rest keys
                (Header_Set (prefix +:+ a) (base64url_EncodeToString (SealToPod (rnd a) (pc_key pk) vals)) h)
          end
      end
  end.

(** The reaction to a 404: a re-spawned pod has a new key. *)
Definition forgetKeys (adapters : list string) (keys : gmap string podKey) : gmap string podKey :=
  fold_left (λ m a, delete a m) adapters keys.

(** The adapters a forwarded request is sealed for: all of them, or the one in the path. *)
Definition companionAdapters (path : string) (plain : gmap string secrets) : list string :=
  if HasPrefix path "/adapters/" then take 1 (SplitByte (TrimPrefix path "/adapters/") "/") else (map_to_list plain).*1.

(** The loop of [Refresh] over the listed entries. *)
Fixpoint decryptAll {aead : AEAD} {jsec : JSONCodec secrets} (userKey : list Z) (subject : string)
    (es : list (string * option SealedEntry)) (fresh : gmap string secrets) : outcome (result (gmap string secrets)) :=
  match es with
  | [] => Done (Ok fresh)
  | (a, e) :: rest =>
      match OpenEntry userKey subject a e with
      | Panic => Panic
      | Done (Err err) => Done (Err (EWrap ("entry " +:+ a) err))
      | Done (Ok vals) => decryptAll userKey subject rest (<[a := vals]> fresh)
      end
  end.

(** [func (c *Companion) Refresh]: the decrypted entries are replaced as a whole,
    or kept as they were. *)
Definition Refresh {aead : AEAD} {jsec : JSONCodec secrets} {V} `{!MeSecrets V} (userKey : list Z) (subject : string) (v : V)
    (plain : gmap string secrets) : outcome (result () * gmap string secrets) :=
  match me_List v with
  | Err e => Done (Err e, plain)
  | Ok es =>
      match decryptAll userKey subject es ∅ with
      | Panic => Panic
      | Done (Err e) => Done (Err e, plain)
      | Done (Ok fresh) => Done (Ok (), fresh)
      end
  end.

(** [func (c *Companion) ServeHTTP] up to the copy of the response: [send] is the
    round trip to the gateway, answering a status. *)
Definition companion_ServeHTTP {nb : NaclBox} {jsec : JSONCodec secrets} (prefix token : string) (now : Z) (rnd : string → list Z)
    (fetch : string → result (list Z * string)) (send : Header → result Z) (path : string) (client : Header)
    (plain : gmap string secrets) (keys : gmap string podKey) : Z * gmap string podKey :=
  let adapters := companionAdapters path plain in
  match sealedHeaders prefix now rnd fetch plain adapters keys ∅ with
  | (Err _, keys) => (502, keys)
  | (Ok sealed, keys) =>
      match send (companionHeaders token sealed client) with
      | Err _ => (502, keys)
      | Ok status => (status, if status =? 404 then forgetKeys adapters keys else keys)
      end
  end.

(** ** /me/secrets as the gateway implements it *)

(** Documented behaviour of the two calls: one entry per adapter; a stored entry
    is listed in place of the adapter's old one, and the others stay. *)
Class MeLaws (V : Type) `{!MeSecrets V} := {
  me_ok : V → Prop;
  me_nodup : ∀ v es, me_ok v → me_List v = Ok es → NoDup es.*1;
  me_put : ∀ a e v v' es, me_ok v → me_List v = Ok es → me_Put a e v = (Ok (), v') →
    me_ok v' ∧ ∃ es', me_List v' = Ok es' ∧ (a, Some e) ∈ es' ∧ (∀ b x, b ≠ a → (b, x) ∈ es' ↔ (b, x) ∈ es) }.

Section Served.
Context {T P B U : Type} {tbl : RoutingTable T} {prov : Provisioner P} {brk : TokenBroker B} {http : HTTPClient U}
  {pol : AccessPolicy}.
Notation G := (gstate T P B SecretsMemory.Store U).

(** The client against the handlers of usersecrets.go, for caller [p]. *)
Definition served_me (l : Loaded) (p : Principal) : MeSecrets G := {|
  me_List s := match meSecretsList p s with HJSON _ es => Ok ((λ ae, (ae.1, Some ae.2)) <$> es) | _ => Err (EMsg "GET /me/secrets") end;
  me_Put a e s := match meSecretsPut l p a (Ok e) s with (HStatus _, s) => (Ok (), s) | (_, s) => (Err (EMsg "PUT /me/secrets"), s) end |}.

Definition own_entries (p : Principal) (st : SecretsMemory.Store) : gmap string SealedEntry :=
  default ∅ (SecretsMemory.m st !! p_Subject p).

Lemma served_List l p (s : G) st : gs_store s = Some st →
  @me_List _ (served_me l p) s = Ok ((λ ae, (ae.1, Some ae.2)) <$> map_to_list (own_entries p st)).
Proof.
  intros Hs. cbn. unfold meSecretsList. rewrite Hs. cbn. f_equal. f_equal. fold (own_entries p st).
  assert (∀ a e, (a, e) ∈ map_to_list (own_entries p st) → SecretsMemory.Get (p_Subject p) a st = Ok e) as Hget.
  { intros a e Hin. apply elem_of_map_to_list in Hin. unfold SecretsMemory.Get. unfold own_entries in Hin.
    destruct (SecretsMemory.m st !! p_Subject p) as [x|]; cbn in *; [by rewrite Hin|done]. }
  induction (map_to_list (own_entries p st)) as [|[a e] es IH]; [done|]. cbn.
  rewrite (Hget a e) by left. cbn. f_equal. apply IH. intros b x Hb. apply Hget. by right.
Qed.

(** The handlers keep what the client relies on. *)
#[export] Instance served_laws l p : @MeLaws G (served_me l p).
Proof.
  unshelve refine (@Build_MeLaws G (served_me l p) (λ s, is_Some (gs_store s)) _ _).
  - intros s es [st Hs]. rewrite (served_List l p s st Hs). intros [= <-].
    rewrite <- list_fmap_compose. change (NoDup (fst <$> map_to_list (own_entries p st))). apply NoDup_fst_map_to_list.
  - intros a e s s' es [st Hs] Hl. rewrite (served_List l p s st Hs) in Hl. injection Hl as <-.
    cbn [me_Put served_me]. unfold meSecretsPut. rewrite Hs. destruct (_ ≫= _) as [us|]; [|done].
    destruct (_ || _); [done|]. destruct (List.find _ _); [done|]. cbn [Sec_Put SecretsMemory.store SecretsMemory.Put].
    set (st' := SecretsMemory.mkStore _). match goal with |- context [on_world ?f ?x] => set (s1 := x); destruct (on_world f s1) as [r s2] eqn:E end.
    cbn [snd]. intros [= <-].
    assert (gs_store s2 = Some st') as Hs2.
    { unfold on_world in E. destruct (Release _ _). injection E as _ <-. done. }
    split; [by eexists|]. eexists. split; [by apply (served_List l p s2 st')|].
    assert (own_entries p st' = <[a := e]> (own_entries p st)) as Ho by (unfold own_entries, st'; cbn; by rewrite lookup_insert_eq).
    rewrite Ho. split.
    + apply list_elem_of_fmap. exists (a, e). split; [done|]. apply elem_of_map_to_list. by rewrite lookup_insert_eq.
    + intros b x Hb. rewrite !list_elem_of_fmap. setoid_rewrite elem_of_map_to_list'.
      split; intros ([b' e'] & [= -> ->] & Hin); (exists (b', e'); split; [done|]); cbn in *; by rewrite lookup_insert_ne in * by done.
Defined.
End Served.

(** ** Properties *)

Section CliProofs.
Context `{!Argon2, !JSONCodec VaultFile} {aead : AEAD} {jsec : JSONCodec secrets} {V} `{!MeSecrets V, !MeLaws V}.

Lemma base64url_nonempty k : length k = 32%nat → base64url_EncodeToString k ≠ "".
Proof. destruct k as [|b k]; [done|]. intros _. vm_compute. done. Qed.

(** A cached key is read back; otherwise it is derived again. *)
Lemma UserKey_after passphrase salt subject (cacheKey : bool) :
  passphrase ≠ "" →
  UserKey (mkVaultFile 1 subject salt DefaultArgon
    (if cacheKey then base64url_EncodeToString (DeriveUserKey passphrase salt DefaultArgon) else "")) passphrase
  = Ok (DeriveUserKey passphrase salt DefaultArgon).
Proof.
  intros Hp. unfold UserKey. cbn [vf_Key vf_Salt vf_Argon]. apply String.eqb_neq in Hp.
  destruct cacheKey; [|cbn; by rewrite Hp].
  pose proof (base64url_nonempty _ (argon2_length passphrase salt DefaultArgon)) as Hne.
  unfold DeriveUserKey. apply String.eqb_neq in Hne as ->. cbn [negb].
  by rewrite base64_url_roundtrip, argon2_length by apply argon2_bytes.
Qed.

(** After init, every later command comes up with the same key, whether it was
    cached or not. *)
Lemma InitVault_key path passphrase cacheKey salt fs v fs' :
  passphrase ≠ "" → InitVault path passphrase cacheKey salt fs = (Ok v, fs') →
  LoadVault path fs' = Ok v ∧ UserKey v passphrase = Ok (DeriveUserKey passphrase salt DefaultArgon).
Proof.
  intros Hp. unfold InitVault. destruct (fs !! path); [done|]. intros [= <- <-]. unfold LoadVault.
  rewrite lookup_insert_eq, json_roundtrip. split; [done|]. by apply UserKey_after.
Qed.

(** What the entries of a listing hold for an adapter under a key. *)
Definition holds (key : list Z) (subject a : string) (es : list (string * option SealedEntry)) (secs : secrets) : Prop :=
  ∃ e, (a, e) ∈ es ∧ OpenEntry key subject a e = Done (Ok secs).

Lemma mergeOld_spec key subject a es merged out :
  mergeOld key subject a es merged = Done (Ok out) → NoDup es.*1 →
  (∃ old, holds key subject a es old ∧ out = old ∪ merged) ∨ (a ∉ es.*1 ∧ out = merged).
Proof.
  revert merged. induction es as [|[b e] es IH]; intros merged; cbn; [intros [= <-]; right; set_solver|].
  intros Hm Hnd. inversion Hnd as [|? ? Hb Hnd']; subst. destruct (String.eqb_spec b a) as [->|Hne]; cbn in Hm.
  - destruct (OpenEntry key subject a e) as [[old|]|] eqn:Eo; [|done..].
    destruct (IH _ Hm Hnd') as [(o & (e' & Hin & _) & _)|[_ ->]].
    + exfalso. apply Hb. apply list_elem_of_fmap. by exists (a, e').
    + left. exists old. split; [|done]. exists e. split; [by left|done].
  - destruct (IH _ Hm Hnd') as [(o & (e' & Hin & Ho) & ->)|[Hni ->]].
    + left. exists o. split; [|done]. exists e'. split; [by right|done].
    + right. split; [|done]. apply not_elem_of_cons. by split; [apply not_eq_sym|].
Qed.

(** Setting secrets adds to the adapter's entry and loses nothing: afterwards the
    entry opens, under the same key, to the new values with the old ones they do
    not replace, and the entries of other adapters are untouched. *)
Theorem SetSecrets_merges vault key subject a values rnd now (v v' : V) es :
  me_ok v → me_List v = Ok es → length (sr_nonce rnd) = aead_NonceSize → length (sr_wn rnd) = aead_NonceSize →
  SetSecrets vault key subject a values rnd now v = Done (Ok (), v') →
  ∃ es', me_List v' = Ok es' ∧ (∀ b x, b ≠ a → (b, x) ∈ es' ↔ (b, x) ∈ es) ∧
    ((∃ old, holds key subject a es old ∧ holds key subject a es' (values ∪ old)) ∨
     (a ∉ es.*1 ∧ holds key subject a es' values)).
Proof.
  intros Hok Hl Hn Hw. unfold SetSecrets. rewrite Hl.
  destruct (mergeOld key subject a es ∅) as [[merged|]|] eqn:Em; [|done..].
  destruct (SealEntry _ _ _ _ _ _ _ _ _ _) as [sealed|] eqn:Es; [|done]. intros [= Hput].
  destruct (me_put _ _ _ _ _ Hok Hl Hput) as (_ & es' & Hl' & Hin & Hoth). exists es'. split_and!; [done..|].
  assert (holds key subject a es' (values ∪ merged)) as Hnew.
  { exists (Some sealed). split; [done|]. eapply OpenEntry_sealed; [exact Hn|exact Hw|exact Es]. }
  apply mergeOld_spec in Em as [(old & Ho & ->)|[Hni ->]]; [| |by eapply me_nodup].
  - left. exists old. split; [done|]. by rewrite (right_id_L ∅ (∪)) in Hnew.
  - right. split; [done|]. by rewrite (right_id_L ∅ (∪)) in Hnew.
Qed.

Lemma rotateEntries_spec oldKey newKey newSalt subject rnds now todo (v v' : V) es :
  me_ok v → me_List v = Ok es → NoDup todo.*1 →
  Forall (λ r, length (sr_nonce r) = aead_NonceSize ∧ length (sr_wn r) = aead_NonceSize) rnds → (length todo ≤ length rnds)%nat →
  rotateEntries oldKey newKey newSalt subject rnds now todo v = Done (Ok (), v') →
  me_ok v' ∧ ∃ es', me_List v' = Ok es' ∧ (∀ b x, b ∉ todo.*1 → (b, x) ∈ es' ↔ (b, x) ∈ es) ∧
    ∀ a e, (a, e) ∈ todo → ∃ secs, OpenEntry oldKey subject a e = Done (Ok secs) ∧ holds newKey subject a es' secs.
Proof.
  revert rnds v es. induction todo as [|[a e] todo IH]; intros rnds v es Hok Hl Hnd Hr Hlen; cbn [rotateEntries].
  { intros [= <-]. split; [done|]. exists es. split_and!; [done|done|]. intros a e. by rewrite elem_of_nil. }
  destruct (OpenEntry oldKey subject a e) as [[secs|]|] eqn:Eo; [|done..].
  destruct rnds as [|r rnds]; [cbn in Hlen; lia|]. inversion Hr as [|? ? [Hn Hw] Hr']; subst. cbn [head default tail].
  destruct (SealEntry _ _ _ _ _ _ _ _ _ _) as [sealed|] eqn:Es; [|done].
  destruct (me_Put a sealed v) as [[[]|] v1] eqn:Ep; [|done]. inversion Hnd as [|? ? Ha Hnd']; subst.
  destruct (me_put _ _ _ _ _ Hok Hl Ep) as (Hok1 & es1 & Hl1 & Hin & Hoth). intros Hrest.
  destruct (IH _ _ _ Hok1 Hl1 Hnd' Hr' ltac:(cbn in Hlen; lia) Hrest) as (Hok' & es' & Hl' & Hoth' & Hall).
  split; [done|]. exists es'. split_and!; [done|..].
  - intros b x. cbn. rewrite not_elem_of_cons. intros [Hba Hb]. by rewrite Hoth', Hoth.
  - intros b x [[= -> ->]|Hb]%elem_of_cons; [|by apply Hall]. exists secs. split; [done|].
    exists (Some sealed). split; [by apply Hoth'|]. eapply OpenEntry_sealed; [exact Hn|exact Hw|exact Es].
Qed.

(** A rotation that succeeds leaves exactly the user's adapters, readable under the
    key of the new vault file. *)
Lemma Rotate_spec vault oldKey subject newPass cacheKey newSalt rnds now (v v' : V) es vault' :
  me_ok v → me_List v = Ok es → newPass ≠ "" → (length es ≤ length rnds)%nat →
  Forall (λ r, length (sr_nonce r) = aead_NonceSize ∧ length (sr_wn r) = aead_NonceSize) rnds → vf_Version vault = 1 →
  Rotate vault oldKey subject newPass cacheKey newSalt rnds now v = Done (Ok vault', v') →
  me_ok v' ∧ vf_Version vault' = 1 ∧ ∃ es' newKey, me_List v' = Ok es' ∧ UserKey vault' newPass = Ok newKey ∧
    (∀ b, b ∈ es'.*1 → b ∈ es.*1) ∧
    ∀ a e, (a, e) ∈ es → ∃ secs, OpenEntry oldKey subject a e = Done (Ok secs) ∧ holds newKey subject a es' secs.
Proof.
  intros Hok Hl Hp Hlen Hr Hv. unfold Rotate. rewrite Hl.
  destruct (rotateEntries _ _ _ _ _ _ _ _) as [[[[]|] v1]|] eqn:E; [|done..]. intros [= <- <-].
  apply (rotateEntries_spec _ _ _ _ _ _ _ _ _ _ Hok Hl) in E as (Hok' & es' & Hl' & Hoth & Hall); [|by eapply me_nodup|done|done].
  split_and!; [done..|]. exists es', (DeriveUserKey newPass newSalt DefaultArgon). split_and!; [done| | |done].
  - rewrite Hv. by apply UserKey_after.
  - intros b ([b' x] & -> & Hb)%list_elem_of_fmap. cbn. destruct (decide (b' ∈ es.*1)) as [|Hni]; [done|]. apply (Hoth b' x Hni) in Hb.
    apply list_elem_of_fmap. by exists (b', x).
Qed.

(** C34. A rotation that succeeds loses nothing: every entry the user had opens under
    the key of the new vault file to the same secrets, and that is the key which
    the new passphrase gives. *)
Theorem Rotate_keeps_secrets vault oldKey subject newPass cacheKey newSalt rnds now (v v' : V) es vault' :
  me_ok v → me_List v = Ok es → newPass ≠ "" → (length es ≤ length rnds)%nat →
  Forall (λ r, length (sr_nonce r) = aead_NonceSize ∧ length (sr_wn r) = aead_NonceSize) rnds → vf_Version vault = 1 →
  Rotate vault oldKey subject newPass cacheKey newSalt rnds now v = Done (Ok vault', v') →
  ∃ es' newKey, me_List v' = Ok es' ∧ UserKey vault' newPass = Ok newKey ∧
    ∀ a e, (a, e) ∈ es → ∃ secs, OpenEntry oldKey subject a e = Done (Ok secs) ∧ holds newKey subject a es' secs.
Proof.
  intros Hok Hl Hp Hlen Hr Hv HR. destruct (Rotate_spec _ _ _ _ _ _ _ _ _ _ _ _ Hok Hl Hp Hlen Hr Hv HR) as (_ & _ & es' & k & ? & ? & _ & ?).
  by exists es', k.
Qed.
End CliProofs.

(** ** The companion *)

(** Nothing of the local client's own credentials reaches the gateway: whatever
    it sent, the Authorization header is the user's token, and every
    X-Juggernaut header is one the companion sealed. *)
Theorem companionHeaders_own token sealed client :
  (∀ k v, sealed !! k = Some v → isJuggernaut k = true) →
  companionHeaders token sealed client !! "Authorization" = Some ["Bearer " +:+ token] ∧
  ∀ k, isJuggernaut k = true → companionHeaders token sealed client !! k = sealed !! k.
Proof.
  intros Hs. assert (sealed !! "Authorization" = None) as Ha.
  { destruct (sealed !! "Authorization") as [v|] eqn:E; [|done]. by apply Hs in E. }
  split.
  - unfold companionHeaders. rewrite lookup_union_r by done. unfold Header_Set. change (CanonicalHeaderKey "Authorization") with "Authorization".
    by rewrite lookup_insert_eq.
  - intros k Hk. unfold companionHeaders. destruct (sealed !! k) as [v|] eqn:E; [by apply lookup_union_Some_l|].
    rewrite lookup_union_r by done. unfold Header_Set. change (CanonicalHeaderKey "Authorization") with "Authorization".
    rewrite lookup_insert_ne by (by intros <-). apply map_lookup_filter_None. right. intros v _. change (negb (isJuggernaut k || EqualFold k "Authorization") ≠ true). by rewrite Hk.
Qed.

(** ** Witnesses *)

Module CliWitness.
Import ManagerWitness GatewayWitness.
#[local] Existing Instance http_up.
#[local] Existing Instance pol0.
(** A stand-in for Argon2: the salt and passphrase, cut to 32 bytes. *)
Definition toy_kdf (p : string) (salt : list Z) (_ : ArgonParams) : list Z :=
  take 32 (filter (λ b, 0 ≤ b < 256) (string_bytes p ++ salt) ++ replicate 32 0).
#[local] Program Instance argon0 : Argon2 := {| argon2_IDKey := toy_kdf |}.
Next Obligation. intros. unfold toy_kdf. rewrite length_take, length_app, length_replicate. lia. Qed.
Next Obligation.
  intros. unfold toy_kdf. apply Forall_take, Forall_app. split; [|apply Forall_replicate; unfold is_byte; lia].
  apply Forall_forall. intros b Hb. by apply list_elem_of_filter in Hb as [? _].
Qed.
#[local] Instance jsec0 : JSONCodec secrets := countable_codec secrets.

Definition rnd0 (n : Z) : sealrnd := mkSealrnd (replicate 32 n) (replicate 12 n) (replicate 12 n).
Definition vault0 : VaultFile := mkVaultFile 1 "" [7] DefaultArgon "".
Definition key0 : list Z := DeriveUserKey "old" [7] DefaultArgon.
Definition G0 : Type := gstate Memory.Memory toy_prov () SecretsMemory.Store ().
#[local] Instance me0 : MeSecrets G0 := served_me l0 bob.
#[local] Instance laws0 : @MeLaws G0 me0 := served_laws l0 bob.
Definition set0 (n : Z) (values : secrets) (s : G0) : outcome (result () * G0) :=
  SetSecrets vault0 key0 "bob" "jira" values (rnd0 n) n s.
Definition state_of {A} (o : outcome (A * G0)) : G0 := match o with Done (_, s) => s | Panic => s0 () end.
Definition g1 : G0 := state_of (set0 1 {["JIRA_TOKEN" := "t1"]} (s0 ())).
Definition g2 : G0 := state_of (set0 2 {["JIRA_URL" := "u1"]} g1).
Definition es_of (s : G0) : list (string * option SealedEntry) := match me_List s with Ok es => es | Err _ => [] end.

(** The second set keeps what the first one stored. *)
Lemma SetSecrets_merges_witness :
  (∃ old, holds key0 "bob" "jira" (es_of g1) old ∧ holds key0 "bob" "jira" (es_of g2) ({["JIRA_URL" := "u1"]} ∪ old)) ∨
  ("jira" ∉ (es_of g1).*1 ∧ holds key0 "bob" "jira" (es_of g2) {["JIRA_URL" := "u1"]}).
Proof.
  assert (set0 2 {["JIRA_URL" := "u1"]} g1 = Done (Ok (), g2)) as E by (vm_compute; reflexivity).
  assert (me_List g1 = Ok (es_of g1)) as Hl by (vm_compute; reflexivity).
  assert (is_Some (gs_store g1)) as Hok by (vm_compute; eexists; reflexivity).
  unfold set0 in E.
  destruct (SetSecrets_merges (MeSecrets0:=me0) (MeLaws0:=laws0) vault0 key0 "bob" "jira" {["JIRA_URL" := "u1"]} (rnd0 2) 2 g1 g2 (es_of g1)
    Hok Hl ltac:(vm_compute; reflexivity) ltac:(vm_compute; reflexivity) E) as (es' & Hl' & _ & H).
  assert (es' = es_of g2) as -> by (unfold es_of; rewrite Hl'; reflexivity). exact H.
Defined.

Definition g3 : G0 := state_of (Rotate vault0 key0 "bob" "new" true [9] [rnd0 3; rnd0 4] 3 g2).
Definition vault3 : VaultFile :=
  mkVaultFile 1 "" [9] DefaultArgon (base64url_EncodeToString (DeriveUserKey "new" [9] DefaultArgon)).

Lemma Rotate_keeps_secrets_witness : ∃ newKey, UserKey vault3 "new" = Ok newKey ∧
  ∀ a e, (a, e) ∈ es_of g2 → ∃ secs, OpenEntry key0 "bob" a e = Done (Ok secs) ∧ holds newKey "bob" a (es_of g3) secs.
Proof.
  assert (Rotate vault0 key0 "bob" "new" true [9] [rnd0 3; rnd0 4] 3 g2 = Done (Ok vault3, g3)) as E by (vm_compute; reflexivity).
  assert (me_List g2 = Ok (es_of g2)) as Hl by (vm_compute; reflexivity).
  assert (is_Some (gs_store g2)) as Hok by (vm_compute; eexists; reflexivity).
  assert (length (es_of g2) ≤ 2)%nat as Hlen by (vm_compute; lia).
  destruct (Rotate_keeps_secrets (MeSecrets0:=me0) (MeLaws0:=laws0) vault0 key0 "bob" "new" true [9] [rnd0 3; rnd0 4] 3 g2 g3 (es_of g2) vault3
    Hok Hl ltac:(discriminate) Hlen ltac:(vm_compute; repeat constructor) eq_refl E) as (es' & newKey & Hl' & Hk & H).
  assert (es' = es_of g3) as -> by (unfold es_of; rewrite Hl'; reflexivity). exists newKey. split; [exact Hk|exact H].
Defined.

(** A gateway that accepts [n] more uploads and then is out of reach. *)
Definition flaky : Type := nat * gmap string SealedEntry.
#[local] Instance me_flaky : MeSecrets flaky := {|
  me_List v := Ok ((λ ae, (ae.1, Some ae.2)) <$> map_to_list v.2);
  me_Put a e v := match v.1 with O => (Err (EMsg "unreachable"), v) | S n => (Ok (), (n, <[a := e]> v.2)) end |}.
Definition sealed_for (a : string) : option SealedEntry :=
  match SealEntry key0 [7] DefaultArgon "bob" a {["TOKEN" := a]} (replicate 32 1) (replicate 12 1) (replicate 12 1) 1 with Ok e => Some e | Err _ => None end.
Definition two_entries : gmap string SealedEntry :=
  match sealed_for "jira", sealed_for "wiki" with Some e, Some e' => {["jira" := e; "wiki" := e']} | _, _ => ∅ end.
Definition rotate_flaky (pass : string) (v : flaky) : outcome (result VaultFile * flaky) :=
  Rotate vault0 key0 "bob" pass true [9] [rnd0 3; rnd0 4] 3 v.

(** A rotation cut off after its first upload leaves no vault file, and cannot be
    repeated once the gateway is back: the first entry is already under the new
    key, and opening it with the old one fails. *)
Example Rotate_interrupted :
  match rotate_flaky "new" (1%nat, two_entries) with
  | Done (Err _, (_, m)) => match rotate_flaky "new" (9%nat, m) with Done (Err _, (_, m')) => bool_decide (m' = m) | _ => false end
  | _ => false
  end = true.
Proof. vm_compute. reflexivity. Qed.

Definition sealed0 : Header := {["X-Juggernaut-Sealed-Secrets-Jira" := ["blob"]]}.
Definition client0 : Header := {["Authorization" := ["Bearer stolen"]; "X-Juggernaut-Subject" := ["root"]; "Accept" := ["*"]]}.
Lemma companionHeaders_own_witness :
  companionHeaders "tok" sealed0 client0 !! "Authorization" = Some ["Bearer tok"] ∧
  companionHeaders "tok" sealed0 client0 !! "X-Juggernaut-Subject" = None.
Proof.
  assert (∀ k v, sealed0 !! k = Some v → isJuggernaut k = true) as Hs.
  { intros k v. unfold sealed0. rewrite lookup_singleton_Some. intros [<- _]. reflexivity. }
  destruct (companionHeaders_own "tok" sealed0 client0 Hs) as [H1 H2]. split; [exact H1|]. rewrite H2; reflexivity.
Defined.
End CliWitness.
