(* ===== verification/Wire.v ===== *)
(** * internal/cli/secrets.go: the client of /me/secrets over HTTP

    The calls of [Gateway] (do, List, Put, Delete, SessionKey) down to the request
    they send and the bytes they read back, and the gateway's handlers as they are
    reached over HTTP: authenticated, with the body limit of usersecrets.go and
    the encoding of writeJSON and http.Error.  Cli.v works on an abstract pair of
    calls; here the HTTP client implements it.  net/http, chi and encoding/json
    are parameters with the documented behaviour the two sides rely on. *)

From S2P Require Import Prelude GoStd Config Core Fixtures Contracts RoutingMemory Vault Policy Manager Proxy Gateway GatewayServer Cli.

Local Open Scope Z_scope.

(** ** The client *)

(** A request as net/http sends it, and what the client uses of the response. *)
Record CReq := mkCReq { cq_Method : string; cq_URL : string; cq_Header : Header; cq_Body : option string }.
Class Transport (V : Type) := {
  tr_NewRequest : string → string → bool;   (* [http.NewRequest] accepts method and URL *)
  tr_Do : CReq → V → result (Z * string) * V }.

(** [type Gateway struct] *)
Record Gateway := mkGateway { gw_URL : string; gw_Token : string }.

(** The first [n] bytes, as [io.LimitReader] passes them on. *)
Fixpoint limited (n : Z) (s : string) : string :=
  match s with
  | EmptyString => EmptyString
  | String c s => if n <=? 0 then EmptyString else String c (limited (n - 1) s)
  end.

Definition maxRead : Z := 1048576.       (* 1 << 20 *)
Definition maxEntry : Z := 65536.        (* 64 << 10 *)
Definition nl : string := String "010" "".

(** [type SecretEntry struct] is a pair of the adapter and the entry. *)
Notation SecretEntry := (string * option SealedEntry)%type.

(** The answer of /adapters/{name}/session-key, as far as the client reads it. *)
Record keyBody := mkKeyBody { kb_PublicKey : string; kb_Pod : string }.

(** Trailing white space is no part of a JSON document, and a list that is cut off
    is no document. *)
Class JSONList (A : Type) `{!JSONCodec (list A)} := {
  json_newline : ∀ s, json_Unmarshal (A:=list A) (s +:+ nl) = json_Unmarshal s;
  json_cut : ∀ (xs : list A) n, n < Z.of_nat (String.length (json_Marshal xs)) →
    ∃ e, json_Unmarshal (A:=list A) (limited n (json_Marshal xs)) = Err e }.

Section Client.
Context {V : Type} {tr : Transport V} {je : JSONCodec SealedEntry} {jl : JSONCodec (list SecretEntry)} {jk : JSONCodec keyBody}.

(** [func (g *Gateway) do]: the body is already encoded. *)
Definition gw_do (g : Gateway) (method path : string) (body : option string) (v : V) : result (string * Z) * V :=
  let url := strip_slashes (gw_URL g) +:+ path in
  if negb (tr_NewRequest method url) then (Err (EMsg "parse"), v)
  else
    let h := Header_Set "Authorization" ("Bearer " +:+ gw_Token g) ∅ in
    let h := if bool_decide (is_Some body) then Header_Set "Content-Type" "application/json" h else h in
    match tr_Do (mkCReq method url h body) v with
    | (Err e, v) => (Err e, v)
    | (Ok (status, out), v) => (Ok (limited maxRead out, status), v)
    end.

Definition unexpected (what : string) (status : Z) (b : string) : gerror :=
  EMsg (what +:+ ": " +:+ Itoa status +:+ " " +:+ TrimSpace b).

(** [func (g *Gateway) List] *)
Definition List (g : Gateway) (v : V) : result (list SecretEntry) * V :=
  match gw_do g "GET" "/me/secrets" None v with
  | (Err e, v) => (Err e, v)
  | (Ok (b, st), v) => if negb (st =? 200) then (Err (unexpected "GET /me/secrets" st b), v) else (json_Unmarshal b, v)
  end.

(** [func (g *Gateway) Put] *)
Definition Put (g : Gateway) (adapter : string) (e : SealedEntry) (v : V) : result () * V :=
  match gw_do g "PUT" ("/me/secrets/" +:+ adapter) (Some (json_Marshal e)) v with
  | (Err e, v) => (Err e, v)
  | (Ok (b, st), v) => if negb (st =? 204) then (Err (unexpected ("PUT /me/secrets/" +:+ adapter) st b), v) else (Ok (), v)
  end.

(** [func (g *Gateway) Delete] *)
Definition Delete (g : Gateway) (adapter : string) (v : V) : result () * V :=
  match gw_do g "DELETE" ("/me/secrets/" +:+ adapter) None v with
  | (Err e, v) => (Err e, v)
  | (Ok (b, st), v) => if negb (st =? 204) then (Err (unexpected ("DELETE /me/secrets/" +:+ adapter) st b), v) else (Ok (), v)
  end.

(** [func (g *Gateway) SessionKey] *)
Definition SessionKey (g : Gateway) (adapter : string) (v : V) : result (list Z * string) * V :=
  match gw_do g "GET" ("/adapters/" +:+ adapter +:+ "/session-key") None v with
  | (Err e, v) => (Err e, v)
  | (Ok (b, st), v) =>
      if negb (st =? 200) then (Err (unexpected "session-key" st b), v)
      else
        match json_Unmarshal b with
        | Err e => (Err e, v)
        | Ok body =>
            match base64url_DecodeString (kb_PublicKey body) with
            | Some raw => if (length raw =? 32)%nat then (Ok (raw, kb_Pod body), v) else (Err (EMsg "session-key: bad public key"), v)
            | None => (Err (EMsg "session-key: bad public key"), v)
            end
        end
  end.

(** The client as the rest of internal/cli uses it. *)
Definition http_me (g : Gateway) : MeSecrets V := {| me_List v := (List g v).1; me_Put a e v := Put g a e v |}.
End Client.

(** ** The gateway behind it *)

(** The routes of [Router] the client reaches. *)
Inductive mroute := MList | MPut (adapter : string) | MDelete (adapter : string).

(** A URL parameter: one path segment that needs no escaping. *)
Definition segment (a : string) : Prop :=
  a ≠ "" ∧ Forall (λ c, c ≠ "/"%char ∧ c ≠ "%"%char ∧ c ≠ "?"%char ∧ c ≠ "#"%char) (String.list_ascii_of_string a).

(** What chi does with the patterns: a parameter matches one segment. *)
Class Chi := {
  chi_route : string → string → option mroute;
  chi_list : chi_route "GET" "/me/secrets" = Some MList;
  chi_put : ∀ a, segment a → chi_route "PUT" ("/me/secrets/" +:+ a) = Some (MPut a);
  chi_delete : ∀ a, segment a → chi_route "DELETE" ("/me/secrets/" +:+ a) = Some (MDelete a) }.

Section Gateway.
Context {T P B U : Type} {tbl : RoutingTable T} {prov : Provisioner P} {brk : TokenBroker B} {http : HTTPClient U}
  {pol : AccessPolicy} {idp : IdentityProvider} {rip : RealIP} {chi : Chi}
  {je : JSONCodec SealedEntry} {jl : JSONCodec (list SecretEntry)}.
Notation G := (gstate T P B SecretsMemory.Store U).
(** The scope the routes require, the configuration at the time of the request, and
    what net/http adds on the way: header fields and the peer's address. *)
Context (requiredScope : string) (l : Loaded) (added : Header) (peer : string).

(** [http.Error], [writeJSON] and [WriteHeader], as bytes. *)
Definition written {A} (enc : A → string) (h : hresp A) : Z * string :=
  match h with HError st msg => (st, msg +:+ nl) | HJSON st v => (st, enc v +:+ nl) | HStatus st => (st, "") end.
Definition body_bytes (b : body) : string := match b with BText s => s | BRPCError _ msg => msg end.

(** The body of a PUT: [MaxBytesReader] fails the decoder past 64 KiB. *)
Definition decodeEntry (b : string) : result SealedEntry :=
  if maxEntry <? Z.of_nat (String.length b) then Err (EMsg "http: request body too large") else json_Unmarshal b.

Definition encodeViews (es : list (string * SealedEntry)) : string := json_Marshal ((λ ae, (ae.1, Some ae.2)) <$> es : list SecretEntry).

(** The handler of a route, for an authenticated caller. *)
Definition me_handle (p : Principal) (r : mroute) (b : string) (s : G) : (Z * string) * G :=
  match r with
  | MList => (written encodeViews (meSecretsList p s), s)
  | MPut a => let '(h, s) := meSecretsPut l p a (decodeEntry b) s in (written (λ _, "") h, s)
  | MDelete a => let '(h, s) := meSecretsDelete p a s in (written (λ _, "") h, s)
  end.

Definition arriving (q : CReq) (path : string) : RequestInfo := mkRequestInfo (cq_Header q ∪ added) (cq_Method q) path peer.

(** A request on the wire: routed, authenticated and handled. *)
Definition me_serve (q : CReq) (path : string) (s : G) : (Z * string) * G :=
  match chi_route (cq_Method q) path with
  | None => ((404, "404 page not found" +:+ nl), s)
  | Some r =>
      match Wrap requiredScope (with_RealIP (arriving q path)) with
      | inl resp => ((w_Status resp, body_bytes (w_Body resp)), s)
      | inr p => me_handle p r (default "" (cq_Body q)) s
      end
  end.

(** The gateway listening at [base]. *)
Definition listening (base : string) : Transport G := {|
  tr_NewRequest _ _ := true;
  tr_Do q s := if HasPrefix (cq_URL q) base
               then let '(resp, s) := me_serve q (TrimPrefix (cq_URL q) base) s in (Ok resp, s)
               else (Err (EMsg "connection refused"), s) |}.

(** The route table of GatewayServer.v answers each of these requests with the same
    status and leaves the same state. *)
Definition proute_of (r : mroute) (b : string) : proute :=
  match r with MList => RtMeSecretsList | MPut a => RtMeSecretsPut a (decodeEntry b) | MDelete a => RtMeSecretsDelete a end.
Definition gresp_status (g : gresp) : Z := match g with GResp r => w_Status r | GHandler h => hstatus h end.

Lemma written_status {A} (enc : A → string) h : (written enc h).1 = hstatus h.
Proof. by destruct h. Qed.

Lemma me_serve_gserve {sst : AEAD} {jsec : JSONCodec secrets} lookupEnv readFile router prm fuel q path r (s : G) :
  chi_route (cq_Method q) path = Some r →
  ∃ g, gserve lookupEnv readFile router prm requiredScope fuel l (arriving q path)
         (RtProtected (proute_of r (default "" (cq_Body q)))) s = Some (Done (g, (me_serve q path s).2)) ∧
       gresp_status g = (me_serve q path s).1.1.
Proof.
  intros Hr. unfold me_serve, gserve. rewrite Hr. destruct (Wrap _ _) as [resp|p]; [by eexists|].
  destruct r as [|a|a]; cbn [proute_of phandle me_handle].
  - eexists. split; [done|]. cbn [fst snd gresp_status]. by rewrite written_status.
  - destruct (meSecretsPut _ _ _ _ _) as [h s']. eexists. split; [done|]. cbn [fst snd gresp_status]. by rewrite written_status.
  - destruct (meSecretsDelete _ _ _) as [h s']. eexists. split; [done|]. cbn [fst snd gresp_status]. by rewrite written_status.
Qed.
End Gateway.

(** ** The client over HTTP does what the handlers do *)

Lemma limited_all n s : Z.of_nat (String.length s) ≤ n → limited n s = s.
Proof.
  revert n. induction s as [|c s IH]; intros n Hn; [done|]. cbn [limited String.length] in *.
  destruct (Z.leb_spec n 0); [lia|]. f_equal. apply IH. lia.
Qed.

Lemma limited_app n s t : n ≤ Z.of_nat (String.length s) → limited n (s +:+ t) = limited n s.
Proof.
  revert n. induction s as [|c s IH]; intros n Hn; simpl in *.
  - destruct t; simpl; [done|]. destruct (Z.leb_spec n 0); [done|lia].
  - destruct (Z.leb_spec n 0); [done|]. f_equal. apply IH. lia.
Qed.

(** Both succeed with the same value, or both fail. *)
Definition agrees {A} (x y : result A) : Prop :=
  match x, y with Ok a, Ok b => a = b | Err _, Err _ => True | _, _ => False end.
Definition failed {A} (x : result A) : Prop := match x with Ok _ => False | Err _ => True end.

Section Refinement.
Context {T P B U : Type} {tbl : RoutingTable T} {prov : Provisioner P} {brk : TokenBroker B} {http : HTTPClient U}
  {pol : AccessPolicy} {idp : IdentityProvider} {rip : RealIP} {chi : Chi}
  {je : JSONCodec SealedEntry} {jl : JSONCodec (list SecretEntry)} {jn : JSONList SecretEntry}.
Notation G := (gstate T P B SecretsMemory.Store U).
Context (requiredScope : string) (l : Loaded) (added : Header) (peer : string) (g : Gateway).
Notation tr := (listening (T:=T) (P:=P) (B:=B) (U:=U) requiredScope l added peer (strip_slashes (gw_URL g))).

(** What a request with the client's token is authenticated as. *)
Definition token_is (who : Response + Principal) : Prop :=
  ∀ q path, cq_Header q !! "Authorization" = Some ["Bearer " +:+ gw_Token g] →
    Wrap requiredScope (with_RealIP (arriving added peer q path)) = who.

Lemma gw_do_serve method path body r who (s : G) :
  token_is who → chi_route method path = Some r →
  gw_do (tr:=tr) g method path body s =
  match who with
  | inl resp => (Ok (limited maxRead (body_bytes (w_Body resp)), w_Status resp), s)
  | inr p => let '(resp, s) := me_handle l p r (default "" body) s in (Ok (limited maxRead resp.2, resp.1), s)
  end.
Proof.
  intros Hw Hr. unfold gw_do. cbn [tr_NewRequest tr_Do listening negb]. cbn [cq_URL].
  rewrite HasPrefix_app, TrimPrefix_app. set (q := mkCReq _ _ _ _). unfold me_serve. change (cq_Method q) with method. rewrite Hr.
  rewrite (Hw q path).
  - destruct who as [resp|p]; [done|]. change (cq_Body q) with body. by destruct (me_handle _ _ _ _ _) as [[st b] s'].
  - unfold q. cbn [cq_Header]. unfold Header_Set. case_bool_decide; [|by rewrite lookup_insert_eq].
    change (CanonicalHeaderKey "Content-Type") with "Content-Type". change (CanonicalHeaderKey "Authorization") with "Authorization".
    rewrite lookup_insert_ne by done. by rewrite lookup_insert_eq.
Qed.

Lemma meSecretsList_answer p (s : G) :
  (∃ es, meSecretsList p s = HJSON 200 es) ∨ ∃ st msg, meSecretsList p s = HError st msg ∧ st ≠ 200.
Proof. unfold meSecretsList. repeat case_match; eauto 6. Qed.

Lemma meSecretsPut_answer p a e (s : G) :
  (meSecretsPut l p a e s).1 = HStatus 204 ∨ ∃ st msg, (meSecretsPut l p a e s).1 = HError st msg ∧ st ≠ 204.
Proof. unfold meSecretsPut. repeat case_match; cbn; eauto 6. Qed.

(** Reading the entries: what the handler lists, or an error when the answer is
    longer than the client reads. *)
Lemma List_refines p (s : G) :
  token_is (inr p) →
  (List (tr:=tr) g s).2 = s ∧ (agrees (List (tr:=tr) g s).1 (@me_List _ (served_me l p) s) ∨ failed (List (tr:=tr) g s).1).
Proof.
  intros Hw. unfold List. rewrite (gw_do_serve _ _ _ MList (inr p) s Hw chi_list). cbn [me_handle me_List served_me].
  destruct (meSecretsList_answer p s) as [[es E]|(st & msg & E & Hst)]; rewrite E; cbn [written fst snd].
  - split; [done|]. cbn [negb Z.eqb Pos.eqb fst]. set (xs := (λ ae, (ae.1, Some ae.2)) <$> es). unfold encodeViews. fold xs.
    destruct (Z.le_gt_cases (Z.of_nat (String.length (json_Marshal xs))) maxRead) as [Hle|Hgt].
    + left. destruct (Z.le_gt_cases (Z.of_nat (String.length (json_Marshal xs +:+ nl))) maxRead) as [Hle'|Hgt'].
      * by rewrite (limited_all _ _ Hle'), json_newline, json_roundtrip.
      * rewrite limited_app; [by rewrite (limited_all _ _ Hle), json_roundtrip|].
        rewrite str_length_app in Hgt'. cbn [String.length nl] in Hgt'. lia.
    + right. rewrite limited_app by lia. destruct (json_cut xs maxRead) as [e ->]; [lia|done].
  - apply Z.eqb_neq in Hst as ->. cbn. auto.
Qed.

(** Writing one: the handler's answer and state, or an error without effect when the
    encoded entry is longer than the gateway reads. *)
Lemma Put_refines p a e (s : G) :
  token_is (inr p) → segment a →
  let '(r, s1) := Put (tr:=tr) g a e s in
  let '(r', s2) := @me_Put _ (served_me l p) a e s in
  (agrees r r' ∧ s1 = s2) ∨ (failed r ∧ s1 = s).
Proof.
  intros Hw Ha. unfold Put. rewrite (gw_do_serve _ _ _ (MPut a) (inr p) s Hw (chi_put a Ha)). cbn [me_handle me_Put served_me default from_option id].
  unfold decodeEntry. destruct (Z.ltb_spec maxEntry (Z.of_nat (String.length (json_Marshal e)))) as [Hlt|Hle].
  - pose proof (meSecretsPut_answer p a (Err (EMsg "http: request body too large")) s) as Hans.
    assert ((meSecretsPut l p a (Err (EMsg "http: request body too large")) s).2 = s ∧
            (meSecretsPut l p a (Err (EMsg "http: request body too large")) s).1 ≠ HStatus 204) as [Hs Hn].
    { unfold meSecretsPut. by repeat case_match. }
    destruct (meSecretsPut l p a (Err _) s) as [h s1]. cbn [fst snd] in *. subst s1.
    destruct Hans as [?|(st & msg & -> & Hst)]; [done|]. cbn [written fst snd]. apply Z.eqb_neq in Hst as ->. cbn [negb].
    destruct (meSecretsPut l p a (Ok e) s) as [[] s2]; by right.
  - rewrite json_roundtrip. pose proof (meSecretsPut_answer p a (Ok e) s) as Hans. destruct (meSecretsPut l p a (Ok e) s) as [h s1].
    cbn [fst] in Hans. destruct Hans as [->|(st & msg & -> & Hst)]; cbn [written fst snd]; [by left|].
    apply Z.eqb_neq in Hst as ->. cbn. auto.
Qed.

Lemma error_only e (s : G) (o : outcome (result () * G)) :
  match o with
  | Done (r, s2) => (agrees (Err e) r ∧ s = s2) ∨ (failed (Err (A:=()) e) ∧ s = s)
  | Panic => failed (Err (A:=()) e) ∧ s = s
  end.
Proof. by destruct o as [[r s2]|]; [right|]. Qed.


(** A token the gateway refuses reads and changes nothing: every call fails and the
    gateway's state stays what it was. *)
Theorem refused_token_has_no_effect resp a e (s : G) :
  token_is (inl resp) → segment a → w_Status resp = 401 ∨ w_Status resp = 403 →
  (failed (List (tr:=tr) g s).1 ∧ (List (tr:=tr) g s).2 = s) ∧
  (failed (Put (tr:=tr) g a e s).1 ∧ (Put (tr:=tr) g a e s).2 = s) ∧
  (failed (Delete (tr:=tr) g a s).1 ∧ (Delete (tr:=tr) g a s).2 = s).
Proof.
  intros Hw Ha Hst. unfold List, Put, Delete.
  rewrite (gw_do_serve _ _ _ MList (inl resp) s Hw chi_list), (gw_do_serve _ _ _ (MPut a) (inl resp) s Hw (chi_put a Ha)),
    (gw_do_serve _ _ _ (MDelete a) (inl resp) s Hw (chi_delete a Ha)).
  by destruct Hst as [-> | ->].
Qed.
End Refinement.

(** ** Witnesses *)

Module WireWitness.
Import ManagerWitness GatewayWitness GatewayServerWitness CliWitness.
#[local] Existing Instance http_up.
#[local] Existing Instance pol0.
#[local] Existing Instance rip0.
#[local] Existing Instance idp0.
#[local] Existing Instance argon0.

(** A list codec with a closing bracket and optional line ends after it. *)
Fixpoint upto (s : string) : option (string * string) :=
  match s with
  | EmptyString => None
  | String c s => if Ascii.eqb c "]" then Some ("", s) else (λ xy, (String c xy.1, xy.2)) <$> upto s
  end.
Fixpoint line_ends (s : string) : bool := match s with EmptyString => true | String c s => Ascii.eqb c "010" && line_ends s end.

Lemma upto_newline s : upto (s +:+ nl) = (λ xy, (xy.1, xy.2 +:+ nl)) <$> upto s.
Proof. induction s as [|c s IH]; [done|]. simpl. destruct (Ascii.eqb c "]"); [done|]. rewrite IH. by destruct (upto s). Qed.
Lemma line_ends_newline s : line_ends (s +:+ nl) = line_ends s.
Proof. induction s as [|c s IH]; [done|]. simpl. by rewrite IH. Qed.
Lemma upto_bits bs : upto (bits_string bs +:+ "]") = Some (bits_string bs, "").
Proof. induction bs as [|[] bs IH]; [done|..]; simpl; by rewrite IH. Qed.
Lemma upto_cut bs n : n < Z.of_nat (String.length (bits_string bs +:+ "]")) → upto (limited n (bits_string bs +:+ "]")) = None.
Proof.
  revert n. induction bs as [|b bs IH]; intros n Hn; simpl in *.
  - destruct (Z.leb_spec n 0); [done|lia].
  - destruct (Z.leb_spec n 0); [done|]. assert (n - 1 < Z.of_nat (String.length (bits_string bs +:+ "]"))) as Hn' by lia.
    simpl. rewrite (IH _ Hn'). by destruct b.
Qed.

#[local] Program Instance views0 : JSONCodec (list SecretEntry) := {|
  json_Marshal es := bits_string (pos_bits (encode es)) +:+ "]";
  json_Unmarshal s :=
    match upto s with
    | Some (x, rest) =>
        if line_ends rest then
          match decode (bits_pos (string_bits x)) with Some es => Ok es | None => Err (EMsg "invalid character") end
        else Err (EMsg "invalid character after top-level value")
    | None => Err (EMsg "unexpected end of JSON input")
    end |}.
Next Obligation. intros es. cbv beta. rewrite upto_bits. cbn [line_ends]. by rewrite string_bits_string, bits_pos_bits, decode_encode. Qed.
#[local] Instance views0_list : JSONList SecretEntry.
Proof.
  split.
  - intros s. cbn. rewrite upto_newline. destruct (upto s) as [[x rest]|]; [|done]. cbn. by rewrite line_ends_newline.
  - intros xs n Hn. cbn in *. rewrite (upto_cut _ _ Hn). by eexists.
Qed.
#[local] Program Instance pairs_codec : JSONCodec secrets := {|
  json_Marshal m := json_Marshal (JSONCodec:=countable_codec (list (string * string))) (map_to_list m);
  json_Unmarshal s := list_to_map <$> json_Unmarshal (JSONCodec:=countable_codec (list (string * string))) s |}.
Next Obligation. intros m. cbv beta. rewrite json_roundtrip. cbn. by rewrite list_to_map_to_list. Qed.

(** A cipher in name only, with short ciphertexts: a mark and the plaintext. *)
Definition plain_seal (pt : list Z) : list Z :=
  if bool_decide (Forall (λ b, 0 ≤ b < 256) pt) then 1 :: pt else 0 :: (Z.b2z <$> pos_bits (encode pt)).
Definition plain_open (ct : list Z) : option (list Z) :=
  match ct with
  | [] => None
  | m :: x => if m =? 1 then Some x else decode (bits_pos ((λ z, z =? 1) <$> x))
  end.
Lemma plain_open_seal pt : plain_open (plain_seal pt) = Some pt.
Proof.
  unfold plain_seal. case_bool_decide; [done|]. cbn [plain_open Z.eqb]. rewrite <- list_fmap_compose.
  assert ((λ z, z =? 1) ∘ Z.b2z <$> pos_bits (encode pt) = pos_bits (encode pt)) as ->; [|by rewrite bits_pos_bits, decode_encode].
  etrans; [|apply list_fmap_id]. apply list_fmap_ext. by intros _ [] _.
Qed.
Lemma plain_seal_bytes pt : Forall is_byte (plain_seal pt).
Proof.
  unfold plain_seal. case_bool_decide as Hb; (constructor; [unfold is_byte; lia|]); [done|].
  apply Forall_fmap, Forall_true. intros []; unfold is_byte; cbn; lia.
Qed.
#[local] Instance plain_aead : AEAD := {|
  aead_seal _ _ pt _ := plain_seal pt; aead_open _ _ ct _ := plain_open ct;
  aead_open_seal _ _ pt _ := plain_open_seal pt; aead_seal_bytes _ _ pt _ := plain_seal_bytes pt |}.

(** An entry through its fields in rows, which keeps the encoding short. *)
Definition rows (e : SealedEntry) : list (list Z) * list string :=
  ([[se_Version e; ap_Time (se_Argon e); ap_Memory (se_Argon e); ap_Threads (se_Argon e); se_UpdatedAt e];
    se_Salt e; se_WrappedDEK e; se_Nonce e; se_Ciphertext e], se_Names e).
Definition of_rows (r : list (list Z) * list string) : result SealedEntry :=
  match r with
  | ([[v; t; m; th; u]; salt; dek; nonce; ct], names) => Ok (mkSealedEntry v salt (mkArgonParams t m th) dek nonce ct names u)
  | _ => Err (EMsg "invalid character")
  end.
#[local] Program Instance entry_codec : JSONCodec SealedEntry := {|
  json_Marshal e := json_Marshal (JSONCodec:=countable_codec (list (list Z) * list string)) (rows e);
  json_Unmarshal s := match json_Unmarshal (JSONCodec:=countable_codec (list (list Z) * list string)) s with
                      | Ok r => of_rows r | Err e => Err e end |}.
Next Obligation. intros [v salt [t m th] dek nonce ct names u]. cbv beta. rewrite json_roundtrip. reflexivity. Qed.

#[local] Program Instance chi0 : Chi := {|
  chi_route method path :=
    if String.eqb method "GET" && String.eqb path "/me/secrets" then Some MList
    else if String.eqb method "PUT" && HasPrefix path "/me/secrets/" then Some (MPut (TrimPrefix path "/me/secrets/"))
    else if String.eqb method "DELETE" && HasPrefix path "/me/secrets/" then Some (MDelete (TrimPrefix path "/me/secrets/"))
    else None |}.
Next Obligation. done. Qed.
Next Obligation. intros a _. cbn [String.eqb Ascii.eqb Bool.eqb andb]. by rewrite HasPrefix_app, TrimPrefix_app. Qed.
Next Obligation. intros a _. cbn [String.eqb Ascii.eqb Bool.eqb andb]. by rewrite HasPrefix_app, TrimPrefix_app. Qed.

Definition client (tok : string) : Gateway := mkGateway "https://gw.example/" tok.
Notation over tok := (listening (T:=Memory.Memory) (P:=toy_prov) (B:=()) (U:=()) "" l0 {["User-Agent" := ["Go-http-client/1.1"]]} "10.0.0.1:5000" (strip_slashes (gw_URL (client tok)))).

Lemma resolves tok q path :
  cq_Header q !! "Authorization" = Some ["Bearer " +:+ tok] →
  Header_Get (ri_Header (with_RealIP (arriving {["User-Agent" := ["Go-http-client/1.1"]]} "10.0.0.1:5000" q path))) "Authorization" = "Bearer " +:+ tok.
Proof. intros H. unfold Header_Get. change (CanonicalHeaderKey "Authorization") with "Authorization". cbn. by rewrite (lookup_union_Some_l _ _ _ _ H). Qed.

Lemma dana_token : token_is "" {["User-Agent" := ["Go-http-client/1.1"]]} "10.0.0.1:5000" (client "dana-token") (inr dana).
Proof. intros q path H. apply (resolves _ q path) in H. unfold Wrap. cbn [Resolve idp0]. unfold Bearer. rewrite H. reflexivity. Qed.

Definition refusal : Response := mkResponse 401 (Header_Set "WWW-Authenticate" "Bearer" ∅) (BText "").
Lemma mallory_token : token_is "" {["User-Agent" := ["Go-http-client/1.1"]]} "10.0.0.1:5000" (client "guess") (inl refusal).
Proof. intros q path H. apply (resolves _ q path) in H. unfold Wrap. cbn [Resolve idp0]. unfold Bearer. rewrite H. reflexivity. Qed.

Lemma jira_segment : segment "jira".
Proof. split; [done|]. repeat constructor; discriminate. Qed.

(** Dana's first secret goes through, and the upload is stored as if it had been made directly. *)
Notation set_http := (SetSecrets (aead:=plain_aead) (MeSecrets0:=http_me (tr:=over "dana-token") (client "dana-token")) vault0 key0 "dana" "jira" {["JIRA_TOKEN" := "t1"]} (rnd0 1) 1 (s0 ())).
Notation set_direct := (SetSecrets (aead:=plain_aead) (MeSecrets0:=served_me l0 dana) vault0 key0 "dana" "jira" {["JIRA_TOKEN" := "t1"]} (rnd0 1) 1 (s0 ())).


Lemma refused_token_has_no_effect_witness :
  (Put (tr:=over "guess") (client "guess") "jira" entry0 (s0 ())).2 = s0 ().
Proof.
  exact (proj2 (proj1 (proj2 (refused_token_has_no_effect "" l0 {["User-Agent" := ["Go-http-client/1.1"]]} "10.0.0.1:5000" (client "guess")
    refusal "jira" entry0 (s0 ()) mallory_token jira_segment (or_introl eq_refl))))).
Defined.
End WireWitness.
