(* ===== verification/Router.v ===== *)
(** * internal/router: the aggregated /mcp endpoint

    router.go (per-call authorization, tool listing and namespacing, calls),
    upstream.go (per-session connections, pod request headers) and toolcache.go.
    The MCP SDK's client is the interface [MCPClient]. *)

From S2P Require Import Prelude GoStd Sha256 Config Core Fixtures Contracts RoutingMemory Policy Manager Proxy.

Local Open Scope Z_scope.

(** An MCP tool as the router sees it; its schema stays abstract. *)
Record Tool := mkTool { tl_Name : string; tl_Description : string }.

(** ** toolcache.go *)

(** [type cached struct] and [type toolCache struct] *)
Record cached := mkCached { ca_tools : list Tool; ca_fetched : Z }.
Record toolCache := mkToolCache { tc_ttl : Z; tc_data : gmap string cached }.

Definition newToolCache (ttl : Z) : toolCache := mkToolCache ttl ∅.

Definition cache_get (now : Z) (serverType hash : string) (c : toolCache) : option (list Tool) :=
  match tc_data c !! (serverType +:+ "|" +:+ hash) with
  | Some e => if tc_ttl c <? now - ca_fetched e then None else Some (ca_tools e)
  | None => None
  end.

Definition cache_put (now : Z) (serverType hash : string) (tools : list Tool) (c : toolCache) : toolCache :=
  mkToolCache (tc_ttl c) (<[serverType +:+ "|" +:+ hash := mkCached tools now]> (tc_data c)).

(** ** upstream.go *)

(** The MCP SDK's client side: a session is a value of type [mcp_session]. *)
Class MCPClient (C : Type) := {
  mcp_session : Type;
  mcp_Connect : Principal → Pod → Server → C → result mcp_session * C;
  mcp_ListTools : mcp_session → C → result (list Tool) * C;
  mcp_CallTool : mcp_session → string → string → C → result (bool * string) * C }.  (* tool, arguments: isError, text *)

(** [type upstream struct] and [type conns struct] *)
Record upstream {C} `{!MCPClient C} := mkUp { u_serverType : string; u_pod : Pod; u_cs : mcp_session }.
Arguments upstream C {_}. Arguments mkUp {C _}. Arguments u_serverType {C _}. Arguments u_pod {C _}. Arguments u_cs {C _}.
Notation conns C := (gmap string (upstream C)).

(** [func (t *podTransport) RoundTrip]: the headers of one request to the pod;
    [extra] are the per-call secret headers. *)
Definition transportHeaders (hdr extra : Header) (pod : Pod) (srv : Server) (subject : string)
    (static : result string) (tok : result (option BToken)) : result Header :=
  let h := fold_left (λ d kv, addAll kv.1 kv.2 (Header_Del kv.1 d)) (map_to_list extra) hdr in
  let h := Header_Set HeaderPodToken (pod_PodToken pod) h in
  let h := Header_Set HeaderSubject subject h in
  let h := Header_Set HeaderServerType (s_Name srv) h in
  let h := Header_Del "Authorization" h in
  match t_Mode (s_Token srv) with
  | TokenNone => Ok h
  | TokenStatic =>
      match static with
      | Err e => Err e
      | Ok v => Ok (Header_Set (t_Header (s_Token srv)) (t_Scheme (s_Token srv) +:+ " " +:+ v) h)
      end
  | _ =>
      match tok with
      | Err e => Err e
      | Ok None => Ok h
      | Ok (Some t) => Ok (Header_Set "Authorization" ("Bearer " +:+ tok_Value t) h)
      end
  end.

(** ** router.go *)

(** [type CallEvent struct], less its duration and raw arguments. *)
Record CallEvent := mkCallEvent {
  ce_Subject : string; ce_ServerType : string; ce_PodName : string; ce_Tool : string; ce_Upstream : string;
  ce_IsError : bool; ce_Err : option gerror; ce_Lazy : bool }.

(** [*mcp.CallToolResult]: an error text, or what the pod answered. *)
Inductive CallToolResult := TError (e : gerror) | TResult (isError : bool) (text : string).

Section Router.
Context {T P B C : Type} {tbl : RoutingTable T} {prov : Provisioner P} {brk : TokenBroker B}
  {mcp : MCPClient C} {pol : AccessPolicy} {idp : IdentityProvider}.

(** The router's state behind one MCP session: the shared tool cache, the
    session manager's state, the SDK client, and the session's connections. *)
Record rstate := mkRstate { r_cache : toolCache; r_world : world T P B; r_mcp : C; r_conns : conns C }.

(** The secret resolver the composition root installs (None: not set). *)
Definition SecretResolver : Type := Header → Principal → Server → result Header.

(** [func (rt *Router) upstreamFor] *)
Definition upstreamFor (fuel : nat) (l : Loaded) (env : reqenv) (p : Principal) (st : Server) (s : rstate)
    : option (result (upstream C) * rstate) :=
  match r_conns s !! s_Name st with
  | Some u => Some (Ok u, s)
  | None =>
      match EnsurePod fuel l env p (s_Name st) (r_world s) with
      | None => None
      | Some (Err e, w) => Some (Err e, mkRstate (r_cache s) w (r_mcp s) (r_conns s))
      | Some (Ok (pod, srv), w) =>
          match mcp_Connect p pod srv (r_mcp s) with
          | (Err e, m) => Some (Err (EWrap ("connect to " +:+ pod_Name pod) e), mkRstate (r_cache s) w m (r_conns s))
          | (Ok cs, m) =>
              let u := mkUp (s_Name srv) pod cs in
              Some (Ok u, mkRstate (r_cache s) w m (<[u_serverType u := u]> (r_conns s)))
          end
      end
  end.

(** The cache key of a server type's tools: per subject when the server runs
    with user credentials. *)
Definition cacheKey (p : Principal) (st : Server) : string :=
  if bool_decide (is_Some (s_UserSecrets st)) ||
     (negb (bool_decide (t_Mode (s_Token st) = TokenNone)) && negb (bool_decide (t_Mode (s_Token st) = TokenStatic)))
  then s_Name st +:+ "@" +:+ UserHash (p_Subject p) else s_Name st.

(** The loop of [toolsFor] over the pod's tools: visible ones under their exposed
    name, and the map back to the upstream names. *)
Definition exposeTools (grants : Grants) (st : Server) (sep : string) (raw : list Tool)
    : list Tool * gmap string string :=
  fold_left (λ '(out, back) t,
    let rule := Policy_ToolRule grants st (tl_Name t) in
    if negb (tr_Visible rule) then (out, back)
    else
      let name := s_Name st +:+ sep +:+ tr_Name rule in
      let descr := if String.eqb (tl_Description t) "" then "" else "[" +:+ s_Name st +:+ "] " +:+ tl_Description t in
      (out ++ [mkTool name descr], <[name := tl_Name t]> back)) raw ([], ∅).

(** [func (rt *Router) toolsFor] *)
Definition toolsFor (fuel : nat) (l : Loaded) (env : reqenv) (secrets : option SecretResolver) (hdr : option Header)
    (p : Principal) (grants : Grants) (st : Server) (s : rstate)
    : option (result (list Tool * gmap string string) * rstate) :=
  let sep := to_NamespaceSeparator (g_Tools (c_Gateway (ld_Config l))) in
  let ck := cacheKey p st in
  match cache_get (e_now env) ck (ld_Hash l) (r_cache s) with
  | Some raw => Some (Ok (exposeTools grants st sep raw), s)
  | None =>
      let sec := match secrets, hdr with Some f, Some h => f h p st | _, _ => Ok ∅ end in
      match sec with
      | Err e => Some (Err e, s)
      | Ok _ =>
          match upstreamFor fuel l env p st s with
          | None => None
          | Some (Err e, s) => Some (Err e, s)
          | Some (Ok up, s) =>
              match mcp_ListTools (u_cs up) (r_mcp s) with
              | (Err e, m) => Some (Err e, mkRstate (r_cache s) (r_world s) m (r_conns s))
              | (Ok raw, m) =>
                  Some (Ok (exposeTools grants st sep raw),
                        mkRstate (cache_put (e_now env) ck (ld_Hash l) raw (r_cache s)) (r_world s) m (r_conns s))
              end
          end
      end
  end.

(** [func (rt *Router) authorize]: [hdr] is the header of the call's own HTTP
    request, when there is one. *)
Definition authorize (now : Z) (hdr : option Header) (initial : Principal) (st : Server) (exposed upstreamName : string)
    : result Principal :=
  let p :=
    match hdr with
    | Some h =>
        match Resolve (mkRequestInfo h "POST" "/mcp" "") with
        | Err e => Err (EWrap "re-authentication failed" e)
        | Ok fresh => if negb (String.eqb (p_Subject fresh) (p_Subject initial))
                      then Err (EMsg "token subject changed within the session") else Ok fresh
        end
    | None => if negb (IsZero (p_Expiry initial)) && (p_Expiry initial <? now)
              then Err (EMsg "token expired; re-authenticate") else Ok initial
    end in
  match p with
  | Err e => Err e
  | Ok p =>
      let grants := Policy_Grants p "" in
      if negb (Allows grants (s_Name st)) then Err (EMsg ("adapter " +:+ s_Name st +:+ " is not granted"))
      else if negb (tr_Visible (Policy_ToolRule grants st upstreamName))
      then Err (EMsg ("tool " +:+ exposed +:+ " is not visible"))
      else Ok p
  end.

(** The part of [call] between authorization and the audit event. *)
Definition doCall (fuel : nat) (l : Loaded) (env : reqenv) (secrets : option SecretResolver) (hdr : option Header)
    (p : Principal) (st : Server) (upstreamName args : string) (s : rstate)
    : option (option (upstream C) * result (bool * string) * rstate) :=
  let sec := match secrets, hdr with Some f, Some h => f h p st | _, _ => Ok ∅ end in
  match sec with
  | Err e => Some (None, Err e, s)
  | Ok _ =>
      match upstreamFor fuel l env p st s with
      | None => None
      | Some (Err e, s) => Some (None, Err e, s)
      | Some (Ok up, s) =>
          let name := pod_Name (u_pod up) in
          let w := (on_table (InFlight name 1) (r_world s)).2 in
          let w := (on_table (Touch name (e_now env)) w).2 in
          let '(res, m) := mcp_CallTool (u_cs up) upstreamName args (r_mcp s) in
          let w := (on_table (InFlight name (-1)) w).2 in
          Some (Some up, res, mkRstate (r_cache s) w m (r_conns s))
      end
  end.

(** [func (rt *Router) call]: [onCall] says whether an audit hook is installed.
    The event reads the principal, which is nil when authorization failed. *)
Definition call (fuel : nat) (l : Loaded) (env : reqenv) (secrets : option SecretResolver) (onCall : bool)
    (hdr : option Header) (initial : Principal) (st : Server) (exposed upstreamName args : string) (lazy : bool)
    (s : rstate) : option (outcome (CallToolResult * list CallEvent * rstate)) :=
  match authorize (e_now env) hdr initial st exposed upstreamName with
  | Err e => if onCall then Some Panic else Some (Done (TError e, [], s))
  | Ok p =>
      match doCall fuel l env secrets hdr p st upstreamName args s with
      | None => None
      | Some (up, res, s) =>
          let ev := mkCallEvent (p_Subject p) (s_Name st) (match up with Some u => pod_Name (u_pod u) | None => "" end)
                      exposed upstreamName (match res with Ok (b, _) => b | Err _ => false end)
                      (match res with Err e => Some e | Ok _ => None end) lazy in
          let evs := if onCall then [ev] else [] in
          Some (Done (match res with Err e => TError e | Ok (b, t) => TResult b t end, evs, s))
      end
  end.

(** The [allTools] loop of lazy mode over the granted server types: tools, map
    back and owner of each exposed name; a type that fails is skipped.  The types
    are looked up in the configuration [cfg] the session started with. *)
Fixpoint allTools (fuel : nat) (cfg : Config) (l : Loaded) (env : reqenv) (secrets : option SecretResolver) (hdr : option Header)
    (p : Principal) (grants : Grants) (names : list string) (s : rstate)
    (acc : list Tool * gmap string (string * Server)) : option (list Tool * gmap string (string * Server) * rstate) :=
  match names with
  | [] => Some (acc, s)
  | name :: rest =>
      match Config_Server cfg name with
      | None => allTools fuel cfg l env secrets hdr p grants rest s acc
      | Some st =>
          match toolsFor fuel l env secrets hdr p grants st s with
          | None => None
          | Some (Err _, s) => allTools fuel cfg l env secrets hdr p grants rest s acc
          | Some (Ok (tools, back), s) =>
              allTools fuel cfg l env secrets hdr p grants rest s
                (acc.1 ++ tools, ((λ u, (u, st)) <$> back) ∪ acc.2)
          end
      end
  end.

(** The [execute] meta-tool. *)
Definition execute (fuel : nat) (cfg : Config) (l : Loaded) (env : reqenv) (secrets : option SecretResolver) (onCall : bool)
    (hdr : option Header) (p : Principal) (grants : Grants) (name args : string) (s : rstate)
    : option (outcome (CallToolResult * list CallEvent * rstate)) :=
  match allTools fuel cfg l env secrets hdr p grants (gr_Types grants) s ([], ∅) with
  | None => None
  | Some (_, owner, s) =>
      match owner !! name with
      | None => Some (Done (TError (EMsg ("unknown or not permitted tool " +:+ name)), [], s))
      | Some (up, st) => call fuel l env secrets onCall hdr p st name up args true s
      end
  end.

(** The [search_tools] filter. *)
Definition searchTools (query : string) (tools : list Tool) : list Tool :=
  let q := ToLower query in
  List.filter (λ t, String.eqb q "" || Contains (ToLower (tl_Name t)) q || Contains (ToLower (tl_Description t)) q) tools.
End Router.
Arguments rstate T P B C {_}.

(** ** Properties *)

Section Proofs.
Context {T P B C : Type} {tbl : RoutingTable T} {laws : RoutingTableLaws T} {prov : Provisioner P} {brk : TokenBroker B}
  {mcp : MCPClient C} {pol : AccessPolicy} {idp : IdentityProvider}.
Notation RS := (rstate T P B C).

(** An exposed name comes from a visible tool of the pod. *)
Definition exposed_ok (grants : Grants) (st : Server) (sep : string) (raw : list Tool) (k u : string) : Prop :=
  ∃ t, t ∈ raw ∧ tl_Name t = u ∧ tr_Visible (Policy_ToolRule grants st u) = true ∧
       k = s_Name st +:+ sep +:+ tr_Name (Policy_ToolRule grants st u).

Lemma exposeTools_ok grants st sep raw :
  let '(out, back) := exposeTools grants st sep raw in
  (∀ k u, back !! k = Some u → exposed_ok grants st sep raw k u) ∧
  (∀ t, t ∈ out → is_Some (back !! tl_Name t)) ∧
  (∀ t, t ∈ raw → tr_Visible (Policy_ToolRule grants st (tl_Name t)) = true →
     is_Some (back !! (s_Name st +:+ sep +:+ tr_Name (Policy_ToolRule grants st (tl_Name t))))).
Proof.
  unfold exposeTools. set (f := λ '(out, back) t, _).
  assert (∀ l acc, (∀ t, t ∈ l → t ∈ raw) →
    (∀ k u, acc.2 !! k = Some u → exposed_ok grants st sep raw k u) →
    (∀ t, t ∈ acc.1 → is_Some (acc.2 !! tl_Name t)) →
    let r := fold_left f l acc in
    (∀ k u, r.2 !! k = Some u → exposed_ok grants st sep raw k u) ∧
    (∀ t, t ∈ r.1 → is_Some (r.2 !! tl_Name t)) ∧
    (∀ k, is_Some (acc.2 !! k) → is_Some (r.2 !! k)) ∧
    (∀ t, t ∈ l → tr_Visible (Policy_ToolRule grants st (tl_Name t)) = true →
       is_Some (r.2 !! (s_Name st +:+ sep +:+ tr_Name (Policy_ToolRule grants st (tl_Name t)))))) as H.
  { induction l as [|t l IH]; intros [out back] Hl Hb Ho; cbn [fold_left fst snd] in *.
    { split_and!; [done..|]. by intros t ?%not_elem_of_nil. }
    destruct (tr_Visible (Policy_ToolRule grants st (tl_Name t))) eqn:Ev.
    - set (name := s_Name st +:+ sep +:+ tr_Name (Policy_ToolRule grants st (tl_Name t))).
      set (tl := mkTool name (if String.eqb (tl_Description t) "" then "" else "[" +:+ s_Name st +:+ "] " +:+ tl_Description t)).
      assert (f (out, back) t = (out ++ [tl], <[name := tl_Name t]> back)) as -> by (unfold f; by rewrite Ev).
      destruct (IH (out ++ [tl], <[name := tl_Name t]> back)) as (I1 & I2 & I3 & I4); cbn [fst snd].
      + intros; apply Hl; by right.
      + intros k u. rewrite lookup_insert. case_decide as Hd; [|apply Hb]. intros [= <-]. subst k.
        exists t. split_and!; [apply Hl; by left|done..].
      + intros t'. rewrite elem_of_app, list_elem_of_singleton. intros [Ht| ->]; cbn [tl_Name].
        * rewrite lookup_insert. case_decide; [by eauto|by apply Ho].
        * rewrite lookup_insert_eq. by eauto.
      + cbn [fst snd] in *. split_and!; [exact I1|exact I2| |].
        * intros k Hk. apply I3. rewrite lookup_insert. case_decide; by eauto.
        * intros t' [->|Ht']%elem_of_cons Hv; [|by apply I4]. apply I3. fold name. rewrite lookup_insert_eq. by eauto.
    - assert (f (out, back) t = (out, back)) as -> by (unfold f; by rewrite Ev).
      destruct (IH (out, back)) as (I1 & I2 & I3 & I4); [intros; apply Hl; by right|done|done|].
      split_and!; [exact I1|exact I2|exact I3|]. intros t' [->|Ht']%elem_of_cons Hv; [congruence|by apply I4]. }
  specialize (H raw ([], ∅)). cbn [fst snd] in H. destruct (fold_left f raw ([], ∅)) as [out back].
  destruct H as (H1 & H2 & _ & H4); [done| | |split_and!; done].
  - intros k u. by rewrite lookup_empty.
  - by intros t ?%not_elem_of_nil.
Qed.

Lemma authorize_Ok now hdr initial st exposed up p :
  authorize now hdr initial st exposed up = Ok p →
  p_Subject p = p_Subject initial ∧ Allows (Policy_Grants p "") (s_Name st) = true ∧
  tr_Visible (Policy_ToolRule (Policy_Grants p "") st up) = true ∧
  match hdr with Some h => Resolve (mkRequestInfo h "POST" "/mcp" "") = Ok p | None => p = initial end.
Proof.
  unfold authorize. intros H.
  assert (∀ q, match (if negb (Allows (Policy_Grants q "") (s_Name st)) then Err (EMsg ("adapter " +:+ s_Name st +:+ " is not granted"))
      else if negb (tr_Visible (Policy_ToolRule (Policy_Grants q "") st up)) then Err (EMsg ("tool " +:+ exposed +:+ " is not visible")) else Ok q)
    with Ok p' => p' = q ∧ Allows (Policy_Grants q "") (s_Name st) = true ∧ tr_Visible (Policy_ToolRule (Policy_Grants q "") st up) = true | Err _ => True end) as Hq.
  { intros q. destruct (Allows _ _) eqn:Ea, (tr_Visible _) eqn:Ev; done. }
  destruct hdr as [h|].
  - destruct (Resolve _) as [fresh|] eqn:Er; [|done].
    destruct (String.eqb_spec (p_Subject fresh) (p_Subject initial)) as [Hs|]; cbn [negb] in H; [|done].
    specialize (Hq fresh). rewrite H in Hq. destruct Hq as (-> & ? & ?). done.
  - destruct (negb (IsZero (p_Expiry initial)) && (p_Expiry initial <? now)); [done|].
    specialize (Hq initial). rewrite H in Hq. destruct Hq as (-> & ? & ?). done.
Qed.

(** The connections of a session lead to pods of its subject. *)
Definition conns_ok (subject : string) (s : RS) : Prop :=
  rt_ok (w_table (r_world s)) ∧
  ∀ st u, r_conns s !! st = Some u → pod_Key (u_pod u) = mkPodKey subject st.

Lemma upstreamFor_Ok fuel l env p st (s s' : RS) u :
  conns_ok (p_Subject p) s → Config_Server (ld_Config l) (s_Name st) = Some st →
  upstreamFor fuel l env p st s = Some (Ok u, s') → pod_Key (u_pod u) = mkPodKey (p_Subject p) (s_Name st).
Proof.
  intros [Hok Hc] Hst. unfold upstreamFor. destruct (r_conns s !! s_Name st) as [u0|] eqn:E.
  { intros [= <- <-]. by apply Hc. }
  destruct (EnsurePod fuel l env p (s_Name st) (r_world s)) as [[[[pod srv]|e] w]|] eqn:Ee; [|done..].
  destruct (mcp_Connect p pod srv (r_mcp s)) as [[cs|] m]; [|done]. intros [= <- <-].
  by apply EnsurePod_sound in Ee as (Hk & _).
Qed.

(** C6. Every tool call is authorized anew: a pod answers a call only if the
    identity re-resolved from that call's own request has the session's subject,
    is granted the server type and sees the tool, and the pod is the caller's
    own for that server type.  A revoked token or a changed group takes effect
    on the next call. *)
Theorem call_authorized fuel l env secrets onCall hdr initial st exposed up args lazy (s s' : RS) b text evs :
  conns_ok (p_Subject initial) s → Config_Server (ld_Config l) (s_Name st) = Some st →
  call fuel l env secrets onCall hdr initial st exposed up args lazy s = Some (Done (TResult b text, evs, s')) →
  ∃ p u s1,
    match hdr with Some h => Resolve (mkRequestInfo h "POST" "/mcp" "") = Ok p | None => p = initial end ∧
    p_Subject p = p_Subject initial ∧ Allows (Policy_Grants p "") (s_Name st) = true ∧
    tr_Visible (Policy_ToolRule (Policy_Grants p "") st up) = true ∧
    upstreamFor fuel l env p st s = Some (Ok u, s1) ∧
    pod_Key (u_pod u) = mkPodKey (p_Subject initial) (s_Name st) ∧
    (mcp_CallTool (u_cs u) up args (r_mcp s1)).1 = Ok (b, text).
Proof.
  intros Hc Hst. unfold call. destruct (authorize _ _ _ _ _ _) as [p|e] eqn:Ea; [|by destruct onCall].
  apply authorize_Ok in Ea as (Hs & Ha & Hv & Hr). unfold doCall.
  destruct (match secrets, hdr with Some f, Some h => f h p st | _, _ => Ok ∅ end) as [sec|]; [|done].
  destruct (upstreamFor fuel l env p st s) as [[[u|] s1]|] eqn:Eu; [|done..].
  destruct (mcp_CallTool (u_cs u) up args (r_mcp s1)) as [res m] eqn:Ec. intros H.
  assert (res = Ok (b, text)) as ->.
  { destruct res as [[b' t']|]; by simplify_eq. }
  exists p, u, s1. split_and!; try done; [|by rewrite Ec].
  rewrite <- Hs. eapply upstreamFor_Ok; [by rewrite Hs|done|exact Eu].
Qed.

(** With the audit hook installed (as the composition root does), a call
    whose authorization fails dereferences a nil principal: instead of an error
    result the handler panics. *)
Theorem call_unauthorized_panics fuel l env secrets hdr initial st exposed up args lazy (s : RS) e :
  authorize (e_now env) hdr initial st exposed up = Err e →
  call fuel l env secrets true hdr initial st exposed up args lazy s = Some Panic.
Proof. intros H. unfold call. by rewrite H. Qed.

(** Listing shows exactly the visible tools: every exposed name maps back to
    a tool of the pod (as cached for this caller, or as the caller's pod lists
    it now) the policy shows to the caller, under the server's name,
    the separator and the tool's configured name; every listed tool can be
    called back; and every visible tool of the pod is exposed under its name. *)
Theorem toolsFor_visible_only fuel l env secrets hdr p grants st (s s' : RS) out back :
  toolsFor fuel l env secrets hdr p grants st s = Some (Ok (out, back), s') →
  let sep := to_NamespaceSeparator (g_Tools (c_Gateway (ld_Config l))) in
  ∃ raw,
    (cache_get (e_now env) (cacheKey p st) (ld_Hash l) (r_cache s) = Some raw ∨
     ∃ up s1, upstreamFor fuel l env p st s = Some (Ok up, s1) ∧ (mcp_ListTools (u_cs up) (r_mcp s1)).1 = Ok raw) ∧
    (∀ k u, back !! k = Some u → exposed_ok grants st sep raw k u) ∧
    (∀ t, t ∈ out → is_Some (back !! tl_Name t)) ∧
    (∀ t, t ∈ raw → tr_Visible (Policy_ToolRule grants st (tl_Name t)) = true →
       is_Some (back !! (s_Name st +:+ sep +:+ tr_Name (Policy_ToolRule grants st (tl_Name t))))).
Proof.
  intros H sep. unfold toolsFor in H. fold sep in H.
  assert (∃ raw, (cache_get (e_now env) (cacheKey p st) (ld_Hash l) (r_cache s) = Some raw ∨
     ∃ up s1, upstreamFor fuel l env p st s = Some (Ok up, s1) ∧ (mcp_ListTools (u_cs up) (r_mcp s1)).1 = Ok raw) ∧
    exposeTools grants st sep raw = (out, back)) as (raw & Hsrc & Hraw).
  { destruct (cache_get _ _ _ _) as [raw|]; [exists raw; split; [by left|congruence]|].
    destruct (match secrets, hdr with Some f, Some h => f h p st | _, _ => Ok ∅ end); [|done].
    destruct (upstreamFor _ _ _ _ _ _) as [[[u|] s1]|]; [|done..].
    destruct (mcp_ListTools _ _) as [[raw|] m] eqn:El; [|done]. exists raw. split; [|congruence].
    right. exists u, s1. by rewrite El. }
  exists raw. split; [done|]. pose proof (exposeTools_ok grants st sep raw) as He. by rewrite Hraw in He.
Qed.

(** An open connection is reused without asking the session manager, also when
    its pod has been released meanwhile. *)
Lemma upstreamFor_reuses_stale fuel l env p st (s : RS) u (w : world T P B) :
  r_conns s !! s_Name st = Some u →
  upstreamFor fuel l env p st (mkRstate (r_cache s) w (r_mcp s) (r_conns s)) =
    Some (Ok u, mkRstate (r_cache s) w (r_mcp s) (r_conns s)).
Proof. intros H. unfold upstreamFor. cbn. by rewrite H. Qed.

(** Tool lists of servers with user credentials are cached per user hash: two
    users with the same hash share the entry. *)
Lemma cacheKey_collision st p1 p2 :
  p_Subject p1 = collide1 → p_Subject p2 = collide2 → cacheKey p1 st = cacheKey p2 st.
Proof. intros H1 H2. unfold cacheKey. by rewrite H1, H2, (proj2 UserHash_collision). Qed.
End Proofs.

(** ** Witnesses *)

Module RouterWitness.
Import ManagerWitness.

#[local] Instance toy_mcp : MCPClient () := {|
  mcp_session := string;
  mcp_Connect := λ _ pod _ c, (Ok (pod_Endpoint pod), c);
  mcp_ListTools := λ _ c, (Ok [mkTool "get" "read an issue"; mkTool "delete_project" ""; mkTool "admin_tool" ""], c);
  mcp_CallTool := λ cs name args c, (Ok (false, cs +:+ " " +:+ name), c) |}.
#[local] Instance toy_idp : IdentityProvider := {|
  Resolve := λ r, if String.eqb (fst (Bearer r)) "bob-token" then Ok bob else Err ErrUnauthenticated;
  Challenge := λ _ _ _, "" |}.
#[local] Instance pol0 : AccessPolicy := groups_policy sample_config ∅.

Definition l0 : Loaded := loaded sample_config.
Definition hdr (tok : string) : Header := {["Authorization" := ["Bearer " +:+ tok]]}.
Definition rs0 : rstate Memory.Memory toy_prov () () := mkRstate (newToolCache (10 * Minute)) w0 () ∅.
Definition jira : Server := default (sample_server "" TokenNone None) (Config_Server sample_config "jira").
Definition called := call 5 l0 env0 None true (Some (hdr "bob-token")) bob jira "jira__fetch" "get" "{}" false rs0.
Definition rs1 : rstate Memory.Memory toy_prov () () :=
  match called with Some (Done (_, _, s)) => s | _ => rs0 end.
Definition ev0 : CallEvent :=
  mkCallEvent "bob" "jira" (PodKey_Name (mkPodKey "bob" "jira")) "jira__fetch" "get" false None false.

Lemma rs0_ok : conns_ok "bob" rs0.
Proof. split; [apply Memory.ok_NewMemory|]. intros st u. cbn. by rewrite lookup_empty. Qed.

Lemma call_authorized_witness :
  called = Some (Done (TResult false "https://10.0.0.9:8443 get", [ev0], rs1)) ∧
  ∃ p, Resolve (mkRequestInfo (hdr "bob-token") "POST" "/mcp" "") = Ok p ∧ p_Subject p = "bob".
Proof.
  assert (called = Some (Done (TResult false "https://10.0.0.9:8443 get", [ev0], rs1))) as E by (vm_compute; reflexivity).
  split; [exact E|].
  destruct (call_authorized 5 l0 env0 None true (Some (hdr "bob-token")) bob jira "jira__fetch" "get" "{}" false rs0 rs1
    false "https://10.0.0.9:8443 get" [ev0] rs0_ok ltac:(vm_compute; reflexivity) E) as (p & u & s1 & H1 & H2 & _).
  exists p. split; [exact H1|exact H2].
Defined.

(** An expired or revoked token on the next call. *)
Lemma call_unauthorized_panics_witness :
  call 5 l0 env0 None true (Some (hdr "revoked")) bob jira "jira__fetch" "get" "{}" false rs0 = Some Panic.
Proof.
  apply (call_unauthorized_panics 5 l0 env0 None (Some (hdr "revoked")) bob jira "jira__fetch" "get" "{}" false rs0
    (EWrap "re-authentication failed" ErrUnauthenticated)).
  vm_compute. reflexivity.
Defined.

Definition listed := toolsFor 5 l0 env0 None None bob (Policy_Grants bob "") jira rs0.
Definition rs2 : rstate Memory.Memory toy_prov () () := match listed with Some (_, s) => s | _ => rs0 end.
Definition out2 : list Tool := [mkTool "jira__fetch" "[jira] read an issue"; mkTool "jira__admin_tool" ""].
Definition back2 : gmap string string := {["jira__fetch" := "get"; "jira__admin_tool" := "admin_tool"]}.

Lemma toolsFor_visible_only_witness :
  listed = Some (Ok (out2, back2), rs2) ∧ is_Some (back2 !! "jira__fetch").
Proof.
  assert (listed = Some (Ok (out2, back2), rs2)) as E by (vm_compute; reflexivity).
  split; [exact E|].
  destruct (toolsFor_visible_only 5 l0 env0 None None bob (Policy_Grants bob "") jira rs0 rs2 out2 back2 E)
    as (raw & _ & _ & H & _).
  apply (H (mkTool "jira__fetch" "[jira] read an issue")). left.
Defined.
End RouterWitness.
