(* ===== verification/RouterServer.v ===== *)
(** * internal/router: the sessions of the aggregated endpoint

    serverFor of router.go: what a session registers when its client has
    initialized (whoami, and either every granted tool or the three meta-tools),
    the handlers behind the registered names, and the end of a session.  The SDK
    keeps the sessions, and decodes and validates the arguments of a typed tool:
    that is the class [MetaArgs].  Registering a name twice replaces the tool, as
    the SDK documents. *)

From S2P Require Import Prelude GoStd Sha256 Config Core Fixtures Contracts RoutingMemory RoutingRedis Vault Policy Manager Proxy Gateway GatewayServer Router.

Local Open Scope Z_scope.

(** ** Sessions *)

(** The arguments of search_tools (query and limit), describe_tool and execute. *)
Class MetaArgs := {
  args_search : string → option (string * Z);
  args_describe : string → option string;
  args_execute : string → option (string * string) }.

(** The handler behind a registered name. *)
Inductive thandler := HWhoami | HSearch | HDescribe | HExecute | HCall (st : Server) (upstreamName : string).

(** The view of whoami, and a hit of search_tools. *)
Record whoami := mkWhoami { wi_principal : Principal; wi_grants : Grants }.
Record hit := mkHit { h_Name : string; h_Adapter : string; h_Description : string }.

(** The answer to a call of a tool. *)
Inductive mresult := MCall (r : CallToolResult) | MWho (v : whoami) | MHits (hs : list hit) | MDef (t : Tool) | MInvalid.

(** [sort.Slice] by name *)
Definition hit_le (a b : hit) : Prop := String.le (h_Name a) (h_Name b).
#[export] Instance hit_le_dec : RelDecision hit_le := λ a b, decide (String.le (h_Name a) (h_Name b)).
#[export] Instance hit_le_total : Total hit_le.
Proof. intros a b. apply (total String.le). Qed.
#[export] Instance hit_le_trans : Transitive hit_le.
Proof. intros a b c. apply (transitivity (R:=String.le)). Qed.

(** The result of search_tools over the listed tools. *)
Definition searchHits (sep query : string) (limit : Z) (tools : list Tool) : list hit :=
  let limit := if limit <=? 0 then 20 else limit in
  let hits := map (λ t, mkHit (tl_Name t) (Cut (tl_Name t) sep).1.1 (tl_Description t)) (searchTools query tools) in
  let hits := merge_sort hit_le hits in
  if limit <? Z.of_nat (length hits) then take (Z.to_nat limit) hits else hits.

Section Sessions.
Context {T P B C : Type} {tbl : RoutingTable T} {prov : Provisioner P} {brk : TokenBroker B}
  {mcp : MCPClient C} {pol : AccessPolicy} {idp : IdentityProvider} {margs : MetaArgs}.
Local Notation RS := (rstate T P B C).

(** One MCP session: the principal of its first request, the configuration and
    grants it was set up with, its connections and its registered tools. *)
Record rsession := mkRsession {
  sn_p : Principal; sn_cfg : Config; sn_grants : Grants; sn_conns : conns C; sn_tools : gmap string thandler }.

(** [type Router struct]: the shared parts and the sessions by id. *)
Record rtstate := mkRt { rt_cache : toolCache; rt_world : world T P B; rt_mcp : C; rt_sessions : gmap string rsession }.

(** [func New] *)
Definition New (w : world T P B) (m : C) : rtstate := mkRt (newToolCache (10 * Minute)) w m ∅.

(** The state seen by the operations of one session, and back. *)
Definition enter (sn : rsession) (rt : rtstate) : RS := mkRstate (rt_cache rt) (rt_world rt) (rt_mcp rt) (sn_conns sn).
Definition set_conns (c : conns C) (sn : rsession) : rsession :=
  mkRsession (sn_p sn) (sn_cfg sn) (sn_grants sn) c (sn_tools sn).
Definition leave (sid : string) (sn : rsession) (s : RS) (rt : rtstate) : rtstate :=
  mkRt (r_cache s) (r_world s) (r_mcp s) (<[sid := set_conns (r_conns s) sn]> (rt_sessions rt)).

(** [func (rt *Router) addEagerTools]: the registered tools of the granted types;
    a type whose listing fails is skipped. *)
Fixpoint addEagerTools (fuel : nat) (cfg : Config) (l : Loaded) (env : reqenv) (secrets : option SecretResolver)
    (hdr : option Header) (p : Principal) (grants : Grants) (names : list string) (s : RS)
    (tools : gmap string thandler) : option (gmap string thandler * RS) :=
  match names with
  | [] => Some (tools, s)
  | name :: rest =>
      match Config_Server cfg name with
      | None => addEagerTools fuel cfg l env secrets hdr p grants rest s tools
      | Some st =>
          match toolsFor fuel l env secrets hdr p grants st s with
          | None => None
          | Some (Err _, s) => addEagerTools fuel cfg l env secrets hdr p grants rest s tools
          | Some (Ok (ts, back), s) =>
              addEagerTools fuel cfg l env secrets hdr p grants rest s
                (fold_left (λ m t, <[tl_Name t := HCall st (default "" (back !! tl_Name t))]> m) ts tools)
          end
      end
  end.

(** [addWhoami] and [addMetaTools]: the registrations. *)
Definition whoamiTools : gmap string thandler := {["whoami" := HWhoami]}.
Definition metaTools : gmap string thandler :=
  <["execute" := HExecute]> (<["describe_tool" := HDescribe]> (<["search_tools" := HSearch]> whoamiTools)).

(** The [InitializedHandler] of [serverFor], for the principal in the context of
    the request (None: nil). *)
Definition initialized (fuel : nat) (l : Loaded) (env : reqenv) (secrets : option SecretResolver) (hdr : option Header)
    (sid : string) (p : option Principal) (clientName : string) (rt : rtstate) : option rtstate :=
  match p with
  | None => Some rt
  | Some p =>
      let grants := Policy_Grants p clientName in
      let sn tools := mkRsession p (ld_Config l) grants ∅ tools in
      if gr_LazyTools grants then
        Some (mkRt (rt_cache rt) (rt_world rt) (rt_mcp rt) (<[sid := sn metaTools]> (rt_sessions rt)))
      else
        match addEagerTools fuel (ld_Config l) l env secrets hdr p grants (gr_Types grants) (enter (sn ∅) rt) whoamiTools with
        | None => None
        | Some (tools, s) => Some (leave sid (sn tools) s rt)
        end
  end.

(** The goroutine that waits for the end of the session. *)
Definition endSession (sid : string) (rt : rtstate) : rtstate :=
  mkRt (rt_cache rt) (rt_world rt) (rt_mcp rt) (delete sid (rt_sessions rt)).

(** The handlers of the meta-tools over the session's view of the state. *)
Definition search (fuel : nat) (l : Loaded) (env : reqenv) (secrets : option SecretResolver) (hdr : option Header)
    (sn : rsession) (query : string) (limit : Z) (s : RS) : option (mresult * RS) :=
  match allTools fuel (sn_cfg sn) l env secrets hdr (sn_p sn) (sn_grants sn) (gr_Types (sn_grants sn)) s ([], ∅) with
  | None => None
  | Some (tools, _, s) =>
      Some (MHits (searchHits (to_NamespaceSeparator (g_Tools (c_Gateway (sn_cfg sn)))) query limit tools), s)
  end.
Definition describe (fuel : nat) (l : Loaded) (env : reqenv) (secrets : option SecretResolver) (hdr : option Header)
    (sn : rsession) (name : string) (s : RS) : option (mresult * RS) :=
  match allTools fuel (sn_cfg sn) l env secrets hdr (sn_p sn) (sn_grants sn) (gr_Types (sn_grants sn)) s ([], ∅) with
  | None => None
  | Some (tools, _, s) =>
      Some (match List.find (λ t, String.eqb (tl_Name t) name) tools with
            | Some t => MDef t
            | None => MCall (TError (EMsg ("unknown tool " +:+ name)))
            end, s)
  end.

(** A tools/call of a session: the registered handler with its arguments. *)
Definition handleTool (fuel : nat) (l : Loaded) (env : reqenv) (secrets : option SecretResolver) (onCall : bool)
    (hdr : option Header) (sn : rsession) (name args : string) (h : thandler) (s : RS)
    : option (outcome (mresult * list CallEvent * RS)) :=
  let pure r := Some (Done (r, [], s)) in
  let run (x : option (mresult * RS)) := match x with None => None | Some (r, s) => Some (Done (r, [], s)) end in
  let called x := match x with
                  | None => None
                  | Some Panic => Some Panic
                  | Some (Done (r, evs, s)) => Some (Done (MCall r, evs, s))
                  end in
  match h with
  | HWhoami => pure (MWho (mkWhoami (sn_p sn) (sn_grants sn)))
  | HSearch => match args_search args with
               | None => pure MInvalid
               | Some (q, n) => run (search fuel l env secrets hdr sn q n s)
               end
  | HDescribe => match args_describe args with
                 | None => pure MInvalid
                 | Some n => run (describe fuel l env secrets hdr sn n s)
                 end
  | HExecute => match args_execute args with
                | None => pure MInvalid
                | Some (n, a) => called (execute fuel (sn_cfg sn) l env secrets onCall hdr (sn_p sn) (sn_grants sn) n a s)
                end
  | HCall st up => called (call fuel l env secrets onCall hdr (sn_p sn) st name up args false s)
  end.

(** A tools/call as the SDK dispatches it: an unknown session or tool has no
    handler (None) and changes nothing. *)
Definition callTool (fuel : nat) (l : Loaded) (env : reqenv) (secrets : option SecretResolver) (onCall : bool)
    (hdr : option Header) (sid name args : string) (rt : rtstate)
    : option (outcome (option mresult * list CallEvent * rtstate)) :=
  match rt_sessions rt !! sid with
  | None => Some (Done (None, [], rt))
  | Some sn =>
      match sn_tools sn !! name with
      | None => Some (Done (None, [], rt))
      | Some h =>
          match handleTool fuel l env secrets onCall hdr sn name args h (enter sn rt) with
          | None => None
          | Some Panic => Some Panic
          | Some (Done (r, evs, s)) => Some (Done (Some r, evs, leave sid sn s rt))
          end
      end
  end.
End Sessions.
Arguments rsession C {_}. Arguments rtstate T P B C {_}.

(** ** The search *)

(** The hit of a listed tool, and whether it matches a query. *)
Definition hit_of (sep : string) (t : Tool) : hit := mkHit (tl_Name t) (Cut (tl_Name t) sep).1.1 (tl_Description t).
Definition matches (query : string) (t : Tool) : bool :=
  String.eqb (ToLower query) "" || Contains (ToLower (tl_Name t)) (ToLower query) || Contains (ToLower (tl_Description t)) (ToLower query).

(** search_tools returns the first [limit] (20 when not positive) of the matching
    tools in the order of their names: with some rest they are all the matches,
    and the whole is sorted, so nothing left out comes before a hit. *)
Lemma searchHits_spec sep query limit tools :
  let lim := if limit <=? 0 then 20 else limit in
  let found := List.filter (matches query) tools in
  ∃ rest, searchHits sep query limit tools ++ rest ≡ₚ map (hit_of sep) found ∧
    StronglySorted hit_le (searchHits sep query limit tools ++ rest) ∧
    Z.of_nat (length (searchHits sep query limit tools)) = Z.min lim (Z.of_nat (length found)).
Proof.
  intros lim found. unfold searchHits. fold lim. change (searchTools query tools) with found.
  change (λ t, mkHit (tl_Name t) (Cut (tl_Name t) sep).1.1 (tl_Description t)) with (hit_of sep).
  assert (0 < lim) as Hlim by (unfold lim; destruct (Z.leb_spec limit 0); lia).
  set (hs := merge_sort hit_le (map (hit_of sep) found)).
  assert (hs ≡ₚ map (hit_of sep) found) as Hp by apply merge_sort_Permutation.
  assert (StronglySorted hit_le hs) as Hs by (apply (StronglySorted_merge_sort hit_le); apply _).
  assert (length hs = length found) as Hl by (by rewrite Hp, length_map).
  destruct (Z.ltb_spec lim (Z.of_nat (length hs))) as [Hlt|Hge].
  - exists (drop (Z.to_nat lim) hs). rewrite take_drop. split_and!; [done..|]. rewrite length_take. lia.
  - exists []. rewrite app_nil_r. split_and!; [done..|]. lia.
Qed.

(** ** Lazy and eager sessions *)

Section Listing.
Context {T P B C : Type} {tbl : RoutingTable T} {prov : Provisioner P} {brk : TokenBroker B}
  {mcp : MCPClient C} {pol : AccessPolicy} {idp : IdentityProvider} {margs : MetaArgs}.
Local Notation RS := (rstate T P B C).

(** The listed names are the names that map back. *)
Lemma exposeTools_names grants st sep raw :
  let '(out, back) := exposeTools grants st sep raw in ∀ k, is_Some (back !! k) ↔ k ∈ tl_Name <$> out.
Proof.
  unfold exposeTools. set (f := λ '(out, back) t, _).
  assert (∀ acc, (∀ k, is_Some (acc.2 !! k) ↔ k ∈ tl_Name <$> acc.1) →
    ∀ k, is_Some ((fold_left f raw acc).2 !! k) ↔ k ∈ tl_Name <$> (fold_left f raw acc).1) as H.
  { induction raw as [|t raw IH]; intros [out back] Hacc; [done|]. cbn [fold_left]. apply IH.
    unfold f. cbn. destruct (negb _); [done|]. cbn [fst snd]. intros k.
    rewrite fmap_app, elem_of_app, lookup_insert, <- Hacc. cbn [fmap list_fmap]. rewrite list_elem_of_singleton. cbn.
    case_decide; naive_solver. }
  specialize (H ([], ∅)). destruct (fold_left f raw ([], ∅)). apply H. intros k. cbn.
  rewrite lookup_empty, elem_of_nil. split; [by intros []|done].
Qed.

(** The pair a listing yields comes from [exposeTools]. *)
Lemma toolsFor_expose fuel l env secrets hdr p grants st (s s' : RS) out back :
  toolsFor fuel l env secrets hdr p grants st s = Some (Ok (out, back), s') →
  ∃ raw, exposeTools grants st (to_NamespaceSeparator (g_Tools (c_Gateway (ld_Config l)))) raw = (out, back).
Proof.
  unfold toolsFor. destruct (cache_get _ _ _ _) as [raw|]; [intros [= H _]; by exists raw|].
  destruct (match secrets, hdr with Some f, Some h => f h p st | _, _ => Ok ∅ end); [|done].
  destruct (upstreamFor _ _ _ _ _ _) as [[[u|] s1]|]; [|done..].
  destruct (mcp_ListTools _ _) as [[raw|] m]; [|done]. intros [= H _]. by exists raw.
Qed.

(** Registering the listed tools of one type. *)
Definition register (st : Server) (back : gmap string string) (ts : list Tool) (m : gmap string thandler) : gmap string thandler :=
  fold_left (λ m t, <[tl_Name t := HCall st (default "" (back !! tl_Name t))]> m) ts m.

Lemma register_lookup st back ts m k :
  register st back ts m !! k = if decide (k ∈ tl_Name <$> ts) then Some (HCall st (default "" (back !! k))) else m !! k.
Proof.
  unfold register. revert m. induction ts as [|t ts IH]; intros m; [by rewrite decide_False by apply not_elem_of_nil|]. cbn [fold_left].
  rewrite IH, lookup_insert. cbn [fmap list_fmap].
  destruct (decide (k ∈ tl_Name <$> ts)) as [Hin|Hin].
  - by rewrite decide_True by (by right).
  - destruct (decide (tl_Name t = k)) as [<-|Hne]; [by rewrite decide_True by (by left)|].
    rewrite decide_False; [done|]. intros [?|?]%elem_of_cons; [congruence|done].
Qed.

(** The two tables of a session hold the same tools. *)
Definition same_tools (m : gmap string thandler) (owner : gmap string (string * Server)) : Prop :=
  ∀ k st u, m !! k = Some (HCall st u) ↔ owner !! k = Some (u, st).

Lemma same_tools_register grants st sep raw out back m owner :
  exposeTools grants st sep raw = (out, back) → same_tools m owner →
  same_tools (register st back out m) (((λ u, (u, st)) <$> back) ∪ owner).
Proof.
  intros He H k st' u. pose proof (exposeTools_names grants st sep raw) as Hn. rewrite He in Hn. specialize (Hn k).
  rewrite register_lookup, lookup_union, lookup_fmap. destruct (back !! k) as [u0|] eqn:E; cbn.
  - rewrite decide_True by (apply Hn; eauto). rewrite union_Some_l. naive_solver.
  - rewrite decide_False, (left_id_L None (∪)); [apply H|]. intros Hk%Hn. by destruct Hk.
Qed.

(** Both loops make the same listings and end in the same state. *)
Lemma eager_allTools fuel cfg l env secrets hdr p grants names (s : RS) m acc :
  same_tools m acc.2 →
  match addEagerTools fuel cfg l env secrets hdr p grants names s m, allTools fuel cfg l env secrets hdr p grants names s acc with
  | Some (m', s1), Some (_, owner, s2) => s1 = s2 ∧ same_tools m' owner
  | None, None => True
  | _, _ => False
  end.
Proof.
  revert s m acc. induction names as [|n names IH]; intros s m acc H; cbn [addEagerTools allTools]; [by destruct acc|].
  destruct (Config_Server cfg n) as [st|]; [|by apply IH].
  destruct (toolsFor fuel l env secrets hdr p grants st s) as [[[[ts back]|] s1]|] eqn:E; [|by apply IH|done].
  apply toolsFor_expose in E as [raw E]. apply IH. eapply same_tools_register; [exact E|exact H].
Qed.

(** A lazy call differs from an eager one in its audit record only. *)
Definition answer (x : option (outcome (CallToolResult * list CallEvent * RS))) : option (outcome (CallToolResult * RS)) :=
  match x with
  | None => None
  | Some Panic => Some Panic
  | Some (Done (r, _, s)) => Some (Done (r, s))
  end.
Lemma call_lazy_flag fuel l env secrets onCall hdr p st exposed up args b1 b2 (s : RS) :
  answer (call fuel l env secrets onCall hdr p st exposed up args b1 s) =
  answer (call fuel l env secrets onCall hdr p st exposed up args b2 s).
Proof.
  unfold call. destruct (authorize _ _ _ _ _ _); [|by destruct onCall].
  destruct (doCall _ _ _ _ _ _ _ _ _ _) as [[[]]|]; done.
Qed.


(** Every tool a session is shown is a tool that the policy lets it see, of a type
    it is granted. *)
Lemma allTools_visible fuel cfg l env secrets hdr p grants names (s s' : RS) acc ts owner :
  allTools fuel cfg l env secrets hdr p grants names s acc = Some (ts, owner, s') →
  ∀ t, t ∈ ts → t ∈ acc.1 ∨ ∃ n st u, n ∈ names ∧ Config_Server cfg n = Some st ∧
    tr_Visible (Policy_ToolRule grants st u) = true ∧
    tl_Name t = s_Name st +:+ to_NamespaceSeparator (g_Tools (c_Gateway (ld_Config l))) +:+ tr_Name (Policy_ToolRule grants st u).
Proof.
  revert s acc. induction names as [|n names IH]; intros s acc; cbn [allTools]; [intros [= -> _]; by left|].
  assert (∀ t, (∃ n0 st u, n0 ∈ names ∧ Config_Server cfg n0 = Some st ∧ tr_Visible (Policy_ToolRule grants st u) = true ∧
      tl_Name t = s_Name st +:+ to_NamespaceSeparator (g_Tools (c_Gateway (ld_Config l))) +:+ tr_Name (Policy_ToolRule grants st u)) →
    ∃ n0 st u, n0 ∈ n :: names ∧ Config_Server cfg n0 = Some st ∧ tr_Visible (Policy_ToolRule grants st u) = true ∧
      tl_Name t = s_Name st +:+ to_NamespaceSeparator (g_Tools (c_Gateway (ld_Config l))) +:+ tr_Name (Policy_ToolRule grants st u)) as Hw.
  { intros t (n0 & st & u & ? & ?). exists n0, st, u. split; [by right|done]. }
  destruct (Config_Server cfg n) as [st|] eqn:Ec; [|intros H t Ht; destruct (IH _ _ H t Ht); auto].
  destruct (toolsFor fuel l env secrets hdr p grants st s) as [[[[out back]|] s1]|] eqn:E;
    [|intros H t Ht; destruct (IH _ _ H t Ht); auto|done].
  intros H t Ht. destruct (IH _ _ H t Ht) as [Hacc|?]; [|by auto]. cbn in Hacc. apply elem_of_app in Hacc as [?|Hout]; [by left|right].
  apply toolsFor_expose in E as [raw E]. set (sep := to_NamespaceSeparator _) in *.
  pose proof (exposeTools_ok grants st sep raw) as He. rewrite E in He. destruct He as (H1 & H2 & _).
  destruct (H2 _ Hout) as [u Hu]. destruct (H1 _ _ Hu) as (t0 & _ & _ & Hv & Hk).
  exists n, st, u. split_and!; [by left|done..].
Qed.

(** search_tools shows the first matching tools in the order of their names, at
    most the limit, and only tools the policy lets the session see, of types it
    is granted. *)
Theorem search_shows_visible fuel l env secrets hdr sn query limit (s s' : RS) r :
  search fuel l env secrets hdr sn query limit s = Some (r, s') →
  ∃ tools hs rest, r = MHits hs ∧
    let sep := to_NamespaceSeparator (g_Tools (c_Gateway (sn_cfg sn))) in
    hs ++ rest ≡ₚ map (hit_of sep) (List.filter (matches query) tools) ∧ StronglySorted hit_le (hs ++ rest) ∧
    Z.of_nat (length hs) ≤ (if limit <=? 0 then 20 else limit) ∧
    ∀ h, h ∈ hs → ∃ n st u, n ∈ gr_Types (sn_grants sn) ∧ Config_Server (sn_cfg sn) n = Some st ∧
      tr_Visible (Policy_ToolRule (sn_grants sn) st u) = true ∧
      h_Name h = s_Name st +:+ to_NamespaceSeparator (g_Tools (c_Gateway (ld_Config l))) +:+ tr_Name (Policy_ToolRule (sn_grants sn) st u).
Proof.
  unfold search. destruct (allTools _ _ _ _ _ _ _ _ _ _ _) as [[[tools owner] s1]|] eqn:E; [|done]. intros [= <- <-].
  destruct (searchHits_spec (to_NamespaceSeparator (g_Tools (c_Gateway (sn_cfg sn)))) query limit tools) as (rest & Hp & Hs & Hl).
  exists tools, (searchHits (to_NamespaceSeparator (g_Tools (c_Gateway (sn_cfg sn)))) query limit tools), rest.
  split; [done|]. cbv zeta. split_and!; [exact Hp|exact Hs|lia|]. intros h Hh.
  assert (h ∈ map (hit_of (to_NamespaceSeparator (g_Tools (c_Gateway (sn_cfg sn))))) (List.filter (matches query) tools)) as Hin.
  { rewrite <- Hp. apply elem_of_app. by left. }
  apply list_elem_of_In, in_map_iff in Hin as (t & <- & [Ht _]%filter_In). apply list_elem_of_In in Ht.
  destruct (allTools_visible _ _ _ _ _ _ _ _ _ _ _ _ _ _ E t Ht) as [Hn|H]; [by apply elem_of_nil in Hn|exact H].
Qed.
End Listing.

(** ** What a session can reach *)

Section Isolation.
Context {P B C : Type} {prov : Provisioner P} {brk : TokenBroker B}
  {mcp : MCPClient C} {pol : AccessPolicy} {idp : IdentityProvider} {margs : MetaArgs}.
Local Notation RS := (rstate Memory.Memory P B C).
Local Notation RT := (rtstate Memory.Memory P B C).
Local Notation W := (world Memory.Memory P B).
#[local] Existing Instance others_preorder.

(** An operation for [sub] keeps the connections on pods of [sub], and the pods of
    everybody else as they are. *)
Definition own (sub : string) (s s' : RS) : Prop :=
  conns_ok sub s → conns_ok sub s' ∧ others sub (r_world s) (r_world s').
#[local] Instance own_preorder sub : PreOrder (own sub).
Proof.
  split; [intros s H; by split|]. intros s1 s2 s3 H1 H2 H. destruct (H1 H) as [H' ?], (H2 H') as [H'' ?]. split; [done|by etrans].
Qed.

Lemma upstreamFor_own fuel l env p st (s s' : RS) r :
  upstreamFor fuel l env p st s = Some (r, s') → own (p_Subject p) s s'.
Proof.
  unfold upstreamFor. destruct (r_conns s !! s_Name st); [by intros [= _ <-]|].
  destruct (EnsurePod fuel l env p (s_Name st) (r_world s)) as [[res w]|] eqn:Ee; [|done].
  intros H [Hok Hc]. pose proof (others_EnsurePod _ _ _ _ _ _ _ _ Hok Ee) as Ho. pose proof (ok_EnsurePod _ _ _ _ _ _ _ _ Hok Ee) as Hok'.
  destruct res as [[pod srv]|e]; [|simplify_eq; by split].
  apply (EnsurePod_sound (laws:=Memory.laws)) in Ee as (Hk & _ & Hs & _); [|done].
  destruct (mcp_Connect p pod srv (r_mcp s)) as [[cs|e] m]; simplify_eq; [|by split].
  split; [|done]. split; [done|]. cbn. intros st' u. rewrite lookup_insert. case_decide as Hd; [|apply Hc].
  intros [= <-]. cbn. rewrite Hk. f_equal. rewrite <- Hd. symmetry. by apply Config_Server_Some in Hs as [_ ?].
Qed.

Lemma toolsFor_own fuel l env secrets hdr p grants st (s s' : RS) r :
  toolsFor fuel l env secrets hdr p grants st s = Some (r, s') → own (p_Subject p) s s'.
Proof.
  unfold toolsFor. destruct (cache_get _ _ _ _); [by intros [= _ <-]|].
  destruct (match secrets, hdr with Some f, Some h => f h p st | _, _ => Ok ∅ end); [|by intros [= _ <-]].
  destruct (upstreamFor fuel l env p st s) as [[[u|e] s1]|] eqn:Eu; [|intros [= _ <-]; by eapply upstreamFor_own|done].
  apply upstreamFor_own in Eu. destruct (mcp_ListTools _ _) as [[raw|e] m]; intros [= _ <-] Hc; by destruct (Eu Hc).
Qed.

Lemma allTools_own fuel cfg l env secrets hdr p grants names (s s' : RS) acc ts owner :
  allTools fuel cfg l env secrets hdr p grants names s acc = Some (ts, owner, s') → own (p_Subject p) s s'.
Proof.
  revert s acc. induction names as [|n names IH]; intros s acc; cbn [allTools]; [by intros [= _ <-]|].
  destruct (Config_Server cfg n); [|by apply IH].
  destruct (toolsFor _ _ _ _ _ _ _ _ s) as [[[[out back]|] s1]|] eqn:E; [| |done]; apply toolsFor_own in E;
    intros H; (etrans; [exact E|by eapply IH]).
Qed.

Lemma addEagerTools_own fuel cfg l env secrets hdr p grants names (s s' : RS) m m' :
  addEagerTools fuel cfg l env secrets hdr p grants names s m = Some (m', s') → own (p_Subject p) s s'.
Proof.
  revert s m. induction names as [|n names IH]; intros s m; cbn [addEagerTools]; [by intros [= _ <-]|].
  destruct (Config_Server cfg n); [|by apply IH].
  destruct (toolsFor _ _ _ _ _ _ _ _ s) as [[[[out back]|] s1]|] eqn:E; [| |done]; apply toolsFor_own in E;
    intros H; (etrans; [exact E|by eapply IH]).
Qed.

Lemma doCall_own fuel l env secrets hdr p st up args (s s' : RS) u res :
  doCall fuel l env secrets hdr p st up args s = Some (u, res, s') → own (p_Subject p) s s'.
Proof.
  unfold doCall. destruct (match secrets, hdr with Some f, Some h => f h p st | _, _ => Ok ∅ end); [|by intros [= _ _ <-]].
  destruct (upstreamFor fuel l env p st s) as [[[u0|e] s1]|] eqn:Eu; [|intros [= _ _ <-]; by eapply upstreamFor_own|done].
  apply upstreamFor_own in Eu. destruct (mcp_CallTool _ _ _ _) as [r m]. intros [= _ _ <-] Hc.
  destruct (Eu Hc) as [[Hok Hc1] Ho]. split.
  - split; [|exact Hc1]. exact (Memory.ok_InFlight _ (-1) _ (Memory.ok_run (Memory.CTouch _ _) _ (Memory.ok_InFlight _ 1 _ Hok))).
  - etrans; [exact Ho|]. intros k _. reflexivity.
Qed.

Lemma call_own fuel l env secrets onCall hdr initial st exposed up args lazy (s s' : RS) r evs :
  call fuel l env secrets onCall hdr initial st exposed up args lazy s = Some (Done (r, evs, s')) →
  own (p_Subject initial) s s'.
Proof.
  unfold call. destruct (authorize _ _ _ _ _ _) as [p|e] eqn:Ea; [|destruct onCall; [done|by intros [= _ _ <-]]].
  apply authorize_Ok in Ea as (<- & _). destruct (doCall _ _ _ _ _ _ _ _ _ s) as [[[u res] s1]|] eqn:Ed; [|done].
  intros [= _ _ <-]. by eapply doCall_own.
Qed.

Lemma execute_own fuel cfg l env secrets onCall hdr p grants name args (s s' : RS) r evs :
  execute fuel cfg l env secrets onCall hdr p grants name args s = Some (Done (r, evs, s')) → own (p_Subject p) s s'.
Proof.
  unfold execute. destruct (allTools _ _ _ _ _ _ _ _ _ _ _) as [[[ts owner] s1]|] eqn:Ea; [|done]. apply allTools_own in Ea.
  destruct (owner !! name) as [[up st]|]; [|by intros [= _ _ <-]]. intros H. etrans; [exact Ea|by eapply call_own].
Qed.

Lemma handleTool_own fuel l env secrets onCall hdr sn name args h (s s' : RS) r evs :
  handleTool fuel l env secrets onCall hdr sn name args h s = Some (Done (r, evs, s')) → own (p_Subject (sn_p sn)) s s'.
Proof.
  unfold handleTool, search, describe.
  destruct h as [| | | |st up]; [by intros [= _ _ <-]|destruct (args_search args) as [[q n]|]|destruct (args_describe args) as [n|]|
    destruct (args_execute args) as [[n a]|]|]; try (by intros [= _ _ <-]).
  1, 2: destruct (allTools _ _ _ _ _ _ _ _ _ _ _) as [[[ts owner] s1]|] eqn:Ea; [|done]; intros [= _ _ <-]; by eapply allTools_own.
  - destruct (execute _ _ _ _ _ _ _ _ _ _ _ _) as [[[[r0 evs0] s1]|]|] eqn:E; try done. intros [= _ _ <-]. by eapply execute_own.
  - destruct (call _ _ _ _ _ _ _ _ _ _ _ _ _) as [[[[r0 evs0] s1]|]|] eqn:E; try done. intros [= _ _ <-]. by eapply call_own.
Qed.

(** The steps of the router: sessions begin, make calls and end, and meanwhile the
    other handlers change the world. *)
Definition with_world (w : W) (rt : RT) : RT := mkRt (rt_cache rt) w (rt_mcp rt) (rt_sessions rt).
Inductive rtstep : RT → RT → Prop :=
| rt_initialized fuel l env secrets hdr sid p clientName rt rt' :
    initialized fuel l env secrets hdr sid p clientName rt = Some rt' → rtstep rt rt'
| rt_called fuel l env secrets onCall hdr sid name args rt rt' r evs :
    callTool fuel l env secrets onCall hdr sid name args rt = Some (Done (r, evs, rt')) → rtstep rt rt'
| rt_ended sid rt : rtstep rt (endSession sid rt)
| rt_elsewhere w rt : Memory.ok (w_table w) → rtstep rt (with_world w rt).

(** Every session is connected to pods of its own subject. *)
Definition sessions_ok (rt : RT) : Prop :=
  ∀ sid sn st u, rt_sessions rt !! sid = Some sn → sn_conns sn !! st = Some u →
    pod_Key (u_pod u) = mkPodKey (p_Subject (sn_p sn)) st.
Definition rt_inv (rt : RT) : Prop := Memory.ok (w_table (rt_world rt)) ∧ sessions_ok rt.

Lemma enter_ok rt sn sid : rt_inv rt → rt_sessions rt !! sid = Some sn → conns_ok (p_Subject (sn_p sn)) (enter sn rt).
Proof. intros [Hok Hs] H. split; [exact Hok|]. intros st u. cbn. by eapply Hs. Qed.

Lemma leave_ok rt sid sn (s : RS) : rt_inv rt → conns_ok (p_Subject (sn_p sn)) s → rt_inv (leave sid sn s rt).
Proof.
  intros [_ Hs] [Hok Hc]. split; [exact Hok|]. intros sid' sn' st u. cbn. rewrite lookup_insert. case_decide; [|by apply Hs].
  intros [= <-]. cbn. apply Hc.
Qed.

(** One message of an MCP session, with what it does to the pods. *)
Lemma initialized_own fuel l env secrets hdr sid p clientName (rt rt' : RT) :
  rt_inv rt → initialized fuel l env secrets hdr sid (Some p) clientName rt = Some rt' →
  rt_inv rt' ∧ others (p_Subject p) (rt_world rt) (rt_world rt').
Proof.
  intros Hinv. cbn. destruct (gr_LazyTools _).
  - intros [= <-]. split; [|done]. destruct Hinv as [Hok Hs]. split; [exact Hok|]. intros sid' sn' st u. cbn.
    rewrite lookup_insert. case_decide; [|by apply Hs]. intros [= <-]. cbn. by rewrite lookup_empty.
  - destruct (addEagerTools _ _ _ _ _ _ _ _ _ _ _) as [[tools s]|] eqn:E; [|done]. intros [= <-].
    apply addEagerTools_own in E. destruct E as [Hc Ho].
    { destruct Hinv as [Hok _]. split; [exact Hok|]. intros st u. cbn. by rewrite lookup_empty. }
    split; [|exact Ho]. by apply leave_ok.
Qed.

Lemma callTool_own fuel l env secrets onCall hdr sid name args (rt rt' : RT) r evs :
  rt_inv rt → callTool fuel l env secrets onCall hdr sid name args rt = Some (Done (r, evs, rt')) →
  rt_inv rt' ∧ (rt_world rt' = rt_world rt ∨ ∃ sn, rt_sessions rt !! sid = Some sn ∧
    others (p_Subject (sn_p sn)) (rt_world rt) (rt_world rt')).
Proof.
  intros Hinv. unfold callTool. destruct (rt_sessions rt !! sid) as [sn|] eqn:Es; [|intros [= _ _ <-]; auto].
  destruct (sn_tools sn !! name) as [h|]; [|intros [= _ _ <-]; auto].
  destruct (handleTool _ _ _ _ _ _ _ _ _ _ _) as [[[[r0 evs0] s]|]|] eqn:Eh; try done. intros [= _ _ <-].
  destruct (handleTool_own _ _ _ _ _ _ _ _ _ _ _ _ _ _ Eh (enter_ok _ _ _ Hinv Es)) as [Hc Ho].
  split; [by apply leave_ok|]. right. by exists sn.
Qed.

Lemma rtstep_inv rt rt' : rtstep rt rt' → rt_inv rt → rt_inv rt'.
Proof.
  destruct 1 as [fuel l env secrets hdr sid [p|] cn rt rt' H|fuel l env secrets onCall hdr sid name args rt rt' r evs H|sid rt|w rt Hw]; intros Hinv.
  - by eapply initialized_own in H as [? _].
  - injection H as <-. exact Hinv.
  - by eapply callTool_own in H as [? _].
  - destruct Hinv as [Hok Hs]. split; [exact Hok|]. intros sid' sn st u. cbn. rewrite lookup_delete_Some. intros [_ ?]. by eapply Hs.
  - destruct Hinv as [_ Hs]. split; [exact Hw|exact Hs].
Qed.

Lemma rtreachable_inv w m (rt : RT) : Memory.ok (w_table w) → rtc rtstep (New w m) rt → rt_inv rt.
Proof.
  intros Hok. assert (rt_inv (New w m)) as H0. { split; [exact Hok|]. intros sid sn st u. cbn. by rewrite lookup_empty. }
  induction 1 as [|x y z Hxy _ IH]; [done|]. apply IH. by eapply rtstep_inv.
Qed.

(** ** The whole gateway *)

Context {U : Type} {http : HTTPClient U} {aead : AEAD} {jsec : JSONCodec secrets} {rip : RealIP}.
Local Notation G := (gstate Memory.Memory P B SecretsMemory.Store U).

(** A message on /mcp: the initialization of a session or a call in one. *)
Inductive rreq := RqInit (sid clientName : string) | RqCall (sid name args : string).

(** [func (rt *Router) Handler], mounted as the gateway's router hook: the router
    works on the gateway's world; [enc] is the SDK's encoding of the answer. *)
Definition mcpHook (fuel : nat) (l : Loaded) (env : reqenv) (secrets : option SecretResolver) (onCall : bool)
    (hdr : option Header) (enc : option mresult → Response) (q : rreq) (rt : RT) (p : Principal) (s : G)
    : option (outcome (Response * G)) :=
  let rt := with_world (gs_world s) rt in
  match q with
  | RqInit sid cn =>
      match initialized fuel l env secrets hdr sid (Some p) cn rt with
      | None => None
      | Some rt => Some (Done (enc None, set_world (rt_world rt) s))
      end
  | RqCall sid name args =>
      match callTool fuel l env secrets onCall hdr sid name args rt with
      | None => None
      | Some Panic => Some Panic
      | Some (Done (r, _, rt)) => Some (Done (enc r, set_world (rt_world rt) s))
      end
  end.

(** The session of a call belongs to the caller. *)
Definition owns (p : Principal) (q : rreq) (rt : RT) : Prop :=
  match q with
  | RqInit _ _ => True
  | RqCall sid _ _ => ∀ sn, rt_sessions rt !! sid = Some sn → p_Subject (sn_p sn) = p_Subject p
  end.

Lemma mcpHook_isolated fuel l env secrets onCall hdr enc q rt p (s : G) :
  sessions_ok rt → Memory.ok (w_table (gs_world s)) → owns p q rt →
  hook_isolated (Some (mcpHook fuel l env secrets onCall hdr enc q rt)) p s.
Proof.
  intros Hs Hok Hown h resp s' [= <-]. unfold mcpHook.
  assert (rt_inv (with_world (gs_world s) rt)) as Hinv by by split.
  destruct q as [sid cn|sid name args].
  - destruct (initialized _ _ _ _ _ _ _ _ _) as [rt'|] eqn:E; [|done]. intros [= _ <-].
    apply initialized_own in E as [_ Ho]; [|done]. by apply others_g_world.
  - destruct (callTool _ _ _ _ _ _ _ _ _ _) as [[[[r evs] rt']|]|] eqn:E; try done. intros [= _ <-].
    apply callTool_own in E as [_ Ho]; [|done]. apply others_g_world. destruct Ho as [->|(sn & Hsn & Ho)]; [done|].
    by rewrite (Hown sn Hsn) in Ho.
Qed.


(** whoami, search_tools and describe_tool never look at who is asking: unlike a
    call they are not authenticated again, so whoever names the session of
    another user, or whose token was revoked meanwhile, is answered from that
    session, pods included. *)
Lemma allTools_any_caller fuel cfg l env hdr hdr' p grants names (s : RS) acc :
  allTools fuel cfg l env None hdr p grants names s acc = allTools fuel cfg l env None hdr' p grants names s acc.
Proof.
  revert s acc. induction names as [|n names IH]; intros s acc; [done|]. cbn [allTools]. destruct (Config_Server cfg n) as [st|]; [|done].
  change (toolsFor fuel l env None hdr p grants st s) with (toolsFor fuel l env None hdr' p grants st s).
  destruct (toolsFor fuel l env None hdr' p grants st s) as [[[[out back]|] s1]|]; done.
Qed.
Lemma meta_tools_any_caller fuel l env onCall hdr hdr' sid sn name args h (rt : RT) :
  rt_sessions rt !! sid = Some sn → sn_tools sn !! name = Some h → h = HWhoami ∨ h = HSearch ∨ h = HDescribe →
  callTool fuel l env None onCall hdr sid name args rt = callTool fuel l env None onCall hdr' sid name args rt.
Proof.
  intros Hsn Hh Hk. unfold callTool. rewrite Hsn, Hh. unfold handleTool, search, describe.
  destruct Hk as [->|[->| ->]]; [done|..]; by rewrite (allTools_any_caller fuel (sn_cfg sn) l env hdr hdr').
Qed.
End Isolation.

(** ** Witnesses *)

Module RouterServerWitness.
Import ManagerWitness GatewayWitness GatewayServerWitness RouterWitness.
#[local] Existing Instance toy_mcp.
#[local] Existing Instance http_up.
#[local] Existing Instance GatewayWitness.pol0.
#[local] Existing Instance GatewayServerWitness.idp0.
#[local] Existing Instance rip0.
#[local] Instance margs0 : MetaArgs := {|
  args_search s := Some (s, 0); args_describe s := Some s; args_execute s := Some (s, "{}") |}.

Definition listed0 : option (gmap string thandler * rstate Memory.Memory toy_prov () ()) :=
  addEagerTools 5 sample_config l0 env0 None None bob (Policy_Grants bob "") (gr_Types (Policy_Grants bob "")) rs0 whoamiTools.
Definition tools0 : gmap string thandler := match listed0 with Some (m, _) => m | None => ∅ end.
Definition rs3 : rstate Memory.Memory toy_prov () () := match listed0 with Some (_, s) => s | None => rs0 end.


Definition sn0 : rsession () := mkRsession bob sample_config (Policy_Grants bob "") ∅ metaTools.
Definition found0 : option (mresult * rstate Memory.Memory toy_prov () ()) := search 5 l0 env0 None None sn0 "FETCH" 0 rs0.
Definition rs4 : rstate Memory.Memory toy_prov () () := match found0 with Some (_, s) => s | None => rs0 end.
Definition hits0 : list hit := [mkHit "jira__fetch" "jira" "[jira] read an issue"; mkHit "mcp-atlassian__fetch" "mcp-atlassian" "[mcp-atlassian] read an issue"].
Lemma search_shows_visible_witness : ∃ tools hs rest, MHits hits0 = MHits hs ∧
  hs ++ rest ≡ₚ map (hit_of "__") (List.filter (matches "FETCH") tools).
Proof.
  assert (search 5 l0 env0 None None sn0 "FETCH" 0 rs0 = Some (MHits hits0, rs4)) as E by (vm_compute; reflexivity).
  destruct (search_shows_visible 5 l0 env0 None None sn0 "FETCH" 0 rs0 rs4 (MHits hits0) E) as (tools & hs & rest & H1 & H2 & _).
  exists tools, hs, rest. split; [exact H1|exact H2].
Defined.

(** dana's client initializes a session on /mcp, which starts her pod. *)
Definition rt0 : rtstate Memory.Memory toy_prov () () := New w0 ().
Definition accepted (_ : option mresult) : Response := mkResponse 202 ∅ (BText "").
Definition served0 : option (outcome (gresp * gstate Memory.Memory toy_prov () SecretsMemory.Store ())) :=
  gserve no_file no_file (Some (mcpHook 5 l0 env0 None true None accepted (RqInit "sid" "cli") rt0)) None "" 5 l0
    (areq "dana-token") (RtProtected RtMCP) (s0 ()).
Definition s2 : gstate Memory.Memory toy_prov () SecretsMemory.Store () :=
  match served0 with Some (Done (_, s)) => s | _ => s0 () end.


(** A session id is all it takes: with eve's token, bob's session starts bob's pod. *)
Definition bob_session : rtstate Memory.Memory toy_prov () () :=
  mkRt (newToolCache (10 * Minute)) w0 () {["bob-session" := sn0]}.
Example search_in_foreign_session :
  match callTool 5 l0 env0 None true (Some {["Authorization" := ["Bearer eve-token"]]}) "bob-session" "search_tools" "fetch" bob_session with
  | Some (Done (Some (MHits hs), _, rt)) => hs = hits0 ∧ is_Some (Memory.pods (w_table (rt_world rt)) !! mkPodKey "bob" "jira")
  | _ => False
  end.
Proof. vm_compute. split; [reflexivity|eexists; reflexivity]. Qed.
End RouterServerWitness.
