(* ===== verification/AuditLog.v ===== *)
(** * internal/audit: what reaches the audit log

    audit.go (the redaction layer), the sinks under internal/adapters/audit, the
    record of internal/core/contracts/audit.go, and the hooks of
    internal/app/gateway.go that fill it in.  encoding/json is a parameter: the
    decoder into [any], the encoder, and whether a text is a JSON document. *)

From S2P Require Import Prelude GoStd Config Core Contracts Policy Manager Proxy Gateway Router.

Local Open Scope Z_scope.

(** [type AuditRecord struct]; an empty string of arguments is a nil RawMessage. *)
Record AuditRecord := mkAuditRecord {
  ar_Time : Z; ar_Kind : string; ar_Subject : string; ar_ServerType : string; ar_Pod : string; ar_SessionID : string;
  ar_Tool : string; ar_Upstream : string; ar_Arguments : string; ar_DurationMS : Z; ar_Outcome : string;
  ar_Error : string; ar_Lazy : bool; ar_Extra : list (string * any) }.

(** ** audit.go *)

(** [type Logger struct], without its sink. *)
Record Logger := mkLogger { lg_redact : list string }.

(** [func New] *)
Definition New (cfg : Audit) : Logger :=
  let l := ToLower <$> au_RedactArguments cfg in
  mkLogger (match l with
            | [] => ["password"; "token"; "secret"; "authorization"; "api_key"; "apikey"]
            | _ => l
            end).

(** [func (l *Logger) sensitive] *)
Definition sensitive (l : Logger) (key : string) : bool := existsb (Contains (ToLower key)) (lg_redact l).

(** The string case of [redactValue]: a bearer header or a compact JWT. *)
Definition looks_like_token (t : string) : bool :=
  HasPrefix (ToLower t) "bearer " || ((40 <? String.length t)%nat && (CountByte t "." =? 2)%nat).

(** [func (l *Logger) redactValue] *)
Fixpoint redactValue (l : Logger) (v : any) : any :=
  match v with
  | AMap m => AMap (map (λ kv, (kv.1, if sensitive l kv.1 then AString "[REDACTED]" else redactValue l kv.2)) m)
  | AList t => AList (map (redactValue l) t)
  | AString t => if looks_like_token t then AString "[REDACTED]" else v
  | _ => v
  end.

(** What audit.go and the sinks use of encoding/json. *)
Class JSONText := {
  js_Unmarshal : string → option any;
  js_Marshal : any → option string;
  js_Valid : string → bool }.

(** The marker [Redact] appends to what it cuts: three dots and a double quote. *)
Definition cut_mark : string := "..." +:+ String (Ascii.ascii_of_nat 34) "".

Section Logger.
Context `{!JSONText}.

(** [func (l *Logger) Redact(raw json.RawMessage) json.RawMessage] *)
Definition Redact (l : Logger) (raw : string) : string :=
  if String.eqb raw "" then ""
  else match js_Unmarshal raw with
       | None => String (Ascii.ascii_of_nat 34) ("[unparseable]" +:+ String (Ascii.ascii_of_nat 34) "")
       | Some v =>
           match js_Marshal (redactValue l v) with
           | None => ""
           | Some b => if 8192 <? Z.of_nat (String.length b) then str_take (Z.to_nat 8192) b +:+ cut_mark else b
           end
       end.

Definition with_arguments (t : Z) (args : string) (r : AuditRecord) : AuditRecord :=
  mkAuditRecord t (ar_Kind r) (ar_Subject r) (ar_ServerType r) (ar_Pod r) (ar_SessionID r) (ar_Tool r) (ar_Upstream r)
    args (ar_DurationMS r) (ar_Outcome r) (ar_Error r) (ar_Lazy r) (ar_Extra r).

(** ** adapters/audit/stdout and adapters/audit/file

    Both sinks encode the record and write one line; [json.Marshal] of a struct
    fails when a RawMessage field is not a JSON document, and the sink then
    returns without writing.  A line is represented by its record. *)
Definition Sink_Write (r : AuditRecord) (lines : list AuditRecord) : list AuditRecord :=
  if String.eqb (ar_Arguments r) "" || js_Valid (ar_Arguments r) then lines ++ [r] else lines.

(** [func (l *Logger) Write] over a sink *)
Definition Logger_Write (l : Logger) (now : Z) (r : AuditRecord) (lines : list AuditRecord) : list AuditRecord :=
  let t := if IsZero (ar_Time r) then now else ar_Time r in
  Sink_Write (with_arguments t (Redact l (ar_Arguments r)) r) lines.
End Logger.

(** [func New] of the file sink; [openFile] says which paths can be opened. *)
Definition file_New (options_path : option string) (auditFile : string) (openFile : string → result ()) : result string :=
  let path := default auditFile options_path in
  if String.eqb path "" then Err (EMsg "audit sink file requires gateway.audit.file")
  else match openFile path with Err e => Err e | Ok _ => Ok path end.

(** ** The hooks of app/gateway.go *)

(** [func outcome] and [func errString]; [text] is the error's [Error] method. *)
Definition outcome_text (isErr : bool) (err : option gerror) : string :=
  match err with Some _ => "error" | None => if isErr then "tool_error" else "ok" end.
Definition errString (text : gerror → string) (err : option gerror) : string :=
  match err with Some e => text e | None => "" end.
Definition Milliseconds (d : Z) : Z := Z.quot d Millisecond.

(** [rt.OnCall], [srv.Hooks.OnRequest] and [OnAdminAction]: the records written.
    The session id, arguments and duration of a call, and the duration of a
    request, are the fields which the events of Router.v and Gateway.v leave out. *)
Definition OnCall_record (text : gerror → string) (sessionID arguments : string) (duration : Z) (ev : CallEvent) : AuditRecord :=
  mkAuditRecord 0 "tool_call" (ce_Subject ev) (ce_ServerType ev) (ce_PodName ev) sessionID (ce_Tool ev)
    (ce_Upstream ev) arguments (Milliseconds duration) (outcome_text (ce_IsError ev) (ce_Err ev))
    (errString text (ce_Err ev)) (ce_Lazy ev) [].
Definition OnRequest_record (text : gerror → string) (duration : Z) (ev : RequestEvent) : AuditRecord :=
  mkAuditRecord 0 "adapter_request" (ev_Subject ev) (ev_ServerType ev) (ev_PodName ev) (ev_SessionID ev) "" "" ""
    (Milliseconds duration) (outcome_text (400 <=? ev_Status ev) (ev_Err ev)) (errString text (ev_Err ev)) false
    [("method", AString (ev_Method ev)); ("status", AInt (ev_Status ev))].
Definition OnAdminAction_record (actor action target : string) : AuditRecord :=
  mkAuditRecord 0 "admin_action" actor "" "" "" "" "" "" 0 "ok" "" false
    [("action", AString action); ("target", AString target)].

(** ** Redaction *)

(** Induction over decoded documents, with the hypotheses for the members. *)
Lemma any_nested_ind (P : any → Prop) :
  (∀ v, match v with AList _ | AMap _ => True | _ => P v end) →
  (∀ t, Forall P t → P (AList t)) → (∀ m, Forall (λ kv, P kv.2) m → P (AMap m)) → ∀ v, P v.
Proof.
  intros Hb Hl Hm. fix IH 1. intros [| b | n | num den | s | l | t | m]; [apply (Hb ANil)|apply (Hb (ABool b))|
    apply (Hb (AInt n))|apply (Hb (AFloat num den))|apply (Hb (AString s))|apply (Hb (AStrings l))| |].
  - apply Hl. induction t; constructor; [apply IH|done].
  - apply Hm. induction m; constructor; [apply IH|done].
Qed.

Section Redaction.
Variable l : Logger.

(** Two documents that differ only in what must not be logged: the values under
    sensitive keys, and strings that look like tokens. *)
Inductive low_equiv : any → any → Prop :=
| low_refl v : low_equiv v v
| low_token s t : looks_like_token s = true → looks_like_token t = true → low_equiv (AString s) (AString t)
| low_list t u : Forall2 low_equiv t u → low_equiv (AList t) (AList u)
| low_map m n :
    Forall2 (λ a b, a.1 = b.1 ∧ (sensitive l a.1 = true ∨ low_equiv a.2 b.2)) m n → low_equiv (AMap m) (AMap n).

Lemma redactValue_low v w : low_equiv v w → redactValue l v = redactValue l w.
Proof.
  revert w. pattern v. apply any_nested_ind; clear v; [intros v|intros t IH w H|intros m IH w H].
  - destruct v; try exact I; intros w H; inversion H as [|s' t' Hs Ht| |]; subst; try done. cbn. by rewrite Hs, Ht.
  - inversion H as [| |? u HF|]; subst; [done|]. cbn. f_equal.
    clear H. induction HF as [|a b t' u' Hab HF IHF]; [done|]. inversion IH as [|?? Ha Ht]; subst. cbn.
    f_equal; auto.
  - inversion H as [| | |? n HF]; subst; [done|]. cbn. f_equal.
    clear H. induction HF as [|a b m' n' [Hk Hab] HF IHF]; [done|]. inversion IH as [|?? Ha Ht]; subst. cbn.
    rewrite <- Hk, IHF by done. destruct Hab as [->|Hab]; [done|]. by rewrite (Ha _ Hab).
Qed.

Lemma redactValue_idempotent v : redactValue l (redactValue l v) = redactValue l v.
Proof.
  pattern v. apply any_nested_ind; clear v; [intros v|intros t IH|intros m IH].
  - destruct v; try done. cbn. destruct (looks_like_token s) eqn:E; cbn; [done|]. by rewrite E.
  - cbn. rewrite map_map. f_equal. induction IH as [|v t Hv Ht IHt]; [done|]. cbn. by rewrite Hv, IHt.
  - cbn. f_equal. induction IH as [|[k v] m Hv Hm IHm]; [done|]. cbn in *. rewrite IHm.
    destruct (sensitive l k); cbn; [done|]. by rewrite Hv.
Qed.

(** C35. The arguments written for a tool call depend on nothing secret: two calls
    whose arguments decode to documents that differ only under sensitive keys or
    in strings that look like tokens leave the same line in the audit log. *)
Theorem Write_noninterference `{!JSONText} now r raw1 raw2 v1 v2 lines :
  js_Unmarshal raw1 = Some v1 → js_Unmarshal raw2 = Some v2 → raw1 ≠ "" → raw2 ≠ "" → low_equiv v1 v2 →
  Logger_Write l now (with_arguments (ar_Time r) raw1 r) lines = Logger_Write l now (with_arguments (ar_Time r) raw2 r) lines.
Proof.
  intros H1 H2 Hn1 Hn2 Hv. unfold Logger_Write, Redact. cbn.
  apply String.eqb_neq in Hn1 as ->. apply String.eqb_neq in Hn2 as ->.
  by rewrite H1, H2, (redactValue_low _ _ Hv).
Qed.

(** What JSON says of an object, for any validator: it begins and ends with its braces. *)
Definition object_braces `{!JSONText} : Prop :=
  ∀ s, js_Valid (String "{" s) = true → HasSuffix s "}" = true.

Lemma str_take_cons n c s : str_take (S n) (String c s) = String c (str_take n s).
Proof. done. Qed.

Lemma HasSuffix_cut s c : HasSuffix (s +:+ cut_mark) (String c "") = Ascii.eqb c (Ascii.ascii_of_nat 34).
Proof.
  unfold HasSuffix, cut_mark. rewrite !str_length_app. cbn [String.length].
  replace (String.length s + (3 + 1) - 1)%nat with (String.length (s +:+ "...")) by (rewrite str_length_app; cbn; lia).
  rewrite <- str_app_assoc. rewrite str_drop_app. cbn. rewrite Ascii.eqb_sym.
  destruct (Ascii.eqb _ _); [|by rewrite andb_false_r]. by rewrite andb_true_r, Nat.add_comm.
Qed.

(** A tool call with object arguments whose redacted text is longer than 8192
    bytes leaves no trace in the audit log: the cut text is not a JSON document,
    so encoding the record fails and the sink drops it. *)
Theorem long_arguments_are_not_audited `{!JSONText} now r v b lines :
  object_braces → ar_Arguments r ≠ "" → js_Unmarshal (ar_Arguments r) = Some v →
  js_Marshal (redactValue l v) = Some (String "{" b) → 8192 < Z.of_nat (String.length (String "{" b)) →
  Logger_Write l now r lines = lines.
Proof.
  intros Hb Hne Hu Hm Hlen. unfold Logger_Write, Sink_Write, Redact.
  apply String.eqb_neq in Hne as ->. rewrite Hu, Hm. apply Z.ltb_lt in Hlen as ->. cbn [ar_Arguments with_arguments].
  change (Z.to_nat 8192) with (S (Z.to_nat 8191)). rewrite str_take_cons, str_app_cons. cbn [String.eqb orb].
  destruct (js_Valid _) eqn:Ev; [|done]. apply Hb in Ev. by rewrite HasSuffix_cut in Ev.
Qed.
End Redaction.

(** ** Witnesses *)

Module AuditWitness.
Definition lg0 : Logger := New (mkAudit "" ∅ "" []).
Definition doc (pw tok : string) : any :=
  AMap [("user", AString "bob"); ("dbPassword", AString pw); ("headers", AList [AString tok])].
(** Two documents, by the names [a] and [b]. *)
#[local] Instance js0 : JSONText := {|
  js_Unmarshal s := if String.eqb s "a" then Some (doc "hunter2" "Bearer abc") else
                    if String.eqb s "b" then Some (doc "correct horse" "bearer xyz") else None;
  js_Marshal v := Some (match v with AMap _ => "{...}" | _ => "" end);
  js_Valid s := match s with String "{" s => HasSuffix s "}" | _ => true end |}.
Definition r0 : AuditRecord := OnCall_record (λ _, "") "s" "" 0 (mkCallEvent "alice" "jira" "p" "t" "t" false None false).

Lemma doc_low : low_equiv lg0 (doc "hunter2" "Bearer abc") (doc "correct horse" "bearer xyz").
Proof.
  apply low_map. constructor; [split; [done|right; apply low_refl]|].
  constructor; [split; [done|left; by vm_compute]|].
  constructor; [split; [done|right]|constructor].
  apply low_list. constructor; [|constructor]. by apply low_token; vm_compute.
Qed.

Lemma Write_noninterference_witness :
  Logger_Write lg0 7 (with_arguments 0 "a" r0) [] = Logger_Write lg0 7 (with_arguments 0 "b" r0) [].
Proof.
  refine (Write_noninterference lg0 7 r0 "a" "b" _ _ [] eq_refl eq_refl _ _ doc_low); done.
Defined.

Fixpoint rep (n : nat) (s : string) : string := match n with O => "" | S n => s +:+ rep n s end.
Definition big : string := rep 700 "lorem ipsum, ".
#[local] Instance js1 : JSONText := {|
  js_Unmarshal s := Some (AMap [("text", AString s)]);
  js_Marshal v := match v with AMap [(_, AString s)] => Some (String "{" (s +:+ "}")) | _ => None end;
  js_Valid s := match s with String "{" s => HasSuffix s "}" | _ => true end |}.

Lemma long_arguments_are_not_audited_witness : Logger_Write lg0 7 (with_arguments 0 big r0) [] = [].
Proof.
  refine (long_arguments_are_not_audited lg0 (H:=js1) 7 (with_arguments 0 big r0) (AMap [("text", AString big)]) (big +:+ "}") [] _ _ _ _ _);
    [intros s Hs; exact Hs|by vm_compute..].
Defined.

(** A short call is logged, with its secrets replaced. *)
Example short_call_is_logged : length (Logger_Write lg0 7 (with_arguments 0 "a" r0) []) = 1%nat.
Proof. by vm_compute. Qed.
Example doc_redacted : redactValue lg0 (doc "hunter2" "Bearer abc") = doc "[REDACTED]" "[REDACTED]".
Proof. by vm_compute. Qed.
End AuditWitness.
