(* ===== verification/Wrapper.v ===== *)
(** * internal/wrapper: the process inside a session pod

    child.go (the stdio server process as a state machine), redact.go,
    config.go, and the request handling of server.go and httpmode.go.  Starting
    a process and writing files succeed or fail as the environment says. *)

From S2P Require Import Prelude GoStd Sha256 Config Core Fixtures Contracts RoutingMemory RoutingRedis Vault Policy Manager Proxy Gateway.

Local Open Scope Z_scope.

(** ** config.go *)

(** [type TLSFiles struct] and [type Config struct] of the wrapper. *)
Record TLSFiles := mkTLSFiles { tf_CertFile : string; tf_KeyFile : string; tf_ClientCAFile : string; tf_GatewayURI : string }.
Record WConfig := mkWConfig {
  wc_ServerName : string; wc_Transport : Transport; wc_Command : list string; wc_Args : list string;
  wc_Env : gmap string string; wc_HTTPPort : Z; wc_HTTPPath : string; wc_ListenPort : Z; wc_ReadinessPort : Z;
  wc_PodTokenFile : string; wc_Token : Token; wc_Restart : RestartPolicy; wc_StartupTimeout : Z;
  wc_LogRedaction : bool; wc_UserSecrets : list UserSecretItem; wc_SecretHeaderPrefix : string;
  wc_SealedHeader : string; wc_TLS : option TLSFiles }.

(** [func ConfigFromServer] *)
Definition ConfigFromServer (s : Server) (listenPort readinessPort : Z) (podTokenFile : string) : WConfig :=
  {| wc_ServerName := s_Name s; wc_Transport := s_Transport s; wc_Command := s_Command s; wc_Args := s_Args s;
     wc_Env := s_Env s;
     wc_HTTPPort := match s_HTTP s with Some h => h_Port h | None => 0 end;
     wc_HTTPPath := match s_HTTP s with Some h => h_Path h | None => "" end;
     wc_ListenPort := listenPort; wc_ReadinessPort := readinessPort; wc_PodTokenFile := podTokenFile;
     wc_Token := s_Token s; wc_Restart := w_Restart (s_Wrapper s);
     wc_StartupTimeout := Duration_Or (w_StartupTimeout (s_Wrapper s)) (20 * Second);
     wc_LogRedaction := match w_LogRedaction (s_Wrapper s) with Some b => b | None => true end;
     wc_UserSecrets := match s_UserSecrets s with Some us => us_Items us | None => [] end;
     wc_SecretHeaderPrefix := "X-Juggernaut-Secret-";
     wc_SealedHeader := "X-Juggernaut-Sealed-Secrets";
     wc_TLS := None |}.

(** ** redact.go *)

(** [type Redactor struct] *)
Record Redactor := mkRedactor { rd_secrets : list string; rd_enabled : bool }.
Definition NewRedactor (enabled : bool) : Redactor := mkRedactor [] enabled.

(** [func (r *Redactor) Add]: the last sixteen secrets are kept. *)
Definition Redactor_Add (secret : string) (r : Redactor) : Redactor :=
  if String.eqb secret "" then r
  else
    let l := rd_secrets r ++ [secret] in
    mkRedactor (if (16 <? length l)%nat then drop (length l - 16) l else l) (rd_enabled r).

(** [bearerRe]: case-insensitive "bearer", white space, 16 or more token bytes. *)
Definition re_space (c : ascii) : bool := existsb (Ascii.eqb c) ["009"; "010"; "012"; "013"; " "]%char.
Definition re_token (c : ascii) : bool :=
  let n := Ascii.nat_of_ascii c in
  ((65 <=? n) && (n <=? 90))%nat || ((97 <=? n) && (n <=? 122))%nat || ((48 <=? n) && (n <=? 57))%nat
  || existsb (Ascii.eqb c) ["."; "_"; "~"; "+"; "/"; "="; "-"]%char.
Fixpoint re_span (f : ascii → bool) (s : string) : nat :=
  match s with String c s' => if f c then S (re_span f s') else O | EmptyString => O end.
(** The length of a match at the start of the text. *)
Definition bearer_match (s : string) : option nat :=
  if HasPrefixFold s "bearer" then
    let r := str_drop 6 s in
    let sp := re_span re_space r in
    let tk := re_span re_token (str_drop sp r) in
    if (1 <=? sp)%nat && (16 <=? tk)%nat then Some (6 + sp + tk)%nat else None
  else None.
Fixpoint bearer_replace (fuel : nat) (s : string) : string :=
  match fuel with
  | O => s
  | S fuel' =>
      match s with
      | EmptyString => EmptyString
      | String c s' =>
          match bearer_match s with
          | Some n => "Bearer [REDACTED]" +:+ bearer_replace fuel' (str_drop n s)
          | None => String c (bearer_replace fuel' s')
          end
      end
  end.

(** [func (r *Redactor) Scrub] *)
Definition Scrub (line : string) (r : Redactor) : string :=
  if negb (rd_enabled r) then line
  else
    let line := fold_left (λ l s, ReplaceAll l s "[REDACTED]") (rd_secrets r) line in
    bearer_replace (S (String.length line)) line.

(** ** child.go *)

(** What the operating system does when the child is (re)started: the clock,
    whether the MCP handshake succeeds, which files can be written and the
    wrapper's own environment. *)
Record sysenv := mkSysenv {
  sy_now : Z; sy_connects : bool; sy_writable : string → bool; sy_getenv : string → option string }.

(** [type Child struct]; a client session is identified by the generation it was
    started in.  [ch_env] and [ch_files] are what the last start gave the child. *)
Record Child := mkChild {
  ch_session : option Z; ch_token : string; ch_secretsFP : string; ch_restarts : list Z; ch_generation : Z;
  ch_inflight : Z; ch_restartAtIdle : bool; ch_redactor : Redactor; ch_env : list string; ch_files : gmap string string }.

Definition NewChild (r : Redactor) : Child := mkChild None "" "" [] 0 0 false r [] ∅.

(** [func fingerprint(secrets map[string]string) string] *)
Definition fingerprint (secs : secrets) : string :=
  if bool_decide (secs = ∅) then ""
  else
    let ks := sort_Strings (map_to_list secs).*1 in
    hex_EncodeToString (Sum256 (mac_input (ks ≫= λ k, [k; default "" (secs !! k)]))).

(** [func childEnv] *)
Definition childEnv (cfg : WConfig) (getenv : string → option string) (token : string) : list string :=
  ["PATH=" +:+ default "" (getenv "PATH"); "HOME=/tmp"; "TMPDIR=/tmp"]
  ++ omap (λ k, (λ v, k +:+ "=" +:+ v) <$> getenv k) ["HTTPS_PROXY"; "HTTP_PROXY"; "NO_PROXY"; "SSL_CERT_FILE"]
  ++ ((λ kv, kv.1 +:+ "=" +:+ kv.2) <$> map_to_list (wc_Env cfg))
  ++ match t_Mode (wc_Token cfg) with
     | TokenEnv => if String.eqb token "" then [] else [t_Env (wc_Token cfg) +:+ "=" +:+ token]
     | TokenFile => ["JUGGERNAUT_TOKEN_FILE=" +:+ t_File (wc_Token cfg)]
     | _ => []
     end.

Section Child.
Variable cfg : WConfig.

Definition set_restarts (l : list Z) (c : Child) : Child :=
  mkChild (ch_session c) (ch_token c) (ch_secretsFP c) l (ch_generation c) (ch_inflight c) (ch_restartAtIdle c)
    (ch_redactor c) (ch_env c) (ch_files c).
Definition set_redactor (r : Redactor) (c : Child) : Child :=
  mkChild (ch_session c) (ch_token c) (ch_secretsFP c) (ch_restarts c) (ch_generation c) (ch_inflight c)
    (ch_restartAtIdle c) r (ch_env c) (ch_files c).
Definition set_files (f : gmap string string) (c : Child) : Child :=
  mkChild (ch_session c) (ch_token c) (ch_secretsFP c) (ch_restarts c) (ch_generation c) (ch_inflight c)
    (ch_restartAtIdle c) (ch_redactor c) (ch_env c) f.
Definition set_inflight (n : Z) (c : Child) : Child :=
  mkChild (ch_session c) (ch_token c) (ch_secretsFP c) (ch_restarts c) (ch_generation c) n
    (ch_restartAtIdle c) (ch_redactor c) (ch_env c) (ch_files c).
Definition set_restartAtIdle (b : bool) (c : Child) : Child :=
  mkChild (ch_session c) (ch_token c) (ch_secretsFP c) (ch_restarts c) (ch_generation c) (ch_inflight c)
    b (ch_redactor c) (ch_env c) (ch_files c).
Definition set_fp (fp : string) (c : Child) : Child :=
  mkChild (ch_session c) (ch_token c) fp (ch_restarts c) (ch_generation c) (ch_inflight c)
    (ch_restartAtIdle c) (ch_redactor c) (ch_env c) (ch_files c).

(** [func (c *Child) stopLocked] *)
Definition stopLocked (c : Child) : Child :=
  mkChild None (ch_token c) (ch_secretsFP c) (ch_restarts c) (ch_generation c + 1) (ch_inflight c)
    (ch_restartAtIdle c) (ch_redactor c) (ch_env c) (ch_files c).

(** [func (c *Child) restartAllowedLocked] *)
Definition restartAllowedLocked (now : Z) (c : Child) : bool * Child :=
  let window := Duration_Or (rp_Window (wc_Restart cfg)) (10 * Minute) in
  let kept := List.filter (λ t, now - window <? t) (ch_restarts c) in
  let max := or_int (rp_MaxRestarts (wc_Restart cfg)) 5 in
  (Z.of_nat (length kept) <=? max, set_restarts kept c).

(** The loop of [startLocked] over the declared secrets: environment, files and
    redaction; a file that cannot be written ends the start. *)
Fixpoint deliverSecrets (sys : sysenv) (items : list UserSecretItem) (secs : secrets) (env : list string) (c : Child)
    : result (list string) * Child :=
  match items with
  | [] => (Ok env, c)
  | it :: rest =>
      match secs !! us_Name it with
      | None => deliverSecrets sys rest secs env c
      | Some v =>
          let c := set_redactor (Redactor_Add v (ch_redactor c)) c in
          let env := if String.eqb (us_Env it) "" then env else env ++ [us_Env it +:+ "=" +:+ v] in
          if String.eqb (us_File it) "" then deliverSecrets sys rest secs env c
          else if sy_writable sys (us_File it)
               then deliverSecrets sys rest secs env (set_files (<[us_File it := v]> (ch_files c)) c)
               else (Err (EMsg ("secret file " +:+ us_File it)), c)
      end
  end.

(** [func (c *Child) startLocked] *)
Definition startLocked (sys : sysenv) (token : string) (secs : secrets) (c : Child) : result () * Child :=
  match wc_Command cfg with
  | [] => (Err (EMsg "wrapper: no command configured"), c)
  | _ :: _ =>
      match deliverSecrets sys (wc_UserSecrets cfg) secs (childEnv cfg (sy_getenv sys) token) c with
      | (Err e, c) => (Err e, c)
      | (Ok env, c) =>
          let tokfile := bool_decide (t_Mode (wc_Token cfg) = TokenFile) && negb (String.eqb token "") in
          if tokfile && negb (sy_writable sys (t_File (wc_Token cfg))) then (Err (EMsg "token file"), c)
          else
            let c := if tokfile then set_files (<[t_File (wc_Token cfg) := token]> (ch_files c)) c else c in
            let c := set_redactor (Redactor_Add token (ch_redactor c)) c in
            if negb (sy_connects sys) then
              (Err (EMsg "start child"), set_restarts (ch_restarts c ++ [sy_now sys]) c)
            else
              let gen := ch_generation c + 1 in
              (Ok (), mkChild (Some gen) token (ch_secretsFP c) (ch_restarts c) gen (ch_inflight c)
                        (ch_restartAtIdle c) (ch_redactor c) env (ch_files c))
      end
  end.

(** The token or a secret differs from what the child was started with. *)
Definition rotated (token fp : string) (c : Child) : bool :=
  (bool_decide (t_Mode (wc_Token cfg) = TokenEnv) && negb (String.eqb token "") && negb (String.eqb token (ch_token c)))
  || (negb (String.eqb fp "") && negb (String.eqb fp (ch_secretsFP c))).

(** The start path of [sessionLocked]. *)
Definition startSession (sys : sysenv) (token : string) (secs : secrets) (c : Child) : result Z * Child :=
  match restartAllowedLocked (sy_now sys) c with
  | (false, c) => (Err ErrRestartBudget, c)
  | (true, c) =>
      match startLocked sys token secs c with
      | (Err e, c) => (Err e, c)
      | (Ok _, c) => (Ok (ch_generation c), set_fp (fingerprint secs) c)
      end
  end.

(** [func (c *Child) sessionLocked] *)
Definition sessionLocked (sys : sysenv) (token : string) (secs : secrets) (c : Child) : result Z * Child :=
  match ch_session c with
  | Some sess =>
      if rotated token (fingerprint secs) c then
        if ch_inflight c =? 0 then startSession sys token secs (stopLocked c)
        else (Ok sess, set_restartAtIdle true c)
      else (Ok sess, c)
  | None => startSession sys token secs c
  end.

(** [func (c *Child) Acquire] *)
Definition Acquire (sys : sysenv) (token : string) (secs : secrets) (c : Child) : result Z * Child :=
  match sessionLocked sys token secs c with
  | (Err e, c) => (Err e, c)
  | (Ok sess, c) => (Ok sess, set_inflight (ch_inflight c + 1) c)
  end.

(** [func (c *Child) Begin], [End], [waitExit], [Close] and [Healthy] *)
Definition Begin (c : Child) : Child := set_inflight (ch_inflight c + 1) c.

Definition End_ (c : Child) : Child :=
  let c := if 0 <? ch_inflight c then set_inflight (ch_inflight c - 1) c else c in
  if (ch_inflight c =? 0) && ch_restartAtIdle c then stopLocked (set_restartAtIdle false c) else c.

Definition waitExit (now gen : Z) (c : Child) : Child :=
  if negb (ch_generation c =? gen) then c
  else
    mkChild None (ch_token c) (ch_secretsFP c) (ch_restarts c ++ [now]) (ch_generation c) (ch_inflight c)
      (ch_restartAtIdle c) (ch_redactor c) (ch_env c) (ch_files c).

Definition Close (c : Child) : Child := stopLocked c.
Definition Healthy (now : Z) (c : Child) : bool * Child := restartAllowedLocked now c.

(** Everything that can happen to a child, in the order the mutex admits it. *)
Inductive step : Child → Child → Prop :=
| step_Session sys token secs c : step c (sessionLocked sys token secs c).2
| step_Acquire sys token secs c : step c (Acquire sys token secs c).2
| step_Begin c : step c (Begin c)
| step_End c : step c (End_ c)
| step_exit now gen c : step c (waitExit now gen c)
| step_Close c : step c (Close c)
| step_Healthy now c : step c (Healthy now c).2.
End Child.

(** ** server.go *)

(** [func (s *Server) requirePodToken] on the received headers. *)
Definition requirePodToken (podToken : string) (h : Header) : bool :=
  let got := Header_Get h HeaderPodToken in
  (String.length got =? String.length podToken)%nat && bool_decide (string_bytes got = string_bytes podToken).

(** [func (s *Server) userTokenFrom] *)
Definition userTokenFrom (cfg : WConfig) (h : Header) : string :=
  if negb (bool_decide (t_Mode (wc_Token cfg) = TokenEnv)) && negb (bool_decide (t_Mode (wc_Token cfg) = TokenFile)) then ""
  else
    let v := Header_Get h "Authorization" in
    if (7 <? String.length v)%nat && EqualFold (str_take 7 v) "bearer " then TrimSpace (str_drop 7 v) else "".

(** [func (s *Server) userSecretsFrom]; [pub] and [priv] are the pod's key pair. *)
Definition userSecretsFrom {nb : NaclBox} {jsec : JSONCodec secrets} (cfg : WConfig) (pub priv : list Z) (h : Header)
    : result secrets :=
  let out := fold_left (λ m it,
      let v := Header_Get h (wc_SecretHeaderPrefix cfg +:+ us_Name it) in
      if String.eqb v "" then m else <[us_Name it := v]> m) (wc_UserSecrets cfg) (∅ : secrets) in
  let blob := Header_Get h (wc_SealedHeader cfg) in
  if String.eqb blob "" then Ok out
  else
    match base64url_DecodeString blob with
    | None => Err (EMsg "sealed secrets: bad encoding")
    | Some raw =>
        match OpenFromClient pub priv raw with
        | Err e => Err e
        | Ok vals =>
            Ok (fold_left (λ m it, match vals !! us_Name it with Some v => <[us_Name it := v]> m | None => m end)
                  (wc_UserSecrets cfg) out)
        end
    end.

(** ** httpmode.go *)

(** The header part of the reverse proxy's [Director]. *)
Definition directorHeaders (cfg : WConfig) (h : Header) : Header :=
  let tok := Header_Get h "Authorization" in
  let h := Header_Del HeaderSubject (Header_Del HeaderPodToken h) in
  let h := fold_left (λ h it,
      let v := Header_Get h (wc_SecretHeaderPrefix cfg +:+ us_Name it) in
      if negb (String.eqb v "") && negb (String.eqb (us_Header it) "") then Header_Set (us_Header it) v h else h)
      (wc_UserSecrets cfg) h in
  let h := fold_left (λ d k, if isJuggernaut k then Header_Del k d else d) (map_to_list h).*1 h in
  if bool_decide (t_Mode (wc_Token cfg) = TokenHeader) && negb (String.eqb tok "") then
    let hn := or_str (t_Header (wc_Token cfg)) "Authorization" in
    if String.eqb hn "Authorization" then h
    else
      let val := TrimSpace (TrimPrefix tok "Bearer") in
      let val := if String.eqb (t_Scheme (wc_Token cfg)) "" then val else t_Scheme (wc_Token cfg) +:+ " " +:+ val in
      Header_Set hn val (Header_Del "Authorization" h)
  else h.

(** ** The child state machine *)

Section ChildProofs.
Variable cfg : WConfig.

(** The running session belongs to the current generation, the in-flight count
    is not negative, and in env mode the child's environment carries the token
    it was started with. *)
Record child_ok (c : Child) : Prop := {
  ck_inflight : 0 ≤ ch_inflight c;
  ck_gen : ∀ g, ch_session c = Some g → g = ch_generation c;
  ck_env : ∀ g, ch_session c = Some g → t_Mode (wc_Token cfg) = TokenEnv → ch_token c ≠ "" →
    t_Env (wc_Token cfg) +:+ "=" +:+ ch_token c ∈ ch_env c }.

Lemma childEnv_token getenv token :
  t_Mode (wc_Token cfg) = TokenEnv → token ≠ "" →
  t_Env (wc_Token cfg) +:+ "=" +:+ token ∈ childEnv cfg getenv token.
Proof.
  intros Hm Ht. unfold childEnv. rewrite Hm. apply String.eqb_neq in Ht as ->.
  rewrite !elem_of_app. right. right. right. by apply list_elem_of_singleton.
Qed.

(** Delivering the secrets only adds to the environment and touches neither the
    session nor the counters. *)
Lemma deliverSecrets_frame sys items secs env c res c' :
  deliverSecrets sys items secs env c = (res, c') →
  ch_session c' = ch_session c ∧ ch_inflight c' = ch_inflight c ∧ ch_generation c' = ch_generation c ∧
  ch_token c' = ch_token c ∧ ch_env c' = ch_env c ∧ ch_secretsFP c' = ch_secretsFP c ∧
  ch_restarts c' = ch_restarts c ∧ ch_restartAtIdle c' = ch_restartAtIdle c ∧
  (∀ env', res = Ok env' → ∀ e, e ∈ env → e ∈ env').
Proof.
  revert env c. induction items as [|it items IH]; intros env c; cbn [deliverSecrets].
  { intros [= <- <-]. split_and!; try done. by intros ? [= <-]. }
  destruct (secs !! us_Name it) as [v|]; [|by apply IH].
  assert (∀ e, e ∈ env → e ∈ (if String.eqb (us_Env it) "" then env else env ++ [us_Env it +:+ "=" +:+ v])) as Henv.
  { intros e He. case_match; [done|]. apply elem_of_app. by left. }
  destruct (String.eqb (us_File it) "").
  { intros H. apply IH in H as (? & ? & ? & ? & ? & ? & ? & ? & He). split_and!; eauto. }
  destruct (sy_writable sys (us_File it)).
  - intros H. apply IH in H as (? & ? & ? & ? & ? & ? & ? & ? & He). split_and!; eauto.
  - intros [= <- <-]. split_and!; done.
Qed.

Lemma startLocked_cases sys token secs c res c' :
  startLocked cfg sys token secs c = (res, c') →
  ch_inflight c' = ch_inflight c ∧
  match res with
  | Ok _ => ch_session c' = Some (ch_generation c') ∧ ch_token c' = token ∧ ch_restarts c' = ch_restarts c ∧
      (t_Mode (wc_Token cfg) = TokenEnv → token ≠ "" → t_Env (wc_Token cfg) +:+ "=" +:+ token ∈ ch_env c')
  | Err _ => ch_session c' = ch_session c ∧ ch_generation c' = ch_generation c ∧ ch_token c' = ch_token c ∧
      ch_env c' = ch_env c
  end.
Proof.
  unfold startLocked. destruct (wc_Command cfg) as [|cmd rest]; [by intros [= <- <-]|].
  destruct (deliverSecrets _ _ _ _ _) as [[env|e] c1] eqn:Ed;
    apply deliverSecrets_frame in Ed as (Hs & Hi & Hg & Ht & He & Hf & Hr & Hra & Henv); [|intros [= <- <-]; done].
  destruct (_ && negb (sy_writable sys _)); [intros [= <- <-]; done|].
  destruct (bool_decide (t_Mode (wc_Token cfg) = TokenFile) && negb (String.eqb token ""));
    destruct (sy_connects sys); cbn [negb]; intros [= <- <-]; cbn; split_and!; try done;
    intros Hm Htok; apply (Henv env eq_refl), childEnv_token; done.
Qed.

Lemma child_ok_startSession sys token secs c :
  child_ok c → ch_session c = None → child_ok (startSession cfg sys token secs c).2.
Proof.
  intros [Hi Hg He] Hn. unfold startSession. destruct (restartAllowedLocked cfg (sy_now sys) c) as [b c1] eqn:Er.
  injection Er as _ <-. destruct b; [|split; cbn; [done|intros g Hg'; congruence..]].
  destruct (startLocked cfg sys token secs _) as [[[]|e] c2] eqn:Es; apply startLocked_cases in Es as [Hi2 H]; cbn in *.
  - destruct H as (Hs & Ht & _ & Henv). split; cbn; [lia|rewrite Hs; naive_solver|].
    intros g _ Hm Htok. rewrite Ht in *. by apply Henv.
  - destruct H as (Hs & _). rewrite Hn in Hs. split; [lia|intros g Hg'; congruence..].
Qed.

Lemma child_ok_stop c : child_ok c → child_ok (stopLocked c).
Proof. intros [Hi _ _]. by split. Qed.

Lemma child_ok_session sys token secs c : child_ok c → child_ok (sessionLocked cfg sys token secs c).2.
Proof.
  intros Hok. unfold sessionLocked. destruct (ch_session c) as [g|] eqn:Es; [|by apply child_ok_startSession].
  destruct (rotated _ _ _ _); [|done]. destruct (ch_inflight c =? 0).
  - apply child_ok_startSession; [by apply child_ok_stop|done].
  - destruct Hok. by split.
Qed.

Lemma child_ok_step c c' : child_ok c → step cfg c c' → child_ok c'.
Proof.
  intros Hok Hs. destruct Hs.
  - by apply child_ok_session.
  - unfold Acquire. pose proof (child_ok_session sys token secs c Hok) as H.
    destruct (sessionLocked cfg sys token secs c) as [[g|e] c1]; [|done]. destruct H. split; cbn in *; [lia|done..].
  - destruct Hok. split; cbn; [lia|done..].
  - unfold End_. set (c1 := if 0 <? ch_inflight c then _ else c).
    assert (child_ok c1) as H1. { unfold c1. destruct Hok. destruct (Z.ltb_spec 0 (ch_inflight c)); [|by split]. split; cbn; [lia|done..]. }
    case_match; [|done]. apply child_ok_stop. destruct H1. by split.
  - unfold waitExit. case_match; [done|]. destruct Hok. by split.
  - by apply child_ok_stop.
  - destruct Hok. by split.
Qed.

(** Reachable states: any sequence of calls, crashes and probes. *)
Definition reachable (r : Redactor) (c : Child) : Prop := rtc (step cfg) (NewChild r) c.

Lemma reachable_ok r c : reachable r c → child_ok c.
Proof.
  unfold reachable. assert (child_ok (NewChild r)) as H0 by by split.
  revert H0. generalize (NewChild r) as c0. intros c0 H0 H.
  induction H as [|c1 c2 c3 Hs _ IH]; [done|]. apply IH. by eapply child_ok_step.
Qed.

Lemma startSession_ok sys token secs c g c' :
  startSession cfg sys token secs c = (Ok g, c') →
  ch_session c' = Some g ∧ ch_token c' = token ∧ ch_secretsFP c' = fingerprint secs ∧ ch_inflight c' = ch_inflight c ∧
  (t_Mode (wc_Token cfg) = TokenEnv → token ≠ "" → t_Env (wc_Token cfg) +:+ "=" +:+ token ∈ ch_env c').
Proof.
  unfold startSession. destruct (restartAllowedLocked cfg (sy_now sys) c) as [b c2] eqn:Er.
  injection Er as _ <-. destruct b; [|done].
  destruct (startLocked cfg sys token secs _) as [[[]|e] c3] eqn:Es; [|done].
  apply startLocked_cases in Es as [Hi (Hs & Ht & _ & He)]. intros [= <- <-]. by split_and!.
Qed.

Lemma Acquire_idle r c sys token secs g c' :
  reachable r c → ch_inflight c = 0 → t_Mode (wc_Token cfg) = TokenEnv → token ≠ "" →
  Acquire cfg sys token secs c = (Ok g, c') →
  ch_session c' = Some g ∧ g = ch_generation c' ∧ ch_token c' = token ∧
  t_Env (wc_Token cfg) +:+ "=" +:+ token ∈ ch_env c' ∧
  (fingerprint secs ≠ "" → ch_secretsFP c' = fingerprint secs) ∧ ch_inflight c' = 1.
Proof.
  intros Hr Hidle Hm Htok Ha. pose proof (reachable_ok _ _ Hr) as Hok.
  assert (child_ok c') as Hok'.
  { apply (child_ok_step c); [done|]. pose proof (step_Acquire cfg sys token secs c) as H. by rewrite Ha in H. }
  revert Ha. unfold Acquire. destruct (sessionLocked cfg sys token secs c) as [[g0|] c1] eqn:Es; [|done]. intros [= <- <-].
  cut (ch_session c1 = Some g0 ∧ ch_token c1 = token ∧ t_Env (wc_Token cfg) +:+ "=" +:+ token ∈ ch_env c1 ∧
       (fingerprint secs ≠ "" → ch_secretsFP c1 = fingerprint secs) ∧ ch_inflight c1 = 0).
  { intros (? & ? & ? & ? & Hi). split_and!; [done|by apply (ck_gen _ Hok')|done..|cbn; lia]. }
  unfold sessionLocked in Es. destruct (ch_session c) as [g|] eqn:Esess.
  2:{ apply startSession_ok in Es as (? & ? & ? & ? & ?). split_and!; auto; lia. }
  destruct (rotated _ _ _ _) eqn:Erot.
  - rewrite Hidle in Es. change (0 =? 0) with true in Es. cbn match in Es.
    apply startSession_ok in Es as (? & ? & ? & Hi & ?). split_and!; auto. by rewrite Hi.
  - injection Es as <- <-. unfold rotated in Erot. rewrite bool_decide_eq_true_2 in Erot by done. cbn [andb] in Erot.
    apply orb_false_iff in Erot as [Et Ef]. apply andb_false_iff in Et as [Et|Et]; bprop; [done|]. subst token.
    split_and!; [done..|by eapply ck_env| |done].
    intros Hf. apply andb_false_iff in Ef as [Ef|Ef]; bprop; done.
Qed.

(** A call that finds the pod idle never runs with stale credentials: in
    every reachable state with nothing in flight, a successful acquire hands out
    the running session of the current generation; in env mode the process
    behind it was started with the token of this very request, and if the
    request carries secrets it was started with secrets of this fingerprint. *)
Theorem Acquire_uses_current_token r c sys token secs g c' :
  reachable r c → ch_inflight c = 0 → t_Mode (wc_Token cfg) = TokenEnv → token ≠ "" →
  Acquire cfg sys token secs c = (Ok g, c') →
  ch_session c' = Some g ∧ g = ch_generation c' ∧ ch_token c' = token ∧
  t_Env (wc_Token cfg) +:+ "=" +:+ token ∈ ch_env c' ∧
  (fingerprint secs ≠ "" → ch_secretsFP c' = fingerprint secs) ∧ ch_inflight c' = 1.
Proof. apply Acquire_idle. Qed.

(** The pending rotation is applied when the last of the requests in flight ends. *)
Lemma End_drains n c :
  ch_inflight c = Z.of_nat (S n) → ch_restartAtIdle c = true →
  ch_session (Nat.iter (S n) End_ c) = None ∧ ch_inflight (Nat.iter (S n) End_ c) = 0 ∧
  ch_restartAtIdle (Nat.iter (S n) End_ c) = false.
Proof.
  revert c. induction n as [|n IH]; intros c Hn Hr.
  { cbn [Nat.iter nat_rect]. unfold End_. rewrite Hn. change (0 <? Z.of_nat 1) with true.
    cbn [set_inflight ch_inflight ch_restartAtIdle]. by rewrite Hr. }
  rewrite Nat.iter_succ_r.
  assert (ch_inflight (End_ c) = Z.of_nat (S n) ∧ ch_restartAtIdle (End_ c) = true) as [H1 H2]; [|by apply IH].
  unfold End_. rewrite Hn. destruct (Z.ltb_spec 0 (Z.of_nat (S (S n)))); [|lia]. cbn [set_inflight ch_inflight].
  destruct (Z.eqb_spec (Z.of_nat (S (S n)) - 1) 0); [lia|]. cbn. split; [lia|done].
Qed.

(** A busy child is not restarted underneath its callers: while a request is
    in flight, another acquire with whatever token or secrets gets the same
    session, and the process, its environment and its generation stay; if the
    credentials differed, the process is stopped when the last request in
    flight has ended, so that the next acquire starts a fresh one. *)
Theorem Acquire_keeps_busy_child c sys token secs g :
  0 < ch_inflight c → ch_session c = Some g →
  ∃ c', Acquire cfg sys token secs c = (Ok g, c') ∧ ch_session c' = Some g ∧ ch_generation c' = ch_generation c ∧
    ch_env c' = ch_env c ∧ ch_token c' = ch_token c ∧ ch_inflight c' = ch_inflight c + 1 ∧
    (rotated cfg token (fingerprint secs) c = true →
     ch_session (Nat.iter (Z.to_nat (ch_inflight c')) End_ c') = None).
Proof.
  intros Hbusy Hs. unfold Acquire, sessionLocked. rewrite Hs.
  destruct (rotated cfg token (fingerprint secs) c) eqn:Er.
  - destruct (Z.eqb_spec (ch_inflight c) 0); [lia|]. eexists. split; [reflexivity|]. split_and!; try done.
    intros _. set (c' := set_inflight _ _). assert (ch_inflight c' = ch_inflight c + 1) as Hc' by done.
    replace (Z.to_nat (ch_inflight c')) with (S (Z.to_nat (ch_inflight c))) by (rewrite Hc'; lia).
    apply End_drains; [rewrite Hc'; lia|done].
  - eexists. split; [reflexivity|]. by split_and!.
Qed.

(** The other direction is not symmetric: a request without secrets never counts
    as a rotation, so a process started with secrets keeps them after the user
    has deleted them. *)
Lemma Acquire_keeps_deleted_secrets c sys token g :
  ch_session c = Some g → (token = "" ∨ token = ch_token c) →
  ∃ c', Acquire cfg sys token ∅ c = (Ok g, c') ∧ ch_env c' = ch_env c ∧ ch_secretsFP c' = ch_secretsFP c.
Proof.
  intros Hs Ht. unfold Acquire, sessionLocked, rotated, fingerprint. rewrite Hs, (bool_decide_eq_true_2 ((∅ : secrets) = ∅)) by done.
  assert (bool_decide (t_Mode (wc_Token cfg) = TokenEnv) && negb (String.eqb token "") && negb (String.eqb token (ch_token c)) = false) as ->.
  { destruct Ht as [->| ->]; rewrite ?String.eqb_refl, ?andb_false_r; done. }
  cbn. eauto.
Qed.
End ChildProofs.

(** ** The redactor *)

Lemma Redactor_Add_spec s r :
  s ≠ "" → rd_secrets (Redactor_Add s r) = drop (length (rd_secrets r) + 1 - 16) (rd_secrets r ++ [s]).
Proof.
  intros Hs. unfold Redactor_Add. apply String.eqb_neq in Hs as ->. cbn [rd_secrets]. rewrite length_app. cbn [length].
  destruct (Nat.ltb_spec 16 (length (rd_secrets r) + 1)); [done|].
  by replace (length (rd_secrets r) + 1 - 16)%nat with 0%nat by lia.
Qed.

Lemma Redactor_Add_many l r :
  Forall (λ s, s ≠ "") l → (length (rd_secrets r) ≤ 16)%nat →
  rd_secrets (fold_left (λ r s, Redactor_Add s r) l r) =
  drop (length (rd_secrets r) + length l - 16) (rd_secrets r ++ l).
Proof.
  revert r. induction l as [|s l IH]; intros r Hl Hr; cbn [fold_left length].
  { rewrite app_nil_r. by replace (length (rd_secrets r) + 0 - 16)%nat with 0%nat by lia. }
  inversion Hl as [|? ? Hs Hl']; subst. pose proof (Redactor_Add_spec s r Hs) as Ha.
  rewrite IH; [|done|rewrite Ha, length_drop, length_app; cbn; lia].
  rewrite Ha, length_drop, length_app. cbn [length].
  rewrite <- (drop_app_le _ l) by (rewrite length_app; cbn; lia).
  rewrite drop_drop, <- app_assoc. cbn [app]. f_equal. lia.
Qed.

(** The redactor keeps sixteen secrets only: after sixteen more (one start with a
    token and fifteen secrets, or a few rotations) the pod token, the first it
    was given, is no longer scrubbed from the child's output. *)
Lemma Redactor_forgets_pod_token tok l :
  tok ≠ "" → Forall (λ s, s ≠ "") l → length l = 16%nat →
  rd_secrets (fold_left (λ r s, Redactor_Add s r) l (Redactor_Add tok (NewRedactor true))) = l.
Proof.
  intros Ht Hl Hn. pose proof (Redactor_Add_spec tok (NewRedactor true) Ht) as Ha. cbn in Ha.
  rewrite Redactor_Add_many; [|done|rewrite Ha; cbn; lia]. rewrite Ha, Hn. done.
Qed.

(** ** Secrets from the gateway to the child *)

Section RoundTrip.

Lemma secret_key_canonical n :
  CanonicalHeaderKey ("X-Juggernaut-Secret-" +:+ n) = "X-Juggernaut-Secret-" +:+ CanonicalHeaderKey n.
Proof. reflexivity. Qed.

Lemma isJuggernaut_canonical k : isJuggernaut (CanonicalHeaderKey k) = isJuggernaut k.
Proof. unfold isJuggernaut. by rewrite CanonicalHeaderKey_lower. Qed.

(** [Headers] under the secret prefix: the value of that name, when no two names
    share a header. *)
Lemma plain_fold_lookup (l : list (string * string)) (h : Header) n :
  NoDup l.*1 → (∀ n', n' ∈ l.*1 → CanonicalHeaderKey n' = CanonicalHeaderKey n → n' = n) →
  fold_left (λ h kv, Header_Set ("X-Juggernaut-Secret-" +:+ kv.1) kv.2 h) l h
    !! ("X-Juggernaut-Secret-" +:+ CanonicalHeaderKey n) =
  match (list_to_map l : secrets) !! n with
  | Some v => Some [v] | None => h !! ("X-Juggernaut-Secret-" +:+ CanonicalHeaderKey n) end.
Proof.
  revert h. induction l as [|[k v] l IH]; intros h Hnd Hinj; csimpl; [by rewrite lookup_empty|].
  inversion Hnd as [|? ? Hk Hnd']; subst. rewrite IH; [|done|intros; apply Hinj; [by right|done]].
  rewrite lookup_insert. unfold Header_Set. rewrite secret_key_canonical. case_decide as Hd; subst.
  - assert ((list_to_map l : secrets) !! n = None) as -> by (by apply not_elem_of_list_to_map_1).
    by rewrite lookup_insert_eq.
  - destruct ((list_to_map l : secrets) !! n); [done|]. apply lookup_insert_ne.
    intros E%(inj (String.append _)). apply Hd, Hinj; [by left|done].
Qed.

(** No secret header is the one of the sealed blob. *)
Lemma plain_fold_sealed (l : list (string * string)) :
  fold_left (λ h kv, Header_Set ("X-Juggernaut-Secret-" +:+ kv.1) kv.2 h) l (∅ : Header) !! "X-Juggernaut-Sealed-Secrets" = None.
Proof.
  assert (∀ h : Header, h !! "X-Juggernaut-Sealed-Secrets" = None →
    fold_left (λ h kv, Header_Set ("X-Juggernaut-Secret-" +:+ kv.1) kv.2 h) l h !! "X-Juggernaut-Sealed-Secrets" = None)
    as H; [|apply H, lookup_empty].
  induction l as [|[k v] l IH]; intros h Hh; cbn [fold_left]; [done|]. apply IH.
  unfold Header_Set. by rewrite secret_key_canonical, lookup_insert_ne.
Qed.

(** A secret header of a forwarded request is the gateway's, never the client's. *)
Lemma forwardHeaders_extra client up k :
  canonical client → canonical (up_Extra up) → CanonicalHeaderKey k = k → isJuggernaut k = true →
  k ∉ [HeaderPodToken; HeaderSubject; HeaderServerType] →
  isJuggernaut (or_str (up_TokenHeader up) "Authorization") = false →
  match up_Extra up !! k with Some [] => False | _ => True end →
  forwardHeaders client up !! k = up_Extra up !! k.
Proof.
  intros Hc He Hk Hj Hno Htok Hne. unfold forwardHeaders. fold (beforeExtra client up). set (h := fold_left _ _ _).
  assert (CanonicalHeaderKey (or_str (up_TokenHeader up) "Authorization") ≠ k) as Hkt.
  { intros E. rewrite <- isJuggernaut_canonical, E in Htok. congruence. }
  assert (beforeExtra client up !! k = None) as Hb.
  { rewrite !elem_of_cons in Hno. rewrite beforeExtra_lookup by done.
    rewrite decide_False by (intros ->; discriminate Hj). repeat (rewrite decide_False by tauto).
    unfold withheld. by rewrite Hj, orb_true_r. }
  assert (h !! k = up_Extra up !! k) as Hh.
  2:{ destruct (String.eqb (up_UserToken up) ""); [done|]. unfold Header_Set. by rewrite lookup_insert_ne. }
  unfold h. destruct (up_Extra up !! k) as [vv|] eqn:Ex.
  - apply elem_of_map_to_list in Ex as Hin. apply list_elem_of_split in Hin as (l1 & l2 & Hl).
    pose proof (NoDup_fst_map_to_list (up_Extra up)) as Hnd. rewrite Hl, fmap_app in Hnd. csimpl in *.
    apply NoDup_app in Hnd as (_ & H1 & H2). apply NoDup_cons in H2 as [H2 _].
    assert (∀ kv, kv ∈ l1 ∨ kv ∈ l2 → CanonicalHeaderKey kv.1 = kv.1) as Hcan.
    { intros [k' v'] Hkv. apply He. exists v'. apply elem_of_map_to_list. rewrite Hl, elem_of_app, elem_of_cons. tauto. }
    rewrite Hl, fold_left_app. cbn [fold_left fst snd]. rewrite extra_fold_lookup.
    2:{ intros kv Hkv. split; [by apply Hcan; right|]. intros <-. apply H2. by apply list_elem_of_fmap_2. }
    rewrite addAll_lookup, decide_True by done. unfold Header_Del. rewrite Hk, lookup_delete_eq. by destruct vv.
  - rewrite extra_fold_lookup; [done|]. intros [k' v'] Hin%elem_of_map_to_list. split; [apply He; eauto|]. cbn. congruence.
Qed.

(** The loop of [userSecretsFrom] over the plaintext headers. *)
Lemma plain_read_lookup (f : string → string) items (m : secrets) n :
  fold_left (λ m it, let v := f (us_Name it) in if String.eqb v "" then m else <[us_Name it := v]> m) items m !! n =
  if decide (n ∈ us_Name <$> items ∧ f n ≠ "") then Some (f n) else m !! n.
Proof.
  revert m. induction items as [|it items IH]; intros m; cbn [fold_left].
  { rewrite decide_False; [done|]. by intros [?%not_elem_of_nil _]. }
  rewrite IH. csimpl. set (ns := us_Name <$> items).
  destruct (String.eqb_spec (f (us_Name it)) "") as [E|E].
  - destruct (decide (n ∈ ns ∧ f n ≠ "")) as [HA|HA], (decide (n ∈ us_Name it :: ns ∧ f n ≠ "")) as [HB|HB];
      rewrite elem_of_cons in HB; try done; [tauto|]. destruct HB as [[->|?] ?]; tauto.
  - destruct (decide (n = us_Name it)) as [->|Hn].
    + rewrite (decide_True (P:=us_Name it ∈ us_Name it :: ns ∧ f (us_Name it) ≠ "")) by (split; [by left|done]).
      destruct (decide _); [done|]. by rewrite lookup_insert_eq.
    + rewrite lookup_insert_ne by done.
      destruct (decide (n ∈ ns ∧ f n ≠ "")) as [HA|HA], (decide (n ∈ us_Name it :: ns ∧ f n ≠ "")) as [HB|HB];
        rewrite elem_of_cons in HB; try done; tauto.
Qed.

Lemma Headers_canonical u gw : canonical (Headers u gw).
Proof.
  assert (∀ k v h, canonical h → canonical (Header_Set k v h)) as Hset.
  { intros k v h Hh k' [v' Hk']. unfold Header_Set in Hk'. rewrite lookup_insert in Hk'. case_decide as Hd.
    - subst. apply CanonicalHeaderKey_idem.
    - apply Hh. eauto. }
  unfold Headers. set (h := fold_left _ _ _). assert (canonical h) as Hh; [|destruct (String.eqb _ _); auto].
  unfold h. assert (canonical ∅) as H0 by (intros k [v Hv]; by rewrite lookup_empty in Hv).
  revert H0. generalize (∅ : Header). induction (map_to_list (ush_Plain u)) as [|[k v] l IH]; intros d Hd; cbn [fold_left]; auto.
Qed.

(** What the wrapper reads of a forwarded request: the secrets the gateway
    resolved, without the empty ones. *)
Lemma secrets_read {nb : NaclBox} {jsec : JSONCodec secrets} srv us gw u client up lport rport tf pub priv :
  s_UserSecrets srv = Some us → usg_SecretHeaderPrefix gw = "X-Juggernaut-Secret-" → ush_Sealed u = "" →
  (∀ n v, ush_Plain u !! n = Some v → n ∈ declaredNames us) →
  (∀ n n', n ∈ declaredNames us → n' ∈ declaredNames us → CanonicalHeaderKey n = CanonicalHeaderKey n' → n = n') →
  canonical client → up_Extra up = Headers u gw → isJuggernaut (or_str (up_TokenHeader up) "Authorization") = false →
  userSecretsFrom (ConfigFromServer srv lport rport tf) pub priv (forwardHeaders client up) =
  Ok (filter (λ kv, kv.2 ≠ "") (ush_Plain u)).
Proof.
  intros Hus Hpre Hseal Hplain Hinj Hc Hx Htok.
  assert (Headers u gw = fold_left (λ h kv, Header_Set ("X-Juggernaut-Secret-" +:+ kv.1) kv.2 h) (map_to_list (ush_Plain u)) ∅) as HH.
  { unfold Headers. by rewrite Hseal, Hpre. }
  assert (∀ n, n ∈ declaredNames us →
    Header_Get (forwardHeaders client up) ("X-Juggernaut-Secret-" +:+ n) = default "" (ush_Plain u !! n)) as Hget.
  { intros n Hn. unfold Header_Get. rewrite secret_key_canonical.
    assert (Headers u gw !! ("X-Juggernaut-Secret-" +:+ CanonicalHeaderKey n) = (λ v, [v]) <$> ush_Plain u !! n) as Hl.
    { rewrite HH, plain_fold_lookup, list_to_map_to_list; [by destruct (ush_Plain u !! n)|apply NoDup_fst_map_to_list|].
      intros n' ([k v] & -> & Hin%elem_of_map_to_list)%list_elem_of_fmap E. apply Hinj; [by eapply Hplain|done..]. }
    rewrite forwardHeaders_extra, Hx, Hl; try done.
    - by destruct (ush_Plain u !! n).
    - rewrite Hx. apply Headers_canonical.
    - rewrite <- secret_key_canonical. apply CanonicalHeaderKey_idem.
    - rewrite !elem_of_cons, elem_of_nil. by intros [?|[?|[?|?]]].
    - rewrite Hx, Hl. by destruct (ush_Plain u !! n). }
  unfold userSecretsFrom, ConfigFromServer. cbn [wc_SecretHeaderPrefix wc_UserSecrets wc_SealedHeader]. rewrite Hus.
  assert (Header_Get (forwardHeaders client up) "X-Juggernaut-Sealed-Secrets" = "") as ->.
  { unfold Header_Get. change (CanonicalHeaderKey _) with "X-Juggernaut-Sealed-Secrets".
    assert (Headers u gw !! "X-Juggernaut-Sealed-Secrets" = None) as Hl by (rewrite HH; apply plain_fold_sealed).
    rewrite forwardHeaders_extra, Hx, Hl; try done.
    - rewrite Hx. apply Headers_canonical.
    - rewrite !elem_of_cons, elem_of_nil. by intros [?|[?|[?|?]]].
    - by rewrite Hx, Hl. }
  cbn match. f_equal. apply map_eq. intros n. rewrite (plain_read_lookup (λ n, Header_Get (forwardHeaders client up) ("X-Juggernaut-Secret-" +:+ n))).
  change (us_Name <$> us_Items us) with (declaredNames us).
  destruct (ush_Plain u !! n) as [v|] eqn:En.
  - destruct (decide (v = "")) as [->|Hv].
    + rewrite decide_False by (intros [Hn Hv]; by rewrite Hget, En in Hv). rewrite lookup_empty. symmetry.
      apply map_lookup_filter_None. right. intros x. rewrite En. by intros [= <-] [].
    + pose proof (Hplain n v En) as Hn. rewrite decide_True by (by rewrite Hget, En). rewrite Hget, En by done. cbn. symmetry.
      by apply map_lookup_filter_Some.
  - rewrite decide_False by (intros [Hn Hv]; by rewrite Hget, En in Hv). rewrite lookup_empty. symmetry.
    apply map_lookup_filter_None. by left.
Qed.

(** Secrets survive the hop to the pod, and only they do: with the default
    header prefix, distinct header names and non-empty values, the wrapper reads
    from the forwarded request exactly the secrets the gateway resolved,
    whatever headers the client itself sent. *)
Theorem secrets_reach_wrapper {nb : NaclBox} {jsec : JSONCodec secrets} srv us gw u client up lport rport tf pub priv :
  s_UserSecrets srv = Some us → usg_SecretHeaderPrefix gw = "X-Juggernaut-Secret-" → ush_Sealed u = "" →
  (∀ n v, ush_Plain u !! n = Some v → n ∈ declaredNames us ∧ v ≠ "") →
  (∀ n n', n ∈ declaredNames us → n' ∈ declaredNames us → CanonicalHeaderKey n = CanonicalHeaderKey n' → n = n') →
  canonical client → up_Extra up = Headers u gw → isJuggernaut (or_str (up_TokenHeader up) "Authorization") = false →
  userSecretsFrom (ConfigFromServer srv lport rport tf) pub priv (forwardHeaders client up) = Ok (ush_Plain u).
Proof.
  intros Hus Hpre Hseal Hplain Hinj Hc Hx Htok. rewrite (secrets_read srv us gw u) by (done || by intros n v Hn; apply (Hplain n v)).
  f_equal. apply map_filter_id. intros n v Hn. by apply (Hplain n v).
Qed.
End RoundTrip.

(** ** Witnesses *)

Module WrapperWitness.
Import GatewayWitness.

Definition toy_sealed (rnd pt pub : list Z) : list Z := pub ++ pt.
Definition toy_opened (blob pub priv : list Z) : option (list Z) :=
  if bool_decide (take (length pub) blob = priv) then Some (drop (length pub) blob) else None.
Lemma toy_opened_sealed rnd pt pub priv : pub = priv → toy_opened (toy_sealed rnd pt pub) pub priv = Some pt.
Proof.
  intros <-. unfold toy_opened, toy_sealed. rewrite take_app_length, drop_app_length. by rewrite bool_decide_eq_true_2.
Qed.
#[local] Instance toy_box : NaclBox := {|
  box_Pair := λ pub priv, pub = priv; box_SealAnonymous := toy_sealed; box_OpenAnonymous := toy_opened;
  box_open_seal := toy_opened_sealed |}.

Definition wcfg : WConfig := ConfigFromServer jira 8443 8081 "/run/juggernaut/token".
Definition sys0 (now : Z) : sysenv := mkSysenv now true (λ _, true) (λ k, if String.eqb k "PATH" then Some "/bin" else None).
Definition r0 : Redactor := Redactor_Add "pod-token-pod-token" (NewRedactor true).
Definition secs0 : secrets := {["JIRA_TOKEN" := "s3cret"]}.
(** One call with token A that has ended; the child runs idle. *)
Definition idle : Child := End_ (Acquire wcfg (sys0 1) "token-A" secs0 (NewChild r0)).2.
(** The next call brings token B. *)
Definition after : Child := (Acquire wcfg (sys0 2) "token-B" secs0 idle).2.

Lemma idle_reachable : reachable wcfg r0 idle.
Proof. eapply rtc_l; [apply step_Acquire|]. apply rtc_once, step_End. Qed.

Lemma Acquire_uses_current_token_witness : ch_token after = "token-B" ∧ "TOKEN=token-B" ∈ ch_env after.
Proof.
  destruct (Acquire_uses_current_token wcfg r0 idle (sys0 2) "token-B" secs0 3 after idle_reachable
    ltac:(vm_compute; reflexivity) ltac:(vm_compute; reflexivity) ltac:(discriminate) ltac:(vm_compute; reflexivity))
    as (_ & _ & H1 & H2 & _). split; [exact H1|exact H2].
Defined.

(** While that call runs, a call with token C shares its session. *)
Lemma Acquire_keeps_busy_child_witness :
  ∃ c', Acquire wcfg (sys0 3) "token-C" secs0 after = (Ok 3, c') ∧ ch_env c' = ch_env after.
Proof.
  destruct (Acquire_keeps_busy_child wcfg after (sys0 3) "token-C" secs0 3 ltac:(vm_compute; reflexivity)
    ltac:(vm_compute; reflexivity)) as (c' & H1 & _ & _ & H2 & _). exists c'. split; [exact H1|exact H2].
Defined.

Definition jira_secrets : UserSecrets := default (mkUserSecrets [] []) (s_UserSecrets jira).
(** The client tries to smuggle a second secret and a sealed blob. *)
Definition smuggle : Header :=
  {["X-Juggernaut-Secret-Jira_url" := ["http://evil"]; "X-Juggernaut-Sealed-Secrets" := ["AAAA"]]}.
Definition up0 : Upstream :=
  mkUpstream "https://10.0.0.9:8443" "/mcp" "pod-token" "" "" "bob" "jira" "" "" ""
    (Headers out0 (g_UserSecrets (c_Gateway sample_config))).

Lemma secrets_reach_wrapper_witness :
  userSecretsFrom wcfg [] [] (forwardHeaders smuggle up0) = Ok (ush_Plain out0).
Proof.
  apply (secrets_reach_wrapper jira jira_secrets (g_UserSecrets (c_Gateway sample_config)) out0 smuggle up0);
    try (vm_compute; reflexivity).
  - intros n v. unfold out0. cbn [ush_Plain]. rewrite lookup_singleton_Some. intros [<- <-].
    split; [vm_compute; left|discriminate].
  - assert (declaredNames jira_secrets = ["JIRA_TOKEN"; "JIRA_URL"]) as -> by (vm_compute; reflexivity).
    intros n n'. rewrite !elem_of_cons, !elem_of_nil. intros [->|[->|[]]] [->|[->|[]]] E; try reflexivity; vm_compute in E; discriminate.
  - intros k [v Hk]. unfold smuggle in Hk. apply lookup_insert_Some in Hk as [[<- _]|[_ Hk]]; [reflexivity|].
    apply lookup_singleton_Some in Hk as [<- _]. reflexivity.
Defined.

(** With another secretHeaderPrefix in the gateway configuration the wrapper
    finds nothing, because it only knows the default. *)
Definition gw_custom : UserSecretsGateway := mkUserSecretsGateway (usg_Store (g_UserSecrets (c_Gateway sample_config))) "X-Vault" "X-Acme-Secret-" "X-Acme-Sealed-".
Lemma custom_prefix_is_lost :
  userSecretsFrom wcfg [] [] (forwardHeaders ∅ (set_extra (Headers out0 gw_custom) up0)) = Ok ∅.
Proof. vm_compute. reflexivity. Qed.
End WrapperWitness.
