(* ===== verification/WrapperServer.v ===== *)
(** * internal/wrapper: the HTTP surface of the pod

    server.go (NewServer, the probes, the mutual-TLS check, serverFor, acquire and
    the mirrored handlers), [Child.Lists] of child.go, and the process of
    httpmode.go.  The MCP client session to the child is a parameter. *)

From S2P Require Import Prelude GoStd Sha256 Config Core Fixtures Contracts RoutingMemory RoutingRedis Vault Policy Manager Proxy Gateway Router Wrapper.

Local Open Scope Z_scope.

(** ** The child's listings *)

(** [type Lists struct] *)
Record Lists := mkLists { li_Tools : list Tool; li_Resources : list string; li_Prompts : list string }.

(** What the wrapper uses of an [mcp.ClientSession]; a session is named by the
    generation it was started in, as in Wrapper.v. *)
Class ChildRPC (P : Type) := {
  rpc_ListTools : Z → P → result (list Tool) * P;
  rpc_ListResources : Z → P → result (list string) * P;
  rpc_ListPrompts : Z → P → result (list string) * P;
  rpc_CallTool : Z → string → string → P → result (bool * string) * P;
  rpc_ReadResource : Z → string → P → result string * P;
  rpc_GetPrompt : Z → string → string → P → result string * P }.

(** The fields [lists] and [listsGen] of the child. *)
Definition listing_cache : Type := option (Lists * Z).

(** [func (c *Child) Lists], in its two critical sections and the calls between
    them: the cached listing, the fetch, and the store. *)
Definition Lists_cached (sess : Z) (c : Child) (cache : listing_cache) : option Lists :=
  match cache with
  | Some (l, g) => if (g =? ch_generation c) && bool_decide (ch_session c = Some sess) then Some l else None
  | None => None
  end.
Definition Lists_store (gen : Z) (l : Lists) (c : Child) (cache : listing_cache) : listing_cache :=
  if ch_generation c =? gen then Some (l, gen) else cache.

Section Fetch.
Context {P} `{!ChildRPC P}.

Definition Lists_fetch (sess : Z) (p : P) : result Lists * P :=
  match rpc_ListTools sess p with
  | (Err e, p) => (Err (EWrap "tools/list" e), p)
  | (Ok tools, p) =>
      let '(res, p) := rpc_ListResources sess p in
      let '(pr, p) := rpc_ListPrompts sess p in
      (Ok (mkLists tools (match res with Ok r => r | Err _ => [] end) (match pr with Ok r => r | Err _ => [] end)), p)
  end.

Definition Child_Lists (sess : Z) (c : Child) (cache : listing_cache) (p : P) : result Lists * listing_cache * P :=
  match Lists_cached sess c cache with
  | Some l => (Ok l, cache, p)
  | None =>
      let gen := ch_generation c in
      match Lists_fetch sess p with
      | (Err e, p) => (Err e, cache, p)
      | (Ok l, p) => (Ok l, Lists_store gen l c cache, p)
      end
  end.
End Fetch.

(** ** httpmode.go: the process *)

(** The started command: its environment, whether the process has ended, and
    [ProcessState], which only [Wait] sets. *)
Record hproc := mkHproc { hp_env : list string; hp_exited : bool; hp_ProcessState : bool }.
(** The mutable fields of [type httpMode struct]. *)
Record HTTPMode := mkHTTPMode { hm_cmd : option hproc; hm_started : Z }.

(** What the operating system does for a start: whether the process can be
    started, and for a request to its port at a time, whether it answers and how
    long the request takes. *)
Record httpsys := mkHttpsys {
  hs_now : Z; hs_starts : bool; hs_get : Z → bool * Z; hs_getenv : string → option string }.

(** The polling loop of [ensureStarted], from time [t]; [None] when the fuel is used up. *)
Fixpoint waitPort (fuel : nat) (sys : httpsys) (deadline t : Z) : option bool :=
  match fuel with
  | O => None
  | S fuel =>
      if negb (t <? deadline) then Some false
      else let '(up, d) := hs_get sys t in
           if up then Some true else waitPort fuel sys deadline (t + d + 200 * Millisecond)
  end.
Definition waitPort_fuel (timeout : Z) : nat := S (Z.to_nat (timeout / (200 * Millisecond) + 1)).

(** [func (m *httpMode) ensureStarted] *)
Definition ensureStarted (cfg : WConfig) (sys : httpsys) (staticToken : string) (m : HTTPMode) : option (result ()) * HTTPMode :=
  match hm_cmd m with
  | Some _ => (Some (Ok ()), m)
  | None =>
      match wc_Command cfg with
      | [] => (Some (Err (EMsg "wrapper: http transport requires command")), m)
      | _ :: _ =>
          if negb (hs_starts sys) then (Some (Err (EMsg "start")), m)
          else
            let m := mkHTTPMode (Some (mkHproc (childEnv cfg (hs_getenv sys) staticToken) false false)) (hs_now sys) in
            match waitPort (waitPort_fuel (wc_StartupTimeout cfg)) sys (hs_now sys + wc_StartupTimeout cfg) (hs_now sys) with
            | None => (None, m)
            | Some true => (Some (Ok ()), m)
            | Some false => (Some (Err (EMsg ("http server did not open port " +:+ Itoa (wc_HTTPPort cfg)))), m)
            end
      end
  end.

(** [func (m *httpMode) running] and [stop] *)
Definition http_running (m : HTTPMode) : bool :=
  match hm_cmd m with Some p => negb (hp_ProcessState p) | None => false end.
Definition http_stop (m : HTTPMode) : HTTPMode := mkHTTPMode None (hm_started m).
(** The server process ends; nothing in the wrapper waits for it. *)
Definition http_exit (m : HTTPMode) : HTTPMode :=
  mkHTTPMode ((λ p, mkHproc (hp_env p) true (hp_ProcessState p)) <$> hm_cmd m) (hm_started m).

(** ** server.go *)

(** [type Server struct]: the child with its listings, the HTTP mode if any, the
    pod token and key pair, and what the child's MCP sessions answer. *)
Record WServer (P : Type) := mkWServer {
  ws_cfg : WConfig; ws_podToken : string; ws_pub : list Z; ws_priv : list Z; ws_child : Child; ws_lists : listing_cache;
  ws_http : option HTTPMode; ws_ready : bool; ws_proc : P }.
Arguments mkWServer {P}. Arguments ws_cfg {P}. Arguments ws_podToken {P}. Arguments ws_pub {P}. Arguments ws_priv {P}.
Arguments ws_child {P}. Arguments ws_lists {P}. Arguments ws_http {P}. Arguments ws_ready {P}. Arguments ws_proc {P}.

(** The servers [serverFor] builds: what is registered on them. *)
Record MServer := mkMServer { mv_Name : string; mv_lists : Lists }.
Definition no_lists : Lists := mkLists [] [] [].

Section Server.
Context {P} `{!ChildRPC P} {nb : NaclBox} {jsec : JSONCodec secrets}.
Local Notation S := (WServer P).

(** [func NewServer]; [keys] is the generated key pair. *)
Definition NewServer (readFile : string → result string) (keys : result (list Z * list Z)) (cfg : WConfig) (p : P) : result S :=
  match readFile (wc_PodTokenFile cfg) with
  | Err e => Err (EWrap "pod token" e)
  | Ok raw =>
      let tok := TrimSpace raw in
      if (String.length tok <? 16)%nat then Err (EMsg "pod token too short")
      else
        let r := Redactor_Add tok (NewRedactor (wc_LogRedaction cfg)) in
        match keys with
        | Err e => Err e
        | Ok (pub, priv) =>
            Ok (mkWServer cfg tok pub priv (NewChild r) None
                  (if bool_decide (wc_Transport cfg = TransportStdio) then None else Some (mkHTTPMode None 0)) false p)
        end
  end.

Definition set_child (c : Child) (s : S) : S :=
  mkWServer (ws_cfg s) (ws_podToken s) (ws_pub s) (ws_priv s) c (ws_lists s) (ws_http s) (ws_ready s) (ws_proc s).
Definition set_lists (l : listing_cache) (p : P) (s : S) : S :=
  mkWServer (ws_cfg s) (ws_podToken s) (ws_pub s) (ws_priv s) (ws_child s) l (ws_http s) (ws_ready s) p.
Definition set_http (m : HTTPMode) (s : S) : S :=
  mkWServer (ws_cfg s) (ws_podToken s) (ws_pub s) (ws_priv s) (ws_child s) (ws_lists s) (Some m) (ws_ready s) (ws_proc s).
Definition set_proc (p : P) (s : S) : S := set_lists (ws_lists s) p s.

(** [/readyz]: the status code and what the state says of the child. *)
Definition readyz (s : S) : Z * (bool * string) :=
  let running := match ch_session (ws_child s) with Some _ => true | None => false end ||
                 match ws_http s with Some m => http_running m | None => false end in
  (if ws_ready s then 200 else 503, (ws_ready s, if running then "running" else "not-started")).
(** [/healthz]; reading the restart budget also drops old restarts. *)
Definition healthz (now : Z) (s : S) : Z * S :=
  let '(ok, c) := Healthy (ws_cfg s) now (ws_child s) in
  (if ok then 200 else 503, set_child c s).

(** [func (s *Server) sessionKey] *)
Definition sessionKey (s : S) : list (string * string) :=
  [("publicKey", base64url_EncodeToString (ws_pub s)); ("algorithm", "x25519-nacl-box")].

(** [func (s *Server) requirePodToken(next)] *)
Definition withPodToken {A} (h : Header) (next : S → hresp A * S) (s : S) : hresp A * S :=
  if requirePodToken (ws_podToken s) h then next s else (HError 403 "forbidden", s).

(** [func (s *Server) mirror]: a failed listing registers nothing. *)
Definition mirror (sess : Z) (s : S) : Lists * S :=
  match Child_Lists sess (ws_child s) (ws_lists s) (ws_proc s) with
  | (Ok l, cache, p) => (l, set_lists cache p s)
  | (Err _, cache, p) => (no_lists, set_lists cache p s)
  end.

(** [func (s *Server) serverFor] *)
Definition serverFor (sys : sysenv) (h : Header) (s : S) : MServer * S :=
  let name := "juggernaut/" +:+ wc_ServerName (ws_cfg s) in
  if negb (String.eqb (Header_Get h "Mcp-Session-Id") "") then (mkMServer name no_lists, s)
  else
    match userSecretsFrom (ws_cfg s) (ws_pub s) (ws_priv s) h with
    | Err _ => (mkMServer name no_lists, s)
    | Ok secs =>
        match sessionLocked (ws_cfg s) sys (userTokenFrom (ws_cfg s) h) secs (ws_child s) with
        | (Err _, c) => (mkMServer name no_lists, set_child c s)
        | (Ok sess, c) => let '(l, s) := mirror sess (set_child c s) in (mkMServer name l, s)
        end
    end.

(** [func (s *Server) acquire] *)
Definition acquire (sys : sysenv) (h : Header) (s : S) : result Z * S :=
  match userSecretsFrom (ws_cfg s) (ws_pub s) (ws_priv s) h with
  | Err e => (Err e, s)
  | Ok secs =>
      let '(r, c) := Acquire (ws_cfg s) sys (userTokenFrom (ws_cfg s) h) secs (ws_child s) in (r, set_child c s)
  end.
Definition release (s : S) : S := set_child (End_ (ws_child s)) s.

(** The handlers [mirror] registers: acquire the child from the call's own
    headers, make the call, release it. *)
Definition with_child {A} (sys : sysenv) (h : Header) (call : Z → P → result A * P) (s : S) : result A * S :=
  match acquire sys h s with
  | (Err e, s) => (Err e, s)
  | (Ok sess, s) => let '(r, p) := call sess (ws_proc s) in (r, release (set_proc p s))
  end.
Definition toolHandler (sys : sysenv) (h : Header) (name args : string) (s : S) : result CallToolResult * S :=
  match acquire sys h s with
  | (Err e, s) => (Ok (TError e), s)
  | (Ok sess, s) =>
      let '(r, p) := rpc_CallTool sess name args (ws_proc s) in
      ((λ x, TResult x.1 x.2) <$> r, release (set_proc p s))
  end.
Definition resourceHandler (sys : sysenv) (h : Header) (uri : string) : S → result string * S :=
  with_child sys h (λ sess, rpc_ReadResource sess uri).
Definition promptHandler (sys : sysenv) (h : Header) (name args : string) : S → result string * S :=
  with_child sys h (λ sess, rpc_GetPrompt sess name args).

(** [mcpHandler] in HTTP mode, up to the reverse proxy: the headers it sends on. *)
Definition httpHandler (sys : httpsys) (h : Header) (m : HTTPMode) (s : S) : option (hresp () + Header) * S :=
  match ensureStarted (ws_cfg s) sys "" m with
  | (None, m) => (None, set_http m s)
  | (Some (Err _), m) => (Some (inl (HError 502 "upstream server not available")), set_http m s)
  | (Some (Ok _), m) => (Some (inr (directorHeaders (ws_cfg s) h)), set_http m s)
  end.
End Server.

(** [serverTLS]'s [VerifyPeerCertificate] on the verified chains, each
    certificate by its URIs. *)
Definition verifyGateway (want : string) (chains : list (list (list string))) : result () :=
  match chains with
  | (leaf :: _) :: _ => if existsb (String.eqb want) leaf then Ok () else Err (EMsg "client certificate is not the gateway")
  | _ => Err (EMsg "no verified client chain")
  end.

(** ** The child behind the handlers *)

Section Handlers.
Variable cfg : WConfig.

Lemma startSession_err sys token secs c e c' :
  startSession cfg sys token secs c = (Err e, c') → ch_inflight c' = ch_inflight c.
Proof.
  unfold startSession. destruct (restartAllowedLocked cfg (sy_now sys) c) as [[] c1] eqn:Er; injection Er as _ <-.
  - destruct (startLocked cfg sys token secs _) as [[[]|e'] c2] eqn:Es; [done|].
    apply startLocked_cases in Es as [Hi _]. by intros [= _ <-].
  - by intros [= _ <-].
Qed.

Lemma sessionLocked_inflight sys token secs c r c' :
  sessionLocked cfg sys token secs c = (r, c') → ch_inflight c' = ch_inflight c.
Proof.
  assert (∀ c0 r c', startSession cfg sys token secs c0 = (r, c') → ch_inflight c' = ch_inflight c0) as Hs.
  { intros c0 [g|e] c1 H; [by apply startSession_ok in H as (_ & _ & _ & ? & _)|by eapply startSession_err]. }
  unfold sessionLocked. destruct (ch_session c) as [g|]; [|apply Hs].
  destruct (rotated _ _ _ _); [|by intros [= _ <-]].
  destruct (ch_inflight c =? 0); [intros H; apply Hs in H; by rewrite H|by intros [= _ <-]].
Qed.

Lemma Acquire_inflight sys token secs c r c' :
  Acquire cfg sys token secs c = (r, c') → ch_inflight c' = ch_inflight c + (if is_ok r then 1 else 0).
Proof.
  unfold Acquire. destruct (sessionLocked cfg sys token secs c) as [[g|e] c1] eqn:Es;
    apply sessionLocked_inflight in Es; intros [= <- <-]; cbn; lia.
Qed.

Lemma Acquire_session sys token secs c g c' : Acquire cfg sys token secs c = (Ok g, c') → ch_session c' = Some g.
Proof.
  unfold Acquire. destruct (sessionLocked cfg sys token secs c) as [[g0|e] c1] eqn:Es; [|done]. intros [= <- <-].
  revert Es. unfold sessionLocked. destruct (ch_session c) as [g|] eqn:Eg; [|by intros H; apply startSession_ok in H as [? _]].
  destruct (rotated _ _ _ _); [|by intros [= <- <-]].
  destruct (ch_inflight c =? 0); [by intros H; apply startSession_ok in H as [? _]|by intros [= <- <-]].
Qed.

Lemma End_inflight c : 0 < ch_inflight c → ch_inflight (End_ c) = ch_inflight c - 1.
Proof.
  intros H. unfold End_. apply Z.ltb_lt in H as ->. by destruct ((_ =? 0) && _).
Qed.

Lemma End_Acquire sys token secs c g c' :
  0 ≤ ch_inflight c → Acquire cfg sys token secs c = (Ok g, c') → ch_inflight (End_ c') = ch_inflight c.
Proof. intros H0 H. apply Acquire_inflight in H. cbn in H. rewrite End_inflight; lia. Qed.

Lemma reachable_step r c c' : reachable cfg r c → step cfg c c' → reachable cfg r c'.
Proof. intros H Hs. eapply rtc_r; eauto. Qed.
End Handlers.

Section Calls.
Context {P} `{!ChildRPC P} {nb : NaclBox} {jsec : JSONCodec secrets}.

(** A tool call of the data port: the token check, then the mirrored handler. *)
Definition data_toolCall (sys : sysenv) (h : Header) (name args : string)
    : WServer P → hresp (result CallToolResult) * WServer P :=
  withPodToken h (λ s, let '(r, s) := toolHandler sys h name args s in (HJSON 200 r, s)).

Lemma acquire_child sys h (s : WServer P) r s' :
  acquire sys h s = (r, s') →
  (∃ e, r = Err e ∧ s' = s) ∨
  ∃ secs c, Acquire (ws_cfg s) sys (userTokenFrom (ws_cfg s) h) secs (ws_child s) = (r, c) ∧ s' = set_child c s.
Proof.
  unfold acquire. destruct (userSecretsFrom _ _ _ h) as [secs|e]; [|intros [= <- <-]; eauto].
  destruct (Acquire _ _ _ _ _) as [r' c] eqn:Ea. intros [= <- <-]. right. by exists secs, c.
Qed.

(** C28. A tool call is served only with the pod's own token, and changes nothing
    otherwise; it holds the child for its duration only, on success and on
    failure, and its answer is what the acquired session returned; when the
    child was idle and the server takes the token from its environment, that
    process was started with the token of this very request. *)
Theorem data_toolCall_spec rd sys h name args (s s' : WServer P) resp :
  reachable (ws_cfg s) rd (ws_child s) → data_toolCall sys h name args s = (resp, s') →
  (Header_Get h HeaderPodToken ≠ ws_podToken s ∧ resp = HError 403 "forbidden" ∧ s' = s) ∨
  (Header_Get h HeaderPodToken = ws_podToken s ∧ ws_cfg s' = ws_cfg s ∧
   reachable (ws_cfg s') rd (ws_child s') ∧ ch_inflight (ws_child s') = ch_inflight (ws_child s) ∧
   ∀ b t, resp = HJSON 200 (Ok (TResult b t)) →
     ∃ g s1, acquire sys h s = (Ok g, s1) ∧ (rpc_CallTool g name args (ws_proc s)).1 = Ok (b, t) ∧
       ch_session (ws_child s1) = Some g ∧
       (t_Mode (wc_Token (ws_cfg s)) = TokenEnv → ch_inflight (ws_child s) = 0 →
        let token := userTokenFrom (ws_cfg s) h in
        token ≠ "" → ch_token (ws_child s1) = token ∧ t_Env (wc_Token (ws_cfg s)) +:+ "=" +:+ token ∈ ch_env (ws_child s1))).
Proof.
  intros Hr H. pose proof (reachable_ok _ _ _ Hr) as Hok. revert H. unfold data_toolCall, withPodToken.
  destruct (requirePodToken (ws_podToken s) h) eqn:Ep; cycle 1.
  { intros [= <- <-]. left. split_and!; [|done..]. intros E. revert Ep. unfold requirePodToken.
    by rewrite E, Nat.eqb_refl, bool_decide_eq_true_2. }
  intros H. right. split. { unfold requirePodToken in Ep. bprop. by apply string_bytes_inj. }
  revert H. unfold toolHandler. destruct (acquire sys h s) as [[sess|e] s1] eqn:Ea; pose proof Ea as Eacq;
    apply acquire_child in Ea as [(e' & ? & ->)|(secs & c & Ea & ->)]; simplify_eq/=.
  - pose proof (step_Acquire (ws_cfg s) sys (userTokenFrom (ws_cfg s) h) secs (ws_child s)) as Hs. rewrite Ea in Hs.
    destruct (rpc_CallTool sess name args (ws_proc s)) as [r p] eqn:Ec. intros [= <- <-]. cbn.
    split_and!; [done| | |].
    + eapply reachable_step, step_End. by eapply reachable_step.
    + eapply End_Acquire; [apply Hok|done].
    + intros b t [= Hb]. exists sess, (set_child c s). rewrite Ec. destruct r as [[b' t']|]; [|done]. cbn in *. simplify_eq.
      split_and!; [done|done| |]. { by apply Acquire_session in Ea. }
      intros Hm Hi Htok. destruct (Acquire_idle _ _ _ _ _ _ _ _ Hr Hi Hm Htok Ea) as (_ & _ & ? & ? & _). done.
  - intros [= <- <-]. split_and!; done.
  - intros [= <- <-]. cbn.
    pose proof (step_Acquire (ws_cfg s) sys (userTokenFrom (ws_cfg s) h) secs (ws_child s)) as Hs. rewrite Ea in Hs.
    split_and!; [done|by eapply reachable_step| |done].
    apply Acquire_inflight in Ea. cbn in Ea. lia.
Qed.
End Calls.

(** ** The listing cache under concurrent requests *)

Section Listing.
Variable cfg : WConfig.
(** What the process of a generation advertises. *)
Variable advertises : Z → Lists → Prop.

(** The child, the cache, the sessions handed to requests, and the listings
    under way: with the generation read on entry, and fetched but not stored. *)
Record lstate := mkLstate {
  ls_child : Child; ls_cache : listing_cache; ls_handed : list Z; ls_begun : list (Z * Z); ls_fetched : list (Z * Lists) }.

(** Any interleaving of child operations with the parts of [Lists].  A closed
    session answers no requests, so a fetch succeeds only while its session is
    the running one. *)
Inductive lstep : lstate → lstate → Prop :=
| l_child c c' cache hs bs fs : step cfg c c' → lstep (mkLstate c cache hs bs fs) (mkLstate c' cache hs bs fs)
| l_session sys token secs c g c' cache hs bs fs :
    sessionLocked cfg sys token secs c = (Ok g, c') → lstep (mkLstate c cache hs bs fs) (mkLstate c' cache (g :: hs) bs fs)
| l_begin c cache hs bs fs sess :
    sess ∈ hs → Lists_cached sess c cache = None →
    lstep (mkLstate c cache hs bs fs) (mkLstate c cache hs ((sess, ch_generation c) :: bs) fs)
| l_fetch c cache hs bs fs sess gen l :
    (sess, gen) ∈ bs → ch_session c = Some sess → advertises sess l →
    lstep (mkLstate c cache hs bs fs) (mkLstate c cache hs bs ((gen, l) :: fs))
| l_store c cache hs bs fs gen l :
    (gen, l) ∈ fs → lstep (mkLstate c cache hs bs fs) (mkLstate c (Lists_store gen l c cache) hs bs fs).

Definition lreachable (r : Redactor) (s : lstate) : Prop := rtc lstep (mkLstate (NewChild r) None [] [] []) s.

Lemma startSession_generation sys token secs c : ch_generation c ≤ ch_generation (startSession cfg sys token secs c).2.
Proof.
  unfold startSession. destruct (restartAllowedLocked cfg (sy_now sys) c) as [[] c1] eqn:Er; injection Er as _ <-; [|cbn; lia].
  unfold startLocked. destruct (wc_Command cfg) as [|cmd rest]; [cbn; lia|].
  destruct (deliverSecrets _ _ _ _ _) as [[env|e] c1] eqn:Ed;
    apply deliverSecrets_frame in Ed as (_ & _ & Hg & _); cbn in Hg; [|cbn; lia].
  repeat (case_match; simplify_eq/=; try lia).
Qed.

Lemma sessionLocked_generation sys token secs c : ch_generation c ≤ ch_generation (sessionLocked cfg sys token secs c).2.
Proof.
  unfold sessionLocked. destruct (ch_session c); [|apply startSession_generation].
  destruct (rotated _ _ _ _); [|done]. destruct (ch_inflight c =? 0); [|done].
  etrans; [|apply startSession_generation]. cbn. lia.
Qed.

Lemma step_generation c c' : step cfg c c' → ch_generation c ≤ ch_generation c'.
Proof.
  intros []; cbn; try lia.
  - apply sessionLocked_generation.
  - pose proof (sessionLocked_generation sys token secs c0) as H. unfold Acquire.
    by destruct (sessionLocked cfg sys token secs c0) as [[] ?].
  - unfold End_. repeat (case_match; cbn; try lia).
  - unfold waitExit. case_match; cbn; lia.
Qed.

(** Well-formed states: every session handed out, and every generation read by a
    listing, is not newer than the child's; what is fetched or cached for a
    generation is what that generation advertises. *)
Record listing_ok (s : lstate) : Prop := {
  lo_child : child_ok cfg (ls_child s);
  lo_handed : Forall (λ g, g ≤ ch_generation (ls_child s)) (ls_handed s);
  lo_begun : Forall (λ b, b.1 ≤ b.2 ≤ ch_generation (ls_child s)) (ls_begun s);
  lo_fetched : Forall (λ f, advertises f.1 f.2) (ls_fetched s);
  lo_cache : ∀ l g, ls_cache s = Some (l, g) → advertises g l }.

Lemma listing_ok_child c c' cache hs bs fs :
  ch_generation c ≤ ch_generation c' → child_ok cfg c' →
  listing_ok (mkLstate c cache hs bs fs) → listing_ok (mkLstate c' cache hs bs fs).
Proof.
  intros Hg Hc [_ H1 H2 H3 H4]. split; cbn in *; try done.
  - eapply Forall_impl; [exact H1|]. cbn. lia.
  - eapply Forall_impl; [exact H2|]. cbn. lia.
Qed.

Lemma listing_ok_step s s' : lstep s s' → listing_ok s → listing_ok s'.
Proof.
  intros [c c' cache hs bs fs Hs|sys token secs c g c' cache hs bs fs Es|c cache hs bs fs sess Hin _|
          c cache hs bs fs sess gen l Hb Hsess Hl|c cache hs bs fs gen l Hf] Hok.
  - eapply listing_ok_child; [by eapply step_generation| |done]. eapply child_ok_step; [apply Hok|done].
  - pose proof (sessionLocked_generation sys token secs c) as Hg.
    pose proof (child_ok_session cfg sys token secs c (lo_child _ Hok)) as Hc. rewrite Es in Hg, Hc. cbn in Hg, Hc.
    eapply listing_ok_child in Hok; [|exact Hg|exact Hc]. destruct Hok as [H0 H1 H2 H3 H4]. split; try done. cbn.
    constructor; [|exact H1].
    enough (ch_session c' = Some g) as E by (apply (ck_gen _ _ Hc) in E; lia).
    eapply (Acquire_session cfg sys token secs c g (set_inflight (ch_inflight c' + 1) c')).
    unfold Acquire. by rewrite Es.
  - destruct Hok as [H0 H1 H2 H3 H4]. split; try done. cbn in *. constructor; [|done]. cbn.
    rewrite Forall_forall in H1. specialize (H1 _ Hin). lia.
  - destruct Hok as [H0 H1 H2 H3 H4]. split; try done. cbn in *. constructor; [|done]. cbn.
    rewrite Forall_forall in H2. specialize (H2 _ Hb). cbn in H2. apply (ck_gen _ _ H0) in Hsess.
    by replace gen with sess by lia.
  - destruct Hok as [H0 H1 H2 H3 H4]. split; try done. cbn in *. unfold Lists_store.
    destruct (ch_generation c =? gen); [|done]. intros l' g' [= <- <-]. rewrite Forall_forall in H3. by apply (H3 _ Hf).
Qed.

Lemma lreachable_ok r s : lreachable r s → listing_ok s.
Proof.
  unfold lreachable. assert (listing_ok (mkLstate (NewChild r) None [] [] [])) as H0 by (split; cbn; try done; by split).
  revert H0. generalize (mkLstate (NewChild r) None [] [] []) as s0. intros s0 H0 H.
  induction H as [|s1 s2 s3 Hs _ IH]; [done|]. apply IH. by eapply listing_ok_step.
Qed.

(** Whatever requests, restarts and crashes interleave, a listing served from the
    cache is one that the very process behind the session gave: after a restart
    no request is shown the tools of the process before it. *)
Theorem cached_listing_is_current r s sess l :
  lreachable r s → Lists_cached sess (ls_child s) (ls_cache s) = Some l → advertises sess l.
Proof.
  intros Hr Hl. apply lreachable_ok in Hr as [H0 _ _ _ H4]. unfold Lists_cached in Hl.
  destruct (ls_cache s) as [[l' g]|]; [|done]. destruct ((_ =? _) && _) eqn:E; [|done]. injection Hl as ->. bprop.
  match goal with H : ch_session _ = Some _ |- _ => apply (ck_gen _ _ H0) in H end. subst. by apply H4.
Qed.
End Listing.

(** ** HTTP mode *)

Section HTTPProofs.
Variable cfg : WConfig.

Lemma waitPort_enough fuel sys deadline t :
  (∀ t, 0 ≤ (hs_get sys t).2) → deadline - t < Z.of_nat fuel * (200 * Millisecond) → waitPort (S fuel) sys deadline t ≠ None.
Proof.
  intros Hd. revert t. induction fuel as [|fuel IH]; intros t Hf.
  { cbn. destruct (Z.ltb_spec t deadline); [|done]. lia. }
  cbn [waitPort]. destruct (Z.ltb_spec t deadline); [|done]. cbn [negb].
  destruct (hs_get sys t) as [[] d] eqn:Eg; [done|]. apply IH. specialize (Hd t). rewrite Eg in Hd. cbn in Hd.
  unfold Millisecond in *. lia.
Qed.

Lemma waitPort_sound fuel sys deadline t :
  waitPort fuel sys deadline t = Some true → ∃ t', t' < deadline ∧ (hs_get sys t').1 = true.
Proof.
  revert t. induction fuel as [|fuel IH]; intros t; [done|]. cbn.
  destruct (Z.ltb_spec t deadline); [|done]. cbn. destruct (hs_get sys t) as [[] d] eqn:Eg; [|apply IH].
  intros _. exists t. by rewrite Eg.
Qed.

(** Starting the HTTP server always comes to an end, whatever the process does:
    either an error, or the port answered before the startup timeout had passed. *)
Theorem ensureStarted_terminates sys tok m :
  0 ≤ wc_StartupTimeout cfg → (∀ t, 0 ≤ (hs_get sys t).2) →
  ∃ r m', ensureStarted cfg sys tok m = (Some r, m') ∧
    (hm_cmd m = None → r = Ok () →
     ∃ t, t < hs_now sys + wc_StartupTimeout cfg ∧ (hs_get sys t).1 = true).
Proof.
  intros Ht Hd. unfold ensureStarted. destruct (hm_cmd m) eqn:Em; [by do 2 eexists|].
  destruct (wc_Command cfg); [by do 2 eexists|]. destruct (hs_starts sys); cbn [negb]; [|by do 2 eexists].
  destruct (waitPort _ _ _ _) as [[]|] eqn:Ew.
  - do 2 eexists. split; [done|]. intros _ _. by eapply waitPort_sound.
  - by do 2 eexists.
  - exfalso. revert Ew. apply waitPort_enough; [done|].
    set (q := wc_StartupTimeout cfg / (200 * Millisecond)).
    assert (0 ≤ q) by (apply Z.div_pos; [lia|unfold Millisecond; lia]).
    pose proof (Z.mod_pos_bound (wc_StartupTimeout cfg) (200 * Millisecond) ltac:(unfold Millisecond; lia)).
    pose proof (Z.div_mod (wc_StartupTimeout cfg) (200 * Millisecond) ltac:(unfold Millisecond; lia)) as E. fold q in E. lia.
Qed.

(** An HTTP server process that has ended, for whatever reason, is never started
    again: every later request is proxied to it, and the probe calls it running. *)
Lemma http_child_never_restarted m p (syss : list httpsys) :
  hm_cmd m = Some p → hp_ProcessState p = false →
  let m' := fold_left (λ m sys, (ensureStarted cfg sys "" m).2) syss (http_exit m) in
  m' = http_exit m ∧ http_running m' = true ∧ ∀ sys, (ensureStarted cfg sys "" m').1 = Some (Ok ()).
Proof.
  intros Hm Hp. assert (∀ sys, ensureStarted cfg sys "" (http_exit m) = (Some (Ok ()), http_exit m)) as E.
  { intros sys. unfold ensureStarted, http_exit. by rewrite Hm. }
  assert (fold_left (λ m sys, (ensureStarted cfg sys "" m).2) syss (http_exit m) = http_exit m) as H.
  { induction syss as [|sys syss IH]; [done|]. cbn [fold_left]. by rewrite E. }
  rewrite H. split_and!; [done| |intros sys; by rewrite E].
  unfold http_running, http_exit. rewrite Hm. cbn. by rewrite Hp.
Qed.

(** A server process that did not open its port in time is taken for started by
    the next request. *)
Lemma http_timeout_then_ok sys sys' m e m' :
  hm_cmd m = None → hs_starts sys = true → wc_Command cfg ≠ [] → ensureStarted cfg sys "" m = (Some (Err e), m') →
  (ensureStarted cfg sys' "" m').1 = Some (Ok ()).
Proof.
  intros Hm Hs Hc. unfold ensureStarted at 1. rewrite Hm, Hs. destruct (wc_Command cfg); [done|]. cbn [negb].
  destruct (waitPort _ _ _ _) as [[]|]; intros [= <- <-]. done.
Qed.

(** The environment of the HTTP server never carries a user token: with token mode
    env, which validation accepts for HTTP transports, it is not delivered. *)
Lemma http_token_not_delivered sys m m' r p :
  hm_cmd m = None → ensureStarted cfg sys "" m = (r, m') → hm_cmd m' = Some p → hp_env p = childEnv cfg (hs_getenv sys) "".
Proof.
  intros Hm. unfold ensureStarted. rewrite Hm. destruct (wc_Command cfg); [intros [= <- <-]; congruence|].
  destruct (hs_starts sys); cbn [negb]; [|intros [= <- <-]; congruence].
  destruct (waitPort _ _ _ _) as [[]|]; intros [= <- <-] [= <-]; done.
Qed.
End HTTPProofs.

(** ** Witnesses *)

Module WrapperServerWitness.
Import WrapperWitness.
#[local] Existing Instance toy_box.
(** A server that numbers its answers by the session they were asked on. *)
#[local] Instance rpc0 : ChildRPC () := {|
  rpc_ListTools g p := (Ok [mkTool ("tool" +:+ Itoa g) ""], p); rpc_ListResources _ p := (Err (EMsg "no resources"), p);
  rpc_ListPrompts _ p := (Ok [], p); rpc_CallTool g n a p := (Ok (false, n +:+ "@" +:+ Itoa g), p);
  rpc_ReadResource _ u p := (Ok u, p); rpc_GetPrompt _ n _ p := (Ok n, p) |}.

Definition srv0 : WServer () :=
  mkWServer wcfg "pod-token-pod-token" [] [] idle None None true ().
Definition h0 : Header :=
  {["X-Juggernaut-Pod-Token" := ["pod-token-pod-token"]; "Authorization" := ["Bearer token-B"]]}.
Definition called : WServer () := (data_toolCall (sys0 2) h0 "search" "{}" srv0).2.

Lemma data_toolCall_spec_witness :
  ch_inflight (ws_child called) = 0 ∧
  ∃ g s1, acquire (sys0 2) h0 srv0 = (Ok g, s1) ∧ (rpc_CallTool g "search" "{}" ()).1 = Ok (false, "search@3") ∧
    ch_session (ws_child s1) = Some g ∧ ch_token (ws_child s1) = "token-B".
Proof.
  assert (data_toolCall (sys0 2) h0 "search" "{}" srv0 = (HJSON 200 (Ok (TResult false "search@3")), called)) as E
    by (vm_compute; reflexivity).
  destruct (data_toolCall_spec r0 (sys0 2) h0 "search" "{}" srv0 called _ idle_reachable E) as [(H & _)|(_ & _ & _ & Hi & H)].
  - exfalso. apply H. vm_compute. reflexivity.
  - split; [exact Hi|]. destruct (H false "search@3" eq_refl) as (g & s1 & Ha & Hc & Hs & Ht). exists g, s1.
    split; [exact Ha|]. split; [exact Hc|]. split; [exact Hs|]. apply Ht; vm_compute; [reflexivity..|discriminate].
Defined.

(** One session, its listing fetched and stored. *)
Definition child1 : Child := (sessionLocked wcfg (sys0 1) "token-A" secs0 (NewChild r0)).2.
Definition lists1 : Lists := mkLists [mkTool "tool1" ""] [] [].
Definition cached1 : lstate := mkLstate child1 (Some (lists1, 1)) [1] [(1, 1)] [(1, lists1)].
Definition says (g : Z) (l : Lists) : Prop := li_Tools l = [mkTool ("tool" +:+ Itoa g) ""].

Lemma cached1_reachable : lreachable wcfg says r0 cached1.
Proof.
  eapply rtc_l; [apply (l_session _ _ (sys0 1) "token-A" secs0 _ 1 child1); vm_compute; reflexivity|].
  eapply rtc_l; [apply (l_begin _ _ _ _ _ _ _ 1); [left|reflexivity]|].
  eapply rtc_l; [apply (l_fetch _ _ _ _ _ _ _ 1 1 lists1); [left|vm_compute; reflexivity|reflexivity]|].
  apply rtc_once. exact (l_store wcfg says child1 None [1] [(1, 1)] [(1, lists1)] 1 lists1 ltac:(left)).
Qed.

Lemma cached_listing_is_current_witness : says 1 lists1.
Proof.
  exact (cached_listing_is_current wcfg says r0 cached1 1 lists1 cached1_reachable ltac:(vm_compute; reflexivity)).
Defined.

(** A server whose port opens after half a second. *)
Definition hsys0 : httpsys := mkHttpsys 0 true (λ t, (500 * Millisecond <=? t, 3 * Millisecond)) (λ _, None).
Lemma ensureStarted_terminates_witness :
  ∃ t, t < 0 + 20 * Second ∧ (hs_get hsys0 t).1 = true.
Proof.
  destruct (ensureStarted_terminates wcfg hsys0 "" (mkHTTPMode None 0) ltac:(vm_compute; discriminate)
    ltac:(intros; vm_compute; discriminate)) as (r & m' & E & H).
  destruct (H eq_refl) as (t & Ht); [|exists t; exact Ht].
  revert E. vm_compute. intros [= <- _]. reflexivity.
Defined.

(** The wrapper refuses to start with a guessable token. *)
Example short_token_refused :
  is_ok (NewServer (λ _, Ok "short") (Ok ([], [])) wcfg ()) = false ∧
  is_ok (NewServer (λ _, Ok " pod-token-pod-token ") (Ok ([], [])) wcfg ()) = true.
Proof. by vm_compute. Qed.
End WrapperServerWitness.
