(* ===== verification/Stream.v ===== *)
(** * Byte streams

    The loops that move bytes: [flushCopy] of internal/mcpproxy/proxy.go and the
    copy of the companion (internal/cli/companion.go), which pass an event
    stream on to the client; [Redactor.Pipe] of internal/wrapper/redact.go, which
    logs the child's stderr line by line; and [pipe] of internal/egress/proxy.go,
    the tunnel behind CONNECT.  A stream is what its successive reads return, so
    that a statement about every list of reads is one about every moment. *)

From S2P Require Import Prelude GoStd Wrapper.

Local Open Scope Z_scope.

Definition concat_all (l : list string) : string := fold_right String.append "" l.

(** ** Event streams *)

(** A [Read]: the bytes it returned and whether it returned an error as well. *)
Notation read := (string * bool)%type.

(** A response writer: what reached the client, what waits for a flush, and how many
    more writes the connection takes. *)
Record writer := mkWriter { wr_sent : string; wr_buffer : string; wr_takes : nat }.
Definition write (b : string) (w : writer) : option writer :=
  match wr_takes w with O => None | S n => Some (mkWriter (wr_sent w) (wr_buffer w +:+ b) n) end.
Definition flush (w : writer) : writer := mkWriter (wr_sent w +:+ wr_buffer w) "" (wr_takes w).

(** [func flushCopy]: the writer, and whether it returned or waits for the next read.
    [f] tells whether the writer is a flusher. *)
Fixpoint flushCopy (f : bool) (reads : list read) (w : writer) : writer * bool :=
  match reads with
  | [] => (w, false)
  | (b, err) :: reads =>
      if String.eqb b "" then if (err : bool) then (w, true) else flushCopy f reads w
      else
        match write b w with
        | None => (w, true)
        | Some w => let w := if f then flush w else w in if (err : bool) then (w, true) else flushCopy f reads w
        end
  end.

(** The same loop in the companion's [ServeHTTP], which ignores write errors. *)
Fixpoint companionCopy (reads : list read) (w : writer) : writer * bool :=
  match reads with
  | [] => (w, false)
  | (b, err) :: reads =>
      let w := if String.eqb b "" then w else flush (default w (write b w)) in
      if (err : bool) then (w, true) else companionCopy reads w
  end.

(** The bytes of the stream: up to the first error, with what came along with it. *)
Fixpoint received (reads : list read) : list string :=
  match reads with [] => [] | (b, err) :: reads => b :: (if (err : bool) then [] else received reads) end.
Definition ended (reads : list read) : bool := existsb snd reads.

(** An event stream reaches the client as it happens: after every read the client
    has a prefix of what the pod sent, nothing waits in a buffer, and as long as
    the connection takes the writes it has all of it; the copy returns when the
    stream ends. *)
Theorem flushCopy_delivers reads w :
  wr_buffer w = "" →
  let '(w', returned) := flushCopy true reads w in
  wr_buffer w' = "" ∧
  (∃ rest, wr_sent w +:+ concat_all (received reads) = wr_sent w' +:+ rest ∧
    ((length (received reads) ≤ wr_takes w)%nat → rest = "" ∧ returned = ended reads)).
Proof.
  revert w. induction reads as [|[b err] reads IH]; intros w Hb; cbn [flushCopy].
  { split; [done|]. by exists "". }
  assert (ended ((b, err) :: reads) = err || ended reads) as He by done.
  destruct (String.eqb_spec b "") as [->|Hne].
  - destruct err; cbn [received concat_all fold_right length]; rewrite He.
    + split; [done|]. by exists "".
    + specialize (IH w Hb). destruct (flushCopy true reads w) as [w' r]. destruct IH as (H1 & rest & H2 & H3). split; [done|].
      exists rest. split; [done|]. intros Hl. apply H3. lia.
  - unfold write. destruct (wr_takes w) as [|n] eqn:En.
    + split; [done|]. eexists. split; [done|]. cbn [received length]. lia.
    + assert (flush (mkWriter (wr_sent w) (wr_buffer w +:+ b) n) = mkWriter (wr_sent w +:+ b) "" n) as -> by (unfold flush; cbn; by rewrite Hb).
      destruct err; cbn [received concat_all fold_right length].
      * split; [done|]. exists "". cbn [wr_sent]. rewrite !str_app_nil_r. by rewrite He.
      * specialize (IH (mkWriter (wr_sent w +:+ b) "" n) eq_refl). destruct (flushCopy true reads _) as [w' r].
        destruct IH as (H1 & rest & H2 & H3). split; [done|]. exists rest. cbn [wr_sent wr_takes] in *. split.
        -- rewrite <- H2. by rewrite str_app_assoc.
        -- intros Hl. rewrite He. apply H3. lia.
Qed.

(** Write errors do not end the companion's loop: it reads the gateway's stream to its
    end even when its own client is gone. *)
Lemma companionCopy_reads_on reads w : wr_takes w = O → (companionCopy reads w).2 = ended reads.
Proof.
  revert w. induction reads as [|[b err] reads IH]; intros w Hw; [done|]. cbn [companionCopy].
  assert (ended ((b, err) :: reads) = err || ended reads) as -> by done. destruct err; [done|]. cbn [orb].
  apply IH. unfold write. rewrite Hw. by destruct (String.eqb b "").
Qed.

(** ** The child's stderr *)

Definition dropCR (s : string) : string :=
  if HasSuffix s (String "013" "") then str_take (String.length s - 1) s else s.

(** [bufio.Scanner] with lines of less than [max] bytes: the lines it returns and
    whether it gave up on one that is too long.  The last piece has no line end. *)
Fixpoint scan_lines (max : Z) (pieces : list string) : list string * bool :=
  match pieces with
  | [] => ([], false)
  | p :: rest =>
      if bool_decide (rest = []) && String.eqb p "" then ([], false)
      else if max <=? Z.of_nat (String.length p) then ([], true)
      else let '(ls, stopped) := scan_lines max rest in (dropCR p :: ls, stopped)
  end.

Definition scanner_max : Z := 1048576.   (* 1 << 20 *)

(** [func (r *Redactor) Pipe]: what is logged of [src], and whether it stopped reading
    before the end. *)
Definition Redactor_Pipe (r : Redactor) (src : string) : list string * bool :=
  let '(ls, stopped) := scan_lines scanner_max (SplitByte src "010") in ((λ l, Scrub l r) <$> ls, stopped).

(** A line of a mebibyte ends the logging for good: neither it nor anything after it is
    logged, and nobody reads the child's stderr any more. *)
Lemma scan_lines_stops max ps p rest :
  Forall (λ q, Z.of_nat (String.length q) < max) ps → max ≤ Z.of_nat (String.length p) → p ≠ "" →
  scan_lines max (ps ++ p :: rest) = (dropCR <$> ps, true).
Proof.
  intros Hps Hp Hne. induction Hps as [|q ps Hq Hps IH]; cbn [app scan_lines].
  - destruct (String.eqb_spec p ""); [done|]. rewrite andb_false_r. by rewrite (proj2 (Z.leb_le _ _) Hp).
  - rewrite bool_decide_eq_false_2 by (by destruct ps). cbn [andb]. destruct (Z.leb_spec max (Z.of_nat (String.length q))); [lia|].
    by rewrite IH.
Qed.

(** With no such line, everything the child wrote is logged, each line scrubbed. *)
Lemma scan_lines_all max ps :
  Forall (λ q, Z.of_nat (String.length q) < max) ps → scan_lines max (ps ++ [""]) = (dropCR <$> ps, false).
Proof.
  intros Hps. induction Hps as [|q ps Hq Hps IH]; cbn [app scan_lines]; [done|].
  rewrite bool_decide_eq_false_2 by (by destruct ps). cbn [andb]. destruct (Z.leb_spec max (Z.of_nat (String.length q))); [lia|].
  by rewrite IH.
Qed.

(** A secret that spans lines is registered and still logged as it is: each line is
    scrubbed on its own and none of them contains it. *)
Example multiline_secret_is_logged :
  let secret := "-----BEGIN KEY-----" +:+ String "010" "c2VjcmV0" in
  Redactor_Pipe (Redactor_Add secret (NewRedactor true)) (secret +:+ String "010" "") = (["-----BEGIN KEY-----"; "c2VjcmV0"], false).
Proof. vm_compute. reflexivity. Qed.

(** ** The tunnel of the egress proxy *)

(** Both directions of [pipe]: the chunks each side still sends, what the other side
    got, and whether the tunnel is closed.  A side with nothing left has ended its
    direction (a half-close included). *)
Record tunnel := mkTunnel { tu_client : list string; tu_upstream : list string; tu_to_upstream : string; tu_to_client : string; tu_closed : bool }.

(** One of the two copies makes a step: a chunk passes, or its source has ended, which
    closes both connections. *)
Inductive side := FromClient | FromUpstream.
Definition pipe_step (d : side) (t : tunnel) : tunnel :=
  if tu_closed t then t
  else
    match d with
    | FromClient =>
        match tu_client t with
        | [] => mkTunnel [] (tu_upstream t) (tu_to_upstream t) (tu_to_client t) true
        | b :: rest => mkTunnel rest (tu_upstream t) (tu_to_upstream t +:+ b) (tu_to_client t) false
        end
    | FromUpstream =>
        match tu_upstream t with
        | [] => mkTunnel (tu_client t) [] (tu_to_upstream t) (tu_to_client t) true
        | b :: rest => mkTunnel (tu_client t) rest (tu_to_upstream t) (tu_to_client t +:+ b) false
        end
    end.
Definition pipe (sched : list side) (client upstream : list string) : tunnel :=
  fold_left (λ t d, pipe_step d t) sched (mkTunnel client upstream "" "" false).

(** Nothing is added, lost or reordered on the way: each side has received exactly what
    the other sent, less what that other side still has to send. *)
Lemma pipe_faithful sched client upstream :
  let t := pipe sched client upstream in
  tu_to_upstream t +:+ concat_all (tu_client t) = concat_all client ∧
  tu_to_client t +:+ concat_all (tu_upstream t) = concat_all upstream.
Proof.
  assert (∀ t, tu_to_upstream t +:+ concat_all (tu_client t) = concat_all client →
               tu_to_client t +:+ concat_all (tu_upstream t) = concat_all upstream →
    let t' := fold_left (λ t d, pipe_step d t) sched t in
    tu_to_upstream t' +:+ concat_all (tu_client t') = concat_all client ∧
    tu_to_client t' +:+ concat_all (tu_upstream t') = concat_all upstream) as H; [|by apply H].
  induction sched as [|d sched IH]; intros t H1 H2; [done|]. cbn [fold_left]. apply IH; unfold pipe_step; destruct (tu_closed t); try done;
    destruct d; [destruct (tu_client t) eqn:E|destruct (tu_upstream t) eqn:E|destruct (tu_client t) eqn:E|destruct (tu_upstream t) eqn:E]; cbn in *;
    rewrite ?E, ?str_app_assoc in *; done.
Qed.

(** The tunnel ends with the direction that ends first: a client that has sent its
    request and closed its sending side loses the answer. *)
Example half_close_loses_answer :
  let t := pipe [FromClient; FromClient; FromUpstream; FromUpstream] ["request"] ["answer"] in
  tu_to_upstream t = "request" ∧ tu_to_client t = "" ∧ tu_closed t = true.
Proof. vm_compute. auto. Qed.

(** ** Witnesses *)

Module StreamWitness.
Definition two_events : list read := [("event: a", false); ("", false); ("event: b", true); ("late", false)].
Lemma flushCopy_delivers_witness :
  wr_sent (flushCopy true two_events (mkWriter "" "" 5)).1 = "event: aevent: b" ∧
  wr_buffer (flushCopy true two_events (mkWriter "" "" 5)).1 = "".
Proof.
  destruct (flushCopy_delivers two_events (mkWriter "" "" 5) eq_refl) as [H1 (rest & H2 & H3)].
  split; [|exact H1]. destruct H3 as [-> _]; [vm_compute; lia|]. reflexivity.
Defined.
End StreamWitness.
