(* ===== verification/LocalProvision.v ===== *)
(** * internal/adapters/provision/local: pods as processes or containers

    adapter.go and readiness.go.  The host (files, processes and the docker
    command) is a parameter.  Entries are pointers in the source: the map of pods
    and the goroutine that waits for readiness share them, so they live in a heap
    and are named by their index. *)

From S2P Require Import Prelude GoStd Sha256 Config Core Contracts Context Wrapper.

Local Open Scope Z_scope.

(** What the provisioner uses of os and os/exec.  Cancelling the context of a
    command kills its process; the docker command returns its output. *)
Class Host (W : Type) := {
  h_MkdirAll : string → W → result () * W;
  h_WriteFile : string → string → W → result () * W;
  h_Create : string → W → result () * W;
  h_Start : list string → string → W → result Z * W;    (* command line, added environment: the process *)
  h_Kill : Z → W → W;
  h_docker : list string → W → result string * W;
  h_RemoveAll : string → W → W;
  h_ReadFile : string → W → result string;
  h_Getenv : string → string }.

(** ** Port ranges and endpoints *)

(** [func parseRange] *)
Definition parseRange (s : string) : result (Z * Z) :=
  match Cut s "-" with
  | (a, b, true) =>
      match Atoi a, Atoi b with
      | Some from, Some to => if (from <=? 0) || (to <? from) then Err (EMsg "invalid port range") else Ok (from, to)
      | _, _ => Err (EMsg "invalid port range")
      end
  | _ => Err (EMsg "invalid port range")
  end.

(** [func portOf]: after the last colon, or everything. *)
Fixpoint AfterLast (s : string) (c : ascii) : option string :=
  match s with
  | EmptyString => None
  | String d s' => match AfterLast s' c with
                   | Some t => Some t
                   | None => if Ascii.eqb d c then Some s' else None
                   end
  end.
Definition portOf (endpoint : string) : string := default endpoint (AfterLast endpoint ":").

(** [strings.Replace(s, old, new, 1)] *)
Fixpoint Replace1 (s old new : string) : string :=
  if HasPrefix s old then new +:+ str_drop (String.length old) s
  else match s with EmptyString => EmptyString | String c s' => String c (Replace1 s' old new) end.

(** ** readiness.go *)

(** [func WaitReady]: [get t] is whether a request at [t] is answered with 200 and
    how long it takes; [tick n] is when the n-th tick is received.  [None] when
    the fuel is used up. *)
Fixpoint WaitReady_go (fuel : nat) (get : Z → bool * Z) (tick : nat → Z) (deadline : Z) (n : nat) (t : Z) : option bool :=
  match fuel with
  | O => None
  | S fuel =>
      let '(ok, d) := get t in
      if ok then Some true
      else
        let t := Z.max (t + d) (tick n) in
        if deadline <=? t then Some false else WaitReady_go fuel get tick deadline (S n) t
  end.
Definition WaitReady_fuel (budget : Z) : nat := S (Z.to_nat (budget / (500 * Millisecond) + 1)).
Definition WaitReady (get : Z → bool * Z) (tick : nat → Z) (budget now : Z) : option (result ()) :=
  match WaitReady_go (WaitReady_fuel budget) get tick (now + budget) 1 now with
  | None => None
  | Some true => Some (Ok ())
  | Some false => Some (Err (EMsg "pod not ready within budget"))
  end.

(** ** adapter.go *)

(** [type entry struct]: a command has a process to cancel. *)
Record entry := mkEntry { en_status : PodStatus; en_cmd : option Z; en_container : string; en_logPath : string }.

(** [type Backend struct]: [lb_heap] holds the entries ever made, [lb_pods] points into it. *)
Record LocalBackend (W : Type) := mkLocalBackend {
  lb_pods : gmap PodKey nat; lb_heap : list entry; lb_nextPort : Z; lb_lastPort : Z; lb_host : W }.
Arguments mkLocalBackend {W}. Arguments lb_pods {W}. Arguments lb_heap {W}. Arguments lb_nextPort {W}.
Arguments lb_lastPort {W}. Arguments lb_host {W}.

(** [func readyPortFor] and the URL of [watchReady] *)
Definition readyPortFor (e : entry) : Z :=
  match en_cmd e with
  | Some _ => default 0 (Atoi (portOf (pst_Endpoint (en_status e)))) + 1
  | None => 9001
  end.
Definition readyURL (e : entry) : string :=
  let ep := pst_Endpoint (en_status e) in
  Replace1 ep (":" +:+ portOf ep) (":" +:+ Itoa (readyPortFor e)) +:+ "/readyz".

Definition set_status (st : PodStatus) (e : entry) : entry := mkEntry st (en_cmd e) (en_container e) (en_logPath e).

Section Local.
Context {W} `{!Host W}.
Variables (cfg : LocalRuntime) (stateDir : string) (marshalWrapper : WConfig → result string).
Local Notation B := (LocalBackend W).

(** [func NewBackend] *)
Definition NewBackend (w : W) : result B * W :=
  match parseRange (lr_PortRange cfg) with
  | Err e => (Err e, w)
  | Ok (from, to) =>
      match h_MkdirAll stateDir w with
      | (Err e, w) => (Err e, w)
      | (Ok _, w) => (Ok (mkLocalBackend ∅ [] from to w), w)
      end
  end.

(** [wcfg.WriteFile(cfgPath)] *)
Definition writeConfig (c : WConfig) (path : string) (w : W) : result () * W :=
  match marshalWrapper c with Err e => (Err e, w) | Ok s => h_WriteFile path s w end.

Definition with_host (w : W) (b : B) : B := mkLocalBackend (lb_pods b) (lb_heap b) (lb_nextPort b) (lb_lastPort b) w.

(** [func (b *Backend) startProcess] *)
Definition startProcess (spec : SpawnSpec) (name dir tokenPath : string) (b : B) : result entry * B :=
  if lb_lastPort b <? lb_nextPort b + 1 then (Err (EMsg "local port range exhausted"), b)
  else
    let port := lb_nextPort b in
    let b := mkLocalBackend (lb_pods b) (lb_heap b) (lb_nextPort b + 2) (lb_lastPort b) (lb_host b) in
    let cfgPath := dir +:+ "/wrapper.json" in
    match writeConfig (ConfigFromServer (sp_Server spec) port (port + 1) tokenPath) cfgPath (lb_host b) with
    | (Err e, w) => (Err e, with_host w b)
    | (Ok _, w) =>
        let logPath := dir +:+ "/wrapper.log" in
        match h_Create logPath w with
        | (Err e, w) => (Err e, with_host w b)
        | (Ok _, w) =>
            match h_Start [lr_WrapperBinary cfg; "--config"; cfgPath] ("JUGGERNAUT_POD_NAME=" +:+ name) w with
            | (Err e, w) => (Err (EWrap "start wrapper" e), with_host w b)
            | (Ok pid, w) =>
                (Ok (mkEntry (mkPodStatus "" PhaseUnset ("http://127.0.0.1:" +:+ Itoa port) "" 0) (Some pid) "" logPath),
                 with_host w b)
            end
        end
    end.

(** [func (b *Backend) ensureUserNetwork] *)
Definition ensureUserNetwork (userHash : string) (w : W) : result string * W :=
  let name := lr_Network cfg +:+ "-" +:+ userHash in
  let connect w :=
    let self := h_Getenv "JUGGERNAUT_CONTAINER_NAME" in
    if String.eqb self "" then w else (h_docker ["network"; "connect"; name; self] w).2 in
  match h_docker ["network"; "inspect"; name] w with
  | (Ok _, w) => (Ok name, connect w)
  | (Err _, w) =>
      match h_docker ["network"; "create"; "--driver"; "bridge"; "--label"; "juggernaut.io/user-hash=" +:+ userHash; name] w with
      | (Err e, w) => (Err (EWrap ("docker network create " +:+ name) e), w)
      | (Ok _, w) => (Ok name, connect w)
      end
  end.

(** The arguments of [docker run]. *)
Definition dockerArgs (spec : SpawnSpec) (name network cfgPath tokenPath : string) : list string :=
  let hash := UserHash (pk_Subject (sp_Key spec)) in
  ["run"; "-d"; "--rm"; "--name"; "juggernaut-" +:+ name; "--network"; network;
   "--label"; "juggernaut.io/session=true";
   "--label"; "juggernaut.io/server-type=" +:+ pk_ServerType (sp_Key spec);
   "--label"; "juggernaut.io/user-hash=" +:+ hash;
   "--read-only"; "--tmpfs"; "/run/juggernaut:rw,size=1m,mode=700"; "--tmpfs"; "/tmp";
   "--cap-drop"; "ALL"; "--security-opt"; "no-new-privileges";
   "-v"; cfgPath +:+ ":/etc/juggernaut/wrapper.json:ro"; "-v"; tokenPath +:+ ":/run/juggernaut/pod-token:ro";
   "--entrypoint"; "/juggernaut-wrapper"]
  ++ (map_to_list (s_Env (sp_Server spec)) ≫= λ kv, ["-e"; kv.1 +:+ "=" +:+ kv.2])
  ++ [s_Image (sp_Server spec); "--config"; "/etc/juggernaut/wrapper.json"].

(** [func (b *Backend) startDocker] *)
Definition startDocker (spec : SpawnSpec) (name dir tokenPath : string) (b : B) : result entry * B :=
  let cfgPath := dir +:+ "/wrapper.json" in
  let fail {A} (e : gerror) (w : W) : result A * B := (Err e, with_host w b) in
  match writeConfig (ConfigFromServer (sp_Server spec) 9000 9001 "/run/juggernaut/pod-token") cfgPath (lb_host b) with
  | (Err e, w) => fail e w
  | (Ok _, w) =>
      match ensureUserNetwork (UserHash (pk_Subject (sp_Key spec))) w with
      | (Err e, w) => fail e w
      | (Ok network, w) =>
          match h_docker (dockerArgs spec name network cfgPath tokenPath) w with
          | (Err e, w) => fail (EWrap "docker run" e) w
          | (Ok out, w) =>
              let id := TrimSpace out in
              let q := String (Ascii.ascii_of_nat 34) "" in
              match h_docker ["inspect"; "-f"; "{{(index .NetworkSettings.Networks " +:+ q +:+ network +:+ q +:+ ").IPAddress}}"; id] w with
              | (Err e, w) => fail (EWrap "docker inspect" e) w
              | (Ok ip, w) =>
                  (Ok (mkEntry (mkPodStatus "" PhaseUnset ("http://" +:+ TrimSpace ip +:+ ":9000") "" 0) None id ""),
                   with_host w b)
              end
          end
      end
  end.

Definition entry_of (key : PodKey) (b : B) : option entry := lb_pods b !! key ≫= λ i, lb_heap b !! i.

(** The part of [Ensure] that starts a pod: directory, token file, process or
    container, and the new entry. *)
Definition local_spawn (now : Z) (spec : SpawnSpec) (b : B) : result PodStatus * B :=
  let name := PodKey_Name (sp_Key spec) in
  let dir := stateDir +:+ "/" +:+ name in
  match h_MkdirAll dir (lb_host b) with
  | (Err e, w) => (Err e, with_host w b)
  | (Ok _, w) =>
      let tokenPath := dir +:+ "/pod-token" in
      match h_WriteFile tokenPath (sp_PodToken spec) w with
      | (Err e, w) => (Err e, with_host w b)
      | (Ok _, w) =>
          match (if String.eqb (lr_Mode cfg) "process" then startProcess spec name dir tokenPath (with_host w b)
                 else startDocker spec name dir tokenPath (with_host w b)) with
          | (Err e, b) => (Err e, b)
          | (Ok e, b) =>
              let st := mkPodStatus name PhaseStarting (pst_Endpoint (en_status e)) (pst_Message (en_status e)) now in
              (Ok st, mkLocalBackend (<[sp_Key spec := length (lb_heap b)]> (lb_pods b)) (lb_heap b ++ [set_status st e])
                        (lb_nextPort b) (lb_lastPort b) (lb_host b))
          end
      end
  end.

(** [func (b *Backend) Ensure]; a goroutine then watches the new entry. *)
Definition local_Ensure (now : Z) (spec : SpawnSpec) (b : B) : result PodStatus * B :=
  match entry_of (sp_Key spec) b with
  | Some e => if bool_decide (pst_Phase (en_status e) = PhaseGone) || bool_decide (pst_Phase (en_status e) = PhaseFailed)
              then local_spawn now spec b else (Ok (en_status e), b)
  | None => local_spawn now spec b
  end.

(** [func (b *Backend) watchReady] once [WaitReady] has answered *)
Definition watchReady (i : nat) (r : result ()) (b : B) : B :=
  let upd e := let st := en_status e in
    set_status (match r with
                | Ok _ => mkPodStatus (pst_Name st) PhaseReady (pst_Endpoint st) (pst_Message st) (pst_Started st)
                | Err _ => mkPodStatus (pst_Name st) PhaseFailed (pst_Endpoint st) "pod not ready within budget" (pst_Started st)
                end) e in
  mkLocalBackend (lb_pods b) (alter upd i (lb_heap b)) (lb_nextPort b) (lb_lastPort b) (lb_host b).

(** [Status], [Release] and [List] *)
Definition local_Status (key : PodKey) (b : B) : result PodStatus :=
  match entry_of key b with Some e => Ok (en_status e) | None => Err ErrNotFound end.

Definition local_Release (key : PodKey) (b : B) : result () * B :=
  match entry_of key b with
  | None => (Ok (), mkLocalBackend (delete key (lb_pods b)) (lb_heap b) (lb_nextPort b) (lb_lastPort b) (lb_host b))
  | Some e =>
      let w := match en_cmd e with Some pid => h_Kill pid (lb_host b) | None => lb_host b end in
      let w := if String.eqb (en_container e) "" then w else (h_docker ["rm"; "-f"; en_container e] w).2 in
      let w := h_RemoveAll (stateDir +:+ "/" +:+ PodKey_Name key) w in
      (Ok (), mkLocalBackend (delete key (lb_pods b)) (lb_heap b) (lb_nextPort b) (lb_lastPort b) w)
  end.

Definition local_List (b : B) : list PodStatus := omap (λ kv, en_status <$> lb_heap b !! kv.2) (map_to_list (lb_pods b)).

(** Slicing with a negative number of lines is out of range and panics. *)
Definition local_Logs (key : PodKey) (tailLines : Z) (b : B) : outcome (result string) * B :=
  match entry_of key b with
  | None => (Done (Err ErrNotFound), b)
  | Some e =>
      if negb (String.eqb (en_container e) "") then
        let '(r, w) := h_docker ["logs"; "--tail"; Itoa tailLines; en_container e] (lb_host b) in (Done r, with_host w b)
      else
        match h_ReadFile (en_logPath e) (lb_host b) with
        | Err err => (Done (Err err), b)
        | Ok data =>
            let lines := SplitByte data "010" in
            if tailLines <? Z.of_nat (length lines) then
              if tailLines <? 0 then (Panic, b)
              else (Done (Ok (Join (drop (length lines - Z.to_nat tailLines) lines) (String "010" ""))), b)
            else (Done (Ok (Join lines (String "010" ""))), b)
        end
  end.

(** The provisioner the gateway sees; the server answers a panic like an error. *)
Definition local_provisioner (now : Z) : Provisioner B :=
  {| Prov_Ensure := local_Ensure now; Prov_Status := λ key b, (local_Status key b, b);
     Prov_Release := local_Release; Prov_Logs := λ key n b, match (local_Logs key n b).1 with Done r => r | Panic => Err (EMsg "panic") end |}.
End Local.

(** ** Port ranges *)

Lemma digits_no_dash s acc z : digits_value s acc = Some z → CountByte s "-" = 0%nat.
Proof.
  revert acc. induction s as [|c s IH]; intros acc; [done|]. cbn. destruct (Ascii.is_nat c) eqn:E; [|done].
  intros H%IH. destruct (Ascii.eqb_spec c "-") as [->|]; [done|]. by rewrite H.
Qed.

Lemma Itoa_no_dash n : 0 < n → CountByte (Itoa n) "-" = 0%nat.
Proof.
  intros Hn. destruct n as [|p|p]; [done| |done]. destruct (pretty_pos_digit p) as (d & t & _ & He & Hv).
  unfold Itoa. cbv [pretty pretty_Z pretty_positive] in *. rewrite He. by eapply digits_no_dash.
Qed.

Lemma parseRange_bounds s from to : parseRange s = Ok (from, to) → 0 < from ≤ to ∧ to ≤ max_int.
Proof.
  unfold parseRange. destruct (Cut s "-") as [[a b] []]; [|done].
  destruct (Atoi a) as [f|]; [|done]. destruct (Atoi b) as [t|] eqn:Et; [|done].
  destruct (Z.leb_spec f 0); [done|]. destruct (Z.ltb_spec t f); [done|]. cbn. intros [= <- <-]. split; [lia|].
  unfold Atoi in Et. destruct (match b with String _ _ => _ | _ => _ end) as [z|]; [|done].
  destruct (in_int64 z) eqn:Ei; [|done]. injection Et as <-. unfold in_int64 in Ei. bprop. lia.
Qed.

(** A port range is read back from its text, and every range that is accepted is a
    non-empty range of positive numbers. *)
Theorem parseRange_roundtrip :
  (∀ from to, 0 < from ≤ to → to ≤ max_int → parseRange (Itoa from +:+ "-" +:+ Itoa to) = Ok (from, to)) ∧
  (∀ s from to, parseRange s = Ok (from, to) → 0 < from ≤ to ∧ to ≤ max_int).
Proof.
  split.
  - intros from to H Hm. unfold parseRange. change ("-" +:+ Itoa to) with (String "-" (Itoa to)).
    rewrite Cut_byte_found by (apply Itoa_no_dash; lia).
    assert (∀ n, 0 < n ≤ max_int → in_int64 n = true) as Hin.
    { intros n Hn. unfold in_int64. apply andb_true_intro. split; apply Z.leb_le; lia. }
    rewrite !Atoi_Itoa by (apply Hin; lia).
    destruct (Z.leb_spec from 0); [lia|]. by destruct (Z.ltb_spec to from); [lia|].
  - apply parseRange_bounds.
Qed.

(** ** Readiness *)

Lemma WaitReady_enough fuel get tick deadline start n t :
  (∀ n, start + 500 * Millisecond * Z.of_nat n ≤ tick n) →
  deadline - start ≤ 500 * Millisecond * Z.of_nat (n + fuel) → WaitReady_go (S fuel) get tick deadline n t ≠ None.
Proof.
  intros Ht. revert n t. induction fuel as [|fuel IH]; intros n t Hf; cbn [WaitReady_go].
  - destruct (get t) as [[] d]; [done|]. specialize (Ht n). rewrite Nat.add_0_r in Hf.
    destruct (Z.leb_spec deadline (Z.max (t + d) (tick n))); [done|lia].
  - destruct (get t) as [[] d]; [done|]. destruct (_ <=? _); [done|]. apply IH.
    by rewrite Nat.add_succ_comm.
Qed.

(** Waiting for readiness always ends: the pod answered, or it is given up. *)
Theorem WaitReady_terminates get tick budget now :
  0 ≤ budget → (∀ n, now + 500 * Millisecond * Z.of_nat n ≤ tick n) → WaitReady get tick budget now ≠ None.
Proof.
  intros Hb Ht. unfold WaitReady. destruct (WaitReady_go _ _ _ _ _ _) as [[]|] eqn:E; [done..|]. exfalso. revert E.
  apply (WaitReady_enough _ _ _ _ now); [done|]. set (q := budget / (500 * Millisecond)).
  assert (0 ≤ q) by (apply Z.div_pos; [lia|unfold Millisecond; lia]).
  pose proof (Z.mod_pos_bound budget (500 * Millisecond) ltac:(unfold Millisecond; lia)).
  pose proof (Z.div_mod budget (500 * Millisecond) ltac:(unfold Millisecond; lia)) as E. fold q in E. lia.
Qed.

(** ** Pods in process mode *)

Lemma AfterLast_app a c b : CountByte b c = 0%nat → AfterLast (a +:+ String c b) c = Some b.
Proof.
  intros Hb. assert (AfterLast b c = None) as Hn.
  { induction b as [|d b IH]; [done|]. cbn in *. destruct (Ascii.eqb_spec d c); [done|]. by rewrite IH. }
  induction a as [|d a IH].
  - change ("" +:+ String c b) with (String c b). cbn [AfterLast]. by rewrite Hn, Ascii.eqb_refl.
  - rewrite str_app_cons. cbn [AfterLast]. by rewrite IH.
Qed.

Lemma digits_no_colon s acc z : digits_value s acc = Some z → CountByte s ":" = 0%nat.
Proof.
  revert acc. induction s as [|c s IH]; intros acc; [done|]. cbn. destruct (Ascii.is_nat c) eqn:E; [|done].
  intros H%IH. destruct (Ascii.eqb_spec c ":") as [->|]; [done|]. by rewrite H.
Qed.

Definition process_endpoint (p : Z) : string := "http://127.0.0.1:" +:+ Itoa p.

Lemma Itoa_pos p : 0 < p → ∃ d t, (d < 10)%N ∧ Itoa p = String (pretty_N_char d) t ∧ CountByte (Itoa p) ":" = 0%nat.
Proof.
  intros Hp. destruct p as [|p|p]; [done| |done]. destruct (pretty_pos_digit p) as (d & t & Hd & He & Hv).
  exists d, t. unfold Itoa. cbv [pretty pretty_Z pretty_positive] in *. rewrite He. split_and!; [done..|by eapply digits_no_colon].
Qed.

Lemma portOf_process p : 0 < p → portOf (process_endpoint p) = Itoa p.
Proof.
  intros (d & t & _ & _ & Hc)%Itoa_pos. unfold portOf, process_endpoint.
  change ("http://127.0.0.1:" +:+ Itoa p) with ("http://127.0.0.1" +:+ String ":" (Itoa p)). by rewrite AfterLast_app.
Qed.

Lemma Replace1_skip c s old new : HasPrefix (String c s) old = false → Replace1 (String c s) old new = String c (Replace1 s old new).
Proof. intros H. cbn [Replace1]. by rewrite H. Qed.

Lemma Replace1_skip_app a s c x new :
  CountByte a c = 0%nat → Replace1 (a +:+ s) (String c x) new = a +:+ Replace1 s (String c x) new.
Proof.
  induction a as [|d a IH]; intros Ha; [done|]. rewrite !str_app_cons. cbn in Ha.
  destruct (Ascii.eqb_spec d c) as [|Hne]; [done|]. rewrite Replace1_skip, IH; [done|done|].
  cbn. destruct (Ascii.eqb_spec d c); [done|]. destruct (Ascii.eqb_spec c d); [by subst|done].
Qed.

Lemma Replace1_self s new : Replace1 s s new = new.
Proof.
  assert (HasPrefix s s = true) as H by (rewrite <- (str_app_nil_r s) at 1; apply HasPrefix_app).
  assert (str_drop (String.length s) s = "") as Hd by (rewrite <- (str_app_nil_r s) at 2; apply str_drop_app).
  destruct s as [|c s]; cbn [Replace1]; rewrite H, Hd; apply str_app_nil_r.
Qed.

(** The readiness endpoint of a process is on the port after its data port. *)
Lemma readyURL_process e pid p :
  0 < p ≤ max_int → en_cmd e = Some pid → pst_Endpoint (en_status e) = process_endpoint p →
  readyURL e = process_endpoint (p + 1) +:+ "/readyz".
Proof.
  intros Hp Hc He. unfold readyURL, readyPortFor. rewrite Hc, He, portOf_process by lia.
  rewrite Atoi_Itoa by (unfold in_int64; apply andb_true_intro; split; apply Z.leb_le; lia). cbn [default].
  f_equal. unfold process_endpoint. destruct (Itoa_pos p ltac:(lia)) as (d & t & Hd & Ei & _). rewrite Ei.
  assert (Ascii.eqb "/" (pretty_N_char d) = false ∧ Ascii.eqb (pretty_N_char d) "/" = false) as [E1 E2].
  { assert (d = 0 ∨ d = 1 ∨ d = 2 ∨ d = 3 ∨ d = 4 ∨ d = 5 ∨ d = 6 ∨ d = 7 ∨ d = 8 ∨ d = 9)%N by lia. naive_solver. }
  change (":" +:+ String (pretty_N_char d) t) with (String ":" (String (pretty_N_char d) t)).
  change ("http://127.0.0.1:" +:+ String (pretty_N_char d) t)
    with ("http" +:+ String ":" ("//127.0.0.1" +:+ String ":" (String (pretty_N_char d) t))).
  rewrite Replace1_skip_app, Replace1_skip, Replace1_skip_app, Replace1_self; [done|done| |done].
  rewrite (str_app_cons "/" "/127.0.0.1"). cbn. by rewrite ?E1, ?E2.
Qed.

Section Process.
Context {W} `{!Host W}.
Variables (cfg : LocalRuntime) (stateDir : string) (mw : WConfig → result string).
Hypothesis process_mode : lr_Mode cfg = "process".

(** Everything that happens to the backend, in the order its mutex admits it; a
    readiness verdict may come for any entry ever made. *)
Inductive lpstep : LocalBackend W → LocalBackend W → Prop :=
| lp_Ensure now spec b : lpstep b (local_Ensure cfg stateDir mw now spec b).2
| lp_Release key b : lpstep b (local_Release stateDir key b).2
| lp_ready i r b : lpstep b (watchReady i r b)
| lp_Logs key n b : lpstep b (local_Logs key n b).2.

Definition lpreachable (b : LocalBackend W) : Prop :=
  ∃ w b0 w0, NewBackend cfg stateDir w = (Ok b0, w0) ∧ rtc lpstep b0 b.

(** No entry, pod or port was added or taken back. *)
Record kept (b b' : LocalBackend W) : Prop := {
  kp_pods : lb_pods b' = lb_pods b; kp_heap : lb_heap b' = lb_heap b;
  kp_last : lb_lastPort b' = lb_lastPort b; kp_next : lb_nextPort b ≤ lb_nextPort b' }.

Lemma startProcess_cases spec name dir tok (b b' : LocalBackend W) r :
  startProcess cfg mw spec name dir tok b = (r, b') →
  kept b b' ∧ ∀ e, r = Ok e → lb_nextPort b' = lb_nextPort b + 2 ∧ lb_nextPort b + 1 ≤ lb_lastPort b ∧
    is_Some (en_cmd e) ∧ pst_Endpoint (en_status e) = process_endpoint (lb_nextPort b).
Proof.
  unfold startProcess. destruct (Z.ltb_spec (lb_lastPort b) (lb_nextPort b + 1)); [by intros [= <- <-]; split; [split|]|].
  destruct (writeConfig _ _ _ _) as [[]w1]; [|intros [= <- <-]; split; [split; cbn; try done; lia|done]].
  destruct (h_Create _ _) as [[]w2]; [|intros [= <- <-]; split; [split; cbn; try done; lia|done]].
  destruct (h_Start _ _ _) as [[]w3]; intros [= <- <-]; (split; [split; cbn; try done; lia|]); [|done].
  intros e [= <-]. cbn. split_and!; [done|lia|done|done].
Qed.

(** One entry more, with the next pair of ports. *)
Definition spawned (key : PodKey) (b b' : LocalBackend W) : Prop :=
  ∃ e, lb_pods b' = <[key := length (lb_heap b)]> (lb_pods b) ∧ lb_heap b' = lb_heap b ++ [e] ∧
    lb_lastPort b' = lb_lastPort b ∧ lb_nextPort b' = lb_nextPort b + 2 ∧ lb_nextPort b + 1 ≤ lb_lastPort b ∧
    is_Some (en_cmd e) ∧ pst_Endpoint (en_status e) = process_endpoint (lb_nextPort b).

Lemma local_spawn_cases now spec (b b' : LocalBackend W) r :
  local_spawn cfg stateDir mw now spec b = (r, b') → kept b b' ∨ spawned (sp_Key spec) b b'.
Proof.
  unfold local_spawn. rewrite process_mode. change (String.eqb "process" "process") with true. cbn match.
  destruct (h_MkdirAll _ _) as [[]w]; [|intros [= <- <-]; by left; split].
  destruct (h_WriteFile _ _ _) as [[]w1]; [|intros [= <- <-]; by left; split].
  destruct (startProcess _ _ _ _ _ _ _) as [r0 b1] eqn:Es. apply startProcess_cases in Es as [[Hp Hh Hl Hn] He].
  destruct r0 as [e|e]; intros [= <- <-]; cbn in *; [|by left; split].
  right. destruct (He e eq_refl) as (? & ? & ? & ?). eexists. rewrite Hp, Hh. split_and!; try done.
Qed.

Lemma local_Ensure_cases now spec (b b' : LocalBackend W) r :
  local_Ensure cfg stateDir mw now spec b = (r, b') → kept b b' ∨ spawned (sp_Key spec) b b'.
Proof.
  unfold local_Ensure. destruct (entry_of (sp_Key spec) b) as [e|]; [|apply local_spawn_cases].
  destruct (_ || _); [apply local_spawn_cases|]. intros [= <- <-]. by left; split.
Qed.

(** Entry [e] serves on port [p] and answers readiness on the next one. *)
Definition at_port (e : entry) (p : Z) : Prop :=
  is_Some (en_cmd e) ∧ pst_Endpoint (en_status e) = process_endpoint p.

(** The entries have increasing, disjoint port pairs inside the range, and every
    pod points to an entry of its own. *)
Record ports_ok (from to : Z) (b : LocalBackend W) : Prop := {
  po_last : lb_lastPort b = to;
  po_next : from ≤ lb_nextPort b;
  po_ports : ∃ ps, Forall2 at_port (lb_heap b) ps ∧ StronglySorted (λ p q, p + 2 ≤ q) ps ∧
    Forall (λ p, from ≤ p ∧ p + 1 ≤ to ∧ p + 2 ≤ lb_nextPort b) ps;
  po_bound : ∀ key i, lb_pods b !! key = Some i → (i < length (lb_heap b))%nat;
  po_inj : ∀ k1 k2 i, lb_pods b !! k1 = Some i → lb_pods b !! k2 = Some i → k1 = k2 }.

Lemma sorted_snoc (ps : list Z) p :
  StronglySorted (λ p q, p + 2 ≤ q) ps → Forall (λ q, q + 2 ≤ p) ps → StronglySorted (λ p q, p + 2 ≤ q) (ps ++ [p]).
Proof.
  induction ps as [|q ps IH]; intros Hs Hf; cbn; [by repeat constructor|].
  inversion Hs; inversion Hf; subst. constructor; [by apply IH|]. by apply Forall_app; split; [|constructor].
Qed.

Lemma ports_ok_kept from to b b' : kept b b' → ports_ok from to b → ports_ok from to b'.
Proof.
  intros [Hp Hh Hl Hn] [H1 H2 (ps & Hf & Hs & Ha) H4 H5]. split; rewrite ?Hp, ?Hh, ?Hl; try done; [lia|].
  exists ps. split_and!; [done..|]. eapply Forall_impl; [exact Ha|]. cbn. lia.
Qed.

Lemma ports_ok_step from to b b' : lpstep b b' → ports_ok from to b → ports_ok from to b'.
Proof.
  intros Hstep Hok. destruct Hstep as [now spec b|key b|i r b|key n b].
  - destruct (local_Ensure _ _ _ _ _ b) as [r b'] eqn:E. cbn [snd].
    apply local_Ensure_cases in E as [Hk|(e & Hp & Hh & Hl & Hn & Hlast & Hc & He)]; [by eapply ports_ok_kept|].
    destruct Hok as [H1 H2 (ps & Hf & Hs & Ha) H4 H5]. split; rewrite ?Hp, ?Hh, ?Hl, ?Hn, ?length_app; try done; [lia|..].
    + exists (ps ++ [lb_nextPort b]). split_and!.
      * apply Forall2_app; [done|]. by constructor.
      * apply sorted_snoc; [done|]. eapply Forall_impl; [exact Ha|]. cbn. lia.
      * apply Forall_app. split; [eapply Forall_impl; [exact Ha|]; cbn; lia|constructor; [lia|done]].
    + intros key i [[_ <-]|[_ H]]%lookup_insert_Some; cbn; [lia|]. apply H4 in H. lia.
    + intros k1 k2 i [[<- <-]|[? Ha1]]%lookup_insert_Some [[<- Hi]|[? Ha2]]%lookup_insert_Some; [done|..].
      * apply H4 in Ha2. lia.
      * subst i. apply H4 in Ha1. lia.
      * by eapply H5.
  - unfold local_Release. destruct Hok as [H1 H2 H3 H4 H5].
    destruct (entry_of key b); cbn [snd]; split; cbn; try done;
      try (intros k i [_ Hk]%lookup_delete_Some; by eapply H4);
      intros k1 k2 i [_ Hk1]%lookup_delete_Some [_ Hk2]%lookup_delete_Some; by eapply H5.
  - destruct Hok as [H1 H2 (ps & Hf & Hs & Ha) H4 H5]. split; cbn; rewrite ?length_alter; try done.
    exists ps. split_and!; [|done..]. apply Forall2_alter_l; [done|]. intros e p _ _ [Hc He]. split; [done|]. by destruct r.
  - unfold local_Logs. destruct (entry_of key b) as [e|]; [|done]. destruct (negb _).
    + destruct (h_docker _ _). cbn. apply (ports_ok_kept _ _ b); [by split|done].
    + destruct (h_ReadFile _ _); cbn; [|done]. by repeat case_match.
Qed.

Lemma lpreachable_ok b : lpreachable b → ∃ from to, parseRange (lr_PortRange cfg) = Ok (from, to) ∧ ports_ok from to b.
Proof.
  intros (w & b0 & w0 & H0 & H). unfold NewBackend in H0. destruct (parseRange _) as [[from to]|]; [|done].
  exists from, to. split; [done|]. destruct (h_MkdirAll _ _) as [[]?]; [|done]. injection H0 as <- <-.
  assert (ports_ok from to (mkLocalBackend ∅ [] from to w1)) as Hok.
  { split; cbn; try done. exists []. by split_and!; constructor. }
  revert Hok. induction H as [|b1 b2 b3 Hs _ IH]; [done|]. intros Hok. apply IH. by eapply ports_ok_step.
Qed.

Lemma sorted_apart (ps : list Z) i j p q :
  StronglySorted (λ p q, p + 2 ≤ q) ps → ps !! i = Some p → ps !! j = Some q → (i < j)%nat → p + 2 ≤ q.
Proof.
  revert i j. induction ps as [|x ps IH]; intros i j Hs Hi Hj Hij; [done|]. inversion Hs as [|? ? Hs' Hf]; subst.
  destruct j as [|j]; [lia|]. destruct i as [|i]; cbn in *.
  - simplify_eq. rewrite Forall_forall in Hf. apply Hf. by eapply list_elem_of_lookup_2.
  - eapply IH; eauto. lia.
Qed.

(** No two pods of this backend share a port, neither for data nor for readiness,
    whatever pods were started, failed and released before, and every port lies
    in the configured range. *)
Theorem process_ports_disjoint b k1 k2 e1 e2 :
  lpreachable b → k1 ≠ k2 → entry_of k1 b = Some e1 → entry_of k2 b = Some e2 →
  ∃ from to p q, parseRange (lr_PortRange cfg) = Ok (from, to) ∧
    pst_Endpoint (en_status e1) = process_endpoint p ∧ readyURL e1 = process_endpoint (p + 1) +:+ "/readyz" ∧
    pst_Endpoint (en_status e2) = process_endpoint q ∧ readyURL e2 = process_endpoint (q + 1) +:+ "/readyz" ∧
    from ≤ p ∧ p + 1 ≤ to ∧ from ≤ q ∧ q + 1 ≤ to ∧ (p + 1 < q ∨ q + 1 < p).
Proof.
  intros (from & to & Hr & [_ _ (ps & Hf & Hs & Ha) _ Hinj])%lpreachable_ok Hne H1 H2.
  destruct (parseRange_bounds _ _ _ Hr) as [Hft Hmax].
  unfold entry_of in *. apply bind_Some in H1 as (i & Hi & H1). apply bind_Some in H2 as (j & Hj & H2).
  assert (∀ n e, lb_heap b !! n = Some e → ∃ p, ps !! n = Some p ∧ at_port e p ∧ from ≤ p ∧ p + 1 ≤ to ∧
    readyURL e = process_endpoint (p + 1) +:+ "/readyz") as Hget.
  { intros n e He. destruct (Forall2_lookup_l _ _ _ _ _ Hf He) as (p & Hp & [[pid Hc] Hep]). exists p.
    rewrite Forall_lookup in Ha. destruct (Ha _ _ Hp) as (? & ? & _). split_and!; [done|by split; eauto|done|done|].
    eapply readyURL_process; [lia|done|done]. }
  destruct (Hget _ _ H1) as (p & Hp & [_ Hep] & ? & ? & Hr1). destruct (Hget _ _ H2) as (q & Hq & [_ Heq] & ? & ? & Hr2).
  exists from, to, p, q. split_and!; try done.
  destruct (Nat.lt_total i j) as [Hij|[->|Hij]]; [left|exfalso; apply Hne; by eapply Hinj|right].
  - pose proof (sorted_apart _ _ _ _ _ Hs Hp Hq Hij). lia.
  - pose proof (sorted_apart _ _ _ _ _ Hs Hq Hp Hij). lia.
Qed.

(** A pod that was started is not started again while it is starting or ready:
    [Ensure] answers its current status and leaves the host alone. *)
Lemma local_Ensure_once now spec (b : LocalBackend W) e :
  entry_of (sp_Key spec) b = Some e → pst_Phase (en_status e) ≠ PhaseGone → pst_Phase (en_status e) ≠ PhaseFailed →
  local_Ensure cfg stateDir mw now spec b = (Ok (en_status e), b).
Proof. intros He Hg Hf. unfold local_Ensure. rewrite He. by rewrite !bool_decide_eq_false_2. Qed.

(** A late verdict for a pod that was released or replaced does not touch the pod
    that has its place now. *)
Lemma late_verdict_ignored key i j r (b : LocalBackend W) :
  lb_pods b !! key = Some j → i ≠ j → local_Status key (watchReady i r b) = local_Status key b.
Proof. intros Hk Hne. unfold local_Status, entry_of, watchReady. cbn. rewrite Hk. cbn. by rewrite list_lookup_alter_ne. Qed.

(** The ports of a released pod are not used again: once the range is used up,
    no pod can be started, even when none is running. *)
Lemma ports_not_recycled now spec (b : LocalBackend W) :
  lb_lastPort b < lb_nextPort b + 1 → ∃ e, (local_spawn cfg stateDir mw now spec b).1 = Err e.
Proof.
  intros Hp. unfold local_spawn. rewrite process_mode. change (String.eqb "process" "process") with true. cbn match.
  destruct (h_MkdirAll _ _) as [[]w]; [|by eexists]. destruct (h_WriteFile _ _ _) as [[]w1]; [|by eexists].
  unfold startProcess. cbn. apply Z.ltb_lt in Hp as ->. by eexists.
Qed.
End Process.

(** ** Witnesses *)

Module LocalWitness.
(** A host on which everything works; it counts the processes started. *)
#[local] Instance host0 : Host Z := {|
  h_MkdirAll _ w := (Ok (), w); h_WriteFile _ _ w := (Ok (), w); h_Create _ w := (Ok (), w);
  h_Start _ _ w := (Ok w, w + 1); h_Kill _ w := w; h_docker _ w := (Ok "", w); h_RemoveAll _ w := w;
  h_ReadFile _ _ := Ok "one"; h_Getenv _ := "" |}.
Definition cfg0 : LocalRuntime := mkLocalRuntime "process" "juggernaut-wrapper" "juggernaut" "39000-39003".
Definition mw0 (_ : WConfig) : result string := Ok "{}".
Definition spec0 (user : string) : SpawnSpec :=
  mkSpawnSpec (mkPodKey user "jira") (sample_server "jira" TokenNone None) (c_Network sample_config) "h" "t".
Definition b0 : LocalBackend Z := mkLocalBackend ∅ [] 39000 39003 0.
Definition b1 : LocalBackend Z := (local_Ensure cfg0 "/var" mw0 1 (spec0 "alice") b0).2.
Definition b2 : LocalBackend Z := (local_Ensure cfg0 "/var" mw0 2 (spec0 "bob") b1).2.
Definition e1 : entry := mkEntry (mkPodStatus (PodKey_Name (mkPodKey "alice" "jira")) PhaseStarting "http://127.0.0.1:39000" "" 1)
  (Some 0) "" ("/var/" +:+ PodKey_Name (mkPodKey "alice" "jira") +:+ "/wrapper.log").
Definition e2 : entry := mkEntry (mkPodStatus (PodKey_Name (mkPodKey "bob" "jira")) PhaseStarting "http://127.0.0.1:39002" "" 2)
  (Some 1) "" ("/var/" +:+ PodKey_Name (mkPodKey "bob" "jira") +:+ "/wrapper.log").

Lemma b2_reachable : lpreachable cfg0 "/var" mw0 b2.
Proof.
  exists 0, b0, 0. split; [vm_compute; reflexivity|].
  eapply rtc_l; [apply (lp_Ensure cfg0 "/var" mw0 1 (spec0 "alice"))|].
  apply rtc_once, (lp_Ensure cfg0 "/var" mw0 2 (spec0 "bob")).
Qed.

Lemma process_ports_disjoint_witness :
  ∃ p q, pst_Endpoint (en_status e1) = process_endpoint p ∧ pst_Endpoint (en_status e2) = process_endpoint q ∧
    (p + 1 < q ∨ q + 1 < p).
Proof.
  assert (entry_of (mkPodKey "alice" "jira") b2 = Some e1) as H1 by (vm_compute; reflexivity).
  assert (entry_of (mkPodKey "bob" "jira") b2 = Some e2) as H2 by (vm_compute; reflexivity).
  destruct (process_ports_disjoint cfg0 "/var" mw0 eq_refl b2 (mkPodKey "alice" "jira") (mkPodKey "bob" "jira") e1 e2
    b2_reachable ltac:(discriminate) H1 H2) as (from & to & p & q & _ & Hp & _ & Hq & _ & _ & _ & _ & _ & H).
  exists p, q. split; [exact Hp|]. split; [exact Hq|exact H].
Defined.

(** Two pods use up a range of four ports; after both are released, no third one
    can be started. *)
Example released_ports_are_lost :
  let b := (local_Release "/var" (mkPodKey "alice" "jira") (local_Release "/var" (mkPodKey "bob" "jira") b2).2).2 in
  local_List b = [] ∧ is_ok (local_Ensure cfg0 "/var" mw0 3 (spec0 "carol") b).1 = false.
Proof. vm_compute. split; reflexivity. Qed.

(** A negative number of lines, which the query parameter admits, panics. *)
Example negative_tail_panics : (local_Logs (mkPodKey "alice" "jira") (-1) b1).1 = Panic.
Proof. vm_compute. reflexivity. Qed.

Lemma WaitReady_terminates_witness :
  WaitReady (λ t, (false, 10 * Millisecond)) (λ n, 500 * Millisecond * Z.of_nat n) (3 * Second) 0 ≠ None.
Proof. apply (WaitReady_terminates _ _ (3 * Second) 0); [vm_compute; discriminate|intros n; lia]. Defined.
End LocalWitness.
