(* ===== verification/Kube.v ===== *)
(** * api/v1alpha1 and the Kubernetes API

    The custom resources [Session] and [ServerType], the parts of core/v1 pods
    the controller reads and writes, and the API server as a contract
    ([KubeAPI]): state-passing operations that may fail, with the documented
    laws the controller relies on. *)

From S2P Require Import Prelude GoStd Config Core Contracts.

Local Open Scope Z_scope.

(** ** servertype_types.go *)

Record EgressRule := mkEgressRule { er_Host : string; er_Ports : list Z; er_Protocol : string }.
Record SecuritySpec := mkSecuritySpec {
  ss_WritableTmp : bool; ss_RunAsUser : Z; ss_RunAsGroup : Z; ss_ReadOnlyRootFilesystem : bool;
  ss_ExtraWritablePaths : list string }.
(** corev1.ResourceRequirements: parsed quantities by resource name. *)
Record ResourceRequirements := mkResourceRequirements {
  rr_Requests : gmap string string; rr_Limits : gmap string string }.

(** [type ServerTypeSpec struct] *)
Record ServerTypeSpec := mkServerTypeSpec {
  sts_ConfigHash : string; sts_Description : string; sts_Image : string; sts_Transport : string;
  sts_Command : list string; sts_Args : list string; sts_Env : gmap string string; sts_HTTPPort : Z;
  sts_HTTPPath : string; sts_WrapperPort : Z; sts_ReadinessPort : Z; sts_TokenMode : string;
  sts_TokenEnv : string; sts_TokenFile : string; sts_TokenHeader : string; sts_Egress : list EgressRule;
  sts_Resources : ResourceRequirements; sts_RuntimeClassName : string; sts_IdleTimeout : Z;
  sts_MaxSessionAge : Z; sts_MaxPods : Z; sts_Security : SecuritySpec; sts_WrapperConfigJSON : string }.
(** [type ServerType struct] *)
Record ServerType := mkServerType {
  st_Name : string; st_Namespace : string; st_Labels : gmap string string; st_Spec : ServerTypeSpec }.

(** ** session_types.go *)

(** [type SessionSpec struct] *)
Record SessionSpec := mkSessionSpec {
  spec_Subject : string; spec_UserHash : string; spec_ServerType : string; spec_ConfigHash : string;
  spec_DesiredPhase : Phase; spec_PodTokenSecretName : string }.
(** [type SessionStatus struct]; conditions are never written. *)
Record SessionStatus := mkSessionStatus {
  stat_Phase : Phase; stat_PodName : string; stat_PodIP : string; stat_Endpoint : string;
  stat_Message : string; stat_StartedAt : option Z; stat_ReadyAt : option Z; stat_ExpiresAt : option Z }.
(** [type Session struct] with the metadata the controller uses. *)
Record Session := mkSession {
  sess_Name : string; sess_Namespace : string; sess_CreationTimestamp : Z; sess_DeletionTimestamp : option Z;
  sess_Finalizers : list string; sess_Spec : SessionSpec; sess_Status : SessionStatus }.

#[export] Instance SessionSpec_eq_dec : EqDecision SessionSpec.
Proof. solve_decision. Defined.
#[export] Instance SessionStatus_eq_dec : EqDecision SessionStatus.
Proof. solve_decision. Defined.
#[export] Instance Session_eq_dec : EqDecision Session.
Proof. solve_decision. Defined.

Definition LabelSession : string := "juggernaut.io/session".
Definition LabelSessionID : string := "juggernaut.io/session-id".
Definition LabelServerType : string := "juggernaut.io/server-type".
Definition LabelUserHash : string := "juggernaut.io/user-hash".
Definition LabelConfigHash : string := "juggernaut.io/config-hash".
Definition LabelManagedBy : string := "app.kubernetes.io/managed-by".
Definition ManagedByValue : string := "juggernaut-controller".
Definition FinalizerSession : string := "juggernaut.io/session-cleanup".

(** Field updates of a fetched object. *)
Definition with_spec (sp : SessionSpec) (s : Session) : Session :=
  mkSession (sess_Name s) (sess_Namespace s) (sess_CreationTimestamp s) (sess_DeletionTimestamp s)
    (sess_Finalizers s) sp (sess_Status s).
Definition with_status (st : SessionStatus) (s : Session) : Session :=
  mkSession (sess_Name s) (sess_Namespace s) (sess_CreationTimestamp s) (sess_DeletionTimestamp s)
    (sess_Finalizers s) (sess_Spec s) st.
Definition with_finalizers (fs : list string) (s : Session) : Session :=
  mkSession (sess_Name s) (sess_Namespace s) (sess_CreationTimestamp s) (sess_DeletionTimestamp s)
    fs (sess_Spec s) (sess_Status s).
Definition set_DesiredPhase (ph : Phase) (sp : SessionSpec) : SessionSpec :=
  mkSessionSpec (spec_Subject sp) (spec_UserHash sp) (spec_ServerType sp) (spec_ConfigHash sp) ph
    (spec_PodTokenSecretName sp).
Definition set_Phase (ph : Phase) (st : SessionStatus) : SessionStatus :=
  mkSessionStatus ph (stat_PodName st) (stat_PodIP st) (stat_Endpoint st) (stat_Message st) (stat_StartedAt st)
    (stat_ReadyAt st) (stat_ExpiresAt st).

(** ** Pods of core/v1 *)

Inductive VolumeSource :=
| VEmptyDir (memory : bool) (sizeLimit : string) | VSecret (name : string) (mode : Z) | VConfigMap (name : string).
Record Volume := mkVolume { v_Name : string; v_Source : VolumeSource }.
Record VolumeMount := mkVolumeMount { vm_Name : string; vm_MountPath : string; vm_ReadOnly : bool }.
Record SecurityContext := mkSecurityContext {
  sc_AllowPrivilegeEscalation : bool; sc_ReadOnlyRootFilesystem : bool; sc_RunAsNonRoot : bool; sc_RunAsUser : Z;
  sc_RunAsGroup : Z; sc_DropCapabilities : list string; sc_Seccomp : string }.
Record Probe := mkProbe { pr_Path : string; pr_Port : string; pr_PeriodSeconds : Z; pr_FailureThreshold : Z }.
Record Container := mkContainer {
  ct_Name : string; ct_Image : string; ct_ImagePullPolicy : string; ct_Command : list string; ct_Args : list string;
  ct_Env : list (string * string); ct_Ports : list (string * Z); ct_Readiness : option Probe; ct_Liveness : option Probe;
  ct_Resources : option ResourceRequirements; ct_Security : SecurityContext; ct_Mounts : list VolumeMount }.
Record PodSecurityContext := mkPodSecurityContext {
  psc_RunAsNonRoot : bool; psc_RunAsUser : Z; psc_RunAsGroup : Z; psc_FSGroup : Z; psc_Seccomp : string }.
Record PodSpec := mkPodSpec {
  ps_RestartPolicy : string; ps_AutomountServiceAccountToken : bool; ps_EnableServiceLinks : bool;
  ps_TerminationGracePeriodSeconds : Z; ps_SecurityContext : PodSecurityContext; ps_InitContainers : list Container;
  ps_Containers : list Container; ps_Volumes : list Volume; ps_RuntimeClassName : option string;
  ps_DNSPolicy : string; ps_Nameservers : option (list string) }.

(** What the kubelet reports; a waiting container as its reason and message. *)
Record KPodStatus := mkKPodStatus {
  kst_Phase : string; kst_Message : string; kst_PodIP : string; kst_Waiting : list (option (string * string));
  kst_Conditions : list (string * string) }.
Record KPod := mkKPod {
  kp_Name : string; kp_Namespace : string; kp_Labels : gmap string string; kp_Annotations : gmap string string;
  kp_Deleting : bool; kp_Spec : PodSpec; kp_Status : KPodStatus }.

(** A freshly created pod has no status yet. *)
Definition kst_new : KPodStatus := mkKPodStatus "" "" "" [] [].

(** ** The API server *)

Definition ErrAlreadyExists : gerror := EMsg "AlreadyExists".
Definition IsNotFound (e : gerror) : bool := errors_Is e ErrNotFound.

(** The calls the controller makes through its client, in one namespace.  An
    apply (create or update) of an isolation object or ConfigMap is one call. *)
Class KubeAPI (K O : Type) := {
  K_getSession : string → K → result Session;
  K_listSessions : K → result (list Session);
  K_updateSession : Session → K → result () * K;
  K_statusSession : Session → K → result () * K;
  K_deleteSession : string → K → result () * K;
  K_getType : string → K → result ServerType;
  K_listTypes : K → result (list ServerType);
  K_getPod : string → K → result KPod;
  K_createPod : KPod → K → result () * K;
  K_deletePod : string → K → result () * K;
  K_getSecret : string → K → result (gmap string string);
  K_updateSecret : string → gmap string string → K → result () * K;
  K_deleteSecret : string → K → result () * K;
  K_applyConfigMap : string → gmap string string → gmap string string → K → result () * K;
  K_applyObject : O → K → result () * K }.

(** The effect of a successful update (spec and metadata) and status update. *)
Definition updated (s s0 : Session) : Session :=
  mkSession (sess_Name s0) (sess_Namespace s0) (sess_CreationTimestamp s0) (sess_DeletionTimestamp s0)
    (sess_Finalizers s) (sess_Spec s) (sess_Status s0).

(** Documented behaviour of the API server.  A write that fails may or may not
    have been applied.  Deleting an object that has finalizers only marks it, and
    a marked object goes away with its last finalizer; a deleted pod goes away
    after its grace period and is marked until then; a call on one kind leaves
    the other kinds alone. *)
Class KubeLaws (K O : Type) `{!KubeAPI K O} := {
  kl_get_name : ∀ n k s, K_getSession n k = Ok s → sess_Name s = n;
  kl_update : ∀ s s0 k k', K_getSession (sess_Name s) k = Ok s0 → sess_DeletionTimestamp s0 = None →
    K_updateSession s k = (Ok (), k') → K_getSession (sess_Name s) k' = Ok (updated s s0);
  kl_update_status : ∀ s n k s', K_getSession n (K_updateSession s k).2 = Ok s' →
    ∃ s0, K_getSession n k = Ok s0 ∧ sess_Status s' = sess_Status s0;
  kl_update_ne : ∀ s n k, n ≠ sess_Name s → K_getSession n (K_updateSession s k).2 = K_getSession n k;
  kl_status : ∀ s s0 k k', K_getSession (sess_Name s) k = Ok s0 → K_statusSession s k = (Ok (), k') →
    K_getSession (sess_Name s) k' = Ok (with_status (sess_Status s) s0);
  kl_status_err : ∀ s s0 k e k', K_getSession (sess_Name s) k = Ok s0 → K_statusSession s k = (Err e, k') →
    K_getSession (sess_Name s) k' = Ok s0 ∨ K_getSession (sess_Name s) k' = Ok (with_status (sess_Status s) s0);
  kl_status_ne : ∀ s n k, n ≠ sess_Name s → K_getSession n (K_statusSession s k).2 = K_getSession n k;
  kl_delete_status : ∀ m n k s', K_getSession n (K_deleteSession m k).2 = Ok s' →
    ∃ s0, K_getSession n k = Ok s0 ∧ sess_Status s' = sess_Status s0;
  kl_delete_pod : ∀ n k r k', K_deletePod n k = (r, k') → match r with Ok _ => True | Err e => IsNotFound e = true end →
    match K_getPod n k' with Ok p => kp_Deleting p = true | Err _ => True end;
  kl_delete_secret : ∀ n k r k', K_deleteSecret n k = (r, k') → match r with Ok _ => True | Err e => IsNotFound e = true end →
    ∃ e, K_getSecret n k' = Err e;
  kl_sess_config : ∀ n l d m k, K_getSession m (K_applyConfigMap n l d k).2 = K_getSession m k;
  kl_sess_object : ∀ o m k, K_getSession m (K_applyObject o k).2 = K_getSession m k;
  kl_sess_createPod : ∀ p m k, K_getSession m (K_createPod p k).2 = K_getSession m k;
  kl_sess_deletePod : ∀ p m k, K_getSession m (K_deletePod p k).2 = K_getSession m k;
  kl_sess_updateSecret : ∀ n d m k, K_getSession m (K_updateSecret n d k).2 = K_getSession m k;
  kl_sess_deleteSecret : ∀ n m k, K_getSession m (K_deleteSecret n k).2 = K_getSession m k;
  kl_pod_config : ∀ n l d m k, K_getPod m (K_applyConfigMap n l d k).2 = K_getPod m k;
  kl_pod_object : ∀ o m k, K_getPod m (K_applyObject o k).2 = K_getPod m k;
  kl_pod_deleteSecret : ∀ n m k, K_getPod m (K_deleteSecret n k).2 = K_getPod m k;
  kl_pod_update : ∀ s m k, K_getPod m (K_updateSession s k).2 = K_getPod m k;
  kl_pod_delete : ∀ n m k, K_getPod m (K_deleteSession n k).2 = K_getPod m k;
  kl_secret_update : ∀ s m k, K_getSecret m (K_updateSession s k).2 = K_getSecret m k;
  kl_secret_delete : ∀ n m k, K_getSecret m (K_deleteSession n k).2 = K_getSecret m k }.
