(* ===== verification/Egress.v ===== *)
(** * Egress enforcement by proxy

    internal/netpol/allowlist.go (what each pod may reach),
    internal/adapters/egress/proxy (publishing it in a ConfigMap) and
    internal/egress/proxy.go (the CONNECT proxy that enforces it).  The JSON
    codec of the allowlist, name resolution and dialling are parameters. *)

From S2P Require Import Prelude GoStd NetIP Config Core Contracts Fixtures Kube.

Local Open Scope Z_scope.

(** ** internal/netpol/allowlist.go *)

(** [type AllowEntry struct] *)
Record AllowEntry := mkAllowEntry { ae_Session : string; ae_ServerType : string; ae_Hosts : list string }.
#[export] Instance AllowEntry_eq_dec : EqDecision AllowEntry.
Proof. solve_decision. Defined.

(** [type Allowlist struct]: entries by pod IP. *)
Notation Allowlist := (gmap string AllowEntry).

Definition host_port (host : string) (port : Z) : string := host +:+ ":" +:+ Itoa port.

(** [func EntryFor] *)
Definition EntryFor (sess : Session) (st : ServerType) : AllowEntry :=
  mkAllowEntry (sess_Name sess) (st_Name st)
    (sts_Egress (st_Spec st) ≫= λ r, er_Ports r ≫= λ p, [host_port (er_Host r) p]).

(** [func ParseAllowlist(b []byte)] *)
Definition ParseAllowlist {jal : JSONCodec Allowlist} (b : string) : result Allowlist :=
  if String.eqb b "" then Ok ∅ else json_Unmarshal b.

(** One iteration of the loop of [Allows]. *)
Definition host_matches (want h : string) : bool :=
  String.eqb h want ||
  (HasPrefix h "*." &&
   (let suffix := str_drop 1 h in HasSuffix want suffix && (CountByte (TrimSuffix want suffix) "." =? 0)%nat)).

(** [func (a *Allowlist) Allows] *)
Definition Allows_egress (a : Allowlist) (srcIP : IP) (host : string) (port : Z) : AllowEntry * bool :=
  match a !! IP_String srcIP with
  | None => (mkAllowEntry "" "" [], false)
  | Some e =>
      let want := host_port (ToLower (TrimSuffix host ".")) port in
      (e, existsb (host_matches want) (ae_Hosts e))
  end.

(** ** internal/adapters/egress/proxy *)

(** The ConfigMap's allowlist.json key ([None]: not there) as the API server holds
    it, and the client: absent, or answering [CreateOrUpdate] or not. *)
Inductive kubeClient := NoClient | Client (ok : bool).

(** [func (a *Adapter) update] *)
Definition update {jal : JSONCodec Allowlist} (cl : kubeClient) (mutate : Allowlist → Allowlist) (cm : option string)
    : result () * option string :=
  match cl with
  | NoClient => (Err (EMsg "egress proxy adapter: no Kubernetes client to publish the allowlist"), cm)
  | Client false => (Err (EMsg "kubernetes"), cm)
  | Client true =>
      let al := match ParseAllowlist (default "" cm) with Ok al => al | Err _ => ∅ end in
      (Ok (), Some (json_Marshal (mutate al)))
  end.

(** [func (a *Adapter) OnReady] *)
Definition OnReady {jal : JSONCodec Allowlist} (cl : kubeClient) (sess : Session) (st : ServerType) (podIP : string)
    (cm : option string) : result () * option string :=
  update cl (λ al, <[podIP := EntryFor sess st]> al) cm.

(** [func (a *Adapter) OnCleanup] *)
Definition OnCleanup {jal : JSONCodec Allowlist} (cl : kubeClient) (sess : Session) (cm : option string)
    : result () * option string :=
  update cl (λ al, filter (λ ie, ae_Session ie.2 ≠ sess_Name sess) al) cm.

(** [func (a *Adapter) PodEnv] *)
Definition PodEnv (address : string) : gmap string string * bool :=
  ({["HTTPS_PROXY" := "http://" +:+ address; "HTTP_PROXY" := "http://" +:+ address;
     "NO_PROXY" := "127.0.0.1,localhost"]}, true).

(** ** internal/egress/proxy.go *)

(** [type Proxy struct]: the loaded allowlist, the denied networks and the counters. *)
Record EProxy := mkEProxy {
  ep_allow : option Allowlist; ep_DenyCIDRs : list IPNet; ep_allowLoopback : bool; ep_Allowed : Z; ep_Denied : Z }.
Definition set_allow (a : Allowlist) (p : EProxy) : EProxy :=
  mkEProxy (Some a) (ep_DenyCIDRs p) (ep_allowLoopback p) (ep_Allowed p) (ep_Denied p).
Definition add_denied (p : EProxy) : EProxy :=
  mkEProxy (ep_allow p) (ep_DenyCIDRs p) (ep_allowLoopback p) (ep_Allowed p) (ep_Denied p + 1).
Definition add_allowed (p : EProxy) : EProxy :=
  mkEProxy (ep_allow p) (ep_DenyCIDRs p) (ep_allowLoopback p) (ep_Allowed p + 1) (ep_Denied p).

(** Reading the mounted file. *)
Inductive fileRead := FRead (b : string) | FNotExist | FError (e : gerror).

(** [func (p *Proxy) LoadAllowlist]: a missing file is an empty allowlist. *)
Definition LoadAllowlist {jal : JSONCodec Allowlist} (f : fileRead) (p : EProxy) : result () * EProxy :=
  match f with
  | FError e => (Err e, p)
  | _ =>
      match ParseAllowlist (match f with FRead b => b | _ => "" end) with
      | Err e => (Err e, p)
      | Ok a => (Ok (), set_allow a p)
      end
  end.

(** [func (p *Proxy) Watch]: every event of the directory and every tick reads
    the file again; errors are dropped.  [reads] is what the reads find. *)
Definition Watch {jal : JSONCodec Allowlist} (reads : list fileRead) (p : EProxy) : EProxy :=
  fold_left (λ p f, (LoadAllowlist f p).2) reads p.

(** [func (p *Proxy) denied(ip net.IP) bool] *)
Definition denied (p : EProxy) (ip : IP) : bool :=
  existsb (λ n, IPNet_Contains n ip) (ep_DenyCIDRs p) ||
  (if IsLoopback ip then negb (ep_allowLoopback p)
   else IsLinkLocalUnicast ip || IsPrivate ip || IsUnspecified ip).

(** [func ParseCIDRs(list []string)] *)
Fixpoint ParseCIDRs (l : list string) : result (list IPNet) :=
  match l with
  | [] => Ok []
  | s :: l' =>
      match ParseCIDR s with
      | None => Err (EMsg ("cidr " +:+ s))
      | Some n => match ParseCIDRs l' with Ok ns => Ok (n :: ns) | Err e => Err e end
      end
  end.

(** The request and what the network does: resolution, dialling, hijacking. *)
Record creq := mkCreq { cr_Method : string; cr_RemoteAddr : string; cr_Host : string }.
Record cnet := mkCnet {
  cn_lookup : string → result (list IP); cn_dial : string → bool; cn_hijacker : bool; cn_hijack : bool }.

(** The outcome: an error response, a tunnel, or a connection dropped after a
    failed hijack. *)
Inductive cresp := CError (status : Z) (msg : string) | CTunnel | CClosed.

(** [strconv.Atoi] with the error dropped: 0 for text that is no number, the
    nearest [int] for a number out of range. *)
Definition Atoi_ignore (s : string) : Z :=
  match Atoi s with
  | Some z => z
  | None =>
      match s with
      | String "-" t => if negb (String.eqb t "") && bool_decide (is_Some (digits_value t 0)) then - max_int - 1 else 0
      | String "+" t => if negb (String.eqb t "") && bool_decide (is_Some (digits_value t 0)) then max_int else 0
      | _ => if negb (String.eqb s "") && bool_decide (is_Some (digits_value s 0)) then max_int else 0
      end%Z
  end.

(** [func (p *Proxy) ServeHTTP]: the response, the address dialled if any, and
    the proxy afterwards. *)
Definition ServeHTTP (r : creq) (n : cnet) (p : EProxy) : cresp * option (IP * string) * EProxy :=
  if negb (String.eqb (cr_Method r) "CONNECT") then (CError 405 "only CONNECT is allowed", None, add_denied p)
  else
    match SplitHostPort (cr_RemoteAddr r) with
    | None => (CError 400 "bad remote", None, p)
    | Some (srcHost, _) =>
        let src := ParseIP srcHost in
        match SplitHostPort (cr_Host r) with
        | None => (CError 400 "bad target", None, p)
        | Some (host, portStr) =>
            let port := Atoi_ignore portStr in
            match ep_allow p with
            | None => (CError 503 "allowlist not loaded", None, p)
            | Some a =>
                if negb (Allows_egress a src host port).2
                then (CError 403 "destination not in allowlist", None, add_denied p)
                else
                  match cn_lookup n host with
                  | Err _ | Ok [] => (CError 502 "resolve failed", None, p)
                  | Ok ips =>
                      match List.find (λ ip, negb (denied p ip)) ips with
                      | None | Some [] => (CError 403 "destination resolves to a denied address", None, add_denied p)
                      | Some target =>
                          let dialed := Some (target, portStr) in
                          if negb (cn_dial n (JoinHostPort (IP_String target) portStr))
                          then (CError 502 "dial failed", dialed, p)
                          else if negb (cn_hijacker n) then (CError 500 "hijack unsupported", dialed, p)
                          else if negb (cn_hijack n) then (CClosed, dialed, p)
                          else (CTunnel, dialed, add_allowed p)
                      end
                  end
            end
        end
    end.

(** ** Matching hosts *)

Lemma host_matches_iff want h :
  host_matches want h = true ↔
  h = want ∨ ∃ label d, h = "*." +:+ d ∧ want = label +:+ "." +:+ d ∧ CountByte label "." = 0%nat.
Proof.
  unfold host_matches. rewrite orb_true_iff, String.eqb_eq, andb_true_iff. apply or_iff_compat_l. split.
  - intros [[d ->]%HasPrefix_spec Hm]. change (str_drop 1 ("*." +:+ d)) with ("." +:+ d) in Hm. cbv zeta in Hm.
    apply andb_true_iff in Hm as [[label ->]%HasSuffix_spec Hc]. rewrite TrimSuffix_app in Hc.
    apply Nat.eqb_eq in Hc. eauto.
  - intros (label & d & -> & -> & Hc). rewrite HasPrefix_app. split; [done|]. cbv zeta.
    change (str_drop 1 ("*." +:+ d)) with ("." +:+ d). rewrite TrimSuffix_app, Hc. rewrite andb_true_r.
    apply HasSuffix_spec. eauto.
Qed.

(** The allowlist means what it says: a pod may connect to a host and port
    exactly when the entry published for its IP has that host:port (lower case,
    without a trailing dot), or a wildcard "*.d:port" of which the name is one
    dot-free label below d; a pod without an entry may connect to nothing. *)
Theorem Allows_egress_iff a srcIP host port :
  (Allows_egress a srcIP host port).2 = true ↔
  ∃ e h, a !! IP_String srcIP = Some e ∧ h ∈ ae_Hosts e ∧
    let want := host_port (ToLower (TrimSuffix host ".")) port in
    (h = want ∨ ∃ label d, h = "*." +:+ d ∧ want = label +:+ "." +:+ d ∧ CountByte label "." = 0%nat).
Proof.
  unfold Allows_egress. destruct (a !! IP_String srcIP) as [e|]; cbn [snd].
  - rewrite existsb_elem. setoid_rewrite host_matches_iff. split.
    + intros (h & Hin & Hm). exists e, h. done.
    + intros (e' & h & [= <-] & Hin & Hm). exists h. done.
  - split; [done|]. by intros (? & ? & ? & _).
Qed.

(** ** The proxy *)

Lemma denied_false p ip :
  denied p ip = false →
  (∀ n, n ∈ ep_DenyCIDRs p → IPNet_Contains n ip = false) ∧
  (IsLoopback ip = true → ep_allowLoopback p = true) ∧
  (IsLoopback ip = false → IsLinkLocalUnicast ip = false ∧ IsPrivate ip = false ∧ IsUnspecified ip = false).
Proof.
  unfold denied. intros [Hn Hc]%orb_false_iff. split_and!.
  - intros n Hin. destruct (IPNet_Contains n ip) eqn:E; [|done].
    assert (existsb (λ n, IPNet_Contains n ip) (ep_DenyCIDRs p) = true); [|congruence].
    apply existsb_elem. eauto.
  - intros Hl. rewrite Hl in Hc. by apply negb_false_iff.
  - intros Hl. rewrite Hl, !orb_false_iff in Hc. tauto.
Qed.

(** C30. The proxy opens a connection only to a permitted name at a permitted
    address: it dials only for a CONNECT request, from a source whose allowlist
    entry permits the requested host and port, and the address dialled is one the
    name resolves to, outside every denied network and never loopback,
    link-local, private or unspecified, so that a permitted name that resolves
    to the metadata service or into the cluster is refused. *)
Theorem ServeHTTP_dials_only_allowed r n p resp ip portStr p' :
  ep_allowLoopback p = false →
  ServeHTTP r n p = (resp, Some (ip, portStr), p') →
  ∃ srcHost srcPort host a e ips,
    cr_Method r = "CONNECT" ∧ SplitHostPort (cr_RemoteAddr r) = Some (srcHost, srcPort) ∧
    SplitHostPort (cr_Host r) = Some (host, portStr) ∧ ep_allow p = Some a ∧
    Allows_egress a (ParseIP srcHost) host (Atoi_ignore portStr) = (e, true) ∧
    cn_lookup n host = Ok ips ∧ ip ∈ ips ∧ ip ≠ [] ∧
    (∀ net, net ∈ ep_DenyCIDRs p → IPNet_Contains net ip = false) ∧
    IsLoopback ip = false ∧ IsLinkLocalUnicast ip = false ∧ IsPrivate ip = false ∧ IsUnspecified ip = false.
Proof.
  intros Hlo. unfold ServeHTTP. destruct (String.eqb_spec (cr_Method r) "CONNECT") as [Hm|]; cbn [negb]; [|done].
  destruct (SplitHostPort (cr_RemoteAddr r)) as [[srcHost srcPort]|]; [|done].
  destruct (SplitHostPort (cr_Host r)) as [[host ps]|]; [|done].
  destruct (ep_allow p) as [a|]; [|done]. cbv zeta.
  destruct (Allows_egress a (ParseIP srcHost) host (Atoi_ignore ps)) as [e [|]] eqn:Ea; cbn [snd negb]; [|done].
  destruct (cn_lookup n host) as [[|ip0 ips]|] eqn:El; [done| |done].
  destruct (List.find _ _) as [[|b target]|] eqn:Ef; [done| |done].
  apply find_some_elem in Ef as [Hin Hd]. apply negb_true_iff, denied_false in Hd as (H1 & H2 & H3).
  assert (IsLoopback (b :: target) = false) as Hl by (destruct (IsLoopback (b :: target)); [naive_solver|done]).
  destruct (H3 Hl) as (? & ? & ?). intros Heq.
  assert (ip = b :: target ∧ ps = portStr) as [-> ->].
  { destruct (cn_dial n _), (cn_hijacker n), (cn_hijack n); cbn [negb] in Heq; by simplify_eq. }
  exists srcHost, srcPort, host, a, e, (ip0 :: ips). split_and!; try done.
Qed.

(** ** Publishing *)

Lemma snoc_split {A} (pre : list A) x post l y :
  l ++ [y] = pre ++ x :: post →
  (post = [] ∧ x = y ∧ pre = l) ∨ ∃ post', post = post' ++ [y] ∧ l = pre ++ x :: post'.
Proof.
  destruct post as [|z post _] using rev_ind; intros E.
  - apply app_inj_tail in E as [-> ->]. by left.
  - rewrite app_comm_cons, app_assoc in E. apply app_inj_tail in E as [-> ->]. right. eauto.
Qed.

(** The allowlist a read leaves in force: the one it parses to, empty when the
    file is gone, and the one before when it cannot be read or parsed. *)
Definition read_allow {jal : JSONCodec Allowlist} (f : fileRead) (before : option Allowlist) : option Allowlist :=
  match f with
  | FRead b => match ParseAllowlist b with Ok a => Some a | Err _ => before end
  | FNotExist => Some ∅
  | FError _ => before
  end.

(** Watching never touches the denied networks, and the allowlist in force is
    that of the last read that gave one. *)
Lemma Watch_spec {jal : JSONCodec Allowlist} reads p :
  ep_DenyCIDRs (Watch reads p) = ep_DenyCIDRs p ∧ ep_allowLoopback (Watch reads p) = ep_allowLoopback p ∧
  ep_allow (Watch reads p) = fold_left (λ a f, read_allow f a) reads (ep_allow p).
Proof.
  revert p. induction reads as [|f reads IH]; intros p; [done|]. unfold Watch. cbn [fold_left].
  destruct (IH (LoadAllowlist f p).2) as (H1 & H2 & H3). unfold Watch in H1, H2, H3. rewrite H1, H2, H3. unfold LoadAllowlist, read_allow.
  destruct f as [b| |e]; [destruct (ParseAllowlist b)|..]; done.
Qed.

Section Publish.
Context {jal : JSONCodec Allowlist}.
(** A JSON document is not the empty text. *)
Hypothesis marshal_nonempty : ∀ a : Allowlist, json_Marshal a ≠ "".

(** What the session controller tells the adapter, in order. *)
Inductive pub_event := PReady (sess : Session) (st : ServerType) (podIP : string) | PCleanup (sess : Session).
Definition publish (ev : pub_event) (cm : option string) : option string :=
  match ev with
  | PReady sess st ip => (OnReady (Client true) sess st ip cm).2
  | PCleanup sess => (OnCleanup (Client true) sess cm).2
  end.
Definition publish_all (evs : list pub_event) : option string := fold_left (λ cm ev, publish ev cm) evs None.

(** The allowlist the proxy loads from the mounted ConfigMap. *)
Definition mounted (cm : option string) : Allowlist :=
  match ParseAllowlist (default "" cm) with Ok al => al | Err _ => ∅ end.

(** An event after which the entry of [name] at [ip] is no longer current. *)
Definition supersedes (name ip : string) (ev : pub_event) : Prop :=
  match ev with PReady _ _ ip' => ip' = ip | PCleanup s => sess_Name s = name end.

Lemma mounted_marshal a : mounted (Some (json_Marshal a)) = a.
Proof.
  unfold mounted, ParseAllowlist. change (default "" (Some (json_Marshal a))) with (json_Marshal a). pose proof (marshal_nonempty a) as Hn.
  apply String.eqb_neq in Hn as ->. by rewrite json_roundtrip.
Qed.

Lemma mounted_publish ev cm :
  mounted (publish ev cm) =
  match ev with
  | PReady sess st ip => <[ip := EntryFor sess st]> (mounted cm)
  | PCleanup sess => filter (λ ie, ae_Session ie.2 ≠ sess_Name sess) (mounted cm)
  end.
Proof. destruct ev; cbn [publish OnReady OnCleanup update snd]; apply mounted_marshal. Qed.

Lemma publish_all_snoc evs ev : publish_all (evs ++ [ev]) = publish ev (publish_all evs).
Proof. unfold publish_all. by rewrite fold_left_app. Qed.

(** The proxy enforces the session that holds the address now: after any
    sequence of pods becoming ready and sessions being cleaned up, the allowlist
    entry of an IP is the entry of the session that last became ready at that IP
    unless that session has been cleaned up since; so a cleaned-up session keeps
    no permission, and cleaning up an old session does not take away the entry
    of a newer pod that got its IP. *)
Theorem published_entry_iff evs ip e :
  mounted (publish_all evs) !! ip = Some e ↔
  ∃ pre post sess st, evs = pre ++ PReady sess st ip :: post ∧ e = EntryFor sess st ∧
    Forall (λ ev, ¬ supersedes (sess_Name sess) ip ev) post.
Proof.
  induction evs as [|ev evs IH] using rev_ind.
  { split; [cbn; by rewrite lookup_empty|]. intros (pre & post & ? & ? & E & _). by destruct pre. }
  rewrite publish_all_snoc, mounted_publish.
  assert (mounted (publish_all evs) !! ip = Some e →
    (∀ sess st, e = EntryFor sess st → ¬ supersedes (sess_Name sess) ip ev) →
    ∃ pre post sess st, evs ++ [ev] = pre ++ PReady sess st ip :: post ∧ e = EntryFor sess st ∧
      Forall (λ ev, ¬ supersedes (sess_Name sess) ip ev) post) as Hkeep.
  { rewrite IH. intros (pre & post & sess & st & -> & He & Hp) Hev. exists pre, (post ++ [ev]), sess, st.
    rewrite <- app_assoc. split_and!; [done..|]. apply Forall_app. eauto. }
  destruct ev as [s t ip'|s].
  - destruct (decide (ip' = ip)) as [->|Hne].
    + rewrite lookup_insert_eq. split.
      * intros [= <-]. exists evs, [], s, t. split_and!; [done..|constructor].
      * intros (pre & post & sess & st & E & -> & Hp).
        apply snoc_split in E as [(-> & [= -> ->] & ->)|(post' & -> & ->)]; [done|].
        apply Forall_app in Hp as [_ Hp]. inversion Hp as [|? ? Hs]; subst. by destruct Hs.
    + rewrite lookup_insert_ne by done. split; [intros H; by apply Hkeep|].
      intros (pre & post & sess & st & E & -> & Hp).
      apply snoc_split in E as [(-> & [= -> -> ->] & ->)|(post' & -> & ->)]; [done|].
      apply Forall_app in Hp as [Hp _]. apply IH. by eauto 10.
  - rewrite map_lookup_filter_Some. split.
    + intros [H Hs]. apply Hkeep; [done|]. intros sess st ->. cbn in *. congruence.
    + intros (pre & post & sess & st & E & -> & Hp).
      apply snoc_split in E as [(-> & [=] & ->)|(post' & -> & ->)].
      apply Forall_app in Hp as [Hp Hx]. inversion Hx as [|? ? Hs]; subst. split; [apply IH; by eauto 10|].
      cbn in *. congruence.
Qed.
End Publish.

(** ** Witnesses *)

Module EgressWitness.

Definition spec0 : SessionSpec := mkSessionSpec "bob" "81b637d8" "jira" "cfg1" PhaseUnset "tok".
Definition status0 : SessionStatus := mkSessionStatus PhaseReady "p" "10.0.0.9" "" "" None None None.
Definition sess (name : string) : Session := mkSession name "juggernaut-sessions" 0 None [] spec0 status0.
Definition tspec (egress : list EgressRule) : ServerTypeSpec :=
  mkServerTypeSpec "cfg1" "" "img" "stdio" ["/server"] [] ∅ 0 "" 8443 8081 "none" "" "" "" egress
    (mkResourceRequirements ∅ ∅) "" (15 * Minute) (8 * Hour) 10 (mkSecuritySpec true 1000 1000 true []) "{}".
Definition stype (egress : list EgressRule) : ServerType := mkServerType "jira" "juggernaut-sessions" ∅ (tspec egress).
Definition jira_type : ServerType := stype [mkEgressRule "api.jira.com" [443] "TCP"; mkEgressRule "*.example.net" [8443] "TCP"].

#[export] Instance AllowEntry_countable : Countable AllowEntry.
Proof.
  refine (inj_countable' (λ e, (ae_Session e, ae_ServerType e, ae_Hosts e)) (λ '(a, b, c), mkAllowEntry a b c) _).
  by intros [].
Defined.
Program Definition al_codec : JSONCodec Allowlist := {|
  json_Marshal := λ a, "{" +:+ json_Marshal (JSONCodec := countable_codec Allowlist) a;
  json_Unmarshal := λ s, json_Unmarshal (JSONCodec := countable_codec Allowlist) (str_drop 1 s) |}.
Next Obligation. intros a. change (str_drop 1 ("{" +:+ ?x)) with x. apply json_roundtrip. Qed.

Definition al0 : Allowlist := {["10.0.0.9" := EntryFor (sess "bob-jira") jira_type]}.
Definition deny0 : list IPNet := match ParseCIDRs ["169.254.169.254/32"; "203.0.113.0/24"] with Ok l => l | _ => [] end.
Definition proxy0 : EProxy := mkEProxy (Some al0) deny0 false 0 0.
(** A name that resolves to the metadata service first and a public address next. *)
Definition net0 : cnet :=
  mkCnet (λ _, Ok [ParseIP "169.254.169.254"; ParseIP "198.51.100.7"]) (λ _, true) true true.
Definition req0 : creq := mkCreq "CONNECT" "10.0.0.9:51000" "Tenant.example.net:8443".

Lemma ServeHTTP_dials_only_allowed_witness :
  ServeHTTP req0 net0 proxy0 = (CTunnel, Some (ParseIP "198.51.100.7", "8443"), add_allowed proxy0) ∧
  IsPrivate (ParseIP "198.51.100.7") = false.
Proof.
  assert (ServeHTTP req0 net0 proxy0 = (CTunnel, Some (ParseIP "198.51.100.7", "8443"), add_allowed proxy0)) as E
    by (vm_compute; reflexivity).
  split; [exact E|].
  destruct (ServeHTTP_dials_only_allowed req0 net0 proxy0 _ _ _ _ eq_refl E)
    as (? & ? & ? & ? & ? & ? & _ & _ & _ & _ & _ & _ & _ & _ & _ & _ & _ & H & _). exact H.
Defined.

(** Refused: two labels below the wildcard, another port, another pod. *)
Example ServeHTTP_refuses :
  (λ r, (ServeHTTP r net0 proxy0).1.1) <$>
    [mkCreq "CONNECT" "10.0.0.9:1" "a.b.example.net:8443"; mkCreq "CONNECT" "10.0.0.9:1" "api.jira.com:22";
     mkCreq "CONNECT" "10.0.0.8:1" "api.jira.com:443"; mkCreq "GET" "10.0.0.9:1" "api.jira.com:443"] =
  [CError 403 "destination not in allowlist"; CError 403 "destination not in allowlist";
   CError 403 "destination not in allowlist"; CError 405 "only CONNECT is allowed"].
Proof. vm_compute. reflexivity. Qed.

(** Bob's pod is gone and Carol's got its IP; cleaning up Bob keeps her entry. *)
Definition evs0 : list pub_event :=
  [PReady (sess "bob-jira") jira_type "10.0.0.9"; PReady (sess "carol-jira") jira_type "10.0.0.9"; PCleanup (sess "bob-jira")].

Lemma published_entry_iff_witness :
  mounted (jal:=al_codec) (publish_all (jal:=al_codec) evs0) !! "10.0.0.9" = Some (EntryFor (sess "carol-jira") jira_type).
Proof.
  apply (published_entry_iff (jal:=al_codec)); [intros a; discriminate|].
  exists [PReady (sess "bob-jira") jira_type "10.0.0.9"], [PCleanup (sess "bob-jira")], (sess "carol-jira"), jira_type.
  split; [reflexivity|]. split; [reflexivity|]. constructor; [|constructor]. vm_compute. discriminate.
Defined.
End EgressWitness.
