(* ===== verification/Netpol.v ===== *)
(** * internal/netpol: the network policies of a session pod

    networkpolicy.go and cilium.go: the objects rendered per session and per
    namespace, and the three enforcers that pick them (internal/adapters/egress).
    [rule_allows] spells out what a NetworkPolicy means, as the Kubernetes API
    documents it, so that the theorems are about reachability. *)

From S2P Require Import Prelude GoStd NetIP Config Core Contracts Kube Egress.

Local Open Scope Z_scope.

(** ** networking/v1 *)

Notation selector := (gmap string string).

(** A peer is pods of namespaces by labels, or an address range. *)
Inductive Peer :=
| PeerPods (namespaceSelector podSelector : selector)
| PeerIPBlock (cidr : string) (except : list string).
Inductive Protocol := TCP | UDP.
#[export] Instance Protocol_eq_dec : EqDecision Protocol.
Proof. solve_decision. Defined.
Record PolicyPort := mkPolicyPort { pp_Protocol : Protocol; pp_Port : Z }.
(** An ingress or egress rule; no ports means every port. *)
Record PolicyRule := mkPolicyRule { ru_Peers : list Peer; ru_Ports : list PolicyPort }.
Inductive PolicyType := TIngress | TEgress.
Record NetworkPolicy := mkNetworkPolicy {
  np_Name : string; np_Namespace : string; np_Labels : selector; np_PodSelector : selector;
  np_PolicyTypes : list PolicyType;
  np_Ingress : list PolicyRule; np_Egress : list PolicyRule }.

(** ** networkpolicy.go *)

(** [type Options struct] *)
Record Options := mkOptions {
  o_Enforcer : EgressEnforcer; o_SystemNamespace : string; o_GatewayPodSelector : selector;
  o_EgressProxySelector : selector; o_EgressProxyPort : Z; o_DNSNamespace : string; o_DNSPodSelector : selector;
  o_DenyCIDRs : list string; o_APIServerCIDR : string }.

(** [func DefaultOptions(n config.Network) Options] *)
Definition DefaultOptions (n : Network) : Options :=
  let deny := match default [] (n_DenyCIDRs n) with [] => ["169.254.169.254/32"; "169.254.0.0/16"; "fd00::/8"] | l => l end in
  let deny := if String.eqb (n_APIServerCIDR n) "" then deny else deny ++ [n_APIServerCIDR n] in
  mkOptions (n_EgressEnforcer n) "juggernaut-system"
    (if bool_decide (default ∅ (n_GatewayPodSelector n) = ∅) then {["app.kubernetes.io/name" := "juggernaut-gateway"]}
     else default ∅ (n_GatewayPodSelector n))
    {["app.kubernetes.io/name" := "juggernaut-egress"]} 3128 "kube-system" {["k8s-app" := "kube-dns"]}
    deny (n_APIServerCIDR n).

(** [func sessionLabels] *)
Definition sessionLabels (sess : Session) : selector :=
  {[LabelSession := "true"; LabelSessionID := sess_Name sess; LabelServerType := spec_ServerType (sess_Spec sess);
    LabelUserHash := spec_UserHash (sess_Spec sess); LabelManagedBy := ManagedByValue]}.

(** The shared loop of [uniquePorts]. *)
Fixpoint uniq_Z (seen l : list Z) : list Z :=
  match l with
  | [] => []
  | p :: l' => if bool_decide (p ∈ seen) then uniq_Z seen l' else p :: uniq_Z (p :: seen) l'
  end.

(** [func uniquePorts(st *jugv1.ServerType) []int32] *)
Definition uniquePorts (st : ServerType) : list Z :=
  match uniq_Z [] (sts_Egress (st_Spec st) ≫= er_Ports) with [] => [443] | l => l end.

(** [func dedupe(in []string) []string] *)
Definition dedupe (l : list string) : list string := uniq_nonempty [] l.

Definition nsSelector (ns : string) : selector := {["kubernetes.io/metadata.name" := ns]}.
Definition tcpPort (p : Z) : PolicyPort := mkPolicyPort TCP p.
Definition privateRanges : list string :=
  ["10.0.0.0/8"; "172.16.0.0/12"; "192.168.0.0/16"; "100.64.0.0/10"; "169.254.0.0/16"].

(** [func RenderNetworkPolicy] *)
Definition RenderNetworkPolicy (sess : Session) (st : ServerType) (o : Options) : NetworkPolicy :=
  let ingress :=
    [mkPolicyRule [PeerPods (nsSelector (o_SystemNamespace o)) (o_GatewayPodSelector o)]
       [tcpPort (sts_WrapperPort (st_Spec st)); tcpPort (sts_ReadinessPort (st_Spec st))]] in
  let egress :=
    match o_Enforcer o with
    | EgressProxy =>
        [mkPolicyRule [PeerPods (nsSelector (o_SystemNamespace o)) (o_EgressProxySelector o)] [tcpPort (o_EgressProxyPort o)]]
    | enf =>
        let dns := mkPolicyRule [PeerPods (nsSelector (o_DNSNamespace o)) (o_DNSPodSelector o)]
                     [mkPolicyPort UDP 53; mkPolicyPort TCP 53] in
        let world :=
          match enf with
          | EgressNone => mkPolicyRule [PeerIPBlock "0.0.0.0/0" (dedupe (o_DenyCIDRs o))] []
          | _ => mkPolicyRule [PeerIPBlock "0.0.0.0/0" (dedupe (privateRanges ++ o_DenyCIDRs o))]
                   (tcpPort <$> uniquePorts st)
          end in
        [dns; world]
    end in
  mkNetworkPolicy ("session-" +:+ sess_Name sess) (sess_Namespace sess) (sessionLabels sess)
    {[LabelSessionID := sess_Name sess]} [TIngress; TEgress] ingress egress.

(** [func RenderNamespaceDefaultDeny]: selects every pod, allows nothing. *)
Definition RenderNamespaceDefaultDeny (namespace : string) : NetworkPolicy :=
  mkNetworkPolicy "default-deny-all" namespace ∅ ∅ [TIngress; TEgress] [] [].

(** [func Validate(st *jugv1.ServerType, o Options) error] *)
Definition netpol_Validate (st : ServerType) (o : Options) : result () :=
  if negb (bool_decide (o_Enforcer o = EgressNone)) && bool_decide (sts_Egress (st_Spec st) = [])
  then Err (EMsg ("server type " +:+ st_Name st +:+ " declares no egress hosts")) else Ok ().

(** ** cilium.go *)

Inductive fqdnRule := matchPattern (p : string) | matchName (n : string).
(** The parts of the CiliumNetworkPolicy spec. *)
Record CiliumPolicy := mkCiliumPolicy {
  cp_Name : string; cp_Namespace : string; cp_Labels : selector; cp_Endpoint : selector;
  cp_From : selector; cp_IngressPorts : list (string * string);
  cp_DNSEndpoints : selector; cp_DNSPorts : list (string * string); cp_DNSRules : list fqdnRule; cp_ToFQDNs : list fqdnRule;
  cp_ToPorts : list (string * string) }.

Definition fqdnOf (e : EgressRule) : fqdnRule :=
  if (2 <? String.length (er_Host e))%nat && String.eqb (str_take 2 (er_Host e)) "*." then matchPattern (er_Host e)
  else matchName (er_Host e).

(** The loop that collects port and protocol, once each. *)
Fixpoint uniq_ports (seen : list string) (l : list (Z * string)) : list (string * string) :=
  match l with
  | [] => []
  | (p, proto) :: l' =>
      let k := Itoa p +:+ proto in
      if contains seen k then uniq_ports seen l' else (Itoa p, proto) :: uniq_ports (k :: seen) l'
  end.

Definition k8s_selector (m : selector) : selector := kmap (String.append "k8s:") m.

(** [func RenderCiliumPolicy] *)
Definition RenderCiliumPolicy (sess : Session) (st : ServerType) (o : Options) : CiliumPolicy :=
  let egress := sts_Egress (st_Spec st) in
  mkCiliumPolicy ("session-" +:+ sess_Name sess) (sess_Namespace sess) (sessionLabels sess)
    {[LabelSessionID := sess_Name sess]}
    (k8s_selector (o_GatewayPodSelector o) ∪ {["k8s:io.kubernetes.pod.namespace" := o_SystemNamespace o]})
    [(Itoa (sts_WrapperPort (st_Spec st)), "TCP"); (Itoa (sts_ReadinessPort (st_Spec st)), "TCP")]
    (<["k8s:io.kubernetes.pod.namespace" := o_DNSNamespace o]> (k8s_selector (o_DNSPodSelector o)))
    [("53", "UDP"); ("53", "TCP")] (fqdnOf <$> egress) (fqdnOf <$> egress)
    (uniq_ports [] (egress ≫= λ e, (λ p, (p, er_Protocol e)) <$> er_Ports e)).

(** ** internal/adapters/egress: which objects each enforcer renders *)

Inductive isoObject := ONetworkPolicy (np : NetworkPolicy) | OCiliumPolicy (cp : CiliumPolicy).

Definition with_enforcer (e : Config.EgressEnforcer) (n : Network) : Network :=
  mkNetwork (n_SessionsNamespace n) (n_NamespacePerGroup n) e (n_Proxy n) (n_PodAuth n) (n_MTLS n)
    (n_GatewayPodSelector n) (n_DenyCIDRs n) (n_APIServerCIDR n) (n_ImagePolicy n) (n_AllowInsecure n).

(** [New] of the adapters: [hasCRD] is what discovery says when there is a cluster. *)
Definition cilium_New (hasCRD : option bool) (n : Network) : result Options :=
  match hasCRD with
  | Some false => Err (EMsg "network.egressEnforcer is cilium but the CiliumNetworkPolicy CRD is not installed")
  | _ => Ok (DefaultOptions (with_enforcer EgressCilium n))
  end.
Definition none_New (n : Network) : result Options := Ok (DefaultOptions (with_enforcer EgressNone n)).
Definition proxy_New (n : Network) : result Options :=
  match n_Proxy n with
  | Some p => if String.eqb (pn_Address p) "" then Err (EMsg "network.proxy.address is required for egressEnforcer proxy")
              else Ok (DefaultOptions (with_enforcer EgressProxy n))
  | None => Err (EMsg "network.proxy.address is required for egressEnforcer proxy")
  end.

(** [Objects] of the adapters. *)
Definition cilium_Objects (o : Options) (sess : Session) (st : ServerType) : list isoObject :=
  [ONetworkPolicy (RenderNetworkPolicy sess st o); OCiliumPolicy (RenderCiliumPolicy sess st o)].
Definition none_Objects (o : Options) (sess : Session) (st : ServerType) : list isoObject :=
  [ONetworkPolicy (RenderNetworkPolicy sess st o)].
Definition proxy_Objects (o : Options) (sess : Session) (st : ServerType) : list isoObject :=
  [ONetworkPolicy (RenderNetworkPolicy sess st o)].

(** [NamespaceObjects] of the adapters: applied once per sessions namespace. *)
Definition cilium_NamespaceObjects (namespace : string) : list isoObject :=
  [ONetworkPolicy (RenderNamespaceDefaultDeny namespace)].
Definition none_NamespaceObjects (namespace : string) : list isoObject := [].
Definition proxy_NamespaceObjects (namespace : string) : list isoObject :=
  [ONetworkPolicy (RenderNamespaceDefaultDeny namespace)].

(** ** What a policy allows *)

(** The other end of a connection: a pod with the labels of its namespace and its
    own, or an address outside the cluster. *)
Inductive endpoint := EPod (ns labels : selector) | EExternal (ip : IP).

Definition cidr_contains (cidr : string) (ip : IP) : bool :=
  match ParseCIDR cidr with Some n => IPNet_Contains n ip | None => false end.
Definition peer_matches (p : Peer) (e : endpoint) : Prop :=
  match p, e with
  | PeerPods nsSel podSel, EPod ns labels => nsSel ⊆ ns ∧ podSel ⊆ labels
  | PeerIPBlock cidr except, EExternal ip =>
      cidr_contains cidr ip = true ∧ ∀ x, x ∈ except → cidr_contains x ip = false
  | _, _ => False
  end.
Definition port_matches (ports : list PolicyPort) (proto : Protocol) (port : Z) : Prop :=
  ports = [] ∨ mkPolicyPort proto port ∈ ports.
Definition rule_allows (r : PolicyRule) (e : endpoint) (proto : Protocol) (port : Z) : Prop :=
  (∃ p, p ∈ ru_Peers r ∧ peer_matches p e) ∧ port_matches (ru_Ports r) proto port.
(** A selected pod accepts and opens only what some rule allows, in the directions
    the policy's types name. *)
Definition ingress_allowed (np : NetworkPolicy) (e : endpoint) (proto : Protocol) (port : Z) : Prop :=
  TIngress ∉ np_PolicyTypes np ∨ ∃ r, r ∈ np_Ingress np ∧ rule_allows r e proto port.
Definition egress_allowed (np : NetworkPolicy) (e : endpoint) (proto : Protocol) (port : Z) : Prop :=
  TEgress ∉ np_PolicyTypes np ∨ ∃ r, r ∈ np_Egress np ∧ rule_allows r e proto port.

Lemma elem_of_dedupe l x : x ∈ dedupe l ↔ x ∈ l ∧ x ≠ "".
Proof. unfold dedupe. rewrite elem_of_uniq_nonempty, elem_of_nil. tauto. Qed.

Lemma rule_allows_single p ports e proto port :
  rule_allows (mkPolicyRule [p] ports) e proto port ↔ peer_matches p e ∧ port_matches ports proto port.
Proof.
  unfold rule_allows. cbn. split.
  - intros [(p' & ->%list_elem_of_singleton & ?) ?]. done.
  - intros [? ?]. split; [|done]. exists p. split; [by left|done].
Qed.

Lemma nsSelector_subseteq name ns : nsSelector name ⊆ ns ↔ ns !! "kubernetes.io/metadata.name" = Some name.
Proof. apply map_singleton_subseteq_l. Qed.

Lemma privateRanges_nonempty : "" ∉ privateRanges.
Proof. apply (bool_decide_eq_false (_ ∈ _)). vm_compute. reflexivity. Qed.

(** The world rule keeps every excepted range out. *)
Lemma ipblock_excludes l ip :
  peer_matches (PeerIPBlock "0.0.0.0/0" (dedupe l)) (EExternal ip) →
  ∀ x, x ∈ l → x ≠ "" → cidr_contains x ip = false.
Proof. intros [_ H] x Hx Hne. apply H. by apply elem_of_dedupe. Qed.

Lemma elem_of_uniq_Z seen l p : p ∈ uniq_Z seen l ↔ p ∈ l ∧ p ∉ seen.
Proof.
  revert seen. induction l as [|x l IH]; intros seen; cbn [uniq_Z].
  { rewrite elem_of_nil. tauto. }
  case_bool_decide as Hx.
  - rewrite IH, elem_of_cons. split; [tauto|]. intros [[->|?] ?]; [done|tauto].
  - rewrite !elem_of_cons, IH, elem_of_cons. destruct (decide (p = x)) as [->|]; tauto.
Qed.

(** A port some egress rule of the type lists, or 443 when none lists any. *)
Definition declared_port (st : ServerType) (p : Z) : Prop :=
  (∃ r, r ∈ sts_Egress (st_Spec st) ∧ p ∈ er_Ports r) ∨
  (p = 443 ∧ ∀ r, r ∈ sts_Egress (st_Spec st) → er_Ports r = []).

Lemma elem_of_uniquePorts st p : p ∈ uniquePorts st ↔ declared_port st p.
Proof.
  unfold uniquePorts, declared_port. set (l := sts_Egress (st_Spec st) ≫= er_Ports).
  assert (Hl : ∀ q, q ∈ uniq_Z [] l ↔ ∃ r, r ∈ sts_Egress (st_Spec st) ∧ q ∈ er_Ports r).
  { intros q. rewrite elem_of_uniq_Z. unfold l. rewrite list_elem_of_bind, elem_of_nil. firstorder. }
  destruct (uniq_Z [] l) as [|q ports].
  - rewrite list_elem_of_singleton, <- Hl, elem_of_nil. split.
    + intros ->. right. split; [done|]. intros r Hr. apply elem_of_nil_inv. intros q Hq.
      apply (not_elem_of_nil q), Hl. eauto.
    + by intros [[]|[? _]].
  - rewrite Hl. split; [by left|]. intros [?|[_ Hnone]]; [done|].
    destruct (proj1 (Hl q)) as (r & Hr & Hq); [left|]. rewrite (Hnone r Hr) in Hq. by apply not_elem_of_nil in Hq.
Qed.

Lemma RenderNetworkPolicy_ingress sess st o e proto port :
  ingress_allowed (RenderNetworkPolicy sess st o) e proto port ↔
     proto = TCP ∧ port ∈ [sts_WrapperPort (st_Spec st); sts_ReadinessPort (st_Spec st)] ∧
     ∃ ns labels, e = EPod ns labels ∧ ns !! "kubernetes.io/metadata.name" = Some (o_SystemNamespace o) ∧
       o_GatewayPodSelector o ⊆ labels.
Proof.
  split.
  - intros [Hty|(r & Hr & Ha)]; [by destruct Hty; left|].
    apply list_elem_of_singleton in Hr as ->. apply rule_allows_single in Ha as [Hp Hport].
    destruct e as [ns labels|ip]; [|done]. destruct Hp as [Hns%nsSelector_subseteq Hl].
    destruct Hport as [?|Hport]; [done|]. unfold tcpPort in Hport. rewrite !elem_of_cons in *.
    destruct Hport as [[= -> ->]|[[= -> ->]|Hport]]; [..|by apply not_elem_of_nil in Hport].
    all: split; [done|split; [tauto|by eauto 10]].
  - intros (-> & Hport & ns & labels & -> & Hns & Hl). right. eexists. split; [left|].
    apply rule_allows_single. split; [by split; [apply nsSelector_subseteq|]|]. right.
    by apply (list_elem_of_fmap_2 tcpPort) in Hport.
Qed.

Lemma RenderNetworkPolicy_egress sess st o e proto port :
  egress_allowed (RenderNetworkPolicy sess st o) e proto port →
     match e with
     | EPod ns labels =>
         if decide (o_Enforcer o = EgressProxy)
         then proto = TCP ∧ port = o_EgressProxyPort o ∧
              ns !! "kubernetes.io/metadata.name" = Some (o_SystemNamespace o) ∧ o_EgressProxySelector o ⊆ labels
         else port = 53 ∧ ns !! "kubernetes.io/metadata.name" = Some (o_DNSNamespace o) ∧ o_DNSPodSelector o ⊆ labels
     | EExternal ip =>
         o_Enforcer o ≠ EgressProxy ∧ (∀ x, x ∈ o_DenyCIDRs o → x ≠ "" → cidr_contains x ip = false) ∧
         (o_Enforcer o ≠ EgressNone →
            proto = TCP ∧ declared_port st port ∧ ∀ x, x ∈ privateRanges → cidr_contains x ip = false)
     end.
Proof.
  intros [Hty|(r & Hr & Ha)]; [by destruct Hty; right; left|]. cbn [np_Egress RenderNetworkPolicy] in Hr.
  destruct (o_Enforcer o) eqn:Ee; rewrite !elem_of_cons, elem_of_nil in Hr;
    repeat match type of Hr with _ ∨ _ => destruct Hr as [->|Hr] | False => done end;
    apply rule_allows_single in Ha as [Hp Hport]; destruct e as [ns labels|ip]; try done.
  all: try (destruct Hp as [Hns%nsSelector_subseteq Hl]; destruct Hport as [?|Hport]; [done|];
    rewrite !elem_of_cons, elem_of_nil in Hport; rewrite ?decide_False, ?decide_True by done;
    repeat match type of Hport with _ ∨ _ => destruct Hport as [[= -> ->]|Hport] | False => done end; by split_and!).
  all: pose proof (ipblock_excludes _ _ Hp) as Hx; split; [done|]; split.
  all: try (intros x Hin; apply Hx; try (rewrite elem_of_app; by right); done).
  all: intros Hn; try done; destruct Hport as [Hport|Hport].
  all: try (by apply fmap_nil_inv in Hport; unfold uniquePorts in Hport; destruct (uniq_Z _ _)).
  all: apply list_elem_of_fmap in Hport as (q & [= -> ->] & Hq%elem_of_uniquePorts); split_and!; [done..|].
  all: intros x Hin; apply Hx; [rewrite elem_of_app; by left|].
  all: intros ->; by apply privateRanges_nonempty.
Qed.


(** ** The metadata service *)

Definition metadataIP : IP := ParseIP "169.254.169.254".

Lemma cidr_contains_link_local : cidr_contains "169.254.0.0/16" metadataIP = true.
Proof. vm_compute. reflexivity. Qed.

(** Unless enforcement is off and the operator replaced the denied ranges, no
    session pod reaches the cloud's metadata address. *)
Lemma metadata_unreachable n sess st proto port :
  n_EgressEnforcer n ≠ EgressNone ∨ default [] (n_DenyCIDRs n) = [] →
  ¬ egress_allowed (RenderNetworkPolicy sess st (DefaultOptions n)) (EExternal metadataIP) proto port.
Proof.
  intros Hor H. apply RenderNetworkPolicy_egress in H as (_ & Hdeny & Hpriv).
  destruct Hor as [Hn|Hd].
  - destruct (Hpriv Hn) as (_ & _ & Hx). specialize (Hx "169.254.0.0/16").
    rewrite cidr_contains_link_local in Hx. ospecialize (Hx _); [|done]. do 4 right. left.
  - specialize (Hdeny "169.254.0.0/16"). rewrite cidr_contains_link_local in Hdeny.
    ospecialize (Hdeny _ _); [|done..].
    unfold DefaultOptions. cbn. rewrite Hd. destruct (String.eqb _ _); cbn; right; left.
Qed.

(** With enforcement off, configured ranges replace the built-in ones: the metadata
    address is then reachable on every port. *)
Lemma none_custom_deny_reaches_metadata sess st n d proto port :
  n_DenyCIDRs n = Some [d] → cidr_contains d metadataIP = false → n_APIServerCIDR n = "" →
  n_EgressEnforcer n = EgressNone →
  egress_allowed (RenderNetworkPolicy sess st (DefaultOptions n)) (EExternal metadataIP) proto port.
Proof.
  intros Hd Hc Ha He. right. unfold RenderNetworkPolicy, DefaultOptions. cbn. rewrite Hd, Ha, He. cbn.
  eexists. split; [right; left|]. apply rule_allows_single. split; [|by left]. split; [by vm_compute|].
  intros x Hx. destruct (String.eqb _ _); cbn in Hx; [by apply not_elem_of_nil in Hx|].
  by apply list_elem_of_singleton in Hx as ->.
Qed.
