(* ===== verification/Controller.v ===== *)
(** * internal/controller: from Session objects to pods

    podspec.go ([BuildPod]), session_controller.go (the reconciler) and reaper.go
    (the idle reaper).  The API server and the egress enforcer are the contracts
    [KubeAPI] and [EgressEnforcer]; issuing a certificate is a parameter. *)

From S2P Require Import Prelude GoStd NetIP Config Core Fixtures Contracts RoutingMemory Kube Egress.

Local Open Scope Z_scope.

(** ** podspec.go *)

(** [type PodOptions struct] *)
Record PodOptions := mkPodOptions { po_WrapperImage : string; po_Env : gmap string string; po_DisableDNS : bool }.

(** [path.Clean] *)
Definition path_Clean (p : string) : string :=
  let rooted := HasPrefix p "/" in
  let step (st : list string) (el : string) :=
    if String.eqb el "" || String.eqb el "." then st
    else if String.eqb el ".." then
      match st with
      | top :: rest => if String.eqb top ".." then el :: st else rest
      | [] => if rooted then st else [el]
      end
    else el :: st in
  let body := Join (reverse (fold_left step (SplitByte p "/") [])) "/" in
  if rooted then "/" +:+ body else if String.eqb body "" then "." else body.

Definition mount_rw (n p : string) : VolumeMount := mkVolumeMount n p false.
Definition mount_ro (n p : string) : VolumeMount := mkVolumeMount n p true.
Definition emptyDir (n : string) : Volume := mkVolume n (VEmptyDir false "").

(** The container security context every container of the pod gets. *)
Definition containerSec (sec : SecuritySpec) : SecurityContext :=
  mkSecurityContext false (ss_ReadOnlyRootFilesystem sec) true (ss_RunAsUser sec) (ss_RunAsGroup sec) ["ALL"] "RuntimeDefault".

(** [func BuildPod] *)
Definition BuildPod (sess : Session) (st : ServerType) (opts : PodOptions) : KPod :=
  let spec := st_Spec st in
  let sec := sts_Security spec in
  let extra := imap (λ i p, ("writable-" +:+ Itoa (Z.of_nat i), p)) (ss_ExtraWritablePaths sec) in
  let withWrapper := negb (String.eqb (po_WrapperImage opts) "") in
  let volumes :=
    [mkVolume "run" (VEmptyDir true "1Mi");
     mkVolume "pod-token" (VSecret (spec_PodTokenSecretName (sess_Spec sess)) 256);
     mkVolume "wrapper-config" (VConfigMap (st_Name st +:+ "-wrapper"))]
    ++ (if ss_WritableTmp sec then [emptyDir "tmp"] else [])
    ++ (emptyDir ∘ fst <$> extra)
    ++ (if withWrapper then [emptyDir "wrapper-bin"] else []) in
  let mounts :=
    [mount_rw "run" "/run/juggernaut"; mount_ro "pod-token" "/run/juggernaut-secret";
     mount_ro "wrapper-config" "/etc/juggernaut"]
    ++ (if ss_WritableTmp sec then [mount_rw "tmp" "/tmp"] else [])
    ++ ((λ np, mount_rw np.1 (path_Clean np.2)) <$> extra)
    ++ (if withWrapper then [mount_ro "wrapper-bin" "/opt/juggernaut"] else []) in
  let env :=
    [("JUGGERNAUT_WRAPPER_CONFIG", "/etc/juggernaut/wrapper.json"); ("JUGGERNAUT_POD_NAME", sess_Name sess)]
    ++ map_to_list (sts_Env spec) ++ map_to_list (po_Env opts) in
  let initContainers :=
    if withWrapper then
      [mkContainer "install-wrapper" (po_WrapperImage opts) ""
         ["/juggernaut-wrapper"; "--install"; "/opt/juggernaut/juggernaut-wrapper"] [] [] [] None None None
         (containerSec sec) [mount_rw "wrapper-bin" "/opt/juggernaut"]]
    else [] in
  let wrapperCmd := if withWrapper then "/opt/juggernaut/juggernaut-wrapper" else "/juggernaut-wrapper" in
  let wrapper :=
    mkContainer "wrapper" (sts_Image spec) "IfNotPresent" [wrapperCmd] ["--config"; "/etc/juggernaut/wrapper.json"] env
      [("mcp", sts_WrapperPort spec); ("probes", sts_ReadinessPort spec)]
      (Some (mkProbe "/readyz" "probes" 1 3)) (Some (mkProbe "/healthz" "probes" 10 3))
      (Some (sts_Resources spec)) (containerSec sec) mounts in
  mkKPod (sess_Name sess) (sess_Namespace sess)
    {[LabelSession := "true"; LabelSessionID := sess_Name sess; LabelServerType := spec_ServerType (sess_Spec sess);
      LabelUserHash := spec_UserHash (sess_Spec sess); LabelConfigHash := spec_ConfigHash (sess_Spec sess);
      LabelManagedBy := ManagedByValue]}
    {["juggernaut.io/subject-hash" := spec_UserHash (sess_Spec sess)]} false
    (mkPodSpec "Never" false false 30
       (mkPodSecurityContext true (ss_RunAsUser sec) (ss_RunAsGroup sec) (ss_RunAsGroup sec) "RuntimeDefault")
       initContainers [wrapper] volumes
       (if String.eqb (sts_RuntimeClassName spec) "" then None else Some (sts_RuntimeClassName spec))
       (if po_DisableDNS opts then "None" else "") (if po_DisableDNS opts then Some [] else None))
    kst_new.

(** ** session_controller.go *)

(** [type EgressEnforcer interface] of contracts: the calls the reconciler makes. *)
Class EgressEnforcer (E O : Type) := {
  EE_Validate : ServerType → E → result ();
  EE_Objects : Session → ServerType → E → result (list O);
  EE_OnReady : Session → ServerType → string → E → result () * E;
  EE_OnCleanup : Session → E → result () * E }.

(** [type PodPKI struct]: the trust domain and what the CA answers for a pod
    identity and a lifetime (certificate, key and CA certificate). *)
Record PodPKI := mkPodPKI { pki_TrustDomain : string; pki_IssueServer : string → Z → result (string * string * string) }.

(** [pki.SessionID] and [pki.GatewayID] *)
Definition pki_SessionID (trustDomain name : string) : string := "spiffe://" +:+ trustDomain +:+ "/session/" +:+ name.
Definition pki_GatewayID (trustDomain : string) : string := "spiffe://" +:+ trustDomain +:+ "/gateway".

(** [type SessionReconciler struct]; [withTLS] is [withWrapperTLS] on the rendered JSON. *)
Record SessionReconciler := mkSessionReconciler {
  sr_Namespace : string; sr_Options : PodOptions; sr_Egress : bool; sr_PKI : option PodPKI;
  sr_withTLS : string → string → string }.

(** [ctrl.Result] with the error; a requeue delay in nanoseconds. *)
Record rresult := mkRresult { rr_RequeueAfter : Z; rr_Err : option gerror }.
Definition rdone : rresult := mkRresult 0 None.
Definition rerr (e : gerror) : rresult := mkRresult 0 (Some e).

Section Reconcile.
Context {K O E : Type} {api : KubeAPI K O} {ee : EgressEnforcer E O}.
Variable rc : SessionReconciler.
Notation S := (K * E)%type.

Definition res_err {A} (r : result A) : option gerror := match r with Ok _ => None | Err e => Some e end.

(** [func (r *SessionReconciler) fail] *)
Definition fail (sess : Session) (msg : string) (s : S) : rresult * S :=
  let st := sess_Status sess in
  let st' := mkSessionStatus PhaseFailed (stat_PodName st) (stat_PodIP st) (stat_Endpoint st) msg (stat_StartedAt st)
               (stat_ReadyAt st) (stat_ExpiresAt st) in
  let '(r, k) := K_statusSession (with_status st' sess) s.1 in
  (mkRresult 0 (res_err r), (k, s.2)).

(** [func (r *SessionReconciler) cleanup] *)
Definition cleanup (sess : Session) (k : K) : result () * K :=
  let tolerate (r : result ()) : result () := match r with Err e => if IsNotFound e then Ok () else Err e | ok => ok end in
  let '(r, k) := K_deletePod (sess_Name sess) k in
  match tolerate r with
  | Err e => (Err e, k)
  | Ok _ =>
      let sec := spec_PodTokenSecretName (sess_Spec sess) in
      if String.eqb sec "" then (Ok (), k)
      else let '(r, k) := K_deleteSecret sec k in (tolerate r, k)
  end.

(** [func (p *PodPKI) IssueForPod] *)
Definition IssueForPod (pki : PodPKI) (secName : string) (data : gmap string string) (podName : string) (ttl : Z) (k : K)
    : result () * K :=
  match data !! "tls.crt" with
  | Some _ => (Ok (), k)
  | None =>
      match pki_IssueServer pki (pki_SessionID (pki_TrustDomain pki) podName) ttl with
      | Err e => (Err e, k)
      | Ok (crt, key, ca) => K_updateSecret secName (<["tls.crt" := crt]> (<["tls.key" := key]> (<["ca.crt" := ca]> data))) k
      end
  end.

(** [func (r *SessionReconciler) ensureWrapperConfigMap] *)
Definition ensureWrapperConfigMap (st : ServerType) (k : K) : result () * K :=
  let json := sts_WrapperConfigJSON (st_Spec st) in
  let data := match sr_PKI rc with Some pki => sr_withTLS rc json (pki_TrustDomain pki) | None => json end in
  K_applyConfigMap (st_Name st +:+ "-wrapper") {[LabelManagedBy := ManagedByValue; LabelServerType := st_Name st]}
    {["wrapper.json" := data]} k.

Fixpoint applyObjects (objs : list O) (k : K) : result () * K :=
  match objs with
  | [] => (Ok (), k)
  | o :: rest =>
      match K_applyObject o k with
      | (Err e, k) => (Err e, k)
      | (Ok _, k) => applyObjects rest k
      end
  end.

(** [func (r *SessionReconciler) applyIsolation] *)
Definition applyIsolation (sess : Session) (st : ServerType) (s : S) : result () * S :=
  if negb (sr_Egress rc) then (Ok (), s)
  else
    match EE_Validate st s.2 with
    | Err e => (Err e, s)
    | Ok _ =>
        match EE_Objects sess st s.2 with
        | Err e => (Err e, s)
        | Ok objs => let '(r, k) := applyObjects objs s.1 in (r, (k, s.2))
        end
    end.

(** The deletion branch of [Reconcile]. *)
Definition reconcileDeletion (sess : Session) (s : S) : rresult * S :=
  let k := if bool_decide (stat_Phase (sess_Status sess) = PhaseTerminating) then s.1
           else (K_statusSession (with_status (set_Phase PhaseTerminating (sess_Status sess)) sess) s.1).2 in
  let sess := with_status (set_Phase PhaseTerminating (sess_Status sess)) sess in
  match cleanup sess k with
  | (Err e, k) => (rerr e, (k, s.2))
  | (Ok _, k) =>
      let '(r, e) := if sr_Egress rc then EE_OnCleanup sess s.2 else (Ok (), s.2) in
      match r with
      | Err er => (rerr er, (k, e))
      | Ok _ =>
          match sess_DeletionTimestamp sess with
          | None =>
              let '(r, k) := K_deleteSession (sess_Name sess) k in
              (match r with Err er => if IsNotFound er then rdone else rerr er | Ok _ => rdone end, (k, e))
          | Some _ =>
              if contains (sess_Finalizers sess) FinalizerSession then
                let fs := List.filter (λ f, negb (String.eqb f FinalizerSession)) (sess_Finalizers sess) in
                let '(r, k) := K_updateSession (with_finalizers fs sess) k in
                (mkRresult 0 (res_err r), (k, e))
              else (rdone, (k, e))
          end
      end
  end.

(** The status written once the pod has been created. *)
Definition markStarting (now : Z) (sess : Session) (st : ServerType) (podName : string) (s : S) : rresult * S :=
  let old := sess_Status sess in
  let st' := mkSessionStatus PhaseStarting podName (stat_PodIP old) (stat_Endpoint old) (stat_Message old)
               (Some now) (stat_ReadyAt old) (Some (now + sts_MaxSessionAge (st_Spec st))) in
  let '(r, k) := K_statusSession (with_status st' sess) s.1 in
  (mkRresult Second (res_err r), (k, s.2)).

(** The branch in which the pod does not exist. *)
Definition reconcileCreate (now : Z) (sess : Session) (st : ServerType) (s : S) : rresult * S :=
  let ph := stat_Phase (sess_Status sess) in
  if bool_decide (ph = PhaseReady) || bool_decide (ph = PhaseIdle) then fail sess "pod disappeared" s
  else
    let issue : sum (rresult * S) K :=
      match sr_PKI rc with
      | None => inr s.1
      | Some pki =>
          let secName := spec_PodTokenSecretName (sess_Spec sess) in
          match K_getSecret secName s.1 with
          | Err e => inl (rerr e, s)
          | Ok data =>
              match IssueForPod pki secName data (sess_Name sess) (sts_MaxSessionAge (st_Spec st) + Hour) s.1 with
              | (Err _, k) => inl (fail sess "issue pod certificate" (k, s.2))
              | (Ok _, k) => inr k
              end
          end
      end in
    match issue with
    | inl r => r
    | inr k =>
        let newPod := BuildPod sess st (sr_Options rc) in
        match K_createPod newPod k with
        | (Err e, k) =>
            if bool_decide (e = ErrAlreadyExists) then markStarting now sess st (kp_Name newPod) (k, s.2)
            else fail sess "create pod" (k, s.2)
        | (Ok _, k) => markStarting now sess st (kp_Name newPod) (k, s.2)
        end
    end.

(** The phase of the session from the state of its pod. *)
Definition podReady (pod : KPod) : bool :=
  existsb (λ c, String.eqb c.1 "Ready" && String.eqb c.2 "True") (kst_Conditions (kp_Status pod)).
Definition podFatal (pod : KPod) : option string :=
  let st := kp_Status pod in
  if String.eqb (kst_Phase st) "Failed" || String.eqb (kst_Phase st) "Succeeded"
  then Some ("pod " +:+ kst_Phase st +:+ ": " +:+ kst_Message st)
  else
    match List.find (λ w, match w with
                          | Some (reason, _) => contains ["ImagePullBackOff"; "ErrImagePull"; "CrashLoopBackOff"] reason
                          | None => false end) (kst_Waiting st) with
    | Some (Some (reason, msg)) => Some (reason +:+ ": " +:+ msg)
    | _ => None
    end.

Definition reconcilePod (now : Z) (sess : Session) (st : ServerType) (pod : KPod) (s : S) : rresult * S :=
  let status := sess_Status sess in
  let ip := kst_PodIP (kp_Status pod) in
  match podFatal pod with
  | Some msg => fail sess msg s
  | None =>
      if podReady pod && negb (String.eqb ip "") then
        if bool_decide (stat_Phase status = PhaseReady) then (rdone, s)
        else
          let scheme := match sr_PKI rc with Some _ => "https" | None => "http" end in
          let endpoint := scheme +:+ "://" +:+ ip +:+ ":" +:+ Itoa (sts_WrapperPort (st_Spec st)) in
          let sess := with_status (mkSessionStatus PhaseReady (stat_PodName status) ip endpoint "" (stat_StartedAt status)
                                     (Some now) (stat_ExpiresAt status)) sess in
          let '(r, e) := if sr_Egress rc then EE_OnReady sess st ip s.2 else (Ok (), s.2) in
          match r with
          | Err er => (rerr er, (s.1, e))
          | Ok _ => let '(r, k) := K_statusSession sess s.1 in (mkRresult 0 (res_err r), (k, e))
          end
      else if bool_decide (stat_Phase status = PhaseStarting) then (mkRresult Second None, s)
      else
        let '(r, k) := K_statusSession (with_status (set_Phase PhaseStarting status) sess) s.1 in
        (mkRresult Second (res_err r), (k, s.2))
  end.

(** [func (r *SessionReconciler) Reconcile] *)
Definition Reconcile (now : Z) (name : string) (s : S) : rresult * S :=
  match K_getSession name s.1 with
  | Err e => (if IsNotFound e then rdone else rerr e, s)
  | Ok sess =>
      if bool_decide (is_Some (sess_DeletionTimestamp sess))
         || bool_decide (spec_DesiredPhase (sess_Spec sess) = PhaseTerminating)
      then reconcileDeletion sess s
      else if negb (contains (sess_Finalizers sess) FinalizerSession) then
        let '(r, k) := K_updateSession (with_finalizers (sess_Finalizers sess ++ [FinalizerSession]) sess) s.1 in
        (mkRresult 0 (res_err r), (k, s.2))
      else
        match K_getType (spec_ServerType (sess_Spec sess)) s.1 with
        | Err _ => fail sess ("server type " +:+ spec_ServerType (sess_Spec sess) +:+ " not found") s
        | Ok st =>
            match ensureWrapperConfigMap st s.1 with
            | (Err e, k) => (rerr e, (k, s.2))
            | (Ok _, k) =>
                match applyIsolation sess st (k, s.2) with
                | (Err _, s) => fail sess "isolation" s
                | (Ok _, s) =>
                    match K_getPod (sess_Name sess) s.1 with
                    | Ok pod => reconcilePod now sess st pod s
                    | Err e => if IsNotFound e then reconcileCreate now sess st s else (rerr e, s)
                    end
                end
            end
        end
  end.
End Reconcile.

(** ** reaper.go *)

(** [type Reaper struct]: the grace beyond the maximum age. *)
Section Reaper.
Context {K O T : Type} {api : KubeAPI K O} {tbl : RoutingTable T}.
Variable HardGrace : Z.

(** [func (r *Reaper) terminate]; the log holds the reasons given to [OnTerminate]. *)
Definition terminate (s : Session) (reason : string) (w : K * T * list (string * string)) : K * T * list (string * string) :=
  let '(k, t, log) := w in
  let s' := with_spec (set_DesiredPhase PhaseTerminating (sess_Spec s)) s in
  match K_updateSession s' k with
  | (Err _, k) => (k, t, log)
  | (Ok _, k) =>
      let t := (DeleteSessionsForPod (sess_Name s) t).2 in
      let t := (DeletePod (mkPodKey (spec_Subject (sess_Spec s)) (spec_ServerType (sess_Spec s))) t).2 in
      (k, t, log ++ [(sess_Name s, reason)])
  end.

(** The body of the loop of [sweep] for one listed session. *)
Definition sweepOne (now : Z) (types : gmap string ServerType) (s : Session) (w : K * T * list (string * string))
    : K * T * list (string * string) :=
  let '(k, t, log) := w in
  if bool_decide (spec_DesiredPhase (sess_Spec s) = PhaseTerminating)
     || bool_decide (is_Some (sess_DeletionTimestamp s)) then w
  else
    match types !! spec_ServerType (sess_Spec s) with
    | None => terminate s "server type removed" w
    | Some st =>
        match stat_Phase (sess_Status s) with
        | PhaseFailed => terminate s "failed" w
        | PhaseReady | PhaseIdle =>
            let '(ri, t) := InFlight (sess_Name s) 0 t in
            let inflight := match ri with Ok n => n | Err _ => 0 end in
            let age := now - sess_CreationTimestamp s in
            let maxAge := sts_MaxSessionAge (st_Spec st) in
            if maxAge + HardGrace <? age then terminate s "max age (hard)" (k, t, log)
            else if (maxAge <? age) && (inflight =? 0) then terminate s "max age" (k, t, log)
            else
              let '(rl, t) := LastActive (sess_Name s) t in
              let last := match rl with
                          | Ok l => l
                          | Err _ => default (sess_CreationTimestamp s) (stat_ReadyAt (sess_Status s))
                          end in
              let idle := now - last in
              if (sts_IdleTimeout (st_Spec st) <? idle) && (inflight =? 0) then terminate s "idle" (k, t, log)
              else if (sts_IdleTimeout (st_Spec st) <? idle) && negb (bool_decide (stat_Phase (sess_Status s) = PhaseIdle)) then
                ((K_statusSession (with_status (set_Phase PhaseIdle (sess_Status s)) s) k).2, t, log)
              else (k, t, log)
        | _ => w
        end
    end.

(** [func (r *Reaper) sweep] *)
Definition sweep (now : Z) (k : K) (t : T) : result () * (K * T * list (string * string)) :=
  match K_listSessions k with
  | Err e => (Err e, (k, t, []))
  | Ok sessions =>
      match K_listTypes k with
      | Err e => (Err e, (k, t, []))
      | Ok items =>
          let types : gmap string ServerType := fold_left (λ m st, <[st_Name st := st]> m) items ∅ in
          (Ok (), fold_left (λ w s, sweepOne now types s w) sessions (k, t, []))
      end
  end.
End Reaper.

(** ** The pod a session gets *)

Lemma BuildPod_volume_names sess st opts :
  v_Name <$> ps_Volumes (kp_Spec (BuildPod sess st opts)) =
  ["run"; "pod-token"; "wrapper-config"]
  ++ (if ss_WritableTmp (sts_Security (st_Spec st)) then ["tmp"] else [])
  ++ imap (λ i _, "writable-" +:+ Itoa (Z.of_nat i)) (ss_ExtraWritablePaths (sts_Security (st_Spec st)))
  ++ (if String.eqb (po_WrapperImage opts) "" then [] else ["wrapper-bin"]).
Proof.
  unfold BuildPod. cbn [kp_Spec ps_Volumes]. rewrite !fmap_app. f_equal.
  f_equal; [by destruct (ss_WritableTmp _)|]. f_equal; [|by destruct (String.eqb _ _)].
  rewrite <- list_fmap_compose, fmap_imap. done.
Qed.

Lemma NoDup_imap_inj {A B} (f : nat → B) (l : list A) : Inj (=) (=) f → NoDup (imap (λ i _, f i) l).
Proof.
  intros Hf. assert (imap (λ i (_ : A), f i) l = f <$> seq 0 (length l)) as ->; [|by apply NoDup_fmap_2, NoDup_seq].
  clear Hf. revert f. induction l as [|x l IH]; intros f; [done|]. csimpl. f_equal.
  etrans; [apply (IH (f ∘ S))|]. by rewrite <- fmap_S_seq, <- list_fmap_compose.
Qed.

Definition writable (i : nat) : string := "writable-" +:+ Itoa (Z.of_nat i).
#[local] Instance writable_inj : Inj (=) (=) writable.
Proof. intros i j E%(inj (String.append _)). unfold Itoa in E. by apply (inj pretty), (inj Z.of_nat) in E. Qed.

Lemma BuildPod_names_NoDup (tmp : bool) (paths : list string) (bin : bool) :
  NoDup (["run"; "pod-token"; "wrapper-config"] ++ (if tmp then ["tmp"] else [])
         ++ imap (λ i _, writable i) paths ++ (if bin then [] else ["wrapper-bin"])).
Proof.
  assert (∀ x, x ∈ imap (λ i _, writable i) paths → HasPrefix x "writable-" = true) as Hw.
  { intros x (i & p & -> & _)%elem_of_lookup_imap_1. apply HasPrefix_app. }
  assert (Forall (λ x, HasPrefix x "writable-" = false ∧ x ≠ "wrapper-bin")
    (["run"; "pod-token"; "wrapper-config"] ++ if tmp then ["tmp"] else [])) as Hf.
  { destruct tmp; repeat (constructor; [done|]); constructor. }
  rewrite Forall_forall in Hf.
  rewrite app_assoc. apply NoDup_app. split_and!.
  - destruct tmp; apply (bool_decide_unpack _); vm_compute; exact I.
  - intros x [Hx1 Hx2]%Hf [Hin%Hw|Hin]%elem_of_app; [congruence|].
    destruct bin; [by apply not_elem_of_nil in Hin|]. by apply list_elem_of_singleton in Hin.
  - apply NoDup_app. split_and!; [by apply NoDup_imap_inj, _| |destruct bin; [constructor|apply NoDup_singleton]].
    intros x Hx%Hw Hin. destruct bin; [by apply not_elem_of_nil in Hin|]. apply list_elem_of_singleton in Hin as ->. done.
Qed.

Lemma BuildPod_security sess st opts c :
  c ∈ ps_InitContainers (kp_Spec (BuildPod sess st opts)) ++ ps_Containers (kp_Spec (BuildPod sess st opts)) →
  ct_Security c = containerSec (sts_Security (st_Spec st)).
Proof.
  unfold BuildPod. cbn [kp_Spec ps_InitContainers ps_Containers].
  destruct (String.eqb (po_WrapperImage opts) ""); cbn [negb app]; rewrite !elem_of_cons, elem_of_nil;
    [intros [->|[]]|intros [->|[->|[]]]]; done.
Qed.

Lemma BuildPod_mounts sess st opts c m :
  c ∈ ps_InitContainers (kp_Spec (BuildPod sess st opts)) ++ ps_Containers (kp_Spec (BuildPod sess st opts)) →
  m ∈ ct_Mounts c →
  vm_Name m ∈ ["run"; "pod-token"; "wrapper-config"]
    ++ (if ss_WritableTmp (sts_Security (st_Spec st)) then ["tmp"] else [])
    ++ imap (λ i _, writable i) (ss_ExtraWritablePaths (sts_Security (st_Spec st)))
    ++ (if String.eqb (po_WrapperImage opts) "" then [] else ["wrapper-bin"]) ∧
  (vm_Name m ∈ ["pod-token"; "wrapper-config"] → vm_ReadOnly m = true).
Proof.
  unfold BuildPod. cbn [kp_Spec ps_InitContainers ps_Containers]. intros Hc Hm.
  apply elem_of_app in Hc as [Hc|Hc].
  - destruct (String.eqb (po_WrapperImage opts) ""); cbn [negb] in Hc; [by apply not_elem_of_nil in Hc|].
    apply list_elem_of_singleton in Hc as ->. cbn [ct_Mounts] in Hm. apply list_elem_of_singleton in Hm as ->. split.
    + rewrite !elem_of_app. right. right. right. by left.
    + cbn. by intros [?|[?|?%not_elem_of_nil]%elem_of_cons]%elem_of_cons.
  - apply list_elem_of_singleton in Hc as ->. cbn [ct_Mounts] in Hm. rewrite !elem_of_app in Hm.
    destruct Hm as [Hm|[Hm|[Hm|Hm]]].
    + rewrite elem_of_app. rewrite !elem_of_cons in Hm.
      destruct Hm as [->|[->|[->|Hm%not_elem_of_nil]]]; [| | |done]; cbn [mount_rw mount_ro vm_Name vm_ReadOnly];
        (split; [left; apply (bool_decide_unpack _); vm_compute; exact I|]); try done.
      intros [?|[?|?%not_elem_of_nil]%elem_of_cons]%elem_of_cons; done.
    + destruct (ss_WritableTmp _); [|by apply not_elem_of_nil in Hm]. apply list_elem_of_singleton in Hm as ->. split.
      * rewrite !elem_of_app. right. left. by left.
      * cbn. by intros [?|[?|?%not_elem_of_nil]%elem_of_cons]%elem_of_cons.
    + apply list_elem_of_fmap in Hm as (np & -> & Hnp). apply elem_of_lookup_imap_1 in Hnp as (i & p & -> & Hi). split.
      * rewrite !elem_of_app. right. right. left. cbn [mount_rw vm_Name fst].
        apply elem_of_lookup_imap. eauto.
      * cbn. by intros [?|[?|?%not_elem_of_nil]%elem_of_cons]%elem_of_cons.
    + destruct (String.eqb (po_WrapperImage opts) ""); cbn [negb] in Hm; [by apply not_elem_of_nil in Hm|].
      apply list_elem_of_singleton in Hm as ->. split; [|done]. rewrite !elem_of_app. right. right. right. by left.
Qed.

(** Every session pod satisfies the restricted pod security profile and is a
    valid pod: whatever the server type says, each of its containers runs as
    non-root without privilege escalation, with all capabilities dropped and
    the runtime's seccomp profile; no service account token is mounted; the
    token and configuration are mounted read-only; volume names are distinct and
    every mount refers to one of them; in proxy mode the pod has no resolver. *)
Theorem BuildPod_restricted sess st opts :
  let pod := BuildPod sess st opts in
  let spec := kp_Spec pod in
  ps_AutomountServiceAccountToken spec = false ∧ psc_RunAsNonRoot (ps_SecurityContext spec) = true ∧
  kp_Labels pod !! LabelSessionID = Some (sess_Name sess) ∧
  NoDup (v_Name <$> ps_Volumes spec) ∧
  (po_DisableDNS opts = true → ps_DNSPolicy spec = "None" ∧ ps_Nameservers spec = Some []) ∧
  ∀ c, c ∈ ps_InitContainers spec ++ ps_Containers spec →
    sc_RunAsNonRoot (ct_Security c) = true ∧ sc_AllowPrivilegeEscalation (ct_Security c) = false ∧
    sc_DropCapabilities (ct_Security c) = ["ALL"] ∧ sc_Seccomp (ct_Security c) = "RuntimeDefault" ∧
    ∀ m, m ∈ ct_Mounts c →
      vm_Name m ∈ v_Name <$> ps_Volumes spec ∧
      (vm_Name m ∈ ["pod-token"; "wrapper-config"] → vm_ReadOnly m = true).
Proof.
  cbv zeta. split_and!; [done|done|done| | |].
  - rewrite BuildPod_volume_names. apply BuildPod_names_NoDup.
  - intros H. cbn. by rewrite H.
  - intros c Hc. split_and!.
    1-4: apply BuildPod_security in Hc; by rewrite Hc.
    intros m Hm. rewrite BuildPod_volume_names. by eapply BuildPod_mounts.
Qed.

(** ** The reaper *)

(** What the reaper needs of a routing table: a view of the in-flight count and
    the last activity of every pod, which the reaper's own calls leave alone,
    except for the pod it deletes. *)
Class Activity (T : Type) `{!RoutingTable T} := {
  ac_ok : T → Prop;
  ac_inflight : string → T → Z;
  ac_last : string → T → option Z;
  ac_InFlight : ∀ n t, ac_ok t → ∃ t', InFlight n 0 t = (Ok (ac_inflight n t), t') ∧ ac_ok t' ∧
    ∀ m, ac_inflight m t' = ac_inflight m t ∧ ac_last m t' = ac_last m t;
  ac_LastActive : ∀ n t, ac_ok t → ∃ r t', LastActive n t = (r, t') ∧ ac_ok t' ∧
    match r with Ok l => ac_last n t = Some l | Err _ => ac_last n t = None end ∧
    ∀ m, ac_inflight m t' = ac_inflight m t ∧ ac_last m t' = ac_last m t;
  ac_DeleteSessions : ∀ n t, ac_ok t → ac_ok (DeleteSessionsForPod n t).2 ∧
    ∀ m, ac_inflight m (DeleteSessionsForPod n t).2 = ac_inflight m t ∧ ac_last m (DeleteSessionsForPod n t).2 = ac_last m t;
  ac_DeletePod : ∀ k t, ac_ok t → ac_ok (DeletePod k t).2 ∧
    ∀ m, m ≠ PodKey_Name k → ac_inflight m (DeletePod k t).2 = ac_inflight m t ∧ ac_last m (DeletePod k t).2 = ac_last m t }.

Section ReaperProofs.
Context {K O T : Type} {api : KubeAPI K O} {laws : KubeLaws K O} {tbl : RoutingTable T} {act : Activity T}.
Variables (HardGrace now : Z) (types : gmap string ServerType).

Definition sess_key (s : Session) : PodKey := mkPodKey (spec_Subject (sess_Spec s)) (spec_ServerType (sess_Spec s)).

(** The rule the reaper documents: over the hard age, over the age with nothing
    in flight, or idle with nothing in flight; and sessions that failed or whose
    server type is gone. *)
Definition due (inflight : Z) (last : option Z) (s : Session) : Prop :=
  spec_DesiredPhase (sess_Spec s) ≠ PhaseTerminating ∧ sess_DeletionTimestamp s = None ∧
  match types !! spec_ServerType (sess_Spec s) with
  | None => True
  | Some st =>
      match stat_Phase (sess_Status s) with
      | PhaseFailed => True
      | PhaseReady | PhaseIdle =>
          let age := now - sess_CreationTimestamp s in
          let idle := now - default (default (sess_CreationTimestamp s) (stat_ReadyAt (sess_Status s))) last in
          sts_MaxSessionAge (st_Spec st) + HardGrace < age ∨
          (inflight = 0 ∧ (sts_MaxSessionAge (st_Spec st) < age ∨ sts_IdleTimeout (st_Spec st) < idle))
      | _ => False
      end
  end.

(** The spec of a session after the sweep. *)
Definition marked (s : Session) : SessionSpec := set_DesiredPhase PhaseTerminating (sess_Spec s).

(** What one iteration does, relative to the world before it. *)
Definition one_step (s : Session) (d : Prop) (w w' : K * T * list (string * string)) : Prop :=
  ac_ok w'.1.2 ∧
  (∀ m, m ≠ sess_Name s → ac_inflight m w'.1.2 = ac_inflight m w.1.2 ∧ ac_last m w'.1.2 = ac_last m w.1.2) ∧
  (∀ m, m ≠ sess_Name s → K_getSession m w'.1.1 = K_getSession m w.1.1) ∧
  ((d ∧ (∃ s', K_getSession (sess_Name s) w'.1.1 = Ok s' ∧ sess_Spec s' = marked s) ∧
    ∃ reason, w'.2 = w.2 ++ [(sess_Name s, reason)]) ∨
   (¬ d ∧ (∃ s', K_getSession (sess_Name s) w'.1.1 = Ok s' ∧ sess_Spec s' = sess_Spec s) ∧ w'.2 = w.2)).

Hypothesis api_accepts : ∀ s k, (K_updateSession s k).1 = Ok ().

Lemma terminate_step s reason (k : K) (t : T) log :
  ac_ok t → sess_Name s = PodKey_Name (sess_key s) → K_getSession (sess_Name s) k = Ok s → sess_DeletionTimestamp s = None →
  let w' := terminate s reason (k, t, log) in
  ac_ok w'.1.2 ∧
  (∀ m, m ≠ sess_Name s → ac_inflight m w'.1.2 = ac_inflight m t ∧ ac_last m w'.1.2 = ac_last m t) ∧
  (∀ m, m ≠ sess_Name s → K_getSession m w'.1.1 = K_getSession m k) ∧
  (∃ s', K_getSession (sess_Name s) w'.1.1 = Ok s' ∧ sess_Spec s' = marked s) ∧ w'.2 = log ++ [(sess_Name s, reason)].
Proof.
  intros Hok Hn Hg Hd. unfold terminate. set (s1 := with_spec _ s).
  pose proof (api_accepts s1 k) as Ha. destruct (K_updateSession s1 k) as [r k'] eqn:Eu. cbn in Ha. subst r. cbn zeta match.
  destruct (ac_DeleteSessions (sess_Name s) t Hok) as [Hok1 Hv1].
  set (t1 := (DeleteSessionsForPod (sess_Name s) t).2) in *.
  destruct (ac_DeletePod (sess_key s) t1 Hok1) as [Hok2 Hv2]. cbn [fst snd]. split_and!.
  - done.
  - intros m Hm. rewrite Hn in Hm. destruct (Hv1 m), (Hv2 m Hm). split; etrans; done.
  - intros m Hm. pose proof (kl_update_ne s1 m k Hm) as H. by rewrite Eu in H.
  - eexists. split; [by apply (kl_update s1 s k k')|done].
  - done.
Qed.
Lemma one_step_iff s (d d' : Prop) w w' : (d ↔ d') → one_step s d w w' → one_step s d' w w'.
Proof. intros Hd (H1 & H2 & H3 & H4). split_and!; [done..|]. destruct H4; [left|right]; tauto. Qed.

(** A step that terminates from a state the table's reads have led to. *)
Lemma terminate_one s reason (d : Prop) (k : K) (t t0 : T) log :
  d → ac_ok t → (∀ m, ac_inflight m t = ac_inflight m t0 ∧ ac_last m t = ac_last m t0) →
  sess_Name s = PodKey_Name (sess_key s) → K_getSession (sess_Name s) k = Ok s → sess_DeletionTimestamp s = None →
  one_step s d (k, t0, log) (terminate s reason (k, t, log)).
Proof.
  intros Hd Hok Hv Hn Hg Hdel. destruct (terminate_step s reason k t log Hok Hn Hg Hdel) as (H1 & H2 & H3 & H4 & H5).
  split_and!; [done| |done|left; split_and!; eauto].
  intros m Hm. destruct (H2 m Hm), (Hv m). split; etrans; done.
Qed.

Lemma keep_one s (d : Prop) (k k' : K) (t t0 : T) log :
  ¬ d → ac_ok t → (∀ m, ac_inflight m t = ac_inflight m t0 ∧ ac_last m t = ac_last m t0) →
  (∀ m, m ≠ sess_Name s → K_getSession m k' = K_getSession m k) →
  (∃ s', K_getSession (sess_Name s) k' = Ok s' ∧ sess_Spec s' = sess_Spec s) →
  one_step s d (k, t0, log) (k', t, log).
Proof. intros Hd Hok Hv Hm Hs. split_and!; [done|auto|auto|right; auto]. Qed.

Lemma status_keeps_spec s s0 (k : K) :
  K_getSession (sess_Name s) k = Ok s0 →
  ∃ s', K_getSession (sess_Name s) (K_statusSession s k).2 = Ok s' ∧ sess_Spec s' = sess_Spec s0.
Proof.
  intros Hg. destruct (K_statusSession s k) as [[[]|e] k'] eqn:E.
  - eexists. split; [by eapply kl_status|done].
  - destruct (kl_status_err s s0 k e k' Hg E); eauto.
Qed.

(** The branch for a running session, after its in-flight count was read. *)
Lemma sweepOne_running s st (k : K) (t t1 : T) log :
  let inflight := ac_inflight (sess_Name s) t in
  let age := now - sess_CreationTimestamp s in
  let ready := default (sess_CreationTimestamp s) (stat_ReadyAt (sess_Status s)) in
  let maxAge := sts_MaxSessionAge (st_Spec st) in
  ac_ok t1 → (∀ m, ac_inflight m t1 = ac_inflight m t ∧ ac_last m t1 = ac_last m t) →
  sess_Name s = PodKey_Name (sess_key s) → K_getSession (sess_Name s) k = Ok s → sess_DeletionTimestamp s = None →
  one_step s
    (maxAge + HardGrace < age ∨
     (inflight = 0 ∧ (maxAge < age ∨ sts_IdleTimeout (st_Spec st) < now - default ready (ac_last (sess_Name s) t))))
    (k, t, log)
    (if maxAge + HardGrace <? age then terminate s "max age (hard)" (k, t1, log)
     else if (maxAge <? age) && (inflight =? 0) then terminate s "max age" (k, t1, log)
     else
       let '(rl, t2) := LastActive (sess_Name s) t1 in
       let last := match rl with Ok l => l | Err _ => ready end in
       let idle := now - last in
       if (sts_IdleTimeout (st_Spec st) <? idle) && (inflight =? 0) then terminate s "idle" (k, t2, log)
       else if (sts_IdleTimeout (st_Spec st) <? idle) && negb (bool_decide (stat_Phase (sess_Status s) = PhaseIdle)) then
         ((K_statusSession (with_status (set_Phase PhaseIdle (sess_Status s)) s) k).2, t2, log)
       else (k, t2, log)).
Proof.
  intros inflight age ready maxAge Hok1 Hv1 Hn Hg Hdel.
  destruct (Z.ltb_spec (maxAge + HardGrace) age); [apply terminate_one; auto|].
  destruct ((maxAge <? age) && (inflight =? 0)) eqn:Ea; [bprop; apply terminate_one; auto|].
  assert (¬ (inflight = 0 ∧ maxAge < age)) as Hage.
  { intros [H1 H2]. apply andb_false_iff in Ea as [Ea|Ea]; bprop; lia. }
  destruct (ac_LastActive (sess_Name s) t1 Hok1) as (r & t2 & -> & Hok2 & Hr & Hv2). cbv zeta.
  assert (match r with Ok l => l | Err _ => ready end = default ready (ac_last (sess_Name s) t)) as ->.
  { destruct (Hv1 (sess_Name s)) as [_ <-]. destruct r; by rewrite Hr. }
  assert (∀ m, ac_inflight m t2 = ac_inflight m t ∧ ac_last m t2 = ac_last m t) as Hv.
  { intros m. destruct (Hv1 m), (Hv2 m). split; etrans; done. }
  set (idle := now - _). destruct ((sts_IdleTimeout (st_Spec st) <? idle) && (inflight =? 0)) eqn:Ei;
    [bprop; apply terminate_one; auto|].
  assert (¬ (inflight = 0 ∧ sts_IdleTimeout (st_Spec st) < idle)) as Hidle.
  { intros [H1 H2]. apply andb_false_iff in Ei as [Ei|Ei]; bprop; lia. }
  destruct (_ && negb _); apply keep_one; eauto; try (intros [?|[? [?|?]]]; [lia|tauto..]).
  - intros m Hm. by apply kl_status_ne.
  - by apply (status_keeps_spec (with_status (set_Phase PhaseIdle (sess_Status s)) s)).
Qed.

Lemma sweepOne_step s (k : K) (t : T) log :
  ac_ok t → sess_Name s = PodKey_Name (sess_key s) → K_getSession (sess_Name s) k = Ok s →
  one_step s (due (ac_inflight (sess_Name s) t) (ac_last (sess_Name s) t) s) (k, t, log)
    (sweepOne HardGrace now types s (k, t, log)).
Proof.
  intros Hok Hn Hg. unfold sweepOne, due.
  destruct (decide (spec_DesiredPhase (sess_Spec s) = PhaseTerminating)) as [Hdp|Hdp].
  { rewrite bool_decide_eq_true_2 by done. apply keep_one; eauto. by intros [? _]. }
  rewrite bool_decide_eq_false_2 by done. cbn [orb].
  destruct (sess_DeletionTimestamp s) as [d|] eqn:Hdel.
  { rewrite bool_decide_eq_true_2 by eauto. apply keep_one; eauto. by intros (_ & ? & _). }
  rewrite bool_decide_eq_false_2 by (by intros [? ?]).
  destruct (types !! _) as [st|]; [|by apply terminate_one; eauto].
  destruct (stat_Phase (sess_Status s)) eqn:Eph; try (apply keep_one; [tauto|eauto..]; fail);
    try (apply terminate_one; eauto; fail).
  all: destruct (ac_InFlight (sess_Name s) t Hok) as (t1 & -> & Hok1 & Hv1); cbv zeta; cbn match.
  all: pose proof (sweepOne_running s st k t t1 log Hok1 Hv1 Hn Hg Hdel) as H; cbv zeta in H; rewrite ?Eph in H.
  all: eapply one_step_iff; [|exact H]; rewrite ?Hdel; tauto.
Qed.
(** The listing as the sweep finds it: distinct sessions, named after their keys,
    each the object the API server holds. *)
Record listed (l : list Session) (k : K) : Prop := {
  li_NoDup : NoDup (sess_Name <$> l);
  li_named : ∀ s, s ∈ l → sess_Name s = PodKey_Name (sess_key s);
  li_stored : ∀ s, s ∈ l → K_getSession (sess_Name s) k = Ok s }.

Lemma sweep_fold l k t log k' t' log' :
  ac_ok t → listed l k → fold_left (λ w s, sweepOne HardGrace now types s w) l (k, t, log) = (k', t', log') →
  (∀ n, n ∉ sess_Name <$> l → K_getSession n k' = K_getSession n k ∧ (n ∈ log'.*1 ↔ n ∈ log.*1)) ∧
  ∀ s, s ∈ l → ∃ s', K_getSession (sess_Name s) k' = Ok s' ∧
    let d := due (ac_inflight (sess_Name s) t) (ac_last (sess_Name s) t) s in
    (d → sess_Spec s' = marked s ∧ sess_Name s ∈ log'.*1) ∧
    (¬ d → sess_Spec s' = sess_Spec s ∧ (sess_Name s ∈ log'.*1 → sess_Name s ∈ log.*1)).
Proof.
  revert k t log. induction l as [|s l IH]; intros k t log Hok [Hnd Hnm Hst]; cbn [fold_left].
  { intros [= <- <- <-]. split; [done|]. by intros s ?%not_elem_of_nil. }
  apply NoDup_cons in Hnd as [Hs Hnd].
  pose proof (sweepOne_step s k t log Hok (Hnm s ltac:(by left)) (Hst s ltac:(by left))) as (Hok1 & Hv & Hg & Hone).
  destruct (sweepOne HardGrace now types s (k, t, log)) as [[k1 t1] log1]. cbn [fst snd] in *. intros Hf.
  apply IH in Hf as [Hout Hin]; [|done|].
  2:{ split; [done|intros; apply Hnm; by right|]. intros s0 Hs0. rewrite Hg; [apply Hst; by right|].
      intros E. apply Hs. rewrite <- E. by apply list_elem_of_fmap_2. }
  assert (∀ n, n ≠ sess_Name s → (n ∈ log1.*1 ↔ n ∈ log.*1)) as Hlog.
  { intros n Hn. destruct Hone as [(_ & _ & reason & ->)|(_ & _ & ->)]; [|done].
    rewrite fmap_app, elem_of_app. cbn. rewrite list_elem_of_singleton. tauto. }
  split.
  - intros n Hn. csimpl in Hn. rewrite not_elem_of_cons in Hn. destruct Hn as [Hn1 Hn2]. destruct (Hout n Hn2) as [H1 H2].
    rewrite H1, H2, Hlog by done. split; [by apply Hg|done].
  - intros s0 [->|Hs0]%elem_of_cons.
    + destruct (Hout _ Hs) as [H1 H2]. destruct Hone as [(Hd & (s' & Hs' & Hsp) & reason & Hl)|(Hd & (s' & Hs' & Hsp) & Hl)];
        exists s'; rewrite H1, H2, Hl; split_and!; try done.
      intros _. split; [done|]. rewrite fmap_app, elem_of_app. right. by left.
    + assert (sess_Name s0 ≠ sess_Name s) as Hne. { intros E. apply Hs. rewrite <- E. by apply list_elem_of_fmap_2. }
      destruct (Hin s0 Hs0) as (s' & Hs' & H1 & H2). destruct (Hv _ Hne) as [<- <-].
      exists s'. split; [done|]. split; [done|]. intros Hd. rewrite <- (Hlog _ Hne). by apply H2.
Qed.
End ReaperProofs.


(** A routing table outage ends busy sessions: when neither the in-flight
    count nor the last activity can be read, the reaper takes the session for
    unused since it became ready and terminates it once that is longer than the
    idle timeout ago, whatever it is doing. *)
Theorem sweep_outage_terminates {K O T : Type} {api : KubeAPI K O} {tbl : RoutingTable T}
    HardGrace now types s st ready (k : K) (t : T) log :
  (∀ s k, (K_updateSession s k).1 = Ok ()) →
  (∀ n t, ∃ e, (InFlight n 0 t).1 = Err e) → (∀ n t, ∃ e, (LastActive n t).1 = Err e) →
  spec_DesiredPhase (sess_Spec s) ≠ PhaseTerminating → sess_DeletionTimestamp s = None →
  types !! spec_ServerType (sess_Spec s) = Some st → stat_Phase (sess_Status s) = PhaseReady →
  stat_ReadyAt (sess_Status s) = Some ready → sts_IdleTimeout (st_Spec st) < now - ready →
  ∃ reason, (sweepOne HardGrace now types s (k, t, log)).2 = log ++ [(sess_Name s, reason)].
Proof.
  intros Hacc Hi Hl Hdp Hdel Hty Hph Hr Hidle. unfold sweepOne.
  rewrite bool_decide_eq_false_2 by done. rewrite bool_decide_eq_false_2 by (rewrite Hdel; by intros [? ?]). cbn [orb].
  rewrite Hty, Hph. destruct (Hi (sess_Name s) t) as [e He]. destruct (InFlight (sess_Name s) 0 t) as [ri t1]. cbn in He. subst ri.
  assert (∀ reason t, ∃ reason', (terminate s reason (k, t, log)).2 = log ++ [(sess_Name s, reason')]) as Hterm.
  { intros reason t'. unfold terminate. set (s1 := with_spec _ s). pose proof (Hacc s1 k) as Ha.
    destruct (K_updateSession s1 k) as [r k']. cbn in Ha. subst r. eauto. }
  cbv zeta. destruct (_ <? _); [apply Hterm|]. destruct (_ && _); [apply Hterm|].
  destruct (Hl (sess_Name s) t1) as [e' He']. destruct (LastActive (sess_Name s) t1) as [rl t2]. cbn in He'. subst rl.
  rewrite Hr. change (default (sess_CreationTimestamp s) (Some ready)) with ready.
  apply Z.ltb_lt in Hidle as ->. apply Hterm.
Qed.

(** ** The reconciler *)

Section ReconcileProofs.
Context {K O E : Type} {api : KubeAPI K O} {laws : KubeLaws K O} {ee : EgressEnforcer E O}.
Variable rc : SessionReconciler.
Notation S := (K * E)%type.

Lemma applyObjects_frame objs (k : K) :
  (∀ m, K_getSession m (applyObjects objs k).2 = K_getSession m k) ∧ (∀ m, K_getPod m (applyObjects objs k).2 = K_getPod m k).
Proof.
  revert k. induction objs as [|o objs IH]; intros k; cbn [applyObjects]; [done|].
  pose proof (kl_sess_object o) as Hs. pose proof (kl_pod_object o) as Hp.
  destruct (K_applyObject o k) as [[u|e] k1] eqn:Eo.
  - destruct (IH k1) as [H1 H2]. split; intros m; [rewrite H1; specialize (Hs m k)|rewrite H2; specialize (Hp m k)]; by rewrite Eo in *.
  - split; intros m; [specialize (Hs m k)|specialize (Hp m k)]; by rewrite Eo in *.
Qed.

(** Publishing the configuration and the isolation objects touches neither
    sessions nor pods. *)
Lemma prepare_frame st sess (s s1 s2 : S) r1 r2 :
  ensureWrapperConfigMap rc st s.1 = (r1, s1.1) → s1.2 = s.2 → applyIsolation rc sess st s1 = (r2, s2) →
  (∀ m, K_getSession m s2.1 = K_getSession m s.1) ∧ (∀ m, K_getPod m s2.1 = K_getPod m s.1) ∧ s2.2 = s.2.
Proof.
  intros Hc He Hi. unfold ensureWrapperConfigMap in Hc.
  assert ((∀ m, K_getSession m s1.1 = K_getSession m s.1) ∧ ∀ m, K_getPod m s1.1 = K_getPod m s.1) as [H1 H2].
  { match type of Hc with K_applyConfigMap ?n ?l ?d ?k = _ =>
      pose proof (λ m, kl_sess_config n l d m k) as Hs; pose proof (λ m, kl_pod_config n l d m k) as Hp end.
    by rewrite Hc in Hs, Hp. }
  unfold applyIsolation in Hi. destruct (negb (sr_Egress rc)); [by injection Hi as <- <-|].
  destruct (EE_Validate st s1.2); [|by injection Hi as <- <-].
  destruct (EE_Objects sess st s1.2) as [objs|]; [|by injection Hi as <- <-].
  pose proof (applyObjects_frame objs s1.1) as [H3 H4]. destruct (applyObjects objs s1.1) as [r k]. injection Hi as <- <-.
  cbn [fst snd] in *. split_and!; [intros m; by rewrite H3, H1|intros m; by rewrite H4, H2|done].
Qed.

(** The session is there and not Ready. *)
Definition unready (name : string) (k : K) : Prop :=
  ∃ s, K_getSession name k = Ok s ∧ stat_Phase (sess_Status s) ≠ PhaseReady.
Definition not_made_ready (name : string) (k : K) : Prop :=
  ∀ s, K_getSession name k = Ok s → stat_Phase (sess_Status s) ≠ PhaseReady.

Lemma unready_not_made_ready name k : unready name k → not_made_ready name k.
Proof. intros (s & Hs & Hp) s' Hs'. congruence. Qed.

Lemma unready_eq name (k k' : K) : (∀ m, K_getSession m k' = K_getSession m k) → unready name k → unready name k'.
Proof. intros Heq (s & Hs & Hp). exists s. by rewrite Heq. Qed.

Lemma unready_status s (k : K) :
  unready (sess_Name s) k → stat_Phase (sess_Status s) ≠ PhaseReady → unready (sess_Name s) (K_statusSession s k).2.
Proof.
  intros (s0 & Hs & Hp) Hph. destruct (K_statusSession s k) as [[[]|e] k'] eqn:Est.
  - exists (with_status (sess_Status s) s0). split; [by apply (kl_status s s0 k k')|done].
  - destruct (kl_status_err s s0 k e k' Hs Est) as [H|H]; eexists; (split; [exact H|done]).
Qed.

Lemma unready_fail sess msg (s : S) : unready (sess_Name sess) s.1 → unready (sess_Name sess) (fail sess msg s).2.1.
Proof.
  intros Hu. unfold fail. set (s1 := with_status _ sess). pose proof (unready_status s1 s.1 Hu) as H.
  destruct (K_statusSession s1 s.1) as [r k]. by apply H.
Qed.

Lemma cleanup_session sess (k : K) m : K_getSession m (cleanup sess k).2 = K_getSession m k.
Proof.
  unfold cleanup. pose proof (kl_sess_deletePod (sess_Name sess) m k) as H1.
  destruct (K_deletePod (sess_Name sess) k) as [r k1]. cbn in H1. rewrite <- H1. clear H1.
  destruct (match r with Ok _ => _ | Err _ => _ end); [|done]. destruct (String.eqb _ _); [done|].
  pose proof (kl_sess_deleteSecret (spec_PodTokenSecretName (sess_Spec sess)) m k1) as H2.
  by destruct (K_deleteSecret _ k1).
Qed.

Lemma reconcileDeletion_not_ready sess (s : S) :
  unready (sess_Name sess) s.1 → not_made_ready (sess_Name sess) (reconcileDeletion rc sess s).2.1.
Proof.
  intros Hu. unfold reconcileDeletion. set (sess1 := with_status (set_Phase PhaseTerminating (sess_Status sess)) sess).
  set (k1 := if bool_decide _ then _ else _).
  assert (unready (sess_Name sess) k1) as Hu1.
  { unfold k1. destruct (bool_decide _); [done|]. by apply (unready_status sess1). }
  pose proof (unready_eq (sess_Name sess) k1 _ (cleanup_session sess1 k1) Hu1) as Hu2.
  destruct (cleanup sess1 k1) as [[[]|e] k2]; cbn [snd fst] in *; [|by apply unready_not_made_ready].
  destruct (if sr_Egress rc then _ else _) as [[[]|er] e1]; cbn [fst snd]; [|by apply unready_not_made_ready].
  destruct Hu2 as (s0 & Hs0 & Hp0). destruct (sess_DeletionTimestamp sess1).
  - destruct (contains _ _); [|intros s1 Hs1; cbn in Hs1; congruence].
    set (s3 := with_finalizers _ _). pose proof (kl_update_status s3 (sess_Name sess) k2) as H.
    destruct (K_updateSession s3 k2) as [r k3]. cbn in *. intros s1 Hs1. destruct (H s1 Hs1) as (s4 & Hs4 & ->). congruence.
  - pose proof (kl_delete_status (sess_Name sess1) (sess_Name sess) k2) as H.
    destruct (K_deleteSession (sess_Name sess1) k2) as [r k3]. cbn in *. intros s1 Hs1.
    destruct (H s1 Hs1) as (s4 & Hs4 & ->). congruence.
Qed.

Lemma IssueForPod_session pki secName data podName ttl (k : K) m :
  K_getSession m (IssueForPod pki secName data podName ttl k).2 = K_getSession m k.
Proof.
  unfold IssueForPod. destruct (data !! _); [done|]. destruct (pki_IssueServer _ _ _) as [[[? ?] ?]|]; [|done].
  apply kl_sess_updateSecret.
Qed.

Lemma reconcileCreate_unready now sess st (s : S) :
  unready (sess_Name sess) s.1 → unready (sess_Name sess) (reconcileCreate rc now sess st s).2.1.
Proof.
  intros Hu. unfold reconcileCreate. destruct (_ || _); [by apply unready_fail|].
  set (newPod := BuildPod _ _ _). cbv zeta.
  assert (∀ k, unready (sess_Name sess) k → unready (sess_Name sess) (markStarting now sess st (kp_Name newPod) (k, s.2)).2.1) as Hst.
  { intros k Hk. unfold markStarting. set (s1 := with_status _ sess). pose proof (unready_status s1 k Hk) as H. cbn [fst].
    destruct (K_statusSession s1 k). by apply H. }
  assert (∀ k, unready (sess_Name sess) k →
    unready (sess_Name sess) (match K_createPod newPod k with
      | (Ok _, k) => markStarting now sess st (kp_Name newPod) (k, s.2)
      | (Err e, k) => if bool_decide (e = ErrAlreadyExists) then markStarting now sess st (kp_Name newPod) (k, s.2)
                      else fail sess "create pod" (k, s.2) end).2.1) as Hcr.
  { intros k Hk. pose proof (unready_eq (sess_Name sess) k _ (λ m, kl_sess_createPod newPod m k) Hk) as H.
    destruct (K_createPod newPod k) as [[u|e] k1]; [by apply Hst|]. destruct (bool_decide _); [by apply Hst|by apply unready_fail]. }
  destruct (sr_PKI rc) as [pki|]; [|by apply Hcr].
  destruct (K_getSecret _ s.1) as [data|]; [|done].
  match goal with |- context [IssueForPod pki ?a ?b ?c ?d ?k] =>
    pose proof (unready_eq (sess_Name sess) k _ (IssueForPod_session pki a b c d k) Hu) as H; destruct (IssueForPod pki a b c d k) as [[u|e] k1] end;
    [by apply Hcr|by apply unready_fail].
Qed.

Lemma starting_unready sess (s : S) :
  unready (sess_Name sess) s.1 →
  unready (sess_Name sess)
    (if bool_decide (stat_Phase (sess_Status sess) = PhaseStarting) then (mkRresult Second None, s)
     else let '(r, k) := K_statusSession (with_status (set_Phase PhaseStarting (sess_Status sess)) sess) s.1 in
          (mkRresult Second (res_err r), (k, s.2))).2.1.
Proof.
  intros Hu. destruct (bool_decide _); [done|]. set (s1 := with_status _ sess).
  pose proof (unready_status s1 s.1 Hu) as H. destruct (K_statusSession s1 s.1) as [r k]. by apply H.
Qed.

(** [reconcilePod] makes a session Ready only for a pod that is ready and has an
    address, after the egress enforcer accepted it. *)
Lemma reconcilePod_ready now sess st pod (s : S) s' :
  K_getSession (sess_Name sess) s.1 = Ok sess → stat_Phase (sess_Status sess) ≠ PhaseReady →
  K_getSession (sess_Name sess) (reconcilePod rc now sess st pod s).2.1 = Ok s' → stat_Phase (sess_Status s') = PhaseReady →
  podReady pod = true ∧ podFatal pod = None ∧ kst_PodIP (kp_Status pod) ≠ "" ∧
  stat_PodIP (sess_Status s') = kst_PodIP (kp_Status pod) ∧
  stat_Endpoint (sess_Status s') = (match sr_PKI rc with Some _ => "https" | None => "http" end)
    +:+ "://" +:+ kst_PodIP (kp_Status pod) +:+ ":" +:+ Itoa (sts_WrapperPort (st_Spec st)) ∧
  (sr_Egress rc = true → ∃ s1, (EE_OnReady s1 st (kst_PodIP (kp_Status pod)) s.2).1 = Ok ()).
Proof.
  intros Hg Hph. assert (unready (sess_Name sess) s.1) as Hu by by exists sess.
  assert (∀ k, unready (sess_Name sess) k → K_getSession (sess_Name sess) k = Ok s' →
    stat_Phase (sess_Status s') = PhaseReady → False) as Hno by (intros k H%unready_not_made_ready Hk; by apply H).
  unfold reconcilePod. destruct (podFatal pod) as [msg|].
  { intros H1 H2. exfalso. eapply Hno; [|done..]. by apply unready_fail. }
  destruct (podReady pod); cbn [andb].
  2:{ intros H1 H2. exfalso. eapply Hno; [|done..]. by apply starting_unready. }
  destruct (String.eqb_spec (kst_PodIP (kp_Status pod)) "") as [|Hip]; cbn [negb].
  { intros H1 H2. exfalso. eapply Hno; [|done..]. by apply starting_unready. }
  rewrite bool_decide_eq_false_2 by done. cbv zeta. set (s1 := with_status _ sess).
  destruct (if sr_Egress rc then _ else _) as [[[]|er] e] eqn:Ee.
  2:{ intros H1 H2. exfalso. by eapply Hno. }
  destruct (K_statusSession s1 s.1) as [r k] eqn:Es. cbn [fst snd]. intros H1 H2.
  assert (s' = with_status (sess_Status s1) sess) as ->.
  { destruct r as [[]|er].
    - pose proof (kl_status s1 sess s.1 k Hg Es) as H. change (sess_Name s1) with (sess_Name sess) in H. congruence.
    - destruct (kl_status_err s1 sess s.1 er k Hg Es) as [H|H]; change (sess_Name s1) with (sess_Name sess) in H; congruence. }
  split_and!; try done. intros He. rewrite He in Ee. exists s1. by rewrite Ee.
Qed.


Lemma cleanup_ok sess (k k' : K) :
  cleanup sess k = (Ok (), k') →
  match K_getPod (sess_Name sess) k' with Ok p => kp_Deleting p = true | Err _ => True end ∧
  (spec_PodTokenSecretName (sess_Spec sess) ≠ "" → ∃ e, K_getSecret (spec_PodTokenSecretName (sess_Spec sess)) k' = Err e).
Proof.
  unfold cleanup. destruct (K_deletePod (sess_Name sess) k) as [r k1] eqn:Ep.
  assert (∀ r : result (), match r with Err e => if IsNotFound e then Ok () else Err e | ok => ok end = Ok () →
    match r with Ok _ => True | Err e => IsNotFound e = true end) as Htol.
  { intros [[]|e]; [done|]. by destruct (IsNotFound e). }
  destruct (match r with Ok _ => _ | Err _ => _ end) as [[]|] eqn:Er; [|done].
  apply Htol in Er. pose proof (kl_delete_pod _ _ _ _ Ep Er) as Hp.
  destruct (String.eqb_spec (spec_PodTokenSecretName (sess_Spec sess)) "") as [Hsec|Hsec].
  { intros [= <-]. split; [done|]. by intros ?. }
  pose proof (kl_pod_deleteSecret (spec_PodTokenSecretName (sess_Spec sess)) (sess_Name sess) k1) as Hf.
  destruct (K_deleteSecret _ k1) as [r2 k2] eqn:Es. intros [= Er2 <-]. apply Htol in Er2. cbn in Hf. rewrite Hf.
  split; [done|]. intros _. by eapply kl_delete_secret.
Qed.

(** Cleaning up comes before letting go: a reconcile of a session that is
    being deleted or was marked Terminating reports success only after the
    deletion of its pod was accepted, its token secret is gone and the egress
    enforcer dropped its policy; any failure before that is returned and the
    session object stays for the retry. *)
Theorem Reconcile_deletion_cleans now name sess (s : S) :
  K_getSession name s.1 = Ok sess →
  (is_Some (sess_DeletionTimestamp sess) ∨ spec_DesiredPhase (sess_Spec sess) = PhaseTerminating) →
  rr_Err (Reconcile rc now name s).1 = None →
  let s' := (Reconcile rc now name s).2 in
  match K_getPod name s'.1 with Ok p => kp_Deleting p = true | Err _ => True end ∧
  (spec_PodTokenSecretName (sess_Spec sess) ≠ "" → ∃ e, K_getSecret (spec_PodTokenSecretName (sess_Spec sess)) s'.1 = Err e) ∧
  (sr_Egress rc = true → ∃ s1, sess_Name s1 = name ∧ EE_OnCleanup s1 s.2 = (Ok (), s'.2)).
Proof.
  intros Hg Hd. pose proof (kl_get_name name s.1 sess Hg) as <-. unfold Reconcile. rewrite Hg.
  assert (bool_decide (is_Some (sess_DeletionTimestamp sess))
    || bool_decide (spec_DesiredPhase (sess_Spec sess) = PhaseTerminating) = true) as ->.
  { apply orb_true_iff. by rewrite !bool_decide_eq_true. }
  unfold reconcileDeletion. set (k1 := if bool_decide _ then _ else _). clearbody k1.
  set (sess1 := with_status _ sess). destruct (cleanup sess1 k1) as [[[]|e] k2] eqn:Ec; [|done].
  apply cleanup_ok in Ec as [Hp Hs]. change (sess_Name sess1) with (sess_Name sess) in *.
  change (sess_Spec sess1) with (sess_Spec sess) in *.
  destruct (if sr_Egress rc then _ else _) as [[[]|er] e1] eqn:Ee; [|done].
  assert (sr_Egress rc = true → ∃ s1, sess_Name s1 = sess_Name sess ∧ EE_OnCleanup s1 s.2 = (Ok (), e1)) as He.
  { intros H. rewrite H in Ee. by exists sess1. }
  destruct (sess_DeletionTimestamp sess1) as [d|].
  - destruct (contains _ _); [|done]. set (s3 := with_finalizers _ _).
    pose proof (kl_pod_update s3 (sess_Name sess) k2) as H1.
    pose proof (kl_secret_update s3 (spec_PodTokenSecretName (sess_Spec sess)) k2) as H2.
    destruct (K_updateSession s3 k2) as [r k3]. cbn in *. rewrite H1, H2. done.
  - pose proof (kl_pod_delete (sess_Name sess) (sess_Name sess) k2) as H1.
    pose proof (kl_secret_delete (sess_Name sess) (spec_PodTokenSecretName (sess_Spec sess)) k2) as H2.
    destruct (K_deleteSession (sess_Name sess) k2) as [r k3]. cbn in *. rewrite H1, H2. done.
Qed.

(** A session that already failed because its pod vanished is given a new pod by
    the next reconcile: only Ready and Idle sessions count as over. *)
Lemma reconcileCreate_failed_recreates now sess st (s : S) :
  stat_Phase (sess_Status sess) = PhaseFailed → sr_PKI rc = None →
  (K_createPod (BuildPod sess st (sr_Options rc)) s.1).1 = Ok () →
  (reconcileCreate rc now sess st s).2 =
    (markStarting now sess st (sess_Name sess) ((K_createPod (BuildPod sess st (sr_Options rc)) s.1).2, s.2)).2.
Proof.
  intros Hph Hpki Hc. unfold reconcileCreate. rewrite Hph, Hpki. cbn [bool_decide orb]. cbv zeta.
  destruct (K_createPod _ s.1) as [r k]. cbn in Hc. by subst r.
Qed.
End ReconcileProofs.

(** ** The in-process table answers the reaper *)

(** Pods stored by the session manager carry the name of their key. *)
Definition memory_named (m : Memory.Memory) : Prop :=
  ∀ k p, Memory.pods m !! k = Some p → pod_Name p = PodKey_Name k.

Lemma memory_InFlight0 n (m : Memory.Memory) :
  Memory.ok m → ∃ m', Memory.InFlight n 0 m = (Ok (default 0 (Memory.inflight m !! n)), m') ∧
    Memory.pods m' = Memory.pods m ∧ Memory.active m' = Memory.active m ∧
    (∀ n', default 0 (Memory.inflight m' !! n') = default 0 (Memory.inflight m !! n')) ∧ Memory.ok m'.
Proof.
  intros Hok. pose proof (Memory.ok_InFlight n 0 m Hok) as Hok'. unfold Memory.InFlight in *. rewrite Z.add_0_r in *.
  assert (0 ≤ default 0 (Memory.inflight m !! n)) as H0.
  { destruct (Memory.inflight m !! n) as [z|] eqn:Ez; [by apply (Memory.ok_inflight m Hok n)|cbn; lia]. }
  destruct (Z.ltb_spec (default 0 (Memory.inflight m !! n)) 0); [lia|]. eexists. split; [reflexivity|].
  split_and!; [done..| |done]. intros n'. cbn. rewrite lookup_insert. by case_decide; subst.
Qed.

Lemma memory_DeletePod_frame k (m : Memory.Memory) n :
  memory_named m → n ≠ PodKey_Name k →
  Memory.inflight (Memory.DeletePod k m).2 !! n = Memory.inflight m !! n ∧
  Memory.active (Memory.DeletePod k m).2 !! n = Memory.active m !! n.
Proof.
  intros Hn Hne. unfold Memory.DeletePod. destruct (Memory.pods m !! k) as [p|] eqn:Ek; cbn; [|done].
  apply Hn in Ek. rewrite !lookup_delete_ne by congruence. done.
Qed.

Lemma memory_named_DeletePod k m : memory_named m → memory_named (Memory.DeletePod k m).2.
Proof.
  intros Hn k' p. unfold Memory.DeletePod. destruct (Memory.pods m !! k); cbn;
    rewrite lookup_delete; case_decide; try done; apply Hn.
Qed.

#[export] Instance memory_activity : Activity Memory.Memory.
Proof.
  refine {| ac_ok := λ m, Memory.ok m ∧ memory_named m;
            ac_inflight := λ n m, default 0 (Memory.inflight m !! n);
            ac_last := λ n m, Memory.active m !! n |}.
  - intros n m [Hok Hn]. destruct (memory_InFlight0 n m Hok) as (m' & H1 & H2 & H3 & H4 & H5).
    exists m'. split; [done|]. split; [split; [done|by unfold memory_named; rewrite H2]|]. intros n'. by rewrite H3.
  - intros n m Hok. unfold LastActive. cbn. unfold Memory.LastActive. destruct (Memory.active m !! n) as [l|] eqn:Ea; eauto 10.
  - intros n m [[Hk Hi] Hn]. cbn. done.
  - intros k m [Hok Hn]. split.
    + split; [by apply Memory.ok_DeletePod|by apply memory_named_DeletePod].
    + intros n Hne. destruct (memory_DeletePod_frame k m n Hn Hne) as [H1 H2]. cbn in *. by rewrite H1, H2.
Defined.

(** ** Witnesses *)

Module ControllerWitness.
Import EgressWitness.

(** A small API server: every call is accepted, a deleted pod stays marked. *)
Record kstate := mkKstate {
  ks_sessions : gmap string Session; ks_types : list ServerType; ks_pods : gmap string KPod;
  ks_secrets : gmap string (gmap string string) }.
Definition on_sessions (f : gmap string Session → gmap string Session) (k : kstate) : kstate :=
  mkKstate (f (ks_sessions k)) (ks_types k) (ks_pods k) (ks_secrets k).
Definition on_pods (f : gmap string KPod → gmap string KPod) (k : kstate) : kstate :=
  mkKstate (ks_sessions k) (ks_types k) (f (ks_pods k)) (ks_secrets k).
Definition on_secrets (f : gmap string (gmap string string) → gmap string (gmap string string)) (k : kstate) : kstate :=
  mkKstate (ks_sessions k) (ks_types k) (ks_pods k) (f (ks_secrets k)).
Definition found {A} (o : option A) : result A := match o with Some a => Ok a | None => Err ErrNotFound end.
Definition store_update (s : Session) (o : option Session) : option Session :=
  match o with
  | Some s0 => if bool_decide (is_Some (sess_DeletionTimestamp s0)) && bool_decide (sess_Finalizers s = []) then None
               else Some (updated s s0)
  | None => None
  end.
Definition store_delete (o : option Session) : option Session :=
  match o with
  | Some s0 => if bool_decide (sess_Finalizers s0 = []) then None
               else Some (mkSession (sess_Name s0) (sess_Namespace s0) (sess_CreationTimestamp s0) (Some 1)
                            (sess_Finalizers s0) (sess_Spec s0) (sess_Status s0))
  | None => None
  end.
Definition mark_deleting (p : KPod) : KPod :=
  mkKPod (kp_Name p) (kp_Namespace p) (kp_Labels p) (kp_Annotations p) true (kp_Spec p) (kp_Status p).

Definition named (n : string) (o : option Session) : result Session :=
  match o with Some s => if String.eqb (sess_Name s) n then Ok s else Err ErrNotFound | None => Err ErrNotFound end.

#[local] Instance toy_api : KubeAPI kstate () := {|
  K_getSession := λ n k, named n (ks_sessions k !! n);
  K_listSessions := λ k, Ok (map_to_list (ks_sessions k)).*2;
  K_updateSession := λ s k, (Ok (), on_sessions (partial_alter (store_update s) (sess_Name s)) k);
  K_statusSession := λ s k, (Ok (), on_sessions (alter (with_status (sess_Status s)) (sess_Name s)) k);
  K_deleteSession := λ n k, (Ok (), on_sessions (partial_alter store_delete n) k);
  K_getType := λ n k, found (List.find (λ st, String.eqb (st_Name st) n) (ks_types k));
  K_listTypes := λ k, Ok (ks_types k);
  K_getPod := λ n k, found (ks_pods k !! n);
  K_createPod := λ p k, match ks_pods k !! kp_Name p with
                        | Some _ => (Err ErrAlreadyExists, k)
                        | None => (Ok (), on_pods <[kp_Name p := p]> k) end;
  K_deletePod := λ n k, (Ok (), on_pods (alter mark_deleting n) k);
  K_getSecret := λ n k, found (ks_secrets k !! n);
  K_updateSecret := λ n d k, (Ok (), on_secrets <[n := d]> k);
  K_deleteSecret := λ n k, (Ok (), on_secrets (delete n) k);
  K_applyConfigMap := λ _ _ _ k, (Ok (), k);
  K_applyObject := λ _ k, (Ok (), k) |}.

Lemma named_Ok n o s : named n o = Ok s ↔ o = Some s ∧ sess_Name s = n.
Proof.
  destruct o as [s0|]; cbn; [|naive_solver]. destruct (String.eqb_spec (sess_Name s0) n); split; try naive_solver.
Qed.

#[local] Instance toy_laws : KubeLaws kstate ().
Proof.
  split; try done; cbn -[named].
  - intros n k s [_ <-]%named_Ok. done.
  - intros s s0 k k' [Hg Hn]%named_Ok Hd [= <-]. apply named_Ok. cbn. rewrite lookup_partial_alter_eq, Hg. cbn.
    by rewrite Hd.
  - intros s n k s' [Hg Hn]%named_Ok. destruct (decide (n = sess_Name s)) as [->|Hne].
    + rewrite lookup_partial_alter_eq in Hg. destruct (ks_sessions k !! sess_Name s) as [s0|] eqn:E; [|done]. cbn in Hg.
      destruct (_ && _); [done|]. injection Hg as <-. exists s0. split; [by apply named_Ok|done].
    + rewrite lookup_partial_alter_ne in Hg by done. exists s'. split; [by apply named_Ok|done].
  - intros s n k Hne. by rewrite lookup_partial_alter_ne.
  - intros s s0 k k' [Hg Hn]%named_Ok [= <-]. apply named_Ok. cbn. rewrite lookup_alter_eq, Hg. done.
  - intros s n k Hne. by rewrite lookup_alter_ne.
  - intros m n k s' [Hg Hn]%named_Ok. destruct (decide (n = m)) as [->|Hne].
    + rewrite lookup_partial_alter_eq in Hg. destruct (ks_sessions k !! m) as [s0|] eqn:E; [|done]. cbn in Hg.
      destruct (bool_decide _); [done|]. injection Hg as <-. exists s0. split; [by apply named_Ok|done].
    + rewrite lookup_partial_alter_ne in Hg by done. exists s'. split; [by apply named_Ok|done].
  - intros n k r k' [= <- <-] _. cbn. rewrite lookup_alter_eq. by destruct (ks_pods k !! n).
  - intros n k r k' [= <- <-] _. cbn. rewrite lookup_delete_eq. eexists. done.
  - intros p m k. by destruct (ks_pods k !! kp_Name p).
Qed.

(** The enforcer is the proxy adapter: it publishes in a ConfigMap. *)
#[local] Instance toy_enforcer : EgressEnforcer (option string) () := {|
  EE_Validate := λ st _, if bool_decide (sts_Egress (st_Spec st) = []) then Err (EMsg "no egress hosts") else Ok ();
  EE_Objects := λ _ _ _, Ok [()];
  EE_OnReady := λ s st ip cm, OnReady (jal:=al_codec) (Client true) s st ip cm;
  EE_OnCleanup := λ s cm, OnCleanup (jal:=al_codec) (Client true) s cm |}.

Definition rc0 : SessionReconciler := mkSessionReconciler "juggernaut-sessions" (mkPodOptions "wrapper:1" ∅ true) true None (λ j _, j).
Definition bob_name : string := PodKey_Name (mkPodKey "bob" "jira").
Definition spec1 (ph : Phase) : SessionSpec := mkSessionSpec "bob" (UserHash "bob") "jira" "cfg1" ph "bob-token".
Definition status1 (ph : Phase) : SessionStatus := mkSessionStatus ph "" "" "" "" None (Some 100) None.
Definition sess1 (del : option Z) (want ph : Phase) : Session :=
  mkSession bob_name "juggernaut-sessions" 50 del [FinalizerSession] (spec1 want) (status1 ph).
Definition pod1 (deleting : bool) : KPod :=
  mkKPod bob_name "juggernaut-sessions" ∅ ∅ deleting (kp_Spec (BuildPod (sess1 None PhaseUnset PhaseStarting) jira_type (sr_Options rc0)))
    (mkKPodStatus "Running" "" "10.0.0.9" [None] [("Ready", "True")]).
Definition k1 (s : Session) (pods : gmap string KPod) : kstate :=
  mkKstate {[bob_name := s]} [jira_type] pods {["bob-token" := {["pod-token" := "t"]}]}.

Definition starting : Session := sess1 None PhaseUnset PhaseStarting.
Definition w_ready : kstate * option string := (k1 starting {[bob_name := pod1 false]}, None).
Definition ready1 : Session :=
  with_status (mkSessionStatus PhaseReady "" "10.0.0.9" "http://10.0.0.9:8443" "" None (Some 200) None) starting.


Definition w_deleting : kstate * option string :=
  (k1 (sess1 (Some 300) PhaseUnset PhaseReady) {[bob_name := pod1 false]},
   (OnReady (jal:=al_codec) (Client true) starting jira_type "10.0.0.9" None).2).

Lemma Reconcile_deletion_cleans_witness :
  ∃ e, K_getSecret "bob-token" (Reconcile rc0 300 bob_name w_deleting).2.1 = Err e.
Proof.
  destruct (Reconcile_deletion_cleans (api:=toy_api) (laws:=toy_laws) (ee:=toy_enforcer) rc0 300 bob_name (sess1 (Some 300) PhaseUnset PhaseReady) w_deleting
    ltac:(vm_compute; reflexivity) ltac:(left; eexists; reflexivity) ltac:(vm_compute; reflexivity)) as (_ & H & _).
  apply H. discriminate.
Defined.

(** A session whose pod was evicted is reported over, and then gets a new pod. *)
Example vanished_pod_is_recreated :
  let w0 := (k1 (sess1 None PhaseUnset PhaseReady) ∅, None : option string) in
  let w1 := (Reconcile rc0 200 bob_name w0).2 in
  let w2 := (Reconcile rc0 201 bob_name w1).2 in
  ((λ s, (stat_Phase (sess_Status s), stat_Message (sess_Status s))) <$> K_getSession bob_name w1.1)
    = Ok (PhaseFailed, "pod disappeared") ∧ ks_pods w1.1 = ∅ ∧
  ((λ s, stat_Phase (sess_Status s)) <$> K_getSession bob_name w2.1) = Ok PhaseStarting ∧ is_Some (ks_pods w2.1 !! bob_name).
Proof. split_and!; [vm_compute; reflexivity..|]. eexists. vm_compute. reflexivity. Qed.

(** A new session of the same user and server type adopts the pod of the previous
    one while that is still shutting down: the reconciler does not look at the
    deletion mark, and its own deletion only asks for the pod to be removed. *)
Example terminating_pod_is_adopted :
  let w1 := (Reconcile rc0 200 bob_name (k1 starting {[bob_name := pod1 true]}, None)).2 in
  ((λ s, stat_Phase (sess_Status s)) <$> K_getSession bob_name w1.1) = Ok PhaseReady ∧
  (kp_Deleting <$> K_getPod bob_name w1.1) = Ok true.
Proof. split; vm_compute; reflexivity. Qed.

(** The mark the reaper puts on a busy session that is past its idle timeout is
    taken off again by the next reconcile, which also moves ReadyAt. *)
Example idle_mark_is_undone :
  let w1 := (Reconcile rc0 200 bob_name (k1 (sess1 None PhaseUnset PhaseIdle) {[bob_name := pod1 false]}, None)).2 in
  ((λ s, (stat_Phase (sess_Status s), stat_ReadyAt (sess_Status s))) <$> K_getSession bob_name w1.1) = Ok (PhaseReady, Some 200).
Proof. vm_compute. reflexivity. Qed.

(** *** The reaper on two sessions, one of them busy *)

Definition carol_name : string := PodKey_Name (mkPodKey "carol" "jira").
Definition carol : Session :=
  mkSession carol_name "juggernaut-sessions" 50 None [FinalizerSession]
    (mkSessionSpec "carol" (UserHash "carol") "jira" "cfg1" PhaseUnset "carol-token") (status1 PhaseReady).
Definition bob : Session := sess1 None PhaseUnset PhaseReady.
Definition k2 : kstate := mkKstate {[bob_name := bob; carol_name := carol]} [jira_type] ∅ ∅.
(** Both were last used long ago, but Bob has a call in flight. *)
Definition t2 : Memory.Memory := Memory.mkMemory ∅ ∅ {[bob_name := 100; carol_name := 100]} {[bob_name := 1]}.
Definition now2 : Z := 100 + 20 * Minute.
Definition swept := sweep (T:=Memory.Memory) (15 * Minute) now2 k2 t2.

Lemma t2_ok : Memory.ok t2 ∧ memory_named t2.
Proof.
  split; [split|].
  - intros k p. cbn. by rewrite lookup_empty.
  - intros n z. cbn. rewrite lookup_singleton_Some. intros [_ <-]. lia.
  - intros k p. cbn. by rewrite lookup_empty.
Qed.

Definition l2 : list Session := [carol; bob].
Lemma k2_listed : listed l2 k2.
Proof.
  split.
  - apply (bool_decide_unpack _). vm_compute. exact I.
  - intros s. unfold l2. rewrite !elem_of_cons, elem_of_nil. intros [->|[->|[]]]; vm_compute; reflexivity.
  - intros s. unfold l2. rewrite !elem_of_cons, elem_of_nil. intros [->|[->|[]]]; vm_compute; reflexivity.
Qed.


(** A table whose store is down. *)
Definition down : Type := ().
#[local] Instance down_table : RoutingTable down := {|
  GetPod := λ _ t, (Err (EMsg "redis"), t); PutPod := λ _ t, (Err (EMsg "redis"), t);
  DeletePod := λ _ t, (Err (EMsg "redis"), t); ListPods := λ _ t, (Err (EMsg "redis"), t);
  CountPods := λ _ _ t, (Err (EMsg "redis"), t); GetSession := λ _ t, (Err (EMsg "redis"), t);
  PutSession := λ _ t, (Err (EMsg "redis"), t); DeleteSession := λ _ t, (Err (EMsg "redis"), t);
  DeleteSessionsForPod := λ _ t, (Err (EMsg "redis"), t); Touch := λ _ _ t, (Err (EMsg "redis"), t);
  LastActive := λ _ t, (Err (EMsg "redis"), t); InFlight := λ _ _ t, (Err (EMsg "redis"), t) |}.

Lemma sweep_outage_terminates_witness :
  ∃ reason, (sweepOne (T:=down) (15 * Minute) now2 {["jira" := jira_type]} bob (k2, (), [])).2 = [(bob_name, reason)].
Proof.
  apply (sweep_outage_terminates (api:=toy_api) (T:=down) (15 * Minute) now2 {["jira" := jira_type]} bob jira_type 100 k2 () []);
    try (vm_compute; reflexivity); try discriminate.
  - intros n t. eexists. reflexivity.
  - intros n t. eexists. reflexivity.
Defined.
End ControllerWitness.
