(* ===== verification/Apply.v ===== *)
(** * internal/controller/apply.go: publishing isolation objects

    [applyObject], which creates or updates what an egress enforcer rendered, and
    the two loops over it: the objects of one session and, at start-up, those of
    the namespace.  The API server's calls on these objects and
    controllerutil.CreateOrUpdate are parameters with their documented effect. *)

From S2P Require Import Prelude GoStd.

Local Open Scope Z_scope.

(** An object as far as [applyObject] looks at it: [ob_Rest] is everything else the
    API server keeps (annotations, resource version, status). *)
Record okey := mkOkey { ok_Kind : string; ok_Namespace : string; ok_Name : string }.
#[export] Instance okey_eq_dec : EqDecision okey.
Proof. solve_decision. Defined.
#[export] Instance okey_countable : Countable okey.
Proof.
  refine (inj_countable' (λ k, (ok_Kind k, ok_Namespace k, ok_Name k)) (λ x, mkOkey x.1.1 x.1.2 x.2) _). by intros [].
Defined.

Section Apply.
Context {Sp R : Type}.
Record object := mkObject { ob_Key : okey; ob_Labels : gmap string string; ob_Owners : list string; ob_Spec : Sp; ob_Rest : R }.

(** The types [applyObject] switches on. *)
Inductive rendered := RNetworkPolicy (o : object) | RUnstructured (o : object) | ROther (kind : string).

Class ObjectAPI (K : Type) := {
  oa_Get : okey → K → result object;
  oa_Create : object → K → result () * K;
  oa_Update : object → K → result () * K;
  oa_CreateOrUpdate : okey → (object → object) → K → result () * K;
  oa_blank : okey → object }.   (* the empty object of a key, as [&T{}] with a name *)

(** Documented behaviour: a successful write is what a read then returns, a failed one
    changes nothing that can be told, and no call touches another object.
    CreateOrUpdate applies the function to the stored object, or to the blank one. *)
Class ObjectLaws (K : Type) `{!ObjectAPI K} := {
  ol_create : ∀ o k k', oa_Create o k = (Ok (), k') → oa_Get (ob_Key o) k' = Ok o;
  ol_create_ne : ∀ o q k, q ≠ ob_Key o → oa_Get q (oa_Create o k).2 = oa_Get q k;
  ol_update : ∀ o k k', oa_Update o k = (Ok (), k') → oa_Get (ob_Key o) k' = Ok o;
  ol_update_ne : ∀ o q k, q ≠ ob_Key o → oa_Get q (oa_Update o k).2 = oa_Get q k;
  ol_upsert : ∀ q f k k', oa_CreateOrUpdate q f k = (Ok (), k') →
    (∃ o, oa_Get q k = Ok o ∧ oa_Get q k' = Ok (f o)) ∨
    (∃ e, oa_Get q k = Err e ∧ errors_Is e ErrNotFound = true ∧ oa_Get q k' = Ok (f (oa_blank q)));
  ol_upsert_ne : ∀ q f q' k, q' ≠ q → oa_Get q' (oa_CreateOrUpdate q f k).2 = oa_Get q' k;
  ol_key : ∀ q k o, oa_Get q k = Ok o → ob_Key o = q }.

(** The fields that are kept in sync. *)
Definition synced_with (o existing : object) : object :=
  mkObject (ob_Key existing) (ob_Labels o) (ob_Owners o) (ob_Spec o) (ob_Rest existing).

Context {K : Type} {api : ObjectAPI K}.

(** [func applyObject] *)
Definition applyObject (obj : rendered) (k : K) : result () * K :=
  match obj with
  | RNetworkPolicy o => oa_CreateOrUpdate (ob_Key o) (synced_with o) k
  | RUnstructured o =>
      match oa_Get (ob_Key o) k with
      | Err e => if errors_Is e ErrNotFound then oa_Create o k else (Err e, k)
      | Ok existing => oa_Update (synced_with o existing) k
      end
  | ROther kind => (Err (EMsg ("unsupported isolation object " +:+ kind)), k)
  end.

(** The loops of [applyIsolation] (which has set the owner by then) and of
    [EnsureNamespaceObjects]; the latter does nothing
    without an enforcer. *)
Fixpoint applyAll (objs : list rendered) (k : K) : result () * K :=
  match objs with
  | [] => (Ok (), k)
  | o :: rest => match applyObject o k with (Err e, k) => (Err e, k) | (Ok _, k) => applyAll rest k end
  end.
Definition EnsureNamespaceObjects (objs : option (list rendered)) (k : K) : result () * K :=
  match objs with None => (Ok (), k) | Some objs => applyAll objs k end.

(** ** What is published *)

Definition rendered_object (r : rendered) : option object :=
  match r with RNetworkPolicy o | RUnstructured o => Some o | ROther _ => None end.
Definition rendered_key (r : rendered) : option okey := ob_Key <$> rendered_object r.

(** The object stands in the cluster as it was rendered. *)
Definition published (o : object) (k : K) : Prop :=
  ∃ x, oa_Get (ob_Key o) k = Ok x ∧ ob_Labels x = ob_Labels o ∧ ob_Owners x = ob_Owners o ∧ ob_Spec x = ob_Spec o.

Context {laws : ObjectLaws K}.

Lemma applyObject_publishes r k k' :
  applyObject r k = (Ok (), k') → ∃ o, rendered_object r = Some o ∧ published o k' ∧
    ∀ x, oa_Get (ob_Key o) k = Ok x → oa_Get (ob_Key o) k' = Ok (synced_with o x).
Proof.
  destruct r as [o|o|kind]; cbn [applyObject rendered_object]; [..|done].
  - intros Hu. exists o. split; [done|]. destruct (ol_upsert _ _ _ _ Hu) as [(x & Hx & Hx')|(e & He & _ & Hx')].
    + split; [by eexists|]. intros y Hy. rewrite Hx in Hy. by injection Hy as <-.
    + split; [by eexists|]. intros y Hy. by rewrite He in Hy.
  - destruct (oa_Get (ob_Key o) k) as [x|e] eqn:Eg.
    + intros Hu. exists o. split; [done|]. pose proof (ol_update _ _ _ Hu) as Hx. cbn in Hx. rewrite (ol_key _ _ _ Eg) in Hx.
      split; [by eexists|]. intros y Hy. assert (y = x) as -> by congruence. done.
    + destruct (errors_Is e ErrNotFound); [|done]. intros Hc. exists o. split; [done|].
      split; [|intros y Hy; congruence]. exists o. split; [by eapply ol_create|done].
Qed.

Lemma applyObject_frame r k q : rendered_key r ≠ Some q → oa_Get q (applyObject r k).2 = oa_Get q k.
Proof.
  destruct r as [o|o|kind]; cbn [applyObject rendered_key rendered_object fmap option_fmap option_map]; [..|done]; intros Hq.
  - apply ol_upsert_ne. congruence.
  - destruct (oa_Get (ob_Key o) k) as [x|e] eqn:Eg.
    + apply ol_update_ne. cbn. rewrite (ol_key _ _ _ Eg). congruence.
    + destruct (errors_Is e ErrNotFound); [|done]. apply ol_create_ne. congruence.
Qed.

Lemma applyAll_frame objs k q : Some q ∉ rendered_key <$> objs → oa_Get q (applyAll objs k).2 = oa_Get q k.
Proof.
  revert k. induction objs as [|r objs IH]; intros k Hq; cbn [applyAll]; [done|]. csimpl in Hq. rewrite not_elem_of_cons in Hq.
  destruct Hq as [Hr Hq]. pose proof (applyObject_frame r k q ltac:(congruence)) as Hf.
  destruct (applyObject r k) as [[[]|e] k1]; cbn [snd] in *; [by rewrite IH|done].
Qed.

(** When the isolation of a session (or of the namespace) has been applied without error,
    every object the enforcer rendered stands in the cluster with the labels, owners
    and spec it was rendered with, and no other object was touched. *)
Theorem applyAll_publishes objs k k' :
  NoDup (rendered_key <$> objs) → applyAll objs k = (Ok (), k') →
  (∀ r, r ∈ objs → ∃ o, rendered_object r = Some o ∧ published o k') ∧
  (∀ q, Some q ∉ rendered_key <$> objs → oa_Get q k' = oa_Get q k).
Proof.
  intros Hnd Ha. split; [|intros q Hq; pose proof (applyAll_frame objs k q Hq) as H; by rewrite Ha in H].
  revert k Hnd Ha. induction objs as [|r objs IH]; intros k Hnd; cbn [applyAll]; [intros _ r Hr; by apply elem_of_nil in Hr|].
  csimpl in Hnd. apply NoDup_cons in Hnd as [Hr Hnd]. destruct (applyObject r k) as [[[]|e] k1] eqn:Eo; [|done]. intros Ha.
  intros r' [->|Hr']%elem_of_cons; [|by eapply IH]. destruct (applyObject_publishes _ _ _ Eo) as (o & Ho & (x & Hx & Hf) & _).
  exists o. split; [done|]. exists x. split; [|done]. rewrite <- Hx.
  pose proof (applyAll_frame objs k1 (ob_Key o)) as H. rewrite Ha in H. apply H.
  unfold rendered_key in Hr at 1. by rewrite Ho in Hr.
Qed.
End Apply.
Arguments object : clear implicits.
Arguments rendered : clear implicits.

(** ** Witness *)

Module ApplyWitness.
(** An API server with a map of objects; the rest of an object is its annotation. *)
Notation store := (gmap okey (object string string)).
Definition get (q : okey) (k : store) : result (object string string) :=
  match k !! q with Some o => if bool_decide (ob_Key o = q) then Ok o else Err (EMsg "corrupt") | None => Err ErrNotFound end.
Definition blank (q : okey) : object string string := mkObject q ∅ [] "" "".
Definition put (o : object string string) (k : store) : result () * store := (Ok (), <[ob_Key o := o]> k).
Definition upsert (q : okey) (f : object string string → object string string) (k : store) : result () * store :=
  match get q k with
  | Ok o => if bool_decide (ob_Key (f o) = q) then put (f o) k else (Err (EMsg "renamed"), k)
  | Err e => if errors_Is e ErrNotFound then if bool_decide (ob_Key (f (blank q)) = q) then put (f (blank q)) k else (Err (EMsg "renamed"), k)
             else (Err e, k)
  end.
#[local] Instance map_api : ObjectAPI (Sp:=string) (R:=string) store := {|
  oa_Get := get; oa_Create := put; oa_Update := put; oa_CreateOrUpdate := upsert; oa_blank := blank |}.

Lemma get_put o (k : store) : get (ob_Key o) (put o k).2 = Ok o.
Proof. unfold get, put. cbn [snd]. rewrite lookup_insert_eq. by rewrite bool_decide_eq_true_2. Qed.
Lemma get_put_ne o q (k : store) : q ≠ ob_Key o → get q (put o k).2 = get q k.
Proof. intros Hq. unfold get, put. cbn [snd]. by rewrite lookup_insert_ne. Qed.

#[local] Instance map_laws : ObjectLaws (Sp:=string) (R:=string) store.
Proof.
  split; cbn.
  - intros o k k' [= <-]. apply get_put.
  - intros o q k. apply get_put_ne.
  - intros o k k' [= <-]. apply get_put.
  - intros o q k. apply get_put_ne.
  - intros q f k k'. unfold upsert. destruct (get q k) as [o|e] eqn:Eg.
    + case_bool_decide as Hk; [|done]. intros [= <-]. left. exists o. split; [done|]. rewrite <- Hk at 1. apply (get_put (f o) k).
    + destruct (errors_Is e ErrNotFound) eqn:Ee; [|done]. case_bool_decide as Hk; [|done]. intros [= <-]. right. exists e. split_and!; [done..|].
      rewrite <- Hk at 1. apply (get_put (f (blank q)) k).
  - intros q f q' k Hq. unfold upsert. repeat case_match; try done; bprop; apply get_put_ne; congruence.
  - intros q k o. unfold get. destruct (k !! q) as [x|]; [|done]. case_bool_decide; [|done]. by intros [= <-].
Qed.

(** Bob's network policy is already there, annotated by hand, with an older spec. *)
Definition np (spec note : string) : object string string :=
  mkObject (mkOkey "NetworkPolicy" "juggernaut-sessions" "bob-jira") {["app" := "juggernaut"]} ["Session/bob-jira"] spec note.
Definition cnp : object string string :=
  mkObject (mkOkey "CiliumNetworkPolicy" "juggernaut-sessions" "bob-jira") ∅ ["Session/bob-jira"] "egress: jira" "".
Definition k0 : store := {[ob_Key (np "" "") := np "egress: all" "by hand"]}.
Notation objs := [RNetworkPolicy (np "egress: none" ""); RUnstructured cnp].

Lemma applyAll_publishes_witness : published (np "egress: none" "") (applyAll objs k0).2 ∧ published cnp (applyAll objs k0).2.
Proof.
  assert (NoDup (rendered_key <$> objs)) as Hnd by (apply (bool_decide_unpack _); vm_compute; exact I).
  assert ((applyAll objs k0).1 = Ok ()) as Hr by (vm_compute; reflexivity).
  destruct (applyAll objs k0) as [r k'] eqn:Ha. cbn [fst snd] in *. subst r.
  destruct (applyAll_publishes (laws:=map_laws) objs k0 k' Hnd Ha) as [H _]. clear Ha Hnd.
  split; [destruct (H (RNetworkPolicy (np "egress: none" ""))) as (o & Ho & Hp)|destruct (H (RUnstructured cnp)) as (o & Ho & Hp)];
    [apply elem_of_cons; left; reflexivity| |apply elem_of_cons; right; apply elem_of_cons; left; reflexivity|];
    injection Ho as <-; exact Hp.
Defined.

(** What the controller does not render is kept. *)
Example annotation_is_kept : (λ o, (ob_Spec o, ob_Rest o)) <$> get (ob_Key (np "" "")) (applyAll objs k0).2 = Ok ("egress: none", "by hand").
Proof. vm_compute. reflexivity. Qed.
End ApplyWitness.
