(* ===== verification/Reaping.v ===== *)
(** * Requests and the reaper at the same time

    The idle reaper (internal/controller/reaper.go) spares a session while its
    in-flight count is positive; the count is kept by the requests that are
    being forwarded (internal/gateway/handlers_mcp.go and internal/router/router.go).
    Neither holds a lock: here both make one call of the routing table or of the
    API server per step and interleave with the session manager, which also
    deletes pod records.  A request that runs alone is [forwardMCP] of Gateway.v
    and a reaper that runs alone is [sweep] of Controller.v.  The interleaved
    system keeps the count equal to the number of requests being forwarded, except
    for pods whose record was deleted under a running request.  One call of the
    table is one step; the interface [Counters] says what is asked of it, and the
    in-process table discharges it. *)

From S2P Require Import Prelude GoStd Config Core Contracts Context Policy RoutingMemory Manager Proxy Vault Gateway.
From S2P Require Import Kube Egress Controller.

Local Open Scope Z_scope.

(** ** A forwarded request, one call at a time *)

(** The pod it goes to, the time it passes to [Touch] and the session it stores
    when the pod started one. *)
Record freq := mkFreq { fq_pod : string; fq_at : Z; fq_session : option McpSession }.

(** The next call: InFlight(+1), Touch, the forward itself, PutSession, InFlight(-1). *)
Inductive fstate := FCount | FTouch | FForward | FStore | FRelease | FDone.

(** Between the two adjustments of the count. *)
Definition forwarding (f : fstate) : bool :=
  match f with FTouch | FForward | FStore | FRelease => true | FCount | FDone => false end.

Section Request.
Context {T : Type} {tbl : RoutingTable T}.

Definition fstep (q : freq) (f : fstate) (t : T) : fstate * T :=
  match f with
  | FCount => (FTouch, (InFlight (fq_pod q) 1 t).2)
  | FTouch => (FForward, (Touch (fq_pod q) (fq_at q) t).2)
  | FForward => (FStore, t)
  | FStore => (FRelease, match fq_session q with Some m => (PutSession m t).2 | None => t end)
  | FRelease => (FDone, (InFlight (fq_pod q) (-1) t).2)
  | FDone => (FDone, t)
  end.

Definition frun (q : freq) (n : nat) (x : fstate * T) : fstate * T := Nat.iter n (λ x, fstep q x.1 x.2) x.
End Request.

(** What [recordSession] stores. *)
Definition started (ms : option McpSession) (res : result Result) : option McpSession :=
  match ms, res with
  | Some m, Ok res =>
      if String.eqb (ms_UpstreamSessionID m) "" && negb (String.eqb (rs_UpstreamSessionID res) "") then
        Some (mkMcpSession (ms_ID m) (ms_Subject m) (ms_ServerType m) (ms_PodName m)
                (rs_UpstreamSessionID res) (ms_ClientName m) (ms_ProtocolVersion m) (ms_Lazy m) (ms_CreatedAt m))
      else None
  | _, _ => None
  end.

Section RequestAlone.
Context {T P B S U : Type} {tbl : RoutingTable T} {http : HTTPClient U}.
Notation G := (gstate T P B S U).

Lemma recordSession_table ms res (s : G) :
  w_table (gs_world (recordSession ms res s).2) =
  match started ms res with Some m => (PutSession m (w_table (gs_world s))).2 | None => w_table (gs_world s) end.
Proof.
  unfold recordSession, started. destruct ms as [m|]; [|done]. destruct (String.eqb (ms_UpstreamSessionID m) ""); [|by destruct res].
  destruct res as [res|]; [|done]. destruct (String.eqb (rs_UpstreamSessionID res) ""); [done|].
  cbn [andb negb snd]. unfold on_world, on_table. by destruct (PutSession _ _).
Qed.

Lemma on_world_table {A} (f : T → A * T) (s : G) :
  w_table (gs_world (on_world (on_table f) s).2) = (f (w_table (gs_world s))).2.
Proof. unfold on_world, on_table. by destruct (f _). Qed.

(** A request that nothing interleaves with leaves the table as [forwardMCP] does. *)
Lemma request_alone r p pod ms up (s : G) :
  ∃ q, fq_pod q = pod_Name pod ∧ fq_at q = e_now (mr_Env r) ∧
    frun q 5 (FCount, w_table (gs_world s)) = (FDone, w_table (gs_world (forwardMCP r p pod ms up s).2)).
Proof.
  unfold forwardMCP. destruct (mintSession r p pod ms up) as [ms1 up1].
  set (s1 := (on_world (on_table (Touch _ _)) _).2). destruct (Forward _ _ _ _) as [[resp res] u].
  exists (mkFreq (pod_Name pod) (e_now (mr_Env r)) (started ms1 res)). split_and!; [done..|].
  pose proof (recordSession_table ms1 res (set_up u s1)) as Hr. destruct (recordSession ms1 res (set_up u s1)) as [sid s2].
  cbn [snd] in *. rewrite on_world_table, Hr. change (gs_world (set_up u s1)) with (gs_world s1). unfold s1.
  rewrite !on_world_table. reflexivity.
Qed.
End RequestAlone.

(** ** The reaper, one call at a time *)

(** Where the loop of [sweep] is with the session at hand: about to look at the
    next one, after reading its count, and before each call it then makes. *)
Inductive rpoint :=
| PNext                                             (* InFlight(0) of the next session *)
| PGot (s : Session) (st : ServerType) (inflight : Z)  (* LastActive *)
| PMark (s : Session)                               (* status update to Idle *)
| PUpdate (s : Session) (reason : string)           (* update to Terminating *)
| PSessions (s : Session) (reason : string)         (* DeleteSessionsForPod *)
| PPod (s : Session) (reason : string).             (* DeletePod *)

(** Between two sweeps, or in one: its time, its server types and the sessions left. *)
Inductive rstate :=
| RIdle
| RAt (now : Z) (types : gmap string ServerType) (todo : list Session) (p : rpoint).

Section ReaperSteps.
Context {K O T : Type} {api : KubeAPI K O} {tbl : RoutingTable T}.
Variable HardGrace : Z.
Notation W := (K * T * list (string * string))%type.

(** The start of a sweep: both lists are read, an error ends it. *)
Definition rstart (now : Z) (k : K) : rstate :=
  match K_listSessions k, K_listTypes k with
  | Ok sessions, Ok items => RAt now (fold_left (λ m st, <[st_Name st := st]> m) items ∅) sessions PNext
  | _, _ => RIdle
  end.

Definition rnext (now : Z) (types : gmap string ServerType) (s : Session) (w : W) : rpoint * W :=
  let '(k, t, log) := w in
  if bool_decide (spec_DesiredPhase (sess_Spec s) = PhaseTerminating)
     || bool_decide (is_Some (sess_DeletionTimestamp s)) then (PNext, w)
  else
    match types !! spec_ServerType (sess_Spec s) with
    | None => (PUpdate s "server type removed", w)
    | Some st =>
        match stat_Phase (sess_Status s) with
        | PhaseFailed => (PUpdate s "failed", w)
        | PhaseReady | PhaseIdle =>
            let '(ri, t) := InFlight (sess_Name s) 0 t in
            (PGot s st (match ri with Ok n => n | Err _ => 0 end), (k, t, log))
        | _ => (PNext, w)
        end
    end.

Definition rgot (now : Z) (s : Session) (st : ServerType) (inflight : Z) (w : W) : rpoint * W :=
  let '(k, t, log) := w in
  let age := now - sess_CreationTimestamp s in
  let maxAge := sts_MaxSessionAge (st_Spec st) in
  if maxAge + HardGrace <? age then (PUpdate s "max age (hard)", w)
  else if (maxAge <? age) && (inflight =? 0) then (PUpdate s "max age", w)
  else
    let '(rl, t) := LastActive (sess_Name s) t in
    let last := match rl with
                | Ok l => l
                | Err _ => default (sess_CreationTimestamp s) (stat_ReadyAt (sess_Status s))
                end in
    let idle := now - last in
    if (sts_IdleTimeout (st_Spec st) <? idle) && (inflight =? 0) then (PUpdate s "idle", (k, t, log))
    else if (sts_IdleTimeout (st_Spec st) <? idle) && negb (bool_decide (stat_Phase (sess_Status s) = PhaseIdle)) then
      (PMark s, (k, t, log))
    else (PNext, (k, t, log)).

(** One step of the reaper: at most one call. *)
Definition rstep (r : rstate) (w : W) : rstate * W :=
  match r with
  | RIdle => (RIdle, w)
  | RAt now types todo p =>
      let at_ x := (RAt now types todo x.1, x.2) in
      let '(k, t, log) := w in
      match p with
      | PNext =>
          match todo with
          | [] => (RIdle, w)
          | s :: todo => let '(p, w) := rnext now types s w in (RAt now types todo p, w)
          end
      | PGot s st inflight => at_ (rgot now s st inflight w)
      | PMark s => at_ (PNext, ((K_statusSession (with_status (set_Phase PhaseIdle (sess_Status s)) s) k).2, t, log))
      | PUpdate s reason =>
          match K_updateSession (with_spec (set_DesiredPhase PhaseTerminating (sess_Spec s)) s) k with
          | (Err _, k) => at_ (PNext, (k, t, log))
          | (Ok _, k) => at_ (PSessions s reason, (k, t, log))
          end
      | PSessions s reason => at_ (PPod s reason, (k, (DeleteSessionsForPod (sess_Name s) t).2, log))
      | PPod s reason => at_ (PNext, (k, (DeletePod (sess_key s) t).2, log ++ [(sess_Name s, reason)]))
      end
  end.

Definition rrun (n : nat) (x : rstate * W) : rstate * W := Nat.iter n (λ x, rstep x.1 x.2) x.

Lemma rrun_S n x : rrun (S n) x = rrun n (rstep x.1 x.2).
Proof. unfold rrun. rewrite Nat.iter_succ_r. done. Qed.
Lemma rrun_add m n x : rrun (m + n) x = rrun n (rrun m x).
Proof. unfold rrun. rewrite Nat.add_comm, Nat.iter_add. done. Qed.
Lemma rrun_RIdle n w : rrun n (RIdle, w) = (RIdle, w).
Proof. induction n as [|n IH]; [done|]. by rewrite rrun_S. Qed.

(** What the body still does at a point after the reads. *)
Definition finish (p : rpoint) (w : W) : W :=
  let '(k, t, log) := w in
  match p with
  | PNext | PGot _ _ _ => w
  | PMark s => ((K_statusSession (with_status (set_Phase PhaseIdle (sess_Status s)) s) k).2, t, log)
  | PUpdate s reason => terminate s reason w
  | PSessions s reason => (k, (DeletePod (sess_key s) (DeleteSessionsForPod (sess_Name s) t).2).2, log ++ [(sess_Name s, reason)])
  | PPod s reason => (k, (DeletePod (sess_key s) t).2, log ++ [(sess_Name s, reason)])
  end.
Definition reading (p : rpoint) : bool := match p with PGot _ _ _ => true | _ => false end.

Lemma rrun_finish now types todo p w :
  reading p = false → ∃ n, (n ≤ 3)%nat ∧ rrun n (RAt now types todo p, w) = (RAt now types todo PNext, finish p w).
Proof.
  destruct w as [[k t] log], p as [|s st i|s|s reason|s reason|s reason]; intros Hp; try discriminate Hp.
  - exists 0%nat. split; [lia|done].
  - exists 1%nat. split; [lia|done].
  - destruct (K_updateSession (with_spec (set_DesiredPhase PhaseTerminating (sess_Spec s)) s) k) as [[[]|e] k1] eqn:E;
      [exists 3%nat|exists 1%nat]; (split; [lia|]); rewrite !rrun_S; cbn [rstep fst snd finish terminate]; rewrite E; reflexivity.
  - exists 2%nat. split; [lia|done].
  - exists 1%nat. split; [lia|done].
Qed.

Lemma rgot_reading now s st i w : reading (rgot now s st i w).1 = false.
Proof. destruct w as [[k t] log]. unfold rgot. repeat (case_match; try done). Qed.

(** The body of the loop, through its points. *)
Lemma sweepOne_points now types s w :
  sweepOne HardGrace now types s w =
  let '(p, w1) := rnext now types s w in
  match p with
  | PGot s st i => let '(p, w2) := rgot now s st i w1 in finish p w2
  | _ => finish p w1
  end.
Proof.
  destruct w as [[k t] log]. unfold sweepOne, rnext. destruct (_ || _); [done|]. destruct (types !! _) as [st|]; [|done].
  destruct (stat_Phase (sess_Status s)) eqn:Ep; try done; destruct (InFlight (sess_Name s) 0 t) as [ri t1]; unfold rgot; rewrite ?Ep;
    destruct (_ + HardGrace <? _); try done; destruct (_ && _); try done; destruct (LastActive (sess_Name s) t1) as [rl t2];
    destruct (_ && _); try done; destruct (_ && _); done.
Qed.

Lemma rrun_sweepOne now types s todo w :
  ∃ n, (n ≤ 5)%nat ∧ rrun n (RAt now types (s :: todo) PNext, w) = (RAt now types todo PNext, sweepOne HardGrace now types s w).
Proof.
  assert (rstep (RAt now types (s :: todo) PNext) w = let '(p, w1) := rnext now types s w in (RAt now types todo p, w1)) as H1.
  { by destruct w as [[k t] log]. }
  rewrite sweepOne_points. destruct (rnext now types s w) as [p w1]. destruct (reading p) eqn:Er.
  - destruct p as [|s' st i|?|? ?|? ?|? ?]; try discriminate Er. pose proof (rgot_reading now s' st i w1) as Hg.
    assert (rstep (RAt now types todo (PGot s' st i)) w1 = let '(p, w2) := rgot now s' st i w1 in (RAt now types todo p, w2)) as H2.
    { destruct w1 as [[k t] log]. cbn [rstep]. by destruct (rgot _ _ _ _ _). }
    destruct (rgot now s' st i w1) as [p w2]. destruct (rrun_finish now types todo p w2 Hg) as (n & Hn & E).
    exists (S (S n)). split; [lia|]. rewrite !rrun_S. cbn [fst snd]. rewrite H1. cbn [fst snd]. by rewrite H2.
  - destruct (rrun_finish now types todo p w1 Er) as (n & Hn & E). exists (S n). split; [lia|].
    rewrite rrun_S. cbn [fst snd]. rewrite H1, E. by destruct p.
Qed.

Lemma rrun_sweepAll now types todo w :
  ∃ n, (n ≤ 5 * length todo)%nat ∧
    rrun n (RAt now types todo PNext, w) = (RAt now types [] PNext, fold_left (λ w s, sweepOne HardGrace now types s w) todo w).
Proof.
  revert w. induction todo as [|s todo IH]; intros w; [by exists 0%nat; split|].
  destruct (rrun_sweepOne now types s todo w) as (n & Hn & E). destruct (IH (sweepOne HardGrace now types s w)) as (m & Hm & E').
  exists (n + m)%nat. split; [cbn [length]; lia|]. rewrite rrun_add, E, E'. done.
Qed.

(** A reaper that nothing interleaves with is [sweep]: from the start of a sweep over
    [sessions], at most five calls for each of them later the reaper is done and
    the cluster, the table and the reasons are exactly those of [sweep]; when a list
    cannot be read, [sweep] reports the error and neither changes anything. *)
Theorem reaper_alone_is_sweep now (k : K) (t : T) :
  match K_listSessions k with
  | Ok sessions => rrun (S (5 * length sessions)) (rstart now k, (k, t, [])) = (RIdle, (sweep HardGrace now k t).2)
  | Err e => rstart now k = RIdle ∧ sweep HardGrace now k t = (Err e, (k, t, []))
  end.
Proof.
  unfold rstart, sweep. destruct (K_listSessions k) as [sessions|e]; [|done].
  destruct (K_listTypes k) as [items|e]; cbn [snd]; [|by rewrite rrun_RIdle].
  destruct (rrun_sweepAll now (fold_left (λ m st, <[st_Name st := st]> m) items ∅) sessions (k, t, [])) as (n & Hn & E).
  replace (S (5 * length sessions)) with (n + S (5 * length sessions - n))%nat by lia.
  rewrite rrun_add, E, rrun_S. destruct (fold_left _ sessions _) as [[k1 t1] l1]. cbn [rstep fst snd]. apply rrun_RIdle.
Qed.
End ReaperSteps.

(** ** The count and the requests *)

(** What the requests and the manager need of a table beyond [Activity]: the count
    moves by the delta and never below zero, deleting a record may only forget its
    count, and nothing else changes it. *)
Class Counters (T : Type) `{!RoutingTable T} `{!Activity T} := {
  ct_pos : ∀ n t, ac_ok t → 0 ≤ ac_inflight n t;
  ct_InFlight : ∀ n d t, ac_ok t → ac_ok (InFlight n d t).2 ∧
    ∀ m, ac_inflight m (InFlight n d t).2 = if bool_decide (m = n) then Z.max 0 (ac_inflight n t + d) else ac_inflight m t;
  ct_DeletePod : ∀ k n t, ac_ok t → ac_inflight n (DeletePod k t).2 ≤ ac_inflight n t;
  ct_Touch : ∀ n a t, ac_ok t → ac_ok (Touch n a t).2 ∧ ∀ m, ac_inflight m (Touch n a t).2 = ac_inflight m t;
  ct_PutSession : ∀ s t, ac_ok t → ac_ok (PutSession s t).2 ∧ ∀ m, ac_inflight m (PutSession s t).2 = ac_inflight m t;
  ct_PutPod : ∀ p t, ac_ok t → pod_Name p = PodKey_Name (pod_Key p) →
    ac_ok (PutPod p t).2 ∧ ∀ m, ac_inflight m (PutPod p t).2 = ac_inflight m t }.

Section System.
Context {K O T : Type} {api : KubeAPI K O} {tbl : RoutingTable T} {act : Activity T} {cts : Counters T}.
Variable HardGrace : Z.

(** The gateways' requests, the reaper, the cluster and the table, with the reasons
    given to [OnTerminate]; and two pieces of history: the pods whose record was
    deleted while a request that is still running was being forwarded to them, and
    what was true when the reaper last read a count: the number of requests being
    forwarded to that pod, and whether it was one of those. *)
Record sys := mkSys {
  y_reqs : list (freq * fstate); y_reaper : rstate; y_world : K * T * list (string * string);
  y_cut : gset string; y_seen : Z * bool }.
Definition y_t (y : sys) : T := y.(y_world).1.2.
Definition y_k (y : sys) : K := y.(y_world).1.1.

(** The requests being forwarded to a pod. *)
Definition on_pod (n : string) (x : freq * fstate) : bool := bool_decide (fq_pod x.1 = n) && forwarding x.2.
Definition busy (n : string) (rs : list (freq * fstate)) : Z := Z.of_nat (length (List.filter (on_pod n) rs)).

(** One step of some part of the system.  The manager deletes, writes and touches
    records and lists sessions with their counts; the cluster changes at will. *)
Inductive event :=
| VArrive (q : freq) | VRequest (i : nat) | VSweep (now : Z) | VReap
| VDelete (key : PodKey) | VPut (p : Pod) | VTouch (n : string) (at_ : Z) | VRead (n : string) | VCluster (f : K → K).

Definition with_table (f : T → T) (w : K * T * list (string * string)) : K * T * list (string * string) :=
  let '(k, t, log) := w in (k, f t, log).

(** The manager names a pod after its key. *)
Definition named_pod (p : Pod) : Pod :=
  mkPod (pod_Key p) (PodKey_Name (pod_Key p)) (pod_Endpoint p) (pod_Phase p) (pod_CreatedAt p) (pod_ConfigHash p) (pod_PodToken p).

(** The name whose record a step deletes. *)
Definition deleted (v : event) (y : sys) : gset string :=
  match v, y_reaper y with
  | VDelete key, _ => {[PodKey_Name key]}
  | VReap, RAt _ _ _ (PPod s _) => {[PodKey_Name (sess_key s)]}
  | _, _ => ∅
  end.

(** What the reaper's read saw, when this step is one. *)
Definition saw (v : event) (y : sys) : Z * bool :=
  match v, y_reaper y with
  | VReap, RAt _ _ todo PNext =>
      match todo with
      | s :: _ => (busy (sess_Name s) (y_reqs y), bool_decide (sess_Name s ∈ y_cut y))
      | [] => y_seen y
      end
  | _, _ => y_seen y
  end.

(** The step itself: the requests, the reaper and the world. *)
Definition move (v : event) (y : sys) : list (freq * fstate) * rstate * (K * T * list (string * string)) :=
  let same w := (y_reqs y, y_reaper y, w) in
  match v with
  | VArrive q => (y_reqs y ++ [(q, FCount)], y_reaper y, y_world y)
  | VRequest i =>
      match y_reqs y !! i with
      | Some (q, f) => let '(f', t) := fstep q f (y_t y) in (<[i := (q, f')]> (y_reqs y), y_reaper y, with_table (λ _, t) (y_world y))
      | None => same (y_world y)
      end
  | VSweep now => (y_reqs y, match y_reaper y with RIdle => rstart now (y_k y) | r => r end, y_world y)
  | VReap => let '(r, w) := rstep HardGrace (y_reaper y) (y_world y) in (y_reqs y, r, w)
  | VDelete key => same (with_table (λ t, (DeletePod key t).2) (y_world y))
  | VPut p => same (with_table (λ t, (PutPod (named_pod p) t).2) (y_world y))
  | VTouch n a => same (with_table (λ t, (Touch n a t).2) (y_world y))
  | VRead n => same (with_table (λ t, (InFlight n 0 t).2) (y_world y))
  | VCluster f => same (let '(k, t, log) := y_world y in (f k, t, log))
  end.

(** The step with its history: a pod stops counting as cut when nothing is being
    forwarded to it any more. *)
Definition happens (v : event) (y : sys) : sys :=
  let '(rs, r, w) := move v y in
  mkSys rs r w (filter (λ n, 0 < busy n rs) (y_cut y ∪ deleted v y)) (saw v y).

Definition history (vs : list event) (y : sys) : sys := fold_left (λ y v, happens v y) vs y.

(** *** What a step does to the number of requests and to the count *)

Lemma busy_snoc n rs q : busy n (rs ++ [(q, FCount)]) = busy n rs.
Proof. unfold busy. rewrite List.filter_app. cbn. unfold on_pod. cbn. by rewrite andb_false_r, app_nil_r. Qed.

Lemma busy_insert n rs i x x' :
  rs !! i = Some x → busy n (<[i := x']> rs) = busy n rs - Z.b2z (on_pod n x) + Z.b2z (on_pod n x').
Proof.
  intros Hi. unfold busy. rewrite (insert_take_drop rs i x') by (by eapply lookup_lt_Some).
  assert (List.filter (on_pod n) rs = List.filter (on_pod n) (take i rs ++ x :: drop (S i) rs)) as ->.
  { by rewrite (take_drop_middle rs i x Hi). }
  rewrite !List.filter_app. cbn [List.filter].
  destruct (on_pod n x), (on_pod n x'); rewrite !length_app; cbn [length Z.b2z]; lia.
Qed.

(** The change of a table that a request, a deletion or anything else makes, for one
    pod: the count follows a change [d] of the number of requests, or it is
    (partly) forgotten. *)
Definition follows (n : string) (d : Z) (gone : Prop) (t t' : T) : Prop :=
  ac_inflight n t' = Z.max 0 (ac_inflight n t + d) ∨ (d = 0 ∧ gone ∧ ac_inflight n t' ≤ ac_inflight n t).

Lemma follows_same n gone t t' : ac_ok t → ac_inflight n t' = ac_inflight n t → follows n 0 gone t t'.
Proof. intros Hok E. left. pose proof (ct_pos n t Hok). lia. Qed.

Lemma follows_DeletePod n key t : ac_ok t → follows n 0 (n = PodKey_Name key) t (DeletePod key t).2.
Proof.
  intros Hok. destruct (decide (n = PodKey_Name key)) as [->|Hne].
  - right. split_and!; [done..|]. by apply ct_DeletePod.
  - apply follows_same; [done|]. by apply (ac_DeletePod key t Hok).
Qed.

Lemma InFlight0_same n m t : ac_ok t → ac_inflight n (InFlight m 0 t).2 = ac_inflight n t.
Proof. intros Hok. destruct (ac_InFlight m t Hok) as (t' & E & _ & H). rewrite E. apply H. Qed.

Lemma ok_InFlight0 m t : ac_ok t → ac_ok (InFlight m 0 t).2.
Proof. intros Hok. destruct (ac_InFlight m t Hok) as (t' & E & H & _). by rewrite E. Qed.

Lemma LastActive_same m t : ac_ok t → ac_ok (LastActive m t).2 ∧ ∀ n, ac_inflight n (LastActive m t).2 = ac_inflight n t.
Proof. intros Hok. destruct (ac_LastActive m t Hok) as (r & t' & E & H1 & _ & H2). rewrite E. split; [done|]. apply H2. Qed.

Lemma fstep_follows n q f t :
  ac_ok t → ac_ok (fstep q f t).2 ∧
  follows n (Z.b2z (on_pod n (q, (fstep q f t).1)) - Z.b2z (on_pod n (q, f))) False t (fstep q f t).2.
Proof.
  intros Hok. unfold on_pod. cbn [fst snd].
  assert (∀ d, ac_ok (InFlight (fq_pod q) d t).2 ∧ follows n (if bool_decide (fq_pod q = n) then d else 0) False t (InFlight (fq_pod q) d t).2) as Hc.
  { intros d. destruct (ct_InFlight (fq_pod q) d t Hok) as [H1 H2]. split; [done|]. specialize (H2 n).
    repeat case_bool_decide; subst; try congruence; [by left|by apply follows_same]. }
  destruct f; cbn [fstep fst snd forwarding].
  - specialize (Hc 1). by case_bool_decide.
  - destruct (ct_Touch (fq_pod q) (fq_at q) t Hok) as [H1 H2]. split; [done|]. rewrite Z.sub_diag. by apply follows_same.
  - split; [done|]. rewrite Z.sub_diag. by apply follows_same.
  - rewrite Z.sub_diag. destruct (fq_session q) as [m|]; [|split; [done|by apply follows_same]].
    destruct (ct_PutSession m t Hok) as [H1 H2]. split; [done|]. by apply follows_same.
  - specialize (Hc (-1)). by case_bool_decide.
  - split; [done|]. rewrite Z.sub_diag. by apply follows_same.
Qed.

Definition ending (r : rstate) (n : string) : Prop :=
  match r with RAt _ _ _ (PPod s _) => n = PodKey_Name (sess_key s) | _ => False end.

Lemma rnext_same now types s w n :
  ac_ok w.1.2 → let w' := (rnext (K:=K) now types s w).2 in ac_ok w'.1.2 ∧ ac_inflight n w'.1.2 = ac_inflight n w.1.2.
Proof.
  destruct w as [[k t] log]. intros Hok. unfold rnext.
  pose proof (ok_InFlight0 (sess_Name s) t Hok) as H1. pose proof (InFlight0_same n (sess_Name s) t Hok) as H2.
  destruct (InFlight (sess_Name s) 0 t) as [ri t1]. repeat (case_match; try done).
Qed.

Lemma rgot_same now s st i w n :
  ac_ok w.1.2 → let w' := (rgot HardGrace (K:=K) now s st i w).2 in ac_ok w'.1.2 ∧ ac_inflight n w'.1.2 = ac_inflight n w.1.2.
Proof.
  destruct w as [[k t] log]. intros Hok. unfold rgot. destruct (LastActive_same (sess_Name s) t Hok) as [H1 H2]. specialize (H2 n).
  destruct (LastActive (sess_Name s) t) as [rl t1]. repeat (case_match; try done).
Qed.

Lemma rstep_follows r w n :
  ac_ok w.1.2 → let w' := (rstep HardGrace r w).2 in ac_ok w'.1.2 ∧ follows n 0 (ending r n) w.1.2 w'.1.2.
Proof.
  intros Hok. assert (∀ t', ac_ok t' ∧ ac_inflight n t' = ac_inflight n w.1.2 → ac_ok t' ∧ follows n 0 (ending r n) w.1.2 t') as Hs.
  { intros t' [H1 H2]. split; [done|]. by apply follows_same. }
  destruct r as [|now types todo p]; cbn zeta; [by apply Hs|]. destruct w as [[k t] log]. cbn [fst snd] in *.
  destruct p as [|s st i|s|s reason|s reason|s reason]; cbn [rstep].
  - destruct todo as [|s todo]; [by apply Hs|]. pose proof (rnext_same now types s (k, t, log) n Hok) as H.
    destruct (rnext now types s (k, t, log)) as [p w']. by apply Hs.
  - pose proof (rgot_same now s st i (k, t, log) n Hok) as H. destruct (rgot _ now s st i (k, t, log)) as [p w']. by apply Hs.
  - by apply Hs.
  - apply Hs. by destruct (K_updateSession _ k) as [[[]|e] k'].
  - apply Hs. destruct (ac_DeleteSessions (sess_Name s) t Hok) as [H1 H2]. split; [done|]. apply H2.
  - cbn [snd fst ending]. split; [by apply (ac_DeletePod (sess_key s) t Hok)|by apply follows_DeletePod].
Qed.

Lemma move_follows v y n :
  ac_ok (y_t y) → let '(rs, _, w) := move v y in
  ac_ok w.1.2 ∧ follows n (busy n rs - busy n (y_reqs y)) (n ∈ deleted v y) (y_t y) w.1.2.
Proof.
  intros Hok. assert (∀ gone t', ac_ok t' ∧ ac_inflight n t' = ac_inflight n (y_t y) →
    ac_ok t' ∧ follows n (busy n (y_reqs y) - busy n (y_reqs y)) gone (y_t y) t') as Hs.
  { intros gone t' [H1 H2]. split; [done|]. rewrite Z.sub_diag. by apply follows_same. }
  destruct y as [rs r [[k t] log] cut seen]. unfold y_t in *. cbn [y_world fst snd y_reqs] in *.
  destruct v as [q|i|now| |key|p|m a|m|f]; cbn [move y_reqs y_world with_table fst snd].
  - rewrite busy_snoc. by apply Hs.
  - destruct (rs !! i) as [[q f]|] eqn:Ei; [|by apply Hs]. destruct (fstep_follows n q f t Hok) as [H1 H2].
    unfold y_t. cbn [y_world fst snd]. destruct (fstep q f t) as [f' t']. cbn [fst snd with_table] in *. split; [done|].
    rewrite (busy_insert n rs i (q, f) (q, f') Ei). destruct H2 as [H2|(_ & [] & _)]. left. rewrite H2. f_equal. lia.
  - by apply Hs.
  - destruct (rstep_follows r (k, t, log) n Hok) as [H1 H2]. cbn [y_reaper].
    destruct (rstep HardGrace r (k, t, log)) as [r' w']. rewrite Z.sub_diag. split; [done|].
    destruct H2 as [H2|(? & H2 & ?)]; [by left|]. right. split_and!; [done| |done]. unfold deleted, ending in *. cbn [y_reaper].
    repeat (case_match; try done). subst. set_solver.
  - rewrite Z.sub_diag. split; [by apply (ac_DeletePod key t Hok)|]. destruct (follows_DeletePod n key t Hok) as [H|(? & -> & ?)]; [by left|].
    right. split_and!; [done| |done]. cbn. set_solver.
  - apply Hs. destruct (ct_PutPod (named_pod p) t Hok eq_refl) as [H1 H2]. split; [done|]. apply H2.
  - apply Hs. destruct (ct_Touch m a t Hok) as [H1 H2]. split; [done|]. apply H2.
  - apply Hs. split; [by apply ok_InFlight0|by apply InFlight0_same].
  - by apply Hs.
Qed.

(** The count never exceeds the requests and is exact for pods that are not cut. *)
Record counts (y : sys) : Prop := {
  co_ok : ac_ok (y_t y);
  co_le : ∀ n, ac_inflight n (y_t y) ≤ busy n (y_reqs y);
  co_eq : ∀ n, n ∉ y_cut y → ac_inflight n (y_t y) = busy n (y_reqs y) }.

Lemma busy_pos n rs : 0 ≤ busy n rs.
Proof. unfold busy. lia. Qed.

Lemma counts_happens v y : counts y → counts (happens v y).
Proof.
  intros [Hok Hle Heq]. pose proof (λ n, move_follows v y n Hok) as Hm. unfold happens.
  destruct (move v y) as [[rs r] w]. set (y' := mkSys _ _ _ _ _).
  assert (ac_ok (y_t y')) as Hok' by apply (Hm "").
  assert (∀ n, ac_inflight n (y_t y') ≤ busy n rs) as Hle'.
  { intros n. destruct (Hm n) as [_ Hn]. specialize (Hle n). pose proof (busy_pos n rs).
    destruct Hn as [Hn|(Hd & _ & Hn)]; unfold y_t at 1; cbn [y' y_world]; lia. }
  split; [done..|]. cbn [y' y_reqs y_cut]. intros n Hn. destruct (decide (0 < busy n rs)) as [Hb|Hb].
  - rewrite elem_of_filter, elem_of_union in Hn. destruct (Hm n) as [_ Hf]. specialize (Heq n). pose proof (busy_pos n rs).
    unfold y_t at 1. cbn [y' y_world]. destruct Hf as [Hf|(_ & Hf & _)]; [|tauto]. rewrite Hf, Heq; [lia|tauto].
  - pose proof (Hle' n). pose proof (ct_pos n (y_t y') Hok'). lia.
Qed.

(** Nothing is running yet. *)
Definition quiet (y : sys) : Prop :=
  y_reqs y = [] ∧ y_reaper y = RIdle ∧ ac_ok (y_t y) ∧ ∀ n, ac_inflight n (y_t y) = 0.

Lemma counts_history vs y : counts y → counts (history vs y).
Proof. revert y. induction vs as [|v vs IH]; intros y Hy; [done|]. by apply IH, counts_happens. Qed.

Lemma counts_quiet y : quiet y → counts y.
Proof. intros (Hr & _ & Hok & Hz). split; [done|..]; intros n *; by rewrite Hz, Hr. Qed.


(** *** What the reaper knows *)

Definition soft (reason : string) : Prop := reason = "max age" ∨ reason = "idle".

(** The count it holds is what it saw; a termination for age or idleness is decided
    on a count of zero. *)
Definition knows (r : rstate) (seen : Z * bool) : Prop :=
  match r with
  | RAt _ _ _ (PGot _ _ i) => seen.2 = false → i = seen.1
  | RAt _ _ _ (PUpdate _ reason) | RAt _ _ _ (PSessions _ reason) | RAt _ _ _ (PPod _ reason) =>
      soft reason → seen.2 = false → seen.1 = 0
  | _ => True
  end.

Lemma rgot_soft now s st i w :
  match (rgot HardGrace (K:=K) now s st i w).1 with
  | PUpdate _ reason => soft reason → i = 0
  | PNext | PMark _ => True
  | _ => False
  end.
Proof.
  destruct w as [[k t] log]. unfold rgot. destruct (_ + HardGrace <? _); [by intros [?|?]|].
  destruct (Z.eqb_spec i 0) as [->|Hi]; rewrite ?andb_false_r; destruct (LastActive _ _); rewrite ?andb_false_r; repeat (case_match; try done).
Qed.

(** The read itself: the count it returns is the number of requests. *)
Lemma rnext_knows now types s todo y p w' :
  counts y → y_reaper y = RAt now types (s :: todo) PNext → rnext now types s (y_world y) = (p, w') →
  match p with
  | PGot _ _ i => (saw VReap y).2 = false → i = (saw VReap y).1
  | PUpdate _ reason => ¬ soft reason
  | PNext => True
  | _ => False
  end.
Proof.
  intros Hy Hr. unfold saw. rewrite Hr. unfold rnext. destruct (y_world y) as [[k t] log] eqn:Ew.
  assert (y_t y = t) as Et by (unfold y_t; by rewrite Ew). destruct (_ || _); [by intros [= <- _]|].
  destruct (types !! _) as [st|]; [|intros [= <- _]; by intros [?|?]].
  destruct (stat_Phase (sess_Status s)); try (by intros [= <- _]); [..|intros [= <- _]; by intros [?|?]].
  all: destruct (ac_InFlight (sess_Name s) t) as (t' & E & _); [by rewrite <- Et; apply Hy|]; rewrite E; intros [= <- _]; cbn [fst snd].
  all: intros Hc%bool_decide_eq_false; rewrite <- Et; by apply Hy.
Qed.

Lemma rstep_knows y :
  counts y → knows (y_reaper y) (y_seen y) → knows (rstep HardGrace (y_reaper y) (y_world y)).1 (saw VReap y).
Proof.
  intros Hy Hk. destruct (y_reaper y) as [|now types todo p] eqn:Er; [done|].
  destruct (y_world y) as [[k t] log] eqn:Ew. destruct p as [|s st i|s|s reason|s reason|s reason]; cbn [rstep].
  - destruct todo as [|s todo]; [done|]. destruct (rnext now types s (k, t, log)) as [p w'] eqn:E. rewrite <- Ew in E.
    pose proof (rnext_knows now types s todo y p w' Hy Er E) as H. destruct p; cbn in *; naive_solver.
  - pose proof (rgot_soft now s st i (k, t, log)) as H. unfold saw. rewrite Er. cbn [fst]. cbn [knows] in Hk. revert H. set (p := (rgot _ _ _ _ _ _).1). destruct p; cbn; try done. intros H Hs Hc. rewrite <- (Hk Hc). by apply H.
  - done.
  - unfold saw. rewrite Er. by destruct (K_updateSession _ k) as [[[]|e] k'].
  - unfold saw. by rewrite Er.
  - done.
Qed.

Lemma knows_move v y : counts y → knows (y_reaper y) (y_seen y) → knows (move v y).1.2 (saw v y).
Proof.
  intros Hy Hk. destruct v; try done; cbn [move].
  - by destruct (y_reqs y !! i) as [[q f]|]; [destruct (fstep _ _ _)|].
  - cbn [fst snd]. destruct (y_reaper y); [|done]. unfold rstart. repeat (case_match; try done).
  - pose proof (rstep_knows y Hy Hk) as H. by destruct (rstep _ _ _).
Qed.

Lemma knows_history vs y : counts y → knows (y_reaper y) (y_seen y) → knows (y_reaper (history vs y)) (y_seen (history vs y)).
Proof.
  revert y. induction vs as [|v vs IH]; intros y Hy Hk; [done|]. apply IH; [by apply counts_happens|].
  pose proof (knows_move v y Hy Hk) as H. unfold happens. by destruct (move v y) as [[rs r] w].
Qed.

End System.

(** ** The in-process table *)

#[export] Instance memory_counters : Counters Memory.Memory.
Proof.
  assert (∀ n m, Memory.ok m → 0 ≤ default 0 (Memory.inflight m !! n)) as Hpos.
  { intros n m Hok. destruct (Memory.inflight m !! n) as [z|] eqn:E; [by apply (Memory.ok_inflight m Hok n)|done]. }
  split.
  - intros n m [Hok _]. by apply Hpos.
  - intros n d m [Hok Hn]. split; [split; [by apply (Memory.ok_InFlight n d)|done]|]. intros n'. cbn [ac_inflight memory_activity].
    case_bool_decide; [subst; change (InFlight n d m).2 with (Memory.InFlight n d m).2; by rewrite Memory.inflight_InFlight|].
    cbn. by rewrite lookup_insert_ne.
  - intros k n m [Hok Hn]. cbn [ac_inflight memory_activity]. change (DeletePod k m).2 with (Memory.DeletePod k m).2.
    unfold Memory.DeletePod. destruct (Memory.pods m !! k) as [p|]; cbn; [|done]. rewrite lookup_delete.
    case_decide; [|done]. cbn. by apply Hpos.
  - intros n a m [[Hk Hi] Hn]. done.
  - intros s m [[Hk Hi] Hn]. done.
  - intros p m [Hok Hn] Hp. split; [|done]. split; [by apply Memory.ok_PutPod|]. intros k q. cbn. rewrite lookup_insert.
    case_decide; [intros; naive_solver|apply Hn].
Qed.

(** ** Schedules *)

Module ReapingWitness.
Import EgressWitness ControllerWitness.

Notation sysm := (sys (K:=kstate) (T:=Memory.Memory)).
Notation happened := (history (K:=kstate) (O:=()) (api:=toy_api) (T:=Memory.Memory) (15 * Minute)).

(** Bob's session of the Jira server is ready and nothing is running. *)
Definition y0 : sysm := mkSys [] RIdle (k1 bob ∅, Memory.NewMemory, []) ∅ (0, false).
Definition q0 : freq := mkFreq bob_name 100 None.
Definition bob_record : Pod := mkPod (mkPodKey "bob" "jira") bob_name "http://10.0.0.9:8443" PhaseReady 50 "cfg1" "t".

Lemma y0_quiet : quiet y0.
Proof. split_and!; [done..| |done]. split; [apply Memory.ok_NewMemory|]. intros k p. cbn. by rewrite lookup_empty. Qed.

(** A request to its end, a second one to its touch, and twenty minutes later the reaper. *)
Notation served := ([VPut bob_record; VArrive q0] ++ repeat (VRequest 0) 5 ++ [VArrive q0; VRequest 1; VRequest 1]).


Notation idle_now := ([VPut bob_record; VArrive q0] ++ repeat (VRequest 0) 5 ++ [VSweep now2; VReap; VReap]).


(** The reads and the termination are separate calls: a request that arrives between
    them is being forwarded when its pod is taken away. *)
Example request_after_read_is_cut :
  let y := happened (idle_now ++ [VArrive q0; VRequest 1; VRequest 1] ++ repeat VReap 3) y0 in
  (y_world y).2 = [(bob_name, "idle")] ∧ busy bob_name (y_reqs y) = 1.
Proof. vm_compute. split; reflexivity. Qed.

(** Deleting a record forgets the requests that are being forwarded.  Bob releases his
    session during a long call and uses the server again, which gives him a pod of the
    same name; the end of the first call takes the second one out of the count, and the
    reaper, twenty minutes later, takes the pod of a running call for idle. *)
Notation reused :=
  ([VPut bob_record; VArrive q0; VRequest 0; VRequest 0; VDelete (mkPodKey "bob" "jira"); VPut bob_record;
    VArrive q0; VRequest 1; VRequest 1; VRequest 0; VRequest 0; VRequest 0]).

Example late_release_hides_request :
  let y1 := happened reused y0 in
  let y2 := happened (reused ++ VSweep now2 :: repeat VReap 5) y0 in
  (busy bob_name (y_reqs y1) = 1 ∧ ac_inflight bob_name (y_t y1) = 0) ∧
  (y_world y2).2 = [(bob_name, "idle")] ∧ busy bob_name (y_reqs y2) = 1.
Proof. vm_compute. split_and!; reflexivity. Qed.
End ReapingWitness.
