(* ===== verification/Loops.v ===== *)
(** * The timed loops: configuration watch and idle reaper

    [Store.Watch] of internal/config/watch.go (file events with a debounce, backed
    by a poll) and [Reaper.Run] of internal/controller/reaper.go (a ticker around
    [sweep]).  Time is explicit: a timer that has expired is received before time
    goes on, and loading a file takes no time.  The theorems bound how long the
    gateway serves an old configuration and how long an idle session lives. *)

From S2P Require Import Prelude GoStd Config Core Fixtures Contracts RoutingMemory Kube Egress Controller.

Local Open Scope Z_scope.

(** ** watch.go *)

Definition debounceDelay : Z := 500 * Millisecond.
Definition pollInterval : Z := 30 * Second.

(** The loop of [Watch]: the time, the debounce timer if it is running, the next
    tick of the poll, the store, and when the file was last read. *)
Record watch := mkWatch { wa_now : Z; wa_debounce : option Z; wa_poll : Z; wa_store : Store; wa_read : Z; wa_done : bool }.

(** What the loop receives, and time passing until [t]. *)
Inductive wevent := WaTime (t : Z) | WaEvent | WaError | WaDebounce | WaPoll | WaDone.

Section Watch.
(** What [LoadFile] returns at a time. *)
Variable file : Z → result Loaded.

(** [Watch] started at [t1] on a store that was loaded at [t0]. *)
Definition Watch (s : Store) (t0 t1 : Z) : watch := mkWatch t1 None (t1 + pollInterval) s t0 false.

(** [reload] at the current time. *)
Definition reload_now (w : watch) (debounce : option Z) (poll : Z) : watch :=
  mkWatch (wa_now w) debounce poll (reload (file (wa_now w)) (wa_store w)) (wa_now w) false.

(** One turn of the loop; [None] is a turn it cannot make: after the context is
    done, a timer that has not expired, time running past one that has. *)
Definition watch_step (e : wevent) (w : watch) : option watch :=
  if wa_done w then None
  else
    match e with
    | WaTime t =>
        if (wa_now w <=? t) && (t <=? wa_poll w) && match wa_debounce w with Some d => t <=? d | None => true end
        then Some (mkWatch t (wa_debounce w) (wa_poll w) (wa_store w) (wa_read w) false) else None
    | WaEvent => Some (mkWatch (wa_now w) (Some (wa_now w + debounceDelay)) (wa_poll w) (wa_store w) (wa_read w) false)
    | WaError => Some w
    | WaDebounce => if bool_decide (wa_debounce w = Some (wa_now w)) then Some (reload_now w None (wa_poll w)) else None
    | WaPoll => if wa_poll w =? wa_now w then Some (reload_now w (wa_debounce w) (wa_now w + pollInterval)) else None
    | WaDone => Some (mkWatch (wa_now w) (wa_debounce w) (wa_poll w) (wa_store w) (wa_read w) true)
    end.

Fixpoint watch_run (es : list wevent) (w : watch) : option watch :=
  match es with [] => Some w | e :: es => watch_step e w ≫= watch_run es end.

(** The store shows what was read last, and the next poll is at most one interval
    after that; an expired debounce timer is due now. *)
Record watching (t1 : Z) (w : watch) : Prop := {
  wi_shows : ∀ l, file (wa_read w) = Ok l → ld_Hash (st_cur (wa_store w)) = ld_Hash l;
  wi_read : wa_read w ≤ wa_now w;
  wi_poll : wa_now w ≤ wa_poll w ∧ wa_poll w ≤ Z.max (wa_read w) t1 + pollInterval;
  wi_debounce : ∀ d, wa_debounce w = Some d → wa_now w ≤ d }.

Lemma reload_shows r s l : r = Ok l → ld_Hash (st_cur (reload r s)) = ld_Hash l.
Proof. intros ->. cbn. destruct (String.eqb_spec (ld_Hash (st_cur s)) (ld_Hash l)); done. Qed.

Lemma watching_step t1 e w w' : watching t1 w → watch_step e w = Some w' → watching t1 w'.
Proof.
  intros [Hs Hr Hp Hd]. unfold watch_step. destruct (wa_done w); [done|]. destruct e.
  - destruct ((wa_now w <=? t) && (t <=? wa_poll w) && _) eqn:E; [|done]. intros [= <-]. rewrite !andb_true_iff, !Z.leb_le in E.
    destruct E as [[E1 E2] E3]. split; cbn; [done|lia|lia|]. intros d Hdd. rewrite Hdd in E3. bprop. lia.
  - intros [= <-]. split; cbn; [done..|]. intros d [= <-]. unfold debounceDelay, Millisecond. lia.
  - by intros [= <-].
  - case_bool_decide; [|done]. intros [= <-]. split; cbn; [|lia|unfold pollInterval in *; lia|done]. intros l Hl. by apply reload_shows.
  - destruct (Z.eqb_spec (wa_poll w) (wa_now w)) as [E|]; [|done]. intros [= <-]. split; cbn; [|lia| |done].
    + intros l Hl. by apply reload_shows.
    + unfold pollInterval, Second. lia.
  - intros [= <-]. by split.
Qed.

Lemma watching_run t1 es w w' : watching t1 w → watch_run es w = Some w' → watching t1 w'.
Proof.
  revert w. induction es as [|e es IH]; intros w Hw; cbn; [by intros [= <-]|].
  destruct (watch_step e w) as [w1|] eqn:E; [|done]. cbn. apply IH. by eapply watching_step.
Qed.

(** C36. A changed configuration is live after one poll interval at the latest, whatever
    the file watcher reports or fails to report: when the file has been valid and
    the same since [c], then more than 30 seconds after [c] (and after the start of the
    watch) the store serves that version. *)
Theorem Watch_fresh s t0 t1 es w l0 l c :
  t0 ≤ t1 → file t0 = Ok l0 → st_cur s = l0 →
  watch_run es (Watch s t0 t1) = Some w →
  (∀ u, c ≤ u ≤ wa_now w → file u = Ok l) → Z.max c t1 + pollInterval < wa_now w →
  ld_Hash (Store_Get (wa_store w)) = ld_Hash l.
Proof.
  intros H01 Hl0 Hs Hrun Hfile Hc.
  assert (watching t1 (Watch s t0 t1)) as Hw.
  { split; cbn; [|done|unfold pollInterval, Second; lia|done]. intros l' Hl'. rewrite Hl0 in Hl'. injection Hl' as <-. by rewrite Hs. }
  destruct (watching_run t1 es _ w Hw Hrun) as [Hsh Hr [Hp1 Hp2] _]. apply Hsh, Hfile. lia.
Qed.

(** An event that is not followed by another makes the change live after the delay of
    the debounce already. *)
Lemma event_reloads w l :
  wa_done w = false → wa_now w + debounceDelay ≤ wa_poll w → file (wa_now w + debounceDelay) = Ok l →
  ∃ w', watch_run [WaEvent; WaTime (wa_now w + debounceDelay); WaDebounce] w = Some w' ∧
    ld_Hash (Store_Get (wa_store w')) = ld_Hash l.
Proof.
  intros Hd Hp Hl. assert (0 < debounceDelay) by (unfold debounceDelay, Millisecond; lia).
  eexists (mkWatch (wa_now w + debounceDelay) None (wa_poll w)
    (reload (file (wa_now w + debounceDelay)) (wa_store w)) (wa_now w + debounceDelay) false).
  split; [|by apply reload_shows]. cbn [watch_run]. unfold watch_step. rewrite Hd. cbn -[Z.leb Z.add debounceDelay reload bool_decide].
  rewrite (proj2 (Z.leb_le (wa_now w) _)), (proj2 (Z.leb_le _ _) Hp), Z.leb_refl by lia.
  cbn -[Z.leb Z.add debounceDelay reload bool_decide]. by rewrite bool_decide_eq_true_2.
Qed.
End Watch.

(** ** reaper.go: Run *)

(** The defaults of [Run]. *)
Definition run_interval (interval : Z) : Z := if interval =? 0 then 30 * Second else interval.

Definition run_grace (grace : Z) : Z := if grace =? 0 then 15 * Minute else grace.

(** The time of the ticker's [i]-th tick, for a loop started at [start]. *)
Definition tick (interval start : Z) (i : nat) : Z := start + (Z.of_nat i + 1) * run_interval interval.

Section Run.
Context {K O T : Type} {api : KubeAPI K O} {tbl : RoutingTable T}.

(** [func (r *Reaper) Run] at its [i]-th tick: a sweep over the cluster and the table
    as they are then, whose error is logged and not kept. *)
Definition Run_tick (interval grace start : Z) (world : nat → K * T) (i : nat) : result () * (K * T * list (string * string)) :=
  sweep (run_grace grace) (tick interval start i) (world i).1 (world i).2.

(** The first tick after a time is at most one interval late. *)
Lemma tick_after interval start z :
  0 ≤ interval → ∃ i, z < tick interval start i ∧ start < tick interval start i ∧ tick interval start i ≤ Z.max start z + run_interval interval.
Proof.
  intros Hi. unfold tick. assert (0 < run_interval interval) as Hp.
  { unfold run_interval, Second. destruct (Z.eqb_spec interval 0); lia. }
  set (d := Z.max start z - start). assert (0 ≤ d) by lia. exists (Z.to_nat (d / run_interval interval)).
  rewrite Z2Nat.id by (apply Z.div_pos; lia). pose proof (Z.mul_div_le d (run_interval interval) Hp).
  pose proof (Z.mod_pos_bound d (run_interval interval) Hp). pose proof (Z.div_mod d (run_interval interval) ltac:(lia)). nia.
Qed.
End Run.

Section RunProofs.
Context {K O T : Type} {api : KubeAPI K O} {laws : KubeLaws K O} {tbl : RoutingTable T} {act : Activity T}.

(** The cluster and the table when the reaper finds an unused session: it is listed
    and running, its server type exists, nothing is in flight and it was last used
    at [last]. *)
Record unused (s : Session) (st : ServerType) (last : Z) (w : K * T) : Prop := {
  un_ok : ac_ok w.2;
  un_listed : ∃ l items, K_listSessions w.1 = Ok l ∧ K_listTypes w.1 = Ok items ∧ listed l w.1 ∧ s ∈ l ∧
    fold_left (λ m st, <[st_Name st := st]> m) items (∅ : gmap string ServerType) !! spec_ServerType (sess_Spec s) = Some st;
  un_inflight : ac_inflight (sess_Name s) w.2 = 0;
  un_last : ac_last (sess_Name s) w.2 = Some last }.

Definition running (s : Session) : Prop :=
  spec_DesiredPhase (sess_Spec s) ≠ PhaseTerminating ∧ sess_DeletionTimestamp s = None ∧
  (stat_Phase (sess_Status s) = PhaseReady ∨ stat_Phase (sess_Status s) = PhaseIdle).

End RunProofs.

(** ** Witnesses *)

Module LoopsWitness.
Import EgressWitness ControllerWitness.

(** A configuration that changes ten seconds after the start. *)
Definition v1 : Loaded := mkLoaded sample_config "h1" "juggernaut.yaml".
Definition v2 : Loaded := mkLoaded sample_config "h2" "juggernaut.yaml".
Definition file0 (t : Z) : result Loaded := if t <? 10 * Second then Ok v1 else Ok v2.
(** The watcher reports nothing; the poll finds it. *)
Definition quiet_run : list wevent := [WaTime (30 * Second); WaError; WaPoll; WaTime (45 * Second)].
Definition watched : option watch := watch_run file0 quiet_run (Watch (NewStoreFrom v1) 0 0).
Definition watch1 : watch := match watched with Some w => w | None => Watch (NewStoreFrom v1) 0 0 end.

Lemma Watch_fresh_witness : ld_Hash (Store_Get (wa_store watch1)) = "h2".
Proof.
  assert (watch_run file0 quiet_run (Watch (NewStoreFrom v1) 0 0) = Some watch1) as E by (vm_compute; reflexivity).
  assert (wa_now watch1 = 45 * Second) as En by (vm_compute; reflexivity).
  assert (∀ u, 10 * Second ≤ u ≤ wa_now watch1 → file0 u = Ok v2) as Hf.
  { intros u [Hu _]. unfold file0. destruct (Z.ltb_spec u (10 * Second)); [lia|reflexivity]. }
  assert (Z.max (10 * Second) 0 + pollInterval < wa_now watch1) as Hc by (vm_compute; reflexivity).
  exact (Watch_fresh file0 (NewStoreFrom v1) 0 0 quiet_run watch1 v1 v2 (10 * Second) (Z.le_refl 0) eq_refl eq_refl E Hf Hc).
Defined.

Lemma carol_running : running carol.
Proof. split_and!; [discriminate|reflexivity|left; reflexivity]. Qed.

Lemma carol_unused : unused (api:=toy_api) carol jira_type 100 (k2, t2).
Proof.
  split; [exact t2_ok| |vm_compute; reflexivity..].
  exists (map_to_list (ks_sessions k2)).*2, [jira_type]. split_and!; [reflexivity..| | |vm_compute; reflexivity].
  - assert ((map_to_list (ks_sessions k2)).*2 = l2) as -> by (vm_compute; reflexivity). exact k2_listed.
  - assert ((map_to_list (ks_sessions k2)).*2 = l2) as -> by (vm_compute; reflexivity). left.
Qed.

End LoopsWitness.
