(* ===== verification/Pki.v ===== *)
(** * internal/pki and internal/controller/pki.go: certificates for mutual TLS

    The certificate authority (NewCA, LoadCA, PEM, issue), the controller's
    bootstrap of the CA and of the gateway's client certificate, and both ends of
    the handshake: [verifyChain] of the gateway (Proxy.v) and the wrapper's check
    (WrapperServer.v).  crypto/x509, encoding/pem and net/url are parameters. *)

From S2P Require Import Prelude GoStd Sha256 Config Core Fixtures Contracts RoutingMemory RoutingRedis Vault Policy Manager Proxy Gateway Router Wrapper WrapperServer Kube Egress Controller AuditLog.

Local Open Scope Z_scope.

Inductive ExtKeyUsage := ExtKeyUsageServerAuth | ExtKeyUsageClientAuth.
#[export] Instance ExtKeyUsage_eq : EqDecision ExtKeyUsage.
Proof. solve_decision. Defined.

(** The fields of [x509.Certificate] the package fills in. *)
Record Template := mkTemplate {
  tm_CommonName : string; tm_NotBefore : Z; tm_NotAfter : Z; tm_IsCA : bool; tm_ExtKeyUsage : list ExtKeyUsage;
  tm_URIs : list string; tm_IPAddresses : list string }.

(** What the package uses of crypto/ecdsa, crypto/x509, encoding/pem and net/url;
    the randomness of a key is an argument, the serial number is left out. *)
Class X509Lib := {
  Key : Type;
  Cert : Type;
  ecdsa_GenerateKey : Z → result Key;
  CreateCertificate : Template → option Cert → Key → Key → result string;  (* template, parent, public key, signer *)
  ParseCertificate : string → result Cert;
  MarshalECPrivateKey : Key → result string;
  ParseECPrivateKey : string → result Key;
  cert_Raw : Cert → string;
  cert_Fields : Cert → Template;
  cert_Verify : Cert → list Cert → ExtKeyUsage → Z → Cert → bool;  (* root, intermediates, usage, time, leaf *)
  pem_Encode : string → string → string;
  pem_Decode : string → option string;
  url_Parse : string → option (string * string * string) }.  (* scheme, String(), Path *)

(** ** pki.go *)

(** [type CA struct] and [type Bundle struct] *)
Record CA `{!X509Lib} := mkCA { ca_Cert : Cert; ca_Key : Key }.
Record Bundle := mkBundle { b_CertPEM : string; b_KeyPEM : string; b_CAPEM : string }.

Section PKI.
Context `{!X509Lib}.

(** [func NewCA] *)
Definition NewCA (seed now : Z) (commonName : string) : result CA :=
  match ecdsa_GenerateKey seed with
  | Err e => Err e
  | Ok key =>
      let tmpl := mkTemplate commonName (now - 5 * Minute) (now + 10 * 365 * 24 * Hour) true [] [] [] in
      match CreateCertificate tmpl None key key with
      | Err e => Err e
      | Ok der => match ParseCertificate der with Err e => Err e | Ok cert => Ok (mkCA _ cert key) end
      end
  end.

(** [func LoadCA] *)
Definition LoadCA (certPEM keyPEM : string) : result CA :=
  match pem_Decode certPEM, pem_Decode keyPEM with
  | Some cb, Some kb =>
      match ParseCertificate cb with
      | Err e => Err e
      | Ok cert => match ParseECPrivateKey kb with Err e => Err e | Ok key => Ok (mkCA _ cert key) end
      end
  | _, _ => Err (EMsg "pki: CA PEM is incomplete")
  end.

(** [func (ca *CA) PEM] *)
Definition CA_PEM (ca : CA) : result (string * string) :=
  match MarshalECPrivateKey (ca_Key ca) with
  | Err e => Err e
  | Ok kd => Ok (pem_Encode "CERTIFICATE" (cert_Raw (ca_Cert ca)), pem_Encode "EC PRIVATE KEY" kd)
  end.

(** [func (ca *CA) issue] *)
Definition issue (seed now : Z) (ca : CA) (spiffeID : string) (ips : list string) (ttl : Z) (usage : ExtKeyUsage)
    : result Bundle :=
  match url_Parse spiffeID with
  | Some (scheme, text, path) =>
      if negb (String.eqb scheme "spiffe") then Err (EMsg "pki: not a spiffe URI")
      else
        match ecdsa_GenerateKey seed with
        | Err e => Err e
        | Ok key =>
            let tmpl := mkTemplate path (now - 5 * Minute) (now + ttl) false [usage] [text] ips in
            match CreateCertificate tmpl (Some (ca_Cert ca)) key (ca_Key ca) with
            | Err e => Err e
            | Ok der =>
                match MarshalECPrivateKey key with
                | Err e => Err e
                | Ok kd => Ok (mkBundle (pem_Encode "CERTIFICATE" der) (pem_Encode "EC PRIVATE KEY" kd)
                                 (pem_Encode "CERTIFICATE" (cert_Raw (ca_Cert ca))))
                end
            end
        end
  | None => Err (EMsg "pki: not a spiffe URI")
  end.
(** [func (ca *CA) IssueServer] and [IssueClient] *)
Definition IssueServer (seed now : Z) (ca : CA) (spiffeID : string) (ips : list string) (ttl : Z) : result Bundle :=
  issue seed now ca spiffeID ips ttl ExtKeyUsageServerAuth.
Definition IssueClient (seed now : Z) (ca : CA) (spiffeID : string) (ttl : Z) : result Bundle :=
  issue seed now ca spiffeID [] ttl ExtKeyUsageClientAuth.

(** [func ParseCert] of parse.go *)
Definition ParseCert (certPEM : string) : result Cert :=
  match pem_Decode certPEM with None => Err (EMsg "pki: no PEM certificate") | Some b => ParseCertificate b end.

(** The controller's CA as Controller.v sees it. *)
Definition CA_pki (seed now : Z) (ca : CA) (trustDomain : string) : PodPKI :=
  mkPodPKI trustDomain (λ id ttl, (λ b, (b_CertPEM b, b_KeyPEM b, b_CAPEM b)) <$> IssueServer seed now ca id [] ttl).
End PKI.

(** ** controller/pki.go *)

(** The Secrets of the system namespace. *)
Class SysSecrets (K : Type) := {
  S_get : string → K → result (gmap string string);
  S_create : string → gmap string string → K → result () * K;
  S_update : string → gmap string string → K → result () * K }.

Definition IsAlreadyExists (e : gerror) : bool := errors_Is e ErrAlreadyExists.

Section PodPKI.
Context `{!X509Lib} {K} `{!SysSecrets K}.
Variables (cfg : MTLS) (now seed seed2 : Z).

(** The end of [ensureGatewayCert]: issue, then create or update the Secret. *)
Definition issueGatewayCert (ca : CA) (k : K) : result () * K :=
  match IssueClient seed2 now ca (pki_GatewayID (mt_TrustDomain cfg)) (90 * 24 * Hour) with
  | Err e => (Err e, k)
  | Ok b =>
      let data := {["tls.crt" := b_CertPEM b; "tls.key" := b_KeyPEM b; "ca.crt" := b_CAPEM b]} in
      match S_create (mt_GatewaySecretName cfg) data k with
      | (Ok _, k) => (Ok (), k)
      | (Err e, k) => if IsAlreadyExists e then S_update (mt_GatewaySecretName cfg) data k else (Err e, k)
      end
  end.

(** [func (p *PodPKI) ensureGatewayCert] *)
Definition ensureGatewayCert (ca : CA) (k : K) : result () * K :=
  match S_get (mt_GatewaySecretName cfg) k with
  | Ok data =>
      match ParseCert (default "" (data !! "tls.crt")) with
      | Ok c => if 7 * 24 * Hour <? tm_NotAfter (cert_Fields c) - now then (Ok (), k) else issueGatewayCert ca k
      | Err _ => issueGatewayCert ca k
      end
  | Err e => if IsNotFound e then issueGatewayCert ca k else (Err e, k)
  end.

(** [func (p *PodPKI) Ensure]: the CA kept in memory, if any. *)
Definition Ensure (k : K) : result () * option CA * K :=
  let with_ca ca k := let '(r, k) := ensureGatewayCert ca k in (r, Some ca, k) in
  match S_get (mt_CASecretName cfg) k with
  | Ok data =>
      match LoadCA (default "" (data !! "ca.crt")) (default "" (data !! "ca.key")) with
      | Err e => (Err (EWrap "load pod CA" e), None, k)
      | Ok ca => with_ca ca k
      end
  | Err e =>
      if IsNotFound e then
        match NewCA seed now "juggernaut pod CA" with
        | Err e => (Err e, None, k)
        | Ok ca =>
            match CA_PEM ca with
            | Err e => (Err e, None, k)
            | Ok (certPEM, keyPEM) =>
                match S_create (mt_CASecretName cfg) {["ca.crt" := certPEM; "ca.key" := keyPEM]} k with
                | (Ok _, k) => with_ca ca k
                | (Err e, k) => if IsAlreadyExists e then with_ca ca k else (Err (EWrap "create pod CA" e), None, k)
                end
            end
        end
      else (Err e, None, k)
  end.
End PodPKI.

(** ** session_controller.go: the wrapper's side of the configuration *)

(** The object [withWrapperTLS] puts under "tls". *)
Definition wrapper_tls (trustDomain : string) : list (string * any) :=
  [("certFile", AString "/run/juggernaut-secret/tls.crt"); ("keyFile", AString "/run/juggernaut-secret/tls.key");
   ("clientCAFile", AString "/run/juggernaut-secret/ca.crt"); ("gatewayURI", AString (pki_GatewayID trustDomain))].

(** [func withWrapperTLS]: what is not an object, or cannot be written back,
    stays as it is. *)
Definition withWrapperTLS `{!JSONText} (wrapperJSON trustDomain : string) : string :=
  match js_Unmarshal wrapperJSON with
  | Some (AMap m) =>
      default wrapperJSON
        (js_Marshal (AMap (List.filter (λ kv, negb (String.eqb kv.1 "tls")) m ++ [("tls", AMap (wrapper_tls trustDomain))])))
  | _ => wrapperJSON
  end.

(** ** Documented behaviour of the libraries *)

(** Letters, digits, dash and dot, in a path also slashes: text that a URL keeps
    as it is. *)
Definition host_char (c : ascii) : bool :=
  let n := Ascii.nat_of_ascii c in
  ((97 <=? n) && (n <=? 122))%nat || ((48 <=? n) && (n <=? 57))%nat || existsb (Ascii.eqb c) ["-"; "."]%char.
Definition plain_host (s : string) : bool := str_forallb host_char s.
Definition plain (s : string) : bool := str_forallb (λ c, host_char c || Ascii.eqb c "/") s.

(** Encodings round-trip; a certificate carries the fields of its template; a
    leaf created under a CA verifies against it within both validity periods for
    a usage it lists, and never for a usage missing from a list it has. *)
Class X509Laws `{!X509Lib} := {
  pem_roundtrip : ∀ t b, pem_Decode (pem_Encode t b) = Some b;
  key_roundtrip : ∀ key s, MarshalECPrivateKey key = Ok s → ParseECPrivateKey s = Ok key;
  raw_parse : ∀ der c, ParseCertificate der = Ok c → cert_Raw c = der;
  create_fields : ∀ t parent pub key der, CreateCertificate t parent pub key = Ok der →
    ∃ c, ParseCertificate der = Ok c ∧ cert_Fields c = t;
  verify_issued : ∀ root rt t key pub der rder rc c inter u now,
    CreateCertificate rt None key key = Ok rder → ParseCertificate rder = Ok root → tm_IsCA rt = true →
    CreateCertificate t (Some root) pub key = Ok der → ParseCertificate der = Ok c → rc = root →
    tm_NotBefore rt ≤ now ≤ tm_NotAfter rt → tm_NotBefore t ≤ now ≤ tm_NotAfter t → u ∈ tm_ExtKeyUsage t →
    cert_Verify rc inter u now c = true;
  verify_usage : ∀ root inter u now c, cert_Verify root inter u now c = true →
    tm_ExtKeyUsage (cert_Fields c) = [] ∨ u ∈ tm_ExtKeyUsage (cert_Fields c);
  url_plain : ∀ td path, plain_host td = true → plain path = true →
    url_Parse ("spiffe://" +:+ td +:+ "/" +:+ path) = Some ("spiffe", "spiffe://" +:+ td +:+ "/" +:+ path, "/" +:+ path) }.

(** ** The authority *)

Section Authority.
Context `{!X509Lib, !X509Laws}.

Lemma NewCA_inv seed now cn ca :
  NewCA seed now cn = Ok ca →
  ∃ der, CreateCertificate (mkTemplate cn (now - 5 * Minute) (now + 10 * 365 * 24 * Hour) true [] [] []) None (ca_Key ca) (ca_Key ca) = Ok der ∧
    ParseCertificate der = Ok (ca_Cert ca).
Proof.
  unfold NewCA. destruct (ecdsa_GenerateKey seed) as [key|]; [|done]. destruct (CreateCertificate _ _ _ _) as [der|] eqn:Ec; [|done].
  destruct (ParseCertificate der) as [c|] eqn:Ep; [|done]. intros [= <-]. by exists der.
Qed.

(** A CA written as PEM is read back as the same authority. *)
Lemma LoadCA_PEM seed now cn ca certPEM keyPEM :
  NewCA seed now cn = Ok ca → CA_PEM ca = Ok (certPEM, keyPEM) → LoadCA certPEM keyPEM = Ok ca.
Proof.
  intros (der & _ & Hp)%NewCA_inv. unfold CA_PEM, LoadCA. destruct (MarshalECPrivateKey _) as [kd|] eqn:Ek; [|done].
  intros [= <- <-]. rewrite !pem_roundtrip, (raw_parse _ _ Hp), Hp, (key_roundtrip _ _ Ek). by destruct ca.
Qed.

(** What [issue] puts into a bundle. *)
Lemma issue_inv seed now ca td path ips ttl usage b :
  plain_host td = true → plain path = true →
  issue seed now ca ("spiffe://" +:+ td +:+ "/" +:+ path) ips ttl usage = Ok b →
  let id := "spiffe://" +:+ td +:+ "/" +:+ path in
  let t := mkTemplate ("/" +:+ path) (now - 5 * Minute) (now + ttl) false [usage] [id] ips in
  ∃ der c pub, pem_Decode (b_CertPEM b) = Some der ∧ CreateCertificate t (Some (ca_Cert ca)) pub (ca_Key ca) = Ok der ∧
    ParseCertificate der = Ok c ∧ cert_Fields c = t.
Proof.
  intros Htd Hp. unfold issue. rewrite url_plain by done. cbn [String.eqb negb Ascii.eqb Bool.eqb].
  destruct (ecdsa_GenerateKey seed) as [key|]; [|done]. destruct (CreateCertificate _ _ _ _) as [der|] eqn:Ec; [|done].
  destruct (MarshalECPrivateKey key); [|done]. intros [= <-]. destruct (create_fields _ _ _ _ _ Ec) as (c & Hc & Hf).
  exists der, c, key. cbn [b_CertPEM]. by rewrite pem_roundtrip.
Qed.

(** The gateway's view of the CA: [leaf.Verify] with the CA as the only root. *)
Definition gateway_x509 (ca : CA) (now : Z) : X509 := {|
  x_cert := Cert;
  x_Parse raw := match ParseCertificate raw with Ok c => Some c | Err _ => None end;
  x_Verify leaf inter := cert_Verify (ca_Cert ca) inter ExtKeyUsageServerAuth now leaf;
  x_URIs c := tm_URIs (cert_Fields c) |}.

(** The wrapper's side: crypto/tls verifies the client's chain against the CA for
    client authentication, then calls [verifyGateway] with the verified chain. *)
Definition wrapper_accepts (ca : CA) (now : Z) (want raw : string) : bool :=
  match ParseCertificate raw with
  | Ok c => cert_Verify (ca_Cert ca) [] ExtKeyUsageClientAuth now c &&
            is_ok (verifyGateway want [[tm_URIs (cert_Fields c)]])
  | Err _ => false
  end.

Lemma verify_leaf seed now0 cn ca t pub der c inter u now :
  NewCA seed now0 cn = Ok ca → CreateCertificate t (Some (ca_Cert ca)) pub (ca_Key ca) = Ok der → ParseCertificate der = Ok c →
  now0 - 5 * Minute ≤ now ≤ now0 + 10 * 365 * 24 * Hour → tm_NotBefore t ≤ now ≤ tm_NotAfter t → u ∈ tm_ExtKeyUsage t →
  cert_Verify (ca_Cert ca) inter u now c = true.
Proof.
  intros (rder & Hr & Hrp)%NewCA_inv Hc Hp Hn Ht Hu.
  eapply verify_issued; [exact Hr|exact Hrp|done|exact Hc|exact Hp|done|done|done|done].
Qed.

Lemma session_id_shape td pod : pki_SessionID td pod = "spiffe://" +:+ td +:+ "/" +:+ ("session/" +:+ pod).
Proof. done. Qed.
Lemma gateway_id_shape td : pki_GatewayID td = "spiffe://" +:+ td +:+ "/" +:+ "gateway".
Proof. done. Qed.
Lemma session_not_gateway td pod : pki_SessionID td pod ≠ pki_GatewayID td.
Proof.
  unfold pki_SessionID, pki_GatewayID. intros E. apply str_app_inj_l in E. by apply str_app_inj_l in E.
Qed.

Lemma session_prefix td pod : pki_SessionID td pod = ("spiffe://" +:+ td +:+ "/session/") +:+ pod.
Proof. unfold pki_SessionID. by rewrite !str_app_assoc. Qed.

Lemma verifyChain_pod ca now td pod raw c want :
  ParseCertificate raw = Ok c → cert_Verify (ca_Cert ca) [] ExtKeyUsageServerAuth now c = true →
  tm_URIs (cert_Fields c) = [pki_SessionID td pod] → pod ≠ "" →
  verifyChain (x:=gateway_x509 ca now) td [raw] want = Ok () ↔ want = "" ∨ want = pod.
Proof.
  intros Hp Hv Hu Hne. unfold verifyChain. cbn [x_Parse x_Verify x_URIs gateway_x509 omap list_omap].
  rewrite Hp.
  replace (cert_Verify _ _ _ _ _) with true by (symmetry; exact Hv). cbn [negb x_URIs gateway_x509]. rewrite Hu, session_prefix. cbn [existsb].
  set (pre := "spiffe://" +:+ td +:+ "/session/").
  assert ((String.length pre <? String.length (pre +:+ pod))%nat = true) as ->.
  { apply Nat.ltb_lt. rewrite str_length_app. destruct pod; [done|]. cbn [String.length]. lia. }
  rewrite str_take_app, str_drop_app, String.eqb_refl, orb_false_r. cbn [andb].
  destruct (String.eqb_spec want ""); [naive_solver|].
  destruct (String.eqb_spec pod want); cbn [orb]; naive_solver.
Qed.

Lemma verify_other_usage root inter now c u u' :
  tm_ExtKeyUsage (cert_Fields c) = [u'] → u ≠ u' → cert_Verify root inter u now c = false.
Proof.
  intros Hu Hne. destruct (cert_Verify root inter u now c) eqn:E; [|done]. apply verify_usage in E. rewrite Hu in E.
  destruct E as [|E]; [done|]. by apply list_elem_of_singleton in E.
Qed.

End Authority.

(** ** The bootstrap *)

(** Documented behaviour of the API server for Secrets. *)
Class SysLaws (K : Type) `{!SysSecrets K} := {
  sl_create : ∀ n d k k', S_create n d k = (Ok (), k') →
    S_get n k' = Ok d ∧ ∀ m, m ≠ n → S_get m k' = S_get m k;
  sl_create_exists : ∀ n d k e k', S_create n d k = (Err e, k') → IsAlreadyExists e = true →
    (∃ d0, S_get n k = Ok d0) ∧ ∀ m, S_get m k' = S_get m k;
  sl_update : ∀ n d k k' r, S_update n d k = (r, k') → ∀ m, m ≠ n → S_get m k' = S_get m k;
  sl_create_frame : ∀ n d k m, m ≠ n → S_get m (S_create n d k).2 = S_get m k }.

Section Bootstrap.
Context `{!X509Lib, !X509Laws} {K} `{!SysSecrets K, !SysLaws K}.
Variable cfg : MTLS.
Hypothesis names_differ : mt_CASecretName cfg ≠ mt_GatewaySecretName cfg.

Lemma issueGatewayCert_frame now seed2 ca (k : K) :
  S_get (mt_CASecretName cfg) (issueGatewayCert cfg now seed2 ca k).2 = S_get (mt_CASecretName cfg) k.
Proof.
  unfold issueGatewayCert. destruct (IssueClient _ _ _ _ _) as [b|]; [|done]. cbn zeta.
  match goal with |- context [S_create ?n ?d k] => pose proof (sl_create_frame n d k _ names_differ) as Hfr;
    destruct (S_create n d k) as [[[]|e] k1] end; [done|]. cbn in Hfr.
  destruct (IsAlreadyExists e); [|done].
  match goal with |- context [S_update ?n ?d k1] => destruct (S_update n d k1) as [r k2] eqn:Eu end.
  cbn [snd]. by rewrite (sl_update _ _ _ _ _ Eu _ names_differ).
Qed.

Lemma ensureGatewayCert_frame now seed2 ca (k : K) :
  S_get (mt_CASecretName cfg) (ensureGatewayCert cfg now seed2 ca k).2 = S_get (mt_CASecretName cfg) k.
Proof.
  unfold ensureGatewayCert. destruct (S_get (mt_GatewaySecretName cfg) k) as [data|e].
  - destruct (ParseCert _) as [c|]; [|apply issueGatewayCert_frame]. destruct (_ <? _); [done|apply issueGatewayCert_frame].
  - destruct (IsNotFound e); [apply issueGatewayCert_frame|done].
Qed.

Lemma gmap_ca_fields (crt key : string) :
  ({["ca.crt" := crt; "ca.key" := key]} : gmap string string) !! "ca.crt" = Some crt ∧
  ({["ca.crt" := crt; "ca.key" := key]} : gmap string string) !! "ca.key" = Some key.
Proof. split; reflexivity. Qed.

(** The CA in the controller's memory is the one in the Secret. *)
Definition stored_ca (ca : CA) (k : K) : Prop :=
  ∃ data, S_get (mt_CASecretName cfg) k = Ok data ∧
    LoadCA (default "" (data !! "ca.crt")) (default "" (data !! "ca.key")) = Ok ca.

Lemma Ensure_stored now seed seed2 r ca (k k' : K) :
  Ensure cfg now seed seed2 k = (r, Some ca, k') → stored_ca ca k'.
Proof.
  unfold Ensure. destruct (S_get (mt_CASecretName cfg) k) as [data|e] eqn:Eg.
  - destruct (LoadCA _ _) as [ca0|] eqn:El; [|done].
    destruct (ensureGatewayCert _ _ _ _ _) as [r0 k0] eqn:Ee. intros [= <- <- <-].
    exists data. pose proof (ensureGatewayCert_frame now seed2 ca0 k) as Hfr. rewrite Ee in Hfr. cbn in Hfr. by rewrite Hfr.
  - destruct (IsNotFound e); [|done]. destruct (NewCA seed now _) as [ca0|] eqn:En; [|done].
    destruct (CA_PEM ca0) as [[crt key]|] eqn:Ep; [|done].
    destruct (S_create _ _ _) as [[[]|e'] k0] eqn:Ec; cycle 1.
    { destruct (IsAlreadyExists e') eqn:Ea; [|done]. destruct (sl_create_exists _ _ _ _ _ Ec Ea) as [[d0 Hd] _]. congruence. }
    destruct (sl_create _ _ _ _ Ec) as [Hs _].
    destruct (ensureGatewayCert _ _ _ _ _) as [r0 k1] eqn:Ee. intros [= <- <- <-].
    pose proof (ensureGatewayCert_frame now seed2 ca0 k0) as Hfr. rewrite Ee in Hfr. cbn [snd] in Hfr.
    eexists. rewrite Hfr. split; [exact Hs|]. destruct (gmap_ca_fields crt key) as [-> ->]. cbn [default].
    by eapply LoadCA_PEM.
Qed.

Lemma Ensure_loads now seed seed2 r ca ca' (k k' : K) :
  stored_ca ca k → Ensure cfg now seed seed2 k = (r, ca', k') → ca' = Some ca ∧ stored_ca ca k'.
Proof.
  intros (data & Hg & Hl). unfold Ensure. rewrite Hg, Hl.
  destruct (ensureGatewayCert _ _ _ _ _) as [r0 k0] eqn:Ee. intros [= <- <- <-]. split; [done|].
  exists data. pose proof (ensureGatewayCert_frame now seed2 ca k) as Hfr. rewrite Ee in Hfr. cbn in Hfr. by rewrite Hfr.
Qed.

(** The certificate authority survives restarts: once a bootstrap has brought one
    up, the Secret holds it, and every later bootstrap, whenever it runs and
    whatever else fails in it, comes up with the same authority, so that
    certificates issued before and after verify alike. *)
Theorem Ensure_same_ca now seed seed2 r ca (k k1 : K) (later : list (Z * Z * Z)) :
  Ensure cfg now seed seed2 k = (r, Some ca, k1) →
  let boot x k := Ensure cfg x.1.1 x.1.2 x.2 k in
  let k2 := fold_left (λ k x, (boot x k).2) later k1 in
  stored_ca ca k2 ∧ ∀ x, (boot x k2).1.2 = Some ca.
Proof.
  intros Hca%Ensure_stored boot. cbn zeta. revert k1 Hca. induction later as [|x later IH]; intros k1 Hca; cbn [fold_left].
  - split; [done|]. intros x. unfold boot. destruct (Ensure _ _ _ _ k1) as [[r0 ca0] k0] eqn:E.
    by apply (Ensure_loads _ _ _ _ _ _ _ _ Hca) in E as [-> _].
  - apply IH. unfold boot. destruct (Ensure _ _ _ _ k1) as [[r0 ca0] k0] eqn:E.
    by apply (Ensure_loads _ _ _ _ _ _ _ _ Hca) in E as [_ ?].
Qed.

(** A gateway certificate of another authority is kept as long as it is valid for
    more than seven days: after the CA was replaced, pods refuse the gateway. *)
Lemma foreign_gateway_cert_kept now seed2 ca (k : K) data c :
  S_get (mt_GatewaySecretName cfg) k = Ok data → ParseCert (default "" (data !! "tls.crt")) = Ok c →
  7 * 24 * Hour < tm_NotAfter (cert_Fields c) - now → ensureGatewayCert cfg now seed2 ca k = (Ok (), k).
Proof. intros Hg Hp Ht. unfold ensureGatewayCert. rewrite Hg, Hp. by apply Z.ltb_lt in Ht as ->. Qed.
End Bootstrap.

(** Two controllers that bootstrap at once: the one whose creation comes second is
    told that the Secret exists and goes on with its own CA, not the stored one. *)
Lemma Ensure_race `{!X509Lib} {K} `{!SysSecrets K} cfg now seed seed2 (k k1 : K) e e' ca crt key :
  S_get (mt_CASecretName cfg) k = Err e → IsNotFound e = true →
  NewCA seed now "juggernaut pod CA" = Ok ca → CA_PEM ca = Ok (crt, key) →
  S_create (mt_CASecretName cfg) {["ca.crt" := crt; "ca.key" := key]} k = (Err e', k1) → IsAlreadyExists e' = true →
  (Ensure cfg now seed seed2 k).1.2 = Some ca.
Proof.
  intros Hg Hn Hca Hp Hc He. unfold Ensure. rewrite Hg, Hn, Hca, Hp, Hc, He. by destruct (ensureGatewayCert _ _ _ _ _).
Qed.

(** ** Witnesses *)

Module PkiWitness.
(** A certificate is its template with the subject's and the signer's key. *)
Definition tup : Type := string * Z * Z * bool * list bool * list string * list string * Z * Z.
Definition of_usage (u : ExtKeyUsage) : bool := match u with ExtKeyUsageServerAuth => true | _ => false end.
Definition to_usage (b : bool) : ExtKeyUsage := if b then ExtKeyUsageServerAuth else ExtKeyUsageClientAuth.
Record tcert := mkTcert { tc_tmpl : Template; tc_pub : Z; tc_signer : Z }.
Definition to_tup (c : tcert) : tup :=
  let t := tc_tmpl c in
  (tm_CommonName t, tm_NotBefore t, tm_NotAfter t, tm_IsCA t, of_usage <$> tm_ExtKeyUsage t, tm_URIs t, tm_IPAddresses t,
   tc_pub c, tc_signer c).
Definition from_tup (x : tup) : tcert :=
  let '(cn, nb, na, ca, us, uris, ips, pub, signer) := x in
  mkTcert (mkTemplate cn nb na ca (to_usage <$> us) uris ips) pub signer.
Lemma from_to_tup c : from_tup (to_tup c) = c.
Proof.
  destruct c as [[cn nb na ca us uris ips] pub signer]. unfold to_tup, from_tup. cbn. repeat f_equal.
  rewrite <- list_fmap_compose. rewrite <- (list_fmap_id us) at 2. apply list_fmap_ext. by intros i [] _.
Qed.

Definition codec : JSONCodec tup := countable_codec tup.
Definition der_of (c : tcert) : string := @json_Marshal _ codec (to_tup c).
Definition parse_der (s : string) : result tcert :=
  match @json_Unmarshal _ codec s with
  | Ok x => let c := from_tup x in if String.eqb (der_of c) s then Ok c else Err (EMsg "x509: malformed")
  | Err e => Err e
  end.
Lemma parse_der_of c : parse_der (der_of c) = Ok c.
Proof. unfold parse_der, der_of. rewrite json_roundtrip, from_to_tup. unfold der_of. by rewrite String.eqb_refl. Qed.

#[local] Arguments parse_der : simpl never.
#[local] Arguments der_of : simpl never.

Definition toy_verify (root : tcert) (_ : list tcert) (u : ExtKeyUsage) (now : Z) (c : tcert) : bool :=
  let t := tc_tmpl c in
  tm_IsCA (tc_tmpl root) && (tc_pub root =? tc_signer c) &&
  (tm_NotBefore (tc_tmpl root) <=? now) && (now <=? tm_NotAfter (tc_tmpl root)) &&
  (tm_NotBefore t <=? now) && (now <=? tm_NotAfter t) && bool_decide (u ∈ tm_ExtKeyUsage t).

#[local] Instance toy_lib : X509Lib := {|
  Key := Z; Cert := tcert; ecdsa_GenerateKey seed := Ok seed;
  CreateCertificate t parent pub key := Ok (der_of (mkTcert t pub key));
  ParseCertificate := parse_der; MarshalECPrivateKey key := if in_int64 key then Ok (Itoa key) else Err (EMsg "key");
  ParseECPrivateKey s := match Atoi s with Some n => Ok n | None => Err (EMsg "key") end;
  cert_Raw := der_of; cert_Fields := tc_tmpl; cert_Verify := toy_verify;
  pem_Encode t b := "PEM" +:+ b; pem_Decode s := if HasPrefix s "PEM" then Some (TrimPrefix s "PEM") else None;
  url_Parse s := if HasPrefix s "spiffe://" then
      let '(_, path, ok) := Cut (TrimPrefix s "spiffe://") "/" in Some ("spiffe", s, if ok then "/" +:+ path else "")
    else None |}.

Lemma host_no_slash td : plain_host td = true → CountByte td "/" = 0%nat.
Proof.
  induction td as [|c td IH]; [done|]. unfold plain_host in *. cbn. intros H. bprop.
  destruct (Ascii.eqb_spec c "/") as [->|]; [done|]. by rewrite IH.
Qed.

#[local] Instance toy_lib_laws : X509Laws.
Proof.
  split.
  - intros t b. cbn. by rewrite HasPrefix_app, TrimPrefix_app.
  - intros key s. cbn. destruct (in_int64 key) eqn:E; [|done]. intros [= <-]. by rewrite Atoi_Itoa.
  - intros der c. cbn. unfold parse_der. destruct (json_Unmarshal der) as [x|]; [|done].
    destruct (String.eqb_spec (der_of (from_tup x)) der); [|done]. by intros [= <-].
  - intros t parent pub key der [= <-]. eexists. cbn. by rewrite parse_der_of.
  - intros root rt t key pub der rder rc c inter u now [= <-] Hr Hca [= <-] Hc -> Hn Ht Hu. cbn in Hr, Hc.
    rewrite parse_der_of in Hr, Hc. injection Hr as <-. injection Hc as <-. cbn. unfold toy_verify. cbn.
    rewrite Hca, Z.eqb_refl, bool_decide_eq_true_2 by done. cbn. rewrite andb_true_r.
    repeat (apply andb_true_intro; split); apply Z.leb_le; lia.
  - intros root inter u now c H. cbn in *. unfold toy_verify in H. bprop. by right.
  - intros td path Htd Hp. cbn -[HasPrefix TrimPrefix]. rewrite HasPrefix_app, TrimPrefix_app.
    change ("/" +:+ path) with (String "/" path). by rewrite Cut_byte_found by by apply host_no_slash.
Qed.

(** A pod of alice and the gateway, ten days in. *)
Definition ca0 : CA := mkCA _ (mkTcert (mkTemplate "pod CA" (- 5 * Minute) (10 * 365 * 24 * Hour) true [] [] []) 1 1) 1.
Definition get_bundle (r : result Bundle) : Bundle := match r with Ok b => b | Err _ => mkBundle "" "" "" end.
Definition bp0 : Bundle := get_bundle (IssueServer 2 (24 * Hour) ca0 (pki_SessionID "jug" "jira-alice") [] (300 * 24 * Hour)).
Definition bg0 : Bundle := get_bundle (IssueClient 3 0 ca0 (pki_GatewayID "jug") (90 * 24 * Hour)).

Lemma toy_NewCA seed now cn :
  NewCA seed now cn =
  Ok (mkCA _ (mkTcert (mkTemplate cn (now - 5 * Minute) (now + 10 * 365 * 24 * Hour) true [] [] []) seed seed) seed).
Proof. unfold NewCA. cbn [ecdsa_GenerateKey CreateCertificate ParseCertificate toy_lib]. by rewrite parse_der_of. Qed.


(** Secrets of one namespace as a map. *)
Notation kmap := (gmap string (gmap string string)).
#[local] Instance map_secrets : SysSecrets kmap := {|
  S_get n k := match k !! n with Some d => Ok d | None => Err ErrNotFound end;
  S_create n d k := match k !! n with Some _ => (Err ErrAlreadyExists, k) | None => (Ok (), <[n := d]> k) end;
  S_update n d k := match k !! n with Some _ => (Ok (), <[n := d]> k) | None => (Err ErrNotFound, k) end |}.
#[local] Instance map_secret_laws : SysLaws kmap.
Proof.
  split.
  - intros n d k k'. cbn [S_create S_get map_secrets]. destruct (k !! n); intros [= <-]. rewrite lookup_insert_eq. split; [done|].
    intros m Hm. by rewrite lookup_insert_ne by done.
  - intros n d k e k'. cbn. destruct (k !! n); intros [= <- <-]. intros _. eauto.
  - intros n d k k' r. cbn [S_update S_get map_secrets]. destruct (k !! n); intros [= <- <-] m Hm; [|done]. by rewrite lookup_insert_ne by done.
  - intros n d k m Hm. cbn [S_create S_get map_secrets]. destruct (k !! n); cbn [snd]; [done|]. by rewrite lookup_insert_ne by done.
Qed.

Definition cfg0 : MTLS := mkMTLS "" "" "" "juggernaut-pod-ca" "juggernaut-gateway-client-tls" "jug".
Definition ca1 : CA := mkCA _ (mkTcert (mkTemplate "juggernaut pod CA" (7 - 5 * Minute) (7 + 10 * 365 * 24 * Hour) true [] [] []) 1 1) 1.
Definition k1 : kmap := (Ensure cfg0 7 1 2 (∅ : kmap)).2.

Lemma first_boot : (Ensure cfg0 7 1 2 (∅ : kmap)).1.2 = Some ca1.
Proof.
  unfold Ensure. cbn [S_get S_create map_secrets]. rewrite lookup_empty. change (IsNotFound ErrNotFound) with true. cbn match.
  rewrite toy_NewCA. change (CA_PEM _) with (Ok (pem_Encode "CERTIFICATE" (cert_Raw (ca_Cert ca1)), pem_Encode "EC PRIVATE KEY" (Itoa 1))).
  cbn match. by destruct (ensureGatewayCert _ _ _ _ _).
Qed.

(** A later start, with other random numbers, comes up with the stored authority. *)
Lemma Ensure_same_ca_witness : (Ensure cfg0 8 3 4 k1).1.2 = Some ca1.
Proof.
  destruct (Ensure cfg0 7 1 2 (∅ : kmap)) as [[r ca] k] eqn:E.
  assert (ca = Some ca1) as Hca.
  { pose proof first_boot as H. rewrite E in H. exact H. }
  assert (k = k1) as Hk by (unfold k1; rewrite E; reflexivity). rewrite Hca, Hk in E.
  exact (proj2 (Ensure_same_ca cfg0 ltac:(discriminate) 7 1 2 r ca1 ∅ k1 [] E) (8, 3, 4)).
Defined.
End PkiWitness.
