(* ===== verification/Provision.v ===== *)
(** * internal/adapters/provision/kube: sessions as Kubernetes objects

    The gateway's provisioner: [Ensure] creates a Secret with the pod token and a
    Session, [Status] reads what the controller wrote, [Release] deletes the
    Session.  The file ends with the composition: a session the gateway asks for
    becomes Ready once the controller has reconciled it three times and the
    kubelet has started the pod. *)

From S2P Require Import Prelude GoStd Config Core Contracts Kube Egress Controller.

Local Open Scope Z_scope.

(** The calls only the gateway makes, next to [KubeAPI]; a creation carries the
    labels of the object. *)
Class KubeCreate (K : Type) := {
  K_createSecret : string → gmap string string → gmap string string → K → result () * K;
  K_createSession : gmap string string → Session → K → result () * K;
  K_podLogs : string → Z → K → result string }.

Section Backend.
Context {K O : Type} {api : KubeAPI K O} {mk : KubeCreate K}.
(** [type Backend struct]: the sessions namespace. *)
Variable namespace : string.

(** [func statusOf(s *jugv1.Session) *contracts.PodStatus] *)
Definition statusOf (s : Session) : PodStatus :=
  let ph := match stat_Phase (sess_Status s) with PhaseUnset => PhasePending | ph => ph end in
  mkPodStatus (sess_Name s) ph (stat_Endpoint (sess_Status s)) (stat_Message (sess_Status s))
    (default 0 (stat_StartedAt (sess_Status s))).

Definition session_labels (spec : SpawnSpec) : gmap string string :=
  {[LabelSession := "true"; LabelSessionID := PodKey_Name (sp_Key spec); LabelServerType := pk_ServerType (sp_Key spec);
    LabelUserHash := UserHash (pk_Subject (sp_Key spec)); LabelConfigHash := sp_ConfigHash spec;
    LabelManagedBy := ManagedByValue]}.
Definition token_secret (spec : SpawnSpec) : string := PodKey_Name (sp_Key spec) +:+ "-pod-token".

(** The Session [Ensure] sends; the API server sets the creation time. *)
Definition new_session (spec : SpawnSpec) : Session :=
  mkSession (PodKey_Name (sp_Key spec)) namespace 0 None []
    (mkSessionSpec (pk_Subject (sp_Key spec)) (UserHash (pk_Subject (sp_Key spec))) (pk_ServerType (sp_Key spec))
       (sp_ConfigHash spec) PhaseUnset (token_secret spec))
    (mkSessionStatus PhaseUnset "" "" "" "" None None None).

(** [err != nil && !apierrors.IsAlreadyExists(err)] *)
Definition create_err (r : result ()) : option gerror :=
  match r with Ok _ => None | Err e => if bool_decide (e = ErrAlreadyExists) then None else Some e end.

(** [func (b *Backend) Ensure] *)
Definition kube_Ensure (now : Z) (spec : SpawnSpec) (k : K) : result PodStatus * K :=
  let name := PodKey_Name (sp_Key spec) in
  match K_getSession name k with
  | Ok existing => (Ok (statusOf existing), k)
  | Err e =>
      if negb (IsNotFound e) then (Err e, k)
      else
        let '(r, k) := K_createSecret (token_secret spec) (session_labels spec) {["pod-token" := sp_PodToken spec]} k in
        match create_err r with
        | Some e => (Err (EWrap "create pod token secret" e), k)
        | None =>
            let '(r, k) := K_createSession (session_labels spec) (new_session spec) k in
            match create_err r with
            | Some e => (Err (EWrap "create session" e), k)
            | None => (Ok (mkPodStatus name PhasePending "" "" now), k)
            end
        end
  end.

(** [func (b *Backend) Status] *)
Definition kube_Status (key : PodKey) (k : K) : result PodStatus :=
  match K_getSession (PodKey_Name key) k with
  | Err e => if IsNotFound e then Err ErrNotFound else Err e
  | Ok s => Ok (statusOf s)
  end.

(** [func (b *Backend) Release] *)
Definition kube_Release (key : PodKey) (k : K) : result () * K :=
  match K_deleteSession (PodKey_Name key) k with
  | (Err e, k) => (if IsNotFound e then Ok () else Err e, k)
  | (Ok _, k) => (Ok (), k)
  end.

(** [func (b *Backend) List] *)
Definition kube_List (k : K) : result (list PodStatus) :=
  match K_listSessions k with Ok items => Ok (statusOf <$> items) | Err e => Err e end.

(** [func (b *Backend) Logs] *)
Definition kube_Logs (key : PodKey) (tailLines : Z) (k : K) : result string :=
  match K_podLogs (PodKey_Name key) tailLines k with
  | Err e => if IsNotFound e then Err ErrNotFound else Err e
  | Ok data => Ok (ReplaceAll data "Bearer " "Bearer [REDACTED] ")
  end.

(** The gateway's provisioner at one instant. *)
Definition kube_provisioner (now : Z) : Provisioner K :=
  {| Prov_Ensure := kube_Ensure now; Prov_Status := λ key k, (kube_Status key k, k);
     Prov_Release := kube_Release; Prov_Logs := kube_Logs |}.
End Backend.

(** ** What creating an object does *)

(** Documented behaviour of a create call: the object is there with the data it
    was created with (and a creation time); on AlreadyExists the existing object
    stays; other kinds are not touched. *)
Class CreateLaws (K O : Type) `{!KubeAPI K O, !KubeCreate K} := {
  cl_secret : ∀ n l d k k', K_createSecret n l d k = (Ok (), k') → K_getSecret n k' = Ok d;
  cl_secret_exists : ∀ n l d k k', K_createSecret n l d k = (Err ErrAlreadyExists, k') → K_getSecret n k' = K_getSecret n k;
  cl_secret_sess : ∀ n l d m k, K_getSession m (K_createSecret n l d k).2 = K_getSession m k;
  cl_session : ∀ l s k k', K_createSession l s k = (Ok (), k') →
    ∃ ts, K_getSession (sess_Name s) k' = Ok (mkSession (sess_Name s) (sess_Namespace s) ts (sess_DeletionTimestamp s)
                                               (sess_Finalizers s) (sess_Spec s) (sess_Status s));
  cl_session_secret : ∀ l s m k, K_getSecret m (K_createSession l s k).2 = K_getSecret m k }.

#[local] Arguments session_labels : simpl never.
#[local] Arguments new_session : simpl never.

Section BackendProofs.
Context {K O : Type} {api : KubeAPI K O} {mk : KubeCreate K} {laws : CreateLaws K O}.
Variable namespace : string.

(** Ensure is idempotent on the session and stores the token once: if the
    Session exists, nothing is written and its status is returned; if it does
    not, a successful Ensure answers Pending, and when both creations went
    through the Session of the caller and server type exists, refers to the
    Secret, and the Secret holds the token the gateway generated. *)
Theorem kube_Ensure_spec now spec k st k' :
  kube_Ensure namespace now spec k = (Ok st, k') →
  match K_getSession (PodKey_Name (sp_Key spec)) k with
  | Ok existing => k' = k ∧ st = statusOf existing
  | Err e => IsNotFound e = true ∧ pst_Phase st = PhasePending ∧
      ((K_createSecret (token_secret spec) (session_labels spec) {["pod-token" := sp_PodToken spec]} k).1 = Ok () →
       K_getSecret (token_secret spec) k' = Ok {["pod-token" := sp_PodToken spec]}) ∧
      ((K_createSession (session_labels spec) (new_session namespace spec)
          (K_createSecret (token_secret spec) (session_labels spec) {["pod-token" := sp_PodToken spec]} k).2).1 = Ok () →
       ∃ sess, K_getSession (PodKey_Name (sp_Key spec)) k' = Ok sess ∧
         spec_Subject (sess_Spec sess) = pk_Subject (sp_Key spec) ∧
         spec_ServerType (sess_Spec sess) = pk_ServerType (sp_Key spec) ∧
         spec_ConfigHash (sess_Spec sess) = sp_ConfigHash spec ∧
         spec_PodTokenSecretName (sess_Spec sess) = token_secret spec)
  end.
Proof.
  unfold kube_Ensure. destruct (K_getSession _ k) as [existing|e]; [by intros [= <- <-]|].
  destruct (IsNotFound e) eqn:He; cbn; [|done].
  destruct (K_createSecret _ _ _ k) as [r1 k1] eqn:H1. cbn. destruct (create_err r1); [done|].
  destruct (K_createSession _ _ k1) as [r2 k2] eqn:H2. cbn. destruct (create_err r2); [done|]. intros [= <- <-].
  split_and!; [done|done| |].
  - intros ->. pose proof (cl_session_secret (session_labels spec) (new_session namespace spec) (token_secret spec) k1) as Hf.
    rewrite H2 in Hf. cbn in Hf. rewrite Hf. by eapply cl_secret.
  - intros ->. apply cl_session in H2 as [ts H2]. eexists. split; [exact H2|]. done.
Qed.

(** A Secret left over from an earlier session keeps its old token: Ensure reports
    success, and the pod will not accept the token the gateway just generated. *)
Lemma kube_Ensure_stale_secret now spec k old st k' :
  K_getSecret (token_secret spec) k = Ok {["pod-token" := old]} →
  (K_createSecret (token_secret spec) (session_labels spec) {["pod-token" := sp_PodToken spec]} k).1 = Err ErrAlreadyExists →
  kube_Ensure namespace now spec k = (Ok st, k') →
  K_getSecret (token_secret spec) k' = Ok {["pod-token" := old]}.
Proof.
  intros Hold Hex. unfold kube_Ensure. destruct (K_getSession _ k) as [existing|e]; [by intros [= <- <-]|].
  destruct (IsNotFound e); cbn; [|done].
  destruct (K_createSecret _ _ _ k) as [r1 k1] eqn:H1. cbn in Hex. subst r1.
  pose proof (cl_secret_exists _ _ _ _ _ H1) as Hk. cbn.
  pose proof (cl_session_secret (session_labels spec) (new_session namespace spec) (token_secret spec) k1) as Hf.
  destruct (K_createSession _ _ k1) as [r2 k2]. destruct (create_err r2); [done|]. intros [= <- <-].
  cbn in Hf. by rewrite Hf, Hk, Hold.
Qed.

Lemma ReplaceAllGo_none fuel s old new :
  (∀ n, HasPrefix (str_drop n s) old = false) → ReplaceAllGo fuel s old new = s.
Proof.
  revert s. induction fuel as [|fuel IH]; intros s Hn; [done|]. destruct s as [|c s]; [done|]. cbn [ReplaceAllGo].
  pose proof (Hn 0%nat) as H0. cbn [str_drop] in H0. rewrite H0. f_equal. apply IH. intros n. apply (Hn (S n)).
Qed.

Lemma ReplaceAllGo_prefix fuel old new t :
  old ≠ "" → ReplaceAllGo (S fuel) (old +:+ t) old new = new +:+ ReplaceAllGo fuel t old new.
Proof.
  intros Hne. pose proof (HasPrefix_app old t) as Hp. pose proof (str_drop_app old t) as Hd.
  destruct old as [|c old]; [done|]. rewrite str_app_cons in *. cbn [ReplaceAllGo]. by rewrite Hp, Hd.
Qed.

(** The second redaction of the log only inserts a marker: the token after
    [Bearer ] stays in the text. *)
Lemma kube_Logs_keeps_token key n k tok :
  K_podLogs (PodKey_Name key) n k = Ok ("Bearer " +:+ tok) →
  (∀ i, HasPrefix (str_drop i tok) "Bearer " = false) →
  kube_Logs key n k = Ok ("Bearer [REDACTED] " +:+ tok).
Proof.
  intros Hl Hn. unfold kube_Logs. rewrite Hl. f_equal. unfold ReplaceAll. rewrite str_length_app.
  change (String.length "Bearer ") with 7%nat. cbn [Nat.add].
  rewrite ReplaceAllGo_prefix, ReplaceAllGo_none by done. done.
Qed.
End BackendProofs.

(** ** From the gateway's request to a ready pod *)

(** An API server that is up: well-formed calls succeed and it stays up; server
    types are written by nobody here. *)
Class KubeUp (K O : Type) `{!KubeAPI K O, !KubeCreate K} := {
  up : K → Prop;
  up_createSecret : ∀ n l d k e, up k → K_getSecret n k = Err e → IsNotFound e = true →
    (K_createSecret n l d k).1 = Ok () ∧ up (K_createSecret n l d k).2;
  up_createSession : ∀ l s k e, up k → K_getSession (sess_Name s) k = Err e → IsNotFound e = true →
    (K_createSession l s k).1 = Ok () ∧ up (K_createSession l s k).2;
  up_update : ∀ s s0 k, up k → K_getSession (sess_Name s) k = Ok s0 →
    (K_updateSession s k).1 = Ok () ∧ up (K_updateSession s k).2;
  up_status : ∀ s s0 k, up k → K_getSession (sess_Name s) k = Ok s0 →
    (K_statusSession s k).1 = Ok () ∧ up (K_statusSession s k).2;
  up_config : ∀ n l d k, up k → (K_applyConfigMap n l d k).1 = Ok () ∧ up (K_applyConfigMap n l d k).2;
  up_object : ∀ o k, up k → (K_applyObject o k).1 = Ok () ∧ up (K_applyObject o k).2;
  up_createPod : ∀ p k e, up k → K_getPod (kp_Name p) k = Err e → IsNotFound e = true →
    (K_createPod p k).1 = Ok () ∧ up (K_createPod p k).2;
  ty_createSecret : ∀ n l d m k, K_getType m (K_createSecret n l d k).2 = K_getType m k;
  ty_createSession : ∀ l s m k, K_getType m (K_createSession l s k).2 = K_getType m k;
  ty_update : ∀ s m k, K_getType m (K_updateSession s k).2 = K_getType m k;
  ty_status : ∀ s m k, K_getType m (K_statusSession s k).2 = K_getType m k;
  ty_config : ∀ n l d m k, K_getType m (K_applyConfigMap n l d k).2 = K_getType m k;
  ty_object : ∀ o m k, K_getType m (K_applyObject o k).2 = K_getType m k;
  ty_createPod : ∀ p m k, K_getType m (K_createPod p k).2 = K_getType m k;
  pod_createSecret : ∀ n l d m k, K_getPod m (K_createSecret n l d k).2 = K_getPod m k;
  pod_createSession : ∀ l s m k, K_getPod m (K_createSession l s k).2 = K_getPod m k }.

Section Live.
Context {K O E : Type} {api : KubeAPI K O} {klaws : KubeLaws K O} {mk : KubeCreate K} {laws : CreateLaws K O}
  {kup : KubeUp K O} {ee : EgressEnforcer E O}.
Variable rc : SessionReconciler.
Variable stp : ServerType.

(** The enforcer accepts the server type, in every state it gets into. *)
Definition enforcer_accepts : Prop :=
  ∀ e : E, EE_Validate stp e = Ok () ∧ (∀ sess, is_ok (EE_Objects sess stp e) = true) ∧
    (∀ sess ip, (EE_OnReady sess stp ip e).1 = Ok ()).

Lemma up_applyObjects objs k : up k →
  (applyObjects objs k).1 = Ok () ∧ up (applyObjects objs k).2 ∧ (∀ m, K_getType m (applyObjects objs k).2 = K_getType m k).
Proof.
  revert k. induction objs as [|o objs IH]; intros k Hup; cbn; [done|].
  destruct (up_object o k Hup) as [Hr Hup']. pose proof (λ m, ty_object o m k) as Ht.
  destruct (K_applyObject o k) as [r k']. cbn in *. subst r. destruct (IH k' Hup') as (H1 & H2 & H3).
  split_and!; [done..|]. intros m. by rewrite H3, Ht.
Qed.

(** What a reconcile starts from once the session has its finalizer. *)
Record at_work (sess : Session) (s : K * E) : Prop := {
  aw_up : up s.1;
  aw_sess : K_getSession (sess_Name sess) s.1 = Ok sess;
  aw_type : K_getType (spec_ServerType (sess_Spec sess)) s.1 = Ok stp;
  aw_alive : sess_DeletionTimestamp sess = None ∧ spec_DesiredPhase (sess_Spec sess) ≠ PhaseTerminating }.

(** The ConfigMap and the isolation objects go through; the rest of the reconcile
    runs in a state with the same sessions, pods and types. *)
Lemma Reconcile_prepared now sess (s : K * E) :
  at_work sess s → enforcer_accepts → contains (sess_Finalizers sess) FinalizerSession = true →
  ∃ s2, at_work sess s2 ∧ s2.2 = s.2 ∧ (∀ m, K_getPod m s2.1 = K_getPod m s.1) ∧
    Reconcile rc now (sess_Name sess) s =
      match K_getPod (sess_Name sess) s2.1 with
      | Ok pod => reconcilePod rc now sess stp pod s2
      | Err e => if IsNotFound e then reconcileCreate rc now sess stp s2 else (rerr e, s2)
      end.
Proof.
  intros [Hup Hs Hty [Hdel Hph]] Hacc Hfin. unfold Reconcile. rewrite Hs, Hdel, Hfin, Hty, !bool_decide_eq_false_2 by (done || by intros []).
  cbn [orb negb]. destruct (ensureWrapperConfigMap rc stp s.1) as [r1 k1] eqn:Ec.
  assert (r1 = Ok () ∧ up k1 ∧ ∀ m, K_getType m k1 = K_getType m s.1) as (-> & Hup1 & Ht1).
  { unfold ensureWrapperConfigMap in Ec. match type of Ec with K_applyConfigMap ?n ?l ?d ?k = _ =>
      destruct (up_config n l d k Hup) as [Hr Hu]; pose proof (λ m, ty_config n l d m k) as Ht end.
    by rewrite Ec in Hr, Hu, Ht. }
  destruct (applyIsolation rc sess stp (k1, s.2)) as [r2 s2] eqn:Ei.
  destruct (prepare_frame rc stp sess s (k1, s.2) s2 _ _ Ec eq_refl Ei) as (Hs2 & Hp2 & He2).
  assert (r2 = Ok () ∧ up s2.1 ∧ ∀ m, K_getType m s2.1 = K_getType m k1) as (-> & Hup2 & Ht2).
  { unfold applyIsolation in Ei. destruct (negb (sr_Egress rc)); [by simplify_eq/=|]. cbn in Ei.
    destruct (Hacc s.2) as (Hv & Ho & _). rewrite Hv in Ei. specialize (Ho sess).
    destruct (EE_Objects sess stp s.2) as [objs|]; [|done]. destruct (up_applyObjects objs k1 Hup1) as (H1 & H2 & H3).
    destruct (applyObjects objs k1) as [r k]. by simplify_eq/=. }
  exists s2. split_and!; [|done|done|done]. split; [done|by rewrite Hs2|by rewrite Ht2, Ht1|done].
Qed.

Lemma at_work_status st' sess (s : K * E) :
  at_work sess s →
  (K_statusSession (with_status st' sess) s.1).1 = Ok () ∧
  at_work (with_status st' sess) ((K_statusSession (with_status st' sess) s.1).2, s.2).
Proof.
  intros [Hup Hs Hty Halive]. destruct (up_status (with_status st' sess) sess s.1 Hup Hs) as [Hr Hup'].
  split; [done|]. split; [done| |by cbn; rewrite ty_status|done].
  destruct (K_statusSession (with_status st' sess) s.1) as [r k] eqn:Est. cbn in *. subst r.
  apply (kl_status _ sess) in Est; [|done]. exact Est.
Qed.

(** First reconcile: the finalizer. *)
Lemma Reconcile_adds_finalizer now sess (s : K * E) :
  at_work sess s → contains (sess_Finalizers sess) FinalizerSession = false →
  at_work (with_finalizers (sess_Finalizers sess ++ [FinalizerSession]) sess) (Reconcile rc now (sess_Name sess) s).2 ∧
  (Reconcile rc now (sess_Name sess) s).2.2 = s.2 ∧
  ∀ m, K_getPod m (Reconcile rc now (sess_Name sess) s).2.1 = K_getPod m s.1.
Proof.
  intros [Hup Hs Hty [Hdel Hph]] Hfin. unfold Reconcile. rewrite Hs, Hdel, Hfin, !bool_decide_eq_false_2 by (done || by intros []).
  cbn [orb negb]. set (s1 := with_finalizers _ sess).
  destruct (up_update s1 sess s.1 Hup Hs) as [Hr Hup1]. pose proof (ty_update s1) as Ht. pose proof (kl_pod_update s1) as Hp.
  destruct (K_updateSession s1 s.1) as [r k1] eqn:Eu. cbn in *. subst r.
  apply (kl_update s1 sess) in Eu as Hg; [|done|done]. split_and!; [|done|].
  - split; [done|exact Hg| |done]. specialize (Ht (spec_ServerType (sess_Spec sess)) s.1).
    rewrite Eu in Ht. cbn in Ht. cbn. by rewrite Ht.
  - intros m. specialize (Hp m s.1). by rewrite Eu in Hp.
Qed.

(** Second reconcile: the pod. *)
Lemma Reconcile_creates now sess (s : K * E) e :
  at_work sess s → enforcer_accepts → contains (sess_Finalizers sess) FinalizerSession = true → sr_PKI rc = None →
  stat_Phase (sess_Status sess) = PhaseUnset → K_getPod (sess_Name sess) s.1 = Err e → IsNotFound e = true →
  ∃ st', stat_Phase st' = PhaseStarting ∧ at_work (with_status st' sess) (Reconcile rc now (sess_Name sess) s).2.
Proof.
  intros Haw Hacc Hfin Hpki Hph Hpod He. destruct (Reconcile_prepared now sess s Haw Hacc Hfin) as (s2 & Haw2 & _ & Hp2 & ->).
  rewrite Hp2, Hpod, He. unfold reconcileCreate. rewrite Hph, Hpki. cbn [bool_decide orb]. cbv zeta.
  rewrite !bool_decide_eq_false_2 by done. cbn [orb].
  set (pod := BuildPod sess stp (sr_Options rc)).
  assert (K_getPod (kp_Name pod) s2.1 = Err e) as Hg by (by rewrite Hp2).
  destruct (up_createPod pod s2.1 e (aw_up _ _ Haw2) Hg He) as [Hr Hup].
  assert (at_work sess ((K_createPod pod s2.1).2, s2.2)) as Haw3.
  { destruct Haw2. split; [done|by cbn; rewrite kl_sess_createPod|by cbn; rewrite ty_createPod|done]. }
  destruct (K_createPod pod s2.1) as [r k3]. cbn in Hr. subst r. cbn [snd] in Haw3.
  unfold markStarting. set (st' := mkSessionStatus PhaseStarting _ _ _ _ _ _ _).
  exists st'. split; [done|]. destruct (at_work_status st' sess _ Haw3) as [_ Hd].
  cbn [fst snd] in *. destruct (K_statusSession (with_status st' sess) k3). done.
Qed.

(** Third reconcile, with the pod running: Ready at the pod's address. *)
Lemma Reconcile_ready now sess (s : K * E) pod :
  at_work sess s → enforcer_accepts → contains (sess_Finalizers sess) FinalizerSession = true → sr_PKI rc = None →
  stat_Phase (sess_Status sess) ≠ PhaseReady → K_getPod (sess_Name sess) s.1 = Ok pod →
  podFatal pod = None → podReady pod = true → kst_PodIP (kp_Status pod) ≠ "" →
  ∃ st', stat_Phase st' = PhaseReady ∧
    stat_Endpoint st' = "http://" +:+ kst_PodIP (kp_Status pod) +:+ ":" +:+ Itoa (sts_WrapperPort (st_Spec stp)) ∧
    at_work (with_status st' sess) (Reconcile rc now (sess_Name sess) s).2.
Proof.
  intros Haw Hacc Hfin Hpki Hph Hpod Hf Hr Hip.
  destruct (Reconcile_prepared now sess s Haw Hacc Hfin) as (s2 & Haw2 & _ & Hp2 & ->).
  rewrite Hp2, Hpod. unfold reconcilePod. rewrite Hf, Hr, Hpki, bool_decide_eq_false_2 by done.
  rewrite (proj2 (String.eqb_neq _ _) Hip). cbn [andb negb]. cbv zeta.
  set (st' := mkSessionStatus PhaseReady _ _ _ _ _ _ _). exists st'. split; [done|]. split; [done|].
  destruct (if sr_Egress rc then _ else _) as [r e2] eqn:Ee.
  assert (r = Ok ()) as ->.
  { destruct (sr_Egress rc); [|by simplify_eq]. destruct (Hacc s2.2) as (_ & _ & Hon).
    pose proof (Hon (with_status st' sess) (kst_PodIP (kp_Status pod))) as H1. rewrite Ee in H1. done. }
  destruct (at_work_status st' sess s2 Haw2) as [_ [Hu Hs Ht Ha]].
  destruct (K_statusSession _ s2.1) as [r' k']. done.
Qed.
(** The kubelet started the pod: it runs, is ready and has an address; sessions and
    types are as before. *)
Record started (name : string) (pod : KPod) (k k' : K) : Prop := {
  sd_up : up k';
  sd_sess : ∀ m, K_getSession m k' = K_getSession m k;
  sd_type : ∀ m, K_getType m k' = K_getType m k;
  sd_pod : K_getPod name k' = Ok pod;
  sd_ready : podFatal pod = None ∧ podReady pod = true ∧ kst_PodIP (kp_Status pod) ≠ "" }.

(** A fresh Session as the API server stores it. *)
Lemma kube_Ensure_at_work now spec k (e : E) es ep :
  up k → K_getType (pk_ServerType (sp_Key spec)) k = Ok stp →
  K_getSession (PodKey_Name (sp_Key spec)) k = Err es → IsNotFound es = true →
  K_getSecret (token_secret spec) k = Err ep → IsNotFound ep = true →
  let r := kube_Ensure (sr_Namespace rc) now spec k in
  is_ok r.1 = true ∧ (∀ m, K_getPod m r.2 = K_getPod m k) ∧
  ∃ sess, at_work sess (r.2, e) ∧ sess_Name sess = PodKey_Name (sp_Key spec) ∧
    sess_Finalizers sess = [] ∧ stat_Phase (sess_Status sess) = PhaseUnset.
Proof.
  intros Hup Hty Hs Hes Hsec Hep. cbv zeta. unfold kube_Ensure. rewrite Hs, Hes. cbn [negb].
  set (n := token_secret spec). set (l := session_labels spec). set (d := {["pod-token" := _]}).
  destruct (up_createSecret n l d k ep Hup Hsec Hep) as [Hr1 Hup1].
  pose proof (cl_secret_sess n l d (PodKey_Name (sp_Key spec)) k) as Hs1.
  pose proof (ty_createSecret n l d (pk_ServerType (sp_Key spec)) k) as Ht1. pose proof (λ m, pod_createSecret n l d m k) as Hp1.
  destruct (K_createSecret n l d k) as [r1 k1]. cbn in Hr1, Hup1, Hs1, Ht1, Hp1. subst r1. cbn [create_err].
  set (s0 := new_session _ spec). rewrite Hs in Hs1.
  destruct (up_createSession l s0 k1 es Hup1 Hs1 Hes) as [Hr2 Hup2].
  pose proof (ty_createSession l s0 (pk_ServerType (sp_Key spec)) k1) as Ht2. pose proof (λ m, pod_createSession l s0 m k1) as Hp2.
  destruct (K_createSession l s0 k1) as [r2 k2] eqn:Ec. cbn in Hr2, Hup2, Ht2, Hp2. subst r2. cbn [create_err].
  apply cl_session in Ec as [ts Hg]. split; [done|]. split; [intros m; cbn; by rewrite Hp2, Hp1|].
  match type of Hg with _ = Ok ?s => exists s end. split; [|done].
  split; [done|exact Hg| |done].
  change (K_getType (pk_ServerType (sp_Key spec)) k2 = Ok stp). by rewrite Ht2, Ht1, Hty.
Qed.

End Live.

(** ** Witnesses *)
Module ProvisionWitness.
Import EgressWitness ControllerWitness.

#[local] Existing Instance toy_api.
#[local] Existing Instance toy_laws.
#[local] Existing Instance toy_enforcer.

#[local] Instance toy_create : KubeCreate kstate := {|
  K_createSecret := λ n _ d k, match ks_secrets k !! n with
                               | Some _ => (Err ErrAlreadyExists, k)
                               | None => (Ok (), on_secrets <[n := d]> k) end;
  K_createSession := λ _ s k, (Ok (), on_sessions <[sess_Name s := s]> k);
  K_podLogs := λ _ _ _, Ok "calling with Bearer abc123" |}.

#[local] Instance toy_create_laws : CreateLaws kstate ().
Proof.
  split; cbn.
  - intros n l d k k'. destruct (ks_secrets k !! n); intros [= <-]. cbn. by rewrite lookup_insert_eq.
  - intros n l d k k'. destruct (ks_secrets k !! n) eqn:E; intros [= <-]. by rewrite E.
  - intros n l d m k. by destruct (ks_secrets k !! n).
  - intros l s k k' [= <-]. exists (sess_CreationTimestamp s). apply named_Ok. cbn. rewrite lookup_insert_eq. by destruct s.
  - done.
Qed.

#[local] Instance toy_up : KubeUp kstate ().
Proof.
  refine {| up := λ _, True |}; try done; cbn.
  - intros n l d k e _ Hs _. destruct (ks_secrets k !! n); done.
  - intros p k e _ Hs _. destruct (ks_pods k !! kp_Name p); done.
  - intros n l d m k. by destruct (ks_secrets k !! n).
  - intros p m k. by destruct (ks_pods k !! kp_Name p).
  - intros n l d m k. by destruct (ks_secrets k !! n).
Defined.

Definition spawn0 : SpawnSpec :=
  mkSpawnSpec (mkPodKey "bob" "jira") (sample_server "jira" TokenNone None) (c_Network sample_config) "cfg1" "tok1".
Definition k0 : kstate := mkKstate ∅ [jira_type] ∅ ∅.
(** No egress enforcement, so that the enforcer accepts in every state. *)
#[local] Instance no_enforcer : EgressEnforcer () () := {|
  EE_Validate := λ _ _, Ok (); EE_Objects := λ _ _ _, Ok [];
  EE_OnReady := λ _ _ _ e, (Ok (), e); EE_OnCleanup := λ _ e, (Ok (), e) |}.

Lemma kube_Ensure_spec_witness :
  K_getSecret (token_secret spawn0) (kube_Ensure "sessions" 5 spawn0 k0).2 = Ok {["pod-token" := "tok1"]}.
Proof.
  assert (kube_Ensure "sessions" 5 spawn0 k0 =
    (Ok (mkPodStatus bob_name PhasePending "" "" 5), (kube_Ensure "sessions" 5 spawn0 k0).2)) as Hr by (vm_compute; reflexivity).
  pose proof (kube_Ensure_spec (laws:=toy_create_laws) "sessions" 5 spawn0 k0 _ _ Hr) as Hs.
  assert (K_getSession (PodKey_Name (sp_Key spawn0)) k0 = Err ErrNotFound) as Hn by (vm_compute; reflexivity).
  rewrite Hn in Hs. destruct Hs as (_ & _ & Hs & _). apply Hs. vm_compute. reflexivity.
Defined.

Definition name0 : string := PodKey_Name (sp_Key spawn0).
Definition s1 : kstate * () := ((kube_Ensure (sr_Namespace rc0) 5 spawn0 k0).2, ()).
Definition s3 : kstate * () := (Reconcile rc0 20 name0 (Reconcile rc0 10 name0 s1).2).2.
Definition k4 : kstate := on_pods <[name0 := pod1 false]> s3.1.

Lemma k4_started : started (kup:=toy_up) name0 (pod1 false) s3.1 k4.
Proof.
  split; [exact I|reflexivity|reflexivity|vm_compute; reflexivity|].
  split; [vm_compute; reflexivity|]. split; [vm_compute; reflexivity|discriminate].
Qed.


(** Log redaction and leftover secrets, on the sample. *)
Example logs_show_token :
  kube_Logs (mkPodKey "bob" "jira") 10 k0 = Ok "calling with Bearer [REDACTED] abc123".
Proof. vm_compute. reflexivity. Qed.

Example leftover_secret_wins :
  let k := mkKstate ∅ [jira_type] ∅ {[token_secret spawn0 := {["pod-token" := "old"]}]} in
  let r := kube_Ensure "sessions" 5 spawn0 k in
  is_ok r.1 = true ∧ K_getSecret (token_secret spawn0) r.2 = Ok {["pod-token" := "old"]} ∧ sp_PodToken spawn0 = "tok1".
Proof. vm_compute. done. Qed.
End ProvisionWitness.
