(* ===== verification/Concurrent.v ===== *)
(** * Concurrent requests of the session manager

    [EnsurePod] of internal/gateway/manager.go takes no lock: requests of one
    gateway, and of its replicas, interleave between the calls of the routing
    table and the provisioner.  Here a request is a thread that makes one such
    call per step.  A thread that runs alone is exactly [EnsurePod] of Manager.v;
    the system interleaves any number of them with releases and with whatever
    the provisioner does. *)

From S2P Require Import Prelude GoStd Config Core Contracts RoutingMemory Policy Manager Kube Egress Controller Provision.

Local Open Scope Z_scope.

(** ** A request, one call at a time *)

(** What a request starts with: the configuration read once, its environment, the
    caller and the server type. *)
Record treq := mkTreq { q_l : Loaded; q_env : reqenv; q_p : Principal; q_st : string }.
Definition q_key (q : treq) : PodKey := mkPodKey (p_Subject (q_p q)) (q_st q).

(** Where it is: the next call it makes, with its local variables. *)
Inductive tstate :=
| TStart                                            (* GetPod *)
| TCount (srv : Server)                             (* CountPods *)
| TPut (srv : Server)                               (* PutPod of the new record *)
| TEnsure (srv : Server) (pod : Pod)                (* provisioner Ensure *)
| TUndo (e : gerror)                                (* DeletePod after a failed spawn *)
| THold (srv : Server) (pod : Pod) (i : nat)        (* provisioner Status, poll i *)
| TReady (srv : Server) (pod : Pod) (i : nat)       (* PutPod of the ready record *)
| TTouch (srv : Server) (pod : Pod) (i : nat)       (* Touch *)
| TRelease (e : gerror)                             (* provisioner Release of a failed pod *)
| TDelete (e : gerror)                              (* DeletePod of a failed pod *)
| TDone (r : result (Pod * Server)).

Section Threads.
Context {T P B : Type} {tbl : RoutingTable T} {prov : Provisioner P} {brk : TokenBroker B} {pol : AccessPolicy}.
Local Notation W := (world T P B).

Definition new_pod (q : treq) : Pod :=
  mkPod (q_key q) (PodKey_Name (q_key q)) "" PhasePending (e_now (q_env q)) (ld_Hash (q_l q)) (newPodToken (e_rand (q_env q))).
Definition spawn_spec (q : treq) (srv : Server) (pod : Pod) : SpawnSpec :=
  mkSpawnSpec (q_key q) srv (c_Network (ld_Config (q_l q))) (ld_Hash (q_l q)) (pod_PodToken pod).
Definition hold_deadline (q : treq) : Z :=
  e_clock (q_env q) 0 + Duration_Or (g_ColdStartBudget (c_Gateway (ld_Config (q_l q)))) (60 * Second).
Definition with_pod (srv : Server) (pod : Pod) : tstate :=
  if bool_decide (pod_Phase pod = PhaseReady) then TDone (Ok (pod, srv)) else THold srv pod 0.

(** One step of [EnsurePod] and [hold]. *)
Definition tstep (q : treq) (t : tstate) (w : W) : tstate * W :=
  let cfg := ld_Config (q_l q) in
  let grants := Policy_Grants (q_p q) "" in
  match t with
  | TStart =>
      match Config_Server cfg (q_st q) with
      | None => (TDone (Err ErrUnknownType), w)
      | Some srv =>
          if negb (Allows grants (q_st q)) then (TDone (Err ErrNotGranted), w)
          else match on_table (GetPod (q_key q)) w with
               | (Ok pod, w) => (with_pod srv pod, w)
               | (Err e, w) => (if negb (errors_Is e ErrNotFound) then TDone (Err e) else TCount srv, w)
               end
      end
  | TCount srv =>
      match on_table (CountPods (p_Subject (q_p q)) (q_st q)) w with
      | (Err e, w) => (TDone (Err e), w)
      | (Ok (perUser, perType, total), w) =>
          (if (gr_Pods grants <=? perUser) || (s_MaxPods srv <=? perType) || (cap_TotalPods (g_Caps (c_Gateway cfg)) <=? total)
           then TDone (Err ErrCapReached) else TPut srv, w)
      end
  | TPut srv =>
      match on_table (PutPod (new_pod q)) w with
      | (Err e, w) => (TDone (Err e), w)
      | (Ok _, w) => (TEnsure srv (new_pod q), w)
      end
  | TEnsure srv pod =>
      match on_prov (Prov_Ensure (spawn_spec q srv pod)) w with
      | (Err e, w) => (TUndo (EWrap "spawn" e), w)
      | (Ok _, w) => (with_pod srv pod, w)
      end
  | TUndo e => (TDone (Err e), (on_table (DeletePod (q_key q)) w).2)
  | THold srv pod i =>
      match on_prov (Prov_Status (q_key q)) w with
      | (Err e, w) => (TDone (Err e), w)
      | (Ok st, w) =>
          (match pst_Phase st with
           | PhaseReady => TReady srv (set_phase_endpoint PhaseReady (pst_Endpoint st) pod) i
           | PhaseFailed => TRelease (EWrap (pst_Message st) ErrPodFailed)
           | _ => if hold_deadline q <? e_clock (q_env q) i then TDone (Err ErrColdStart)
                  else if e_done (q_env q) i then TDone (Err ctx_err) else THold srv pod (S i)
           end, w)
      end
  | TReady srv pod i =>
      match on_table (PutPod pod) w with
      | (Err e, w) => (TDone (Err e), w)
      | (Ok _, w) => (TTouch srv pod i, w)
      end
  | TTouch srv pod i => (TDone (Ok (pod, srv)), (on_table (Touch (pod_Name pod) (e_clock (q_env q) i)) w).2)
  | TRelease e => (TDelete e, (on_prov (Prov_Release (q_key q)) w).2)
  | TDelete e => (TDone (Err e), (on_table (DeletePod (q_key q)) w).2)
  | TDone r => (TDone r, w)
  end.

Fixpoint trun (n : nat) (q : treq) (t : tstate) (w : W) : tstate * W :=
  match n with O => (t, w) | S n => let '(t, w) := tstep q t w in trun n q t w end.

(** ** A thread alone is [EnsurePod] *)

Lemma trun_done n q r (w : W) : trun n q (TDone r) w = (TDone r, w).
Proof. by induction n. Qed.

Lemma trun_add n m q t (w : W) : trun (n + m) q t w = let '(t, w) := trun n q t w in trun m q t w.
Proof. revert t w. induction n as [|n IH]; intros t w; [done|]. cbn [Nat.add trun]. destruct (tstep q t w). apply IH. Qed.

(** A run to the end passes through its first step. *)
Lemma trun_step n q t (w : W) r w' t1 w1 :
  (∀ r, t ≠ TDone r) → tstep q t w = (t1, w1) → trun n q t w = (TDone r, w') → ∃ m, (m < n)%nat ∧ trun m q t1 w1 = (TDone r, w').
Proof.
  intros Ht Hs. destruct n as [|n]; cbn [trun]; [intros [= -> ->]; by destruct (Ht r)|]. rewrite Hs. intros H. exists n. split; [lia|done].
Qed.

Lemma trun_cons n q t (w : W) t1 w1 out : tstep q t w = (t1, w1) → trun n q t1 w1 = out → trun (S n) q t w = out.
Proof. intros Hs H. cbn. by rewrite Hs. Qed.

Lemma hold_trun fuel q srv pod i (w w' : W) r :
  holdLoop fuel (q_env q) (hold_deadline q) i pod srv (q_key q) w = Some (r, w') →
  ∃ n, trun n q (THold srv pod i) w = (TDone r, w').
Proof.
  revert i w. induction fuel as [|fuel IH]; intros i w; [done|]. cbn [holdLoop].
  destruct (on_prov (Prov_Status (q_key q)) w) as [[st|e] w1] eqn:Es.
  2:{ intros [= <- <-]. exists 1%nat. eapply trun_cons; [cbn; by rewrite Es|done]. }
  assert (Some (r, w') = (if hold_deadline q <? e_clock (q_env q) i then Some (Err ErrColdStart, w1)
      else if e_done (q_env q) i then Some (Err ctx_err, w1) else holdLoop fuel (q_env q) (hold_deadline q) (S i) pod srv (q_key q) w1) →
    ∃ n, trun n q (if hold_deadline q <? e_clock (q_env q) i then TDone (Err ErrColdStart)
                   else if e_done (q_env q) i then TDone (Err ctx_err) else THold srv pod (S i)) w1 = (TDone r, w')) as Hwait.
  { destruct (_ <? _); [intros [= -> ->]; by exists 0%nat|]. destruct (e_done _ _); [intros [= -> ->]; by exists 0%nat|]. eauto. }
  destruct (pst_Phase st) eqn:Ep;
    try (intros H; destruct (Hwait (eq_sym H)) as [n Hn]; exists (S n); eapply trun_cons; [cbn; by rewrite Es, Ep|exact Hn]).
  - set (pod' := set_phase_endpoint _ _ _). destruct (on_table (PutPod pod') w1) as [[[]|e] w2] eqn:Epu; intros [= <- <-].
    + exists 3%nat. eapply trun_cons; [cbn; by rewrite Es, Ep|]. eapply trun_cons; [cbn; fold pod'; by rewrite Epu|]. done.
    + exists 2%nat. eapply trun_cons; [cbn; by rewrite Es, Ep|]. eapply trun_cons; [cbn; fold pod'; by rewrite Epu|]. done.
  - intros [= <- <-]. exists 3%nat. eapply trun_cons; [cbn; by rewrite Es, Ep|]. done.
Qed.

Lemma trun_hold n q srv pod i (w w' : W) r :
  trun n q (THold srv pod i) w = (TDone r, w') →
  holdLoop n (q_env q) (hold_deadline q) i pod srv (q_key q) w = Some (r, w').
Proof.
  revert i w. induction n as [n IH] using lt_wf_ind; intros i w H. destruct n as [|n]; [done|]. cbn [trun tstep] in H. cbn [holdLoop].
  destruct (on_prov (Prov_Status (q_key q)) w) as [[st|e] w1]; [|rewrite trun_done in H; by simplify_eq].
  assert (trun n q (if hold_deadline q <? e_clock (q_env q) i then TDone (Err ErrColdStart)
                   else if e_done (q_env q) i then TDone (Err ctx_err) else THold srv pod (S i)) w1 = (TDone r, w') →
    (if hold_deadline q <? e_clock (q_env q) i then Some (Err ErrColdStart, w1)
      else if e_done (q_env q) i then Some (Err ctx_err, w1) else holdLoop n (q_env q) (hold_deadline q) (S i) pod srv (q_key q) w1)
    = Some (r, w')) as Hwait.
  { destruct (_ <? _); [rewrite trun_done; by intros [= -> ->]|]. destruct (e_done _ _); [rewrite trun_done; by intros [= -> ->]|].
    apply IH. lia. }
  destruct (pst_Phase st); try by apply Hwait.
  - destruct n as [|n]; cbn [trun tstep] in H; [done|]. destruct (on_table (PutPod _) w1) as [[[]|e] w2]; [|rewrite trun_done in H; by simplify_eq].
    destruct n as [|n]; cbn [trun tstep] in H; [done|]. rewrite trun_done in H. by simplify_eq.
  - destruct n as [|[|n]]; cbn [trun tstep] in H; [done..|]. rewrite trun_done in H. by simplify_eq.
Qed.

(** More fuel does not change what the hold returns. *)
Lemma holdLoop_more fuel fuel' env deadline i pod srv key (w : W) out :
  (fuel ≤ fuel')%nat → holdLoop fuel env deadline i pod srv key w = Some out → holdLoop fuel' env deadline i pod srv key w = Some out.
Proof.
  revert fuel' i w. induction fuel as [|fuel IH]; intros fuel' i w Hle; [done|]. destruct fuel' as [|fuel']; [lia|]. cbn [holdLoop].
  destruct (on_prov _ w) as [[st|e] w1]; [|done].
  destruct (pst_Phase st); try done; (destruct (_ <? _); [done|]; destruct (e_done _ _); [done|]; apply IH; lia).
Qed.

Lemma trun_with_pod n q srv pod (w w' : W) r :
  trun n q (with_pod srv pod) w = (TDone r, w') →
  (if bool_decide (pod_Phase pod = PhaseReady) then Some (Ok (pod, srv), w)
   else hold n (q_env q) pod srv (q_key q) (Duration_Or (g_ColdStartBudget (c_Gateway (ld_Config (q_l q)))) (60 * Second)) w) = Some (r, w').
Proof. unfold with_pod. case_bool_decide; [rewrite trun_done; by intros [= -> ->]|]. apply trun_hold. Qed.
Lemma with_pod_trun fuel q srv pod (w w' : W) r :
  (if bool_decide (pod_Phase pod = PhaseReady) then Some (Ok (pod, srv), w)
   else hold fuel (q_env q) pod srv (q_key q) (Duration_Or (g_ColdStartBudget (c_Gateway (ld_Config (q_l q)))) (60 * Second)) w) = Some (r, w') →
  ∃ n, trun n q (with_pod srv pod) w = (TDone r, w').
Proof. unfold with_pod. case_bool_decide; [intros [= <- <-]; by exists 0%nat|]. apply hold_trun. Qed.

Lemma trun_EnsurePod n q (w w' : W) r :
  trun n q TStart w = (TDone r, w') → ∃ fuel, EnsurePod fuel (q_l q) (q_env q) (q_p q) (q_st q) w = Some (r, w').
Proof.
  unfold EnsurePod, admission. fold (q_key q).
  destruct n as [|n]; [done|]. intros H. exists n. cbn [trun tstep] in H.
  destruct (Config_Server (ld_Config (q_l q)) (q_st q)) as [srv|]; [|rewrite trun_done in H; by simplify_eq].
  destruct (negb (Allows _ _)); [rewrite trun_done in H; by simplify_eq|].
  destruct (on_table (GetPod (q_key q)) w) as [[pod|e] w1]; [by apply trun_with_pod in H|].
  destruct (negb (errors_Is e ErrNotFound)); [rewrite trun_done in H; by simplify_eq|].
  destruct n as [|n]; cbn [trun tstep] in H; [done|].
  destruct (on_table (CountPods _ _) w1) as [[[[pu pt] tot]|e'] w2]; [|rewrite trun_done in H; by simplify_eq].
  destruct (_ || _); [rewrite trun_done in H; by simplify_eq|].
  destruct n as [|n]; cbn [trun tstep] in H; [done|]. unfold create. change (mkPod _ _ _ _ _ _ _) with (new_pod q).
  destruct (on_table (PutPod (new_pod q)) w2) as [[[]|e'] w3]; [|rewrite trun_done in H; by simplify_eq].
  destruct n as [|n]; cbn [trun tstep] in H; [done|]. change (mkSpawnSpec _ _ _ _ _) with (spawn_spec q srv (new_pod q)).
  destruct (on_prov _ w3) as [[st|e'] w4]; cycle 1.
  { destruct n as [|n]; cbn [trun tstep] in H; [done|]. rewrite trun_done in H. by simplify_eq. }
  apply trun_with_pod in H. revert H. unfold hold. change (bool_decide (pod_Phase (new_pod q) = PhaseReady)) with false. cbn match.
  intros H. eapply holdLoop_more; [|exact H]. lia.
Qed.

Lemma EnsurePod_trun fuel q (w w' : W) r :
  EnsurePod fuel (q_l q) (q_env q) (q_p q) (q_st q) w = Some (r, w') → ∃ n, trun n q TStart w = (TDone r, w').
Proof.
  unfold EnsurePod, admission. fold (q_key q).
  intros H.
  destruct (Config_Server (ld_Config (q_l q)) (q_st q)) as [srv|] eqn:Es.
  2:{ injection H as <- <-. exists 1%nat. eapply trun_cons; [cbn; by rewrite Es|done]. }
  destruct (negb (Allows _ _)) eqn:Ea.
  { injection H as <- <-. exists 1%nat. eapply trun_cons; [cbn; by rewrite Es, Ea|done]. }
  destruct (on_table (GetPod (q_key q)) w) as [[pod|e] w1] eqn:Eg.
  { apply with_pod_trun in H as [n Hn]. exists (S n). eapply trun_cons; [cbn; by rewrite Es, Ea, Eg|exact Hn]. }
  destruct (negb (errors_Is e ErrNotFound)) eqn:En.
  { injection H as <- <-. exists 1%nat. eapply trun_cons; [cbn; by rewrite Es, Ea, Eg, En|done]. }
  cut (∃ n, trun n q (TCount srv) w1 = (TDone r, w')).
  { intros [n Hn]. exists (S n). eapply trun_cons; [cbn; by rewrite Es, Ea, Eg, En|exact Hn]. }
  destruct (on_table (CountPods _ _) w1) as [[[[pu pt] tot]|e'] w2] eqn:Ec.
  2:{ injection H as <- <-. exists 1%nat. eapply trun_cons; [cbn; by rewrite Ec|done]. }
  destruct (_ || _) eqn:Ecap.
  { injection H as <- <-. exists 1%nat. eapply trun_cons; [cbn; by rewrite Ec, Ecap|done]. }
  cut (∃ n, trun n q (TPut srv) w2 = (TDone r, w')).
  { intros [n Hn]. exists (S n). eapply trun_cons; [cbn; by rewrite Ec, Ecap|exact Hn]. }
  unfold create in H. change (mkPod _ _ _ _ _ _ _) with (new_pod q) in H.
  destruct (on_table (PutPod (new_pod q)) w2) as [[[]|e'] w3] eqn:Ep.
  2:{ injection H as <- <-. exists 1%nat. eapply trun_cons; [cbn; by rewrite Ep|done]. }
  change (mkSpawnSpec _ _ _ _ _) with (spawn_spec q srv (new_pod q)) in H.
  destruct (on_prov (Prov_Ensure (spawn_spec q srv (new_pod q))) w3) as [[st|e'] w4] eqn:Ee.
  + apply with_pod_trun in H as [n Hn]. exists (S (S n)). eapply trun_cons; [cbn; by rewrite Ep|]. eapply trun_cons; [cbn; by rewrite Ee|exact Hn].
  + injection H as <- <-. exists 3%nat. eapply trun_cons; [cbn; by rewrite Ep|]. eapply trun_cons; [cbn; by rewrite Ee|done].
Qed.

End Threads.

(** ** Every request ends, whatever the others do *)

Section WaitFree.
Context {T P B : Type} {tbl : RoutingTable T} {prov : Provisioner P} {brk : TokenBroker B} {pol : AccessPolicy}.
Local Notation W := (world T P B).

(** The thread after [n] of its own steps, when the [k]-th of them finds the shared
    state [ws k]: the other requests and the cluster choose [ws]. *)
Fixpoint tafter (ws : nat → W) (n : nat) (q : treq) (t : tstate) : tstate :=
  match n with O => t | S n => tafter (λ k, ws (S k)) n q (tstep q t (ws 0%nat)).1 end.

Definition hold_budget (q : treq) : Z := Duration_Or (g_ColdStartBudget (c_Gateway (ld_Config (q_l q)))) (60 * Second).

(** Steps left, at most. *)
Definition steps_left (q : treq) (t : tstate) : nat :=
  let polls := S (S (Z.to_nat (hold_budget q / tick))) in
  match t with
  | TStart => 7 + polls
  | TCount _ => 6 + polls
  | TPut _ => 5 + polls
  | TEnsure _ _ => 4 + polls
  | THold _ _ i => 3 + (polls - i)
  | TReady _ _ _ | TRelease _ => 2
  | TTouch _ _ _ | TUndo _ | TDelete _ => 1
  | TDone _ => 0
  end%nat.

Lemma poll_in_budget q i :
  ticker_ok (q_env q) → 0 ≤ hold_budget q → (hold_deadline q <? e_clock (q_env q) i) = false → (i ≤ Z.to_nat (hold_budget q / tick))%nat.
Proof.
  intros Htick Hb Hd. apply Z.ltb_ge in Hd. specialize (Htick i). unfold hold_deadline in Hd. fold (hold_budget q) in Hd.
  assert (Z.of_nat i ≤ hold_budget q / tick) by (apply Z.div_le_lower_bound; unfold tick, Millisecond in *; lia). lia.
Qed.

Lemma steps_left_decrease q t (w : W) :
  ticker_ok (q_env q) → 0 ≤ hold_budget q → (∀ r, t ≠ TDone r) → (steps_left q (tstep q t w).1 < steps_left q t)%nat.
Proof.
  intros Htick Hb Ht.
  assert (∀ srv pod, steps_left q (with_pod srv pod) ≤ 5 + Z.to_nat (hold_budget q / tick))%nat as Hwp.
  { intros srv pod. unfold with_pod. case_bool_decide; cbn; lia. }
  destruct t as [|srv|srv|srv pod|e|srv pod i|srv pod i|srv pod i|e|e|r]; cbn [tstep].
  - destruct (Config_Server _ _) as [srv|]; [|cbn; lia]. destruct (negb (Allows _ _)); [cbn; lia|].
    destruct (on_table _ w) as [[pod|e] w1]; cbn [fst]; [specialize (Hwp srv pod); cbn in *; lia|].
    destruct (negb _); cbn; lia.
  - destruct (on_table _ w) as [[[[pu pt] tot]|e] w1]; cbn [fst]; [|cbn; lia]. destruct (_ || _); cbn; lia.
  - destruct (on_table _ w) as [[[]|e] w1]; cbn; lia.
  - destruct (on_prov _ w) as [[st|e] w1]; cbn [fst]; [specialize (Hwp srv pod); cbn in *; lia|cbn; lia].
  - cbn; lia.
  - destruct (on_prov _ w) as [[st|e] w1]; cbn [fst]; [|cbn; lia].
    destruct (pst_Phase st); try (cbn; lia);
      (destruct (_ <? _) eqn:Ed; [cbn; lia|]; apply poll_in_budget in Ed; [|done..]; destruct (e_done _ _); cbn; lia).
  - destruct (on_table _ w) as [[[]|e] w1]; cbn; lia.
  - cbn; lia.
  - cbn; lia.
  - cbn; lia.
  - by destruct (Ht r).
Qed.

Lemma tafter_ends n q t (ws : nat → W) :
  ticker_ok (q_env q) → 0 ≤ hold_budget q → (steps_left q t ≤ n)%nat → ∃ r, tafter ws n q t = TDone r.
Proof.
  intros Htick Hb. revert t ws. induction n as [|n IH]; intros t ws Hn; cbn [tafter].
  - destruct t; cbn in Hn; try lia. eauto.
  - apply IH. destruct (steps_left q t) as [|m] eqn:Em; [destruct t; cbn in Em; try lia; cbn; lia|].
    enough (steps_left q (tstep q t (ws 0%nat)).1 < steps_left q t)%nat by lia.
    apply steps_left_decrease; [done..|]. intros r ->. done.
Qed.

(** C10. Requests are wait-free: whatever the other requests, the other replicas and the
    cluster do to the shared state between the steps of a request, it has an answer
    after at most 7 + 2 + budget / 500ms of its own calls, so no schedule starves a
    caller. *)
Theorem EnsurePod_wait_free q (ws : nat → W) :
  ticker_ok (q_env q) → 0 ≤ g_ColdStartBudget (c_Gateway (ld_Config (q_l q))) →
  ∃ r, tafter ws (9 + Z.to_nat (hold_budget q / tick)) q TStart = TDone r.
Proof.
  intros Htick Hb. apply tafter_ends; [done| |cbn; lia]. unfold hold_budget, Duration_Or. case_match; unfold Second; lia.
Qed.
End WaitFree.

(** ** Requests that interleave, on the in-process table *)

Section System.
Context {P B : Type} {prov : Provisioner P} {brk : TokenBroker B} {pol : AccessPolicy}.
Notation Mem := Memory.Memory.
Notation W := (world Mem P B).

(** Bounds on the caps the requests run under: per user, per type, in total. *)
Record bounds := mkBounds { b_user : string → Z; b_type : string → Z; b_total : Z }.

Record req_ok (b : bounds) (q : treq) : Prop := {
  ro_user : gr_Pods (Policy_Grants (q_p q) "") ≤ b_user b (p_Subject (q_p q));
  ro_type : ∀ srv, Config_Server (ld_Config (q_l q)) (q_st q) = Some srv → s_MaxPods srv ≤ b_type b (q_st q);
  ro_total : cap_TotalPods (g_Caps (c_Gateway (ld_Config (q_l q)))) ≤ b_total b }.

Notation threads := (list (treq * tstate)).

(** The gateway with as many request slots as it has threads: a slot makes a step,
    a finished slot takes a new request, and everything else (releases, the reaper,
    proxied calls, the cluster) changes the rest at will but records no pod. *)
Inductive cstep (b : bounds) : threads * W → threads * W → Prop :=
| cs_step ts i q t t' w w' :
    ts !! i = Some (q, t) → tstep q t w = (t', w') → cstep b (ts, w) (<[i := (q, t')]> ts, w')
| cs_new ts i q r q' w :
    ts !! i = Some (q, TDone r) → req_ok b q' → cstep b (ts, w) (<[i := (q', TStart)]> ts, w)
| cs_env ts w w' :
    table_ok (w_table w') → keys (w_table w') ⊆ keys (w_table w) → cstep b (ts, w) (ts, w').

(** A release is such a change. *)
Lemma cs_Release b ts key (w : W) : table_ok (w_table w) → cstep b (ts, w) (ts, (Release key w).2).
Proof.
  intros Hok. apply cs_env; unfold Release; pose proof (on_prov_table (Prov_Release key) w) as Ht;
    destruct (on_prov (Prov_Release key) w) as [[[]|e] w1]; cbn [snd] in *.
  - apply table_ok_DeletePod. cbn. rewrite Ht. by destruct Hok.
  - destruct (negb _); cbn [snd]; [by rewrite Ht|]. apply table_ok_DeletePod. cbn. rewrite Ht. by destruct Hok.
  - etrans; [apply keys_DeletePod|]. cbn. by rewrite Ht.
  - destruct (negb _); cbn [snd]; [by rewrite Ht|]. etrans; [apply keys_DeletePod|]. cbn. by rewrite Ht.
Qed.

(** What a thread knows: the type is configured and granted, and the pod it carries
    is the caller's. *)
Definition own (q : treq) (srv : Server) : Prop :=
  Config_Server (ld_Config (q_l q)) (q_st q) = Some srv ∧ Allows (Policy_Grants (q_p q) "") (q_st q) = true.
Definition thread_ok (q : treq) (t : tstate) : Prop :=
  match t with
  | TCount srv | TPut srv => own q srv
  | TEnsure srv pod | THold srv pod _ => own q srv ∧ pod_Key pod = q_key q
  | TReady srv pod _ | TTouch srv pod _ | TDone (Ok (pod, srv)) => own q srv ∧ pod_Key pod = q_key q ∧ pod_Phase pod = PhaseReady
  | _ => True
  end.

(** A thread that may still record its pod. *)
Definition pending (t : tstate) : bool :=
  match t with TPut _ | TEnsure _ _ | THold _ _ _ | TReady _ _ _ => true | _ => false end.
Definition pend1 (x : treq * tstate) : gset PodKey := if pending x.2 then {[q_key x.1]} else ∅.
Definition pend (ts : threads) : gset PodKey := ⋃ (pend1 <$> ts).

(** What the admission saw when it let a new pod through. *)
Definition room (b : bounds) (q : treq) (D : gset PodKey) : Prop :=
  Z.of_nat (size (user_keys (p_Subject (q_p q)) D)) < b_user b (p_Subject (q_p q)) ∧
  Z.of_nat (size (type_keys (q_st q) D)) < b_type b (q_st q) ∧ Z.of_nat (size D) < b_total b.

Lemma thread_ok_with_pod q srv pod : own q srv → pod_Key pod = q_key q → thread_ok q (with_pod srv pod).
Proof. unfold with_pod. intros. by case_bool_decide. Qed.

(** One step: the invariant of the thread and of the table, the pod records it adds
    and how it comes to intend one. *)
Definition step_spec (b : bounds) (q : treq) (t t' : tstate) (w w' : W) : Prop :=
  thread_ok q t' ∧ table_ok (w_table w') ∧
  keys (w_table w') ⊆ keys (w_table w) ∪ pend1 (q, t) ∧
  (pending t' = true → pending t = true ∨ q_key q ∈ keys (w_table w) ∨ (room b q (keys (w_table w)) ∧ keys (w_table w') = keys (w_table w))).

(** A step that leaves the table alone. *)
Lemma step_same b q t t' (w w' : W) :
  table_ok (w_table w) → w_table w' = w_table w → thread_ok q t' →
  (pending t' = true → pending t = true ∨ q_key q ∈ keys (w_table w) ∨ room b q (keys (w_table w))) → step_spec b q t t' w w'.
Proof. intros Hok Hw Ht Hp. unfold step_spec. rewrite Hw. split_and!; [done..|set_solver|]. intros H. destruct (Hp H) as [?|[?|?]]; tauto. Qed.

Lemma step_delete b q t t' (w : W) :
  table_ok (w_table w) → thread_ok q t' → pending t' = false → step_spec b q t t' w (on_table (DeletePod (q_key q)) w).2.
Proof.
  intros Hok Ht Hp. split_and!; [done|by apply table_ok_DeletePod| |by rewrite Hp].
  etrans; [apply (keys_DeletePod (q_key q))|set_solver].
Qed.

Lemma step_put b q t t' pod (w : W) :
  table_ok (w_table w) → pending t = true → thread_ok q t' → pod_Key pod = q_key q →
  pod_Phase pod = PhasePending ∨ pod_Phase pod = PhaseReady → step_spec b q t t' w (on_table (PutPod pod) w).2.
Proof.
  intros Hok Hp Ht Hk Hph. split_and!; [done|by apply table_ok_PutPod| |by left].
  change (keys (Memory.PutPod pod (w_table w)).2 ⊆ keys (w_table w) ∪ pend1 (q, t)).
  rewrite keys_PutPod, Hk. unfold pend1. cbn [fst snd]. rewrite Hp. set_solver.
Qed.

Lemma GetPod_Memory k (w w1 : W) r :
  on_table (GetPod k) w = (r, w1) → w1 = w ∧ (∀ pod, r = Ok pod → Memory.pods (w_table w) !! k = Some pod) .
Proof.
  unfold on_table. cbn [Contracts.GetPod Memory.table]. unfold Memory.GetPod.
  destruct (Memory.pods (w_table w) !! k) as [p|]; intros [= <- <-]; split; try (by destruct w); naive_solver.
Qed.

Lemma tstep_spec b q t t' (w w' : W) :
  req_ok b q → table_ok (w_table w) → thread_ok q t → tstep q t w = (t', w') → step_spec b q t t' w w'.
Proof.
  intros Hq Hok Ht. pose proof (@on_prov_table Mem P B) as Hpt.
  destruct t as [|srv|srv|srv pod|e|srv pod i|srv pod i|srv pod i|e|e|r]; cbn [tstep].
  - destruct (Config_Server _ _) as [srv|] eqn:Es; [|intros [= <- <-]; by apply step_same].
    destruct (Allows _ _) eqn:Ea; cbn [negb]; [|intros [= <- <-]; by apply step_same].
    destruct (on_table (GetPod (q_key q)) w) as [r w1] eqn:Eg. apply GetPod_Memory in Eg as [-> Hg].
    destruct r as [pod|e].
    + intros [= <- <-]. specialize (Hg _ eq_refl). apply step_same; [done..| |].
      * apply thread_ok_with_pod; [done|]. by eapply tok_key in Hg.
      * intros _. right; left. apply elem_of_dom. eauto.
    + destruct (negb _); intros [= <- <-]; by apply step_same.
  - unfold on_table. cbn [Contracts.CountPods Memory.table]. rewrite CountPods_keys by done.
    destruct (_ || _) eqn:Ec; intros [= <- <-]; apply step_same; try done. intros _. right; right. bprop.
    destruct Hq as [Hru Hrt Hro]. specialize (Hrt srv (proj1 Ht)). unfold room. lia.
  - destruct (on_table (PutPod (new_pod q)) w) as [r w1] eqn:Ep.
    assert (r = Ok ()) as -> by (by injection Ep). replace w1 with (on_table (PutPod (new_pod q)) w).2 by (by rewrite Ep).
    intros [= <- <-]. apply step_put; try done. by left.
  - destruct Ht as [Ho Hk]. specialize (Hpt _ (Prov_Ensure (spawn_spec q srv pod)) w).
    destruct (on_prov _ w) as [[st|e] w1]; intros [= <- <-]; apply step_same; try done; try by left. by apply thread_ok_with_pod.
  - intros [= <- <-]. by apply step_delete.
  - destruct Ht as [Ho Hk]. specialize (Hpt _ (Prov_Status (q_key q)) w).
    destruct (on_prov _ w) as [[st|e] w1]; intros [= <- <-]; apply step_same; try done; try (by left);
      destruct (pst_Phase st); try done; (destruct (_ <? _); [done|]; by destruct (e_done _ _)).
  - destruct Ht as (Ho & Hk & Hph).
    destruct (on_table (PutPod pod) w) as [r w1] eqn:Ep.
    assert (r = Ok ()) as -> by (by injection Ep). replace w1 with (on_table (PutPod pod) w).2 by (by rewrite Ep).
    intros [= <- <-]. apply step_put; try done. by right.
  - intros [= <- <-]. split_and!; [done|..]; try done; [by destruct Hok|cbn; set_solver].
  - intros [= <- <-]. by apply step_same.
  - intros [= <- <-]. by apply step_delete.
  - intros [= <- <-]. by apply step_same.
Qed.

(** ** The invariant of the system *)

Lemma pend_lookup ts i x : ts !! i = Some x → pend1 x ⊆ pend ts.
Proof.
  intros Hi y Hy. unfold pend. rewrite elem_of_union_list. exists (pend1 x). split; [|done].
  apply list_elem_of_fmap_2. by eapply list_elem_of_lookup_2.
Qed.

Lemma pend_insert ts i x : pend (<[i := x]> ts) ⊆ pend ts ∪ pend1 x.
Proof.
  intros y. unfold pend. rewrite elem_of_union, !elem_of_union_list. intros (D & HD & Hy).
  apply list_elem_of_fmap_1 in HD as (z & -> & Hz). apply list_elem_of_lookup_1 in Hz as [j Hj].
  apply list_lookup_insert_Some in Hj as [(<- & <- & _)|[_ Hj]]; [by right|]. left. exists (pend1 z). split; [|done].
  apply list_elem_of_fmap_2. by eapply list_elem_of_lookup_2.
Qed.

Lemma size_pend ts : (size (pend ts) ≤ length ts)%nat.
Proof.
  unfold pend. induction ts as [|x ts IH]; cbn; [by rewrite size_empty|].
  assert (size (pend1 x) ≤ 1)%nat by (unfold pend1; destruct (pending _); rewrite ?size_empty, ?size_singleton; lia).
  pose proof (size_union_alt (pend1 x) (⋃ (pend1 <$> ts))) as ->.
  assert (size ((⋃ (pend1 <$> ts)) ∖ pend1 x) ≤ size (⋃ (pend1 <$> ts)))%nat by (apply subseteq_size; set_solver). lia.
Qed.

(** The pods recorded and those some request may still record. *)
Definition claimed (s : threads * W) : gset PodKey := keys (w_table s.2) ∪ pend s.1.

(** [Q] selects the pods one cap counts, [C] is that cap. *)
Definition within (Q : PodKey → Prop) `{∀ k, Decision (Q k)} (C : Z) (s : threads * W) : Prop :=
  Z.of_nat (size (filter Q (claimed s))) < C + Z.of_nat (length s.1).

Record sys_ok (b : bounds) (s : threads * W) : Prop := {
  so_table : table_ok (w_table s.2);
  so_threads : ∀ i q t, s.1 !! i = Some (q, t) → req_ok b q ∧ thread_ok q t;
  so_user : ∀ u, within (λ k, pk_Subject k = u) (b_user b u) s;
  so_type : ∀ ty, within (λ k, pk_ServerType k = ty) (b_type b ty) s;
  so_total : within (λ _, True) (b_total b) s }.

Lemma size_filter_mono (Q : PodKey → Prop) `{∀ k, Decision (Q k)} (D D' : gset PodKey) :
  D ⊆ D' → (size (filter Q D) ≤ size (filter Q D'))%nat.
Proof. intros Hs. apply subseteq_size. intros x. rewrite !elem_of_filter. naive_solver. Qed.

Lemma size_filter_union (Q : PodKey → Prop) `{∀ k, Decision (Q k)} (D E : gset PodKey) :
  (size (filter Q (D ∪ E)) ≤ size (filter Q D) + size E)%nat.
Proof.
  rewrite filter_union_L, size_union_alt by apply _.
  assert (size (filter Q E ∖ filter Q D) ≤ size E)%nat; [|lia]. apply subseteq_size. intros x. rewrite elem_of_difference, elem_of_filter. tauto.
Qed.

(** A step keeps the claim of each cap: it claims nothing new, or the admission has
    just seen room for it. *)
Lemma within_step b (Q : PodKey → Prop) `{∀ k, Decision (Q k)} C ts i q t t' (w w' : W) :
  ts !! i = Some (q, t) → step_spec b q t t' w w' →
  (Q (q_key q) → room b q (keys (w_table w)) → Z.of_nat (size (filter Q (keys (w_table w)))) < C) →
  within Q C (ts, w) → within Q C (<[i := (q, t')]> ts, w').
Proof.
  intros Hi (_ & _ & Hk & Hp) Hroom. unfold within, claimed. cbn [fst snd]. rewrite length_insert. intros Hin.
  pose proof (pend_lookup _ _ _ Hi) as Hpt. pose proof (pend_insert ts i (q, t')) as Hpi.
  assert (keys (w_table w') ∪ pend (<[i:=(q, t')]> ts) ⊆ keys (w_table w) ∪ pend ts →
    Z.of_nat (size (filter Q (keys (w_table w') ∪ pend (<[i:=(q, t')]> ts)))) < C + Z.of_nat (length ts)) as Hmono.
  { intros Hsub%(size_filter_mono Q). lia. }
  assert (q_key q ∈ keys (w_table w) ∪ pend ts → pend (<[i:=(q, t')]> ts) ⊆ keys (w_table w) ∪ pend ts) as Hkey.
  { intros Hq. etrans; [exact Hpi|]. unfold pend1. cbn [fst snd]. destruct (pending t'); set_solver. }
  destruct (pending t') eqn:Ep'; [|apply Hmono; unfold pend1 at 1 in Hpi; cbn [snd] in Hpi; rewrite Ep' in Hpi; set_solver].
  destruct (Hp eq_refl) as [Ht|[Hin'|[Hr Hkeys]]].
  - apply Hmono. assert (q_key q ∈ pend ts) by (apply Hpt; unfold pend1; cbn [fst snd]; rewrite Ht; set_solver). set_solver.
  - apply Hmono. set_solver.
  - rewrite Hkeys. destruct (decide (Q (q_key q))) as [HQ|HQ].
    + specialize (Hroom HQ Hr). pose proof (size_filter_union Q (keys (w_table w)) (pend (<[i:=(q, t')]> ts))).
      pose proof (size_pend (<[i:=(q, t')]> ts)) as Hsz. rewrite length_insert in Hsz. lia.
    + enough (size (filter Q (keys (w_table w) ∪ pend (<[i:=(q, t')]> ts))) ≤ size (filter Q (keys (w_table w) ∪ pend ts)))%nat by lia.
      apply subseteq_size. intros x. rewrite !elem_of_filter, !elem_of_union. intros [Hx [Hx'|Hx']]; [tauto|].
      apply Hpi in Hx'. apply elem_of_union in Hx' as [Hx'|Hx']; [tauto|]. unfold pend1 in Hx'. cbn [fst snd] in Hx'. rewrite Ep' in Hx'.
      apply elem_of_singleton in Hx'. by subst.
Qed.

Lemma within_mono (Q : PodKey → Prop) `{∀ k, Decision (Q k)} C (s s' : threads * W) :
  length s'.1 = length s.1 → claimed s' ⊆ claimed s → within Q C s → within Q C s'.
Proof. unfold within. intros -> Hsub%(size_filter_mono Q). lia. Qed.

Lemma sys_ok_step b s s' : sys_ok b s → cstep b s s' → sys_ok b s'.
Proof.
  intros [Ht Hth Hu Hty Hto] Hs. destruct Hs as [ts i q t t' w w' Hi Hst|ts i q r q' w Hi Hq|ts w w' Hok Hk]; cbn [fst snd] in *.
  - destruct (Hth _ _ _ Hi) as [Hq Hqt]. pose proof (tstep_spec b q t t' w w' Hq Ht Hqt Hst) as Hsp. split; cbn [fst snd].
    + apply Hsp.
    + intros j q0 t0 Hj. apply list_lookup_insert_Some in Hj as [(<- & [= -> ->] & _)|[_ Hj]]; [|eauto]. split; [done|apply Hsp].
    + intros u. eapply within_step; [done..| |done]. intros <- (Hr & _ & _). exact Hr.
    + intros ty. eapply within_step; [done..| |done]. intros <- (_ & Hr & _). exact Hr.
    + eapply within_step; [done..| |done]. intros _ (_ & _ & Hr).
      pose proof (size_filter_union (λ _, True) ∅ (keys (w_table w))) as Hx. rewrite union_empty_l_L, filter_empty_L, size_empty in Hx by apply _. lia.
  - assert (claimed (<[i:=(q', TStart)]> ts, w) ⊆ claimed (ts, w)) as Hc.
    { unfold claimed. cbn [fst snd]. pose proof (pend_insert ts i (q', TStart)). set_solver. }
    split; cbn [fst snd]; [done| |intros; apply within_mono with (ts, w); [apply length_insert|exact Hc|auto]..].
    intros j q0 t0 Hj. apply list_lookup_insert_Some in Hj as [(<- & [= <- <-] & _)|[_ Hj]]; [|eauto]. done.
  - assert (claimed (ts, w') ⊆ claimed (ts, w)) as Hc by (unfold claimed; cbn [fst snd]; set_solver).
    split; cbn [fst snd]; [done|done|intros; apply within_mono with (ts, w); [done|exact Hc|auto]..].
Qed.

Lemma sys_ok_run b s s' : sys_ok b s → rtc (cstep b) s s' → sys_ok b s'.
Proof. intros Hs Hr. induction Hr; eauto using sys_ok_step. Qed.

(** Idle slots on a table within the caps. *)
Definition start_ok (b : bounds) (s : threads * W) : Prop :=
  table_ok (w_table s.2) ∧ s.1 ≠ [] ∧ (∀ i q t, s.1 !! i = Some (q, t) → req_ok b q ∧ t = TStart) ∧
  let D := keys (w_table s.2) in
  (∀ u, Z.of_nat (size (user_keys u D)) ≤ b_user b u) ∧ (∀ ty, Z.of_nat (size (type_keys ty D)) ≤ b_type b ty) ∧ Z.of_nat (size D) ≤ b_total b.

Lemma size_filter_True (D : gset PodKey) : size (filter (λ _, True) D) = size D.
Proof. f_equal. apply set_eq. intros x. rewrite elem_of_filter. tauto. Qed.

Lemma sys_ok_start b s : start_ok b s → sys_ok b s.
Proof.
  destruct s as [ts w]. intros (Ht & Hne & Hth & Hu & Hty & Hto). cbn [fst snd] in *.
  assert (claimed (ts, w) = keys (w_table w)) as Hc.
  { unfold claimed. cbn [fst snd]. enough (pend ts = ∅) as -> by set_solver. apply set_eq. intros y. unfold pend. rewrite elem_of_union_list.
    split; [|set_solver]. intros (D & HD & Hy). apply list_elem_of_fmap_1 in HD as ([q t] & -> & Hz). apply list_elem_of_lookup_1 in Hz as [j Hj].
    by destruct (Hth _ _ _ Hj) as [_ ->]. }
  assert (0 < length ts)%nat by (destruct ts; [done|cbn; lia]).
  split; unfold within; rewrite ?Hc; cbn [fst snd].
  - done.
  - intros i q t Hi. by destruct (Hth _ _ _ Hi) as [? ->].
  - intros u. specialize (Hu u). unfold user_keys in Hu. lia.
  - intros ty. specialize (Hty ty). unfold type_keys in Hty. lia.
  - rewrite size_filter_True. lia.
Qed.

(** C3. Concurrent requests overshoot the caps by at most the number of requests in
    flight less one: count and creation are two calls without a lock, so [n]
    requests that interleave in any way, with releases and pod failures between
    them, over any run, keep every user, every type and the whole table below
    cap + n; with one request at a time that is the cap. *)
Theorem overshoot_bounded b s s' :
  start_ok b s → rtc (cstep b) s s' →
  let D := keys (w_table s'.2) in let n := Z.of_nat (length s.1) in
  (∀ u, Z.of_nat (size (user_keys u D)) ≤ b_user b u + n - 1) ∧
  (∀ ty, Z.of_nat (size (type_keys ty D)) ≤ b_type b ty + n - 1) ∧
  Z.of_nat (size D) ≤ b_total b + n - 1.
Proof.
  intros Hs Hr D n. assert (length s'.1 = length s.1) as Hlen.
  { clear -Hr. induction Hr as [|x y z Hxy _ IH]; [done|]. rewrite IH. destruct Hxy; cbn; by rewrite ?length_insert. }
  apply sys_ok_start in Hs. destruct (sys_ok_run _ _ _ Hs Hr) as [_ _ Hu Hty Hto]. unfold within, claimed in *. rewrite Hlen in *.
  assert (D ⊆ D ∪ pend s'.1) as Hsub by set_solver. split_and!.
  - intros u. specialize (Hu u). pose proof (size_filter_mono (λ k, pk_Subject k = u) _ _ Hsub). unfold user_keys. fold D in Hu. lia.
  - intros ty. specialize (Hty ty). pose proof (size_filter_mono (λ k, pk_ServerType k = ty) _ _ Hsub). unfold type_keys. fold D in Hty. lia.
  - rewrite size_filter_True in Hto. pose proof (subseteq_size _ _ Hsub) as Hsz. fold D in Hto. lia.
Qed.

(** C7. Interleaving does not mix up callers: a request that ends with a pod ends with
    a Ready pod recorded under its own subject and type, of a type the configuration
    it read defines and the policy grants to it. *)
Theorem concurrent_own_pod b s s' i q pod srv :
  start_ok b s → rtc (cstep b) s s' → s'.1 !! i = Some (q, TDone (Ok (pod, srv))) →
  pod_Key pod = q_key q ∧ pod_Phase pod = PhaseReady ∧
  Config_Server (ld_Config (q_l q)) (q_st q) = Some srv ∧ Allows (Policy_Grants (q_p q) "") (q_st q) = true.
Proof.
  intros Hs%sys_ok_start Hr Hi. destruct (so_threads _ _ (sys_ok_run _ _ _ Hs Hr) _ _ _ Hi) as [_ ([? ?] & ? & ?)]. done.
Qed.
End System.

(** ** Schedules *)

Section Schedule.
Context {P B : Type} {prov : Provisioner P} {brk : TokenBroker B} {pol : AccessPolicy}.
Notation W := (world Memory.Memory P B).

(** The slots that step, in order; a number past the last slot does nothing. *)
Fixpoint crun (sched : list nat) (s : list (treq * tstate) * W) : list (treq * tstate) * W :=
  match sched with
  | [] => s
  | i :: sched =>
      crun sched (match s.1 !! i with
                  | Some (q, t) => let '(t, w) := tstep q t s.2 in (<[i := (q, t)]> s.1, w)
                  | None => s
                  end)
  end.

Lemma crun_steps b sched s : rtc (cstep b) s (crun sched s).
Proof.
  revert s. induction sched as [|i sched IH]; intros [ts w]; cbn [crun]; [done|]. cbn [fst snd].
  destruct (ts !! i) as [[q t]|] eqn:Ei; [|apply IH]. destruct (tstep q t w) as [t' w'] eqn:Et.
  eapply rtc_l; [|apply IH]. by econstructor.
Qed.
End Schedule.

(** ** Witnesses and races *)
Module ConcurrentWitness.
Import ManagerWitness.

#[local] Instance race_policy : AccessPolicy := groups_policy race_config ∅.

Definition ask (st : string) (rnd : Z) : treq :=
  mkTreq (loaded race_config) (mkReqenv 1000 (replicate 32 rnd) (λ i, 1000 + Z.of_nat i * tick) (λ _, false)) bob st.
Definition slots : list (treq * tstate) := [(ask "jira" 65, TStart); (ask "mcp-atlassian" 66, TStart)].
Definition bounds1 : bounds := mkBounds (λ _, 1) (λ _, 200) 3.

Lemma ask_ok st rnd : (∀ srv, Config_Server race_config st = Some srv → s_MaxPods srv ≤ 200) → req_ok bounds1 (ask st rnd).
Proof. intros H. split; [vm_compute; discriminate|exact H|vm_compute; discriminate]. Qed.

Lemma slots_ok : start_ok bounds1 (slots, w0).
Proof.
  split_and!; [split; intros k p; cbn; by rewrite lookup_empty|done| |cbn..].
  - intros i q t Hi. apply list_elem_of_lookup_2 in Hi. unfold slots in Hi. cbn [fst] in Hi.
    repeat (apply elem_of_cons in Hi as [[= -> ->]|Hi]; [split; [apply ask_ok; vm_compute; intros srv [= <-]; done|done]|]).
    by apply not_elem_of_nil in Hi.
  - split_and!; intros; by vm_compute.
Qed.

(** Both requests count before either records its pod. *)
Definition race_sched : list nat := [0; 1; 0; 1; 0; 1; 0; 1; 0; 0; 0; 0; 0; 1; 1; 1; 1; 1]%nat.

(** The bound is attained: two requests, a cap of one pod per user, two pods. *)
Lemma overshoot_bounded_witness :
  (size (user_keys "bob" (keys (w_table (crun race_sched (slots, w0)).2))) = 2)%nat ∧
  Z.of_nat (size (user_keys "bob" (keys (w_table (crun race_sched (slots, w0)).2)))) ≤ 1 + 2 - 1.
Proof.
  split; [vm_compute; reflexivity|].
  exact (proj1 (overshoot_bounded bounds1 (slots, w0) (crun race_sched (slots, w0)) slots_ok (crun_steps bounds1 race_sched (slots, w0))) "bob").
Defined.

Definition jira_srv : Server := default (sample_server "" TokenNone None) (Config_Server race_config "jira").
Lemma concurrent_own_pod_witness :
  (crun race_sched (slots, w0)).1 !! 0%nat = Some (ask "jira" 65, TDone (Ok (bob_pod, jira_srv))) ∧
  pod_Key bob_pod = q_key (ask "jira" 65) ∧ Allows (Policy_Grants bob "") "jira" = true.
Proof.
  assert ((crun race_sched (slots, w0)).1 !! 0%nat = Some (ask "jira" 65, TDone (Ok (bob_pod, jira_srv)))) as E by (vm_compute; reflexivity).
  split; [exact E|].
  destruct (concurrent_own_pod bounds1 (slots, w0) (crun race_sched (slots, w0)) 0 (ask "jira" 65) bob_pod jira_srv slots_ok
    (crun_steps bounds1 race_sched (slots, w0)) E) as (H & _ & _ & Ha).
  split; [exact H|exact Ha].
Defined.

Lemma EnsurePod_wait_free_witness :
  ∃ r, tafter (λ _, w0) (9 + Z.to_nat (hold_budget (ask "jira" 65) / tick)) (ask "jira" 65) TStart = TDone r.
Proof.
  apply (EnsurePod_wait_free (ask "jira" 65) (λ _, w0)).
  - intros i. cbn. lia.
  - vm_compute. discriminate.
Defined.

(** A release between the status and the record: the first request has seen the pod
    Ready, an administrator releases it, and the request records it again, so the
    next request is handed a Ready pod the provisioner no longer has. *)
Definition released : list (treq * tstate) * world Memory.Memory toy_prov () :=
  let s := crun [0; 0; 0; 0; 0; 0; 0]%nat (slots, w0) in
  crun [0; 0]%nat (s.1, (Release (mkPodKey "bob" "jira") s.2).2).

Lemma hold_revives_released :
  w_prov released.2 !! mkPodKey "bob" "jira" = None ∧
  match EnsurePod 5 (loaded race_config) env0 bob "jira" released.2 with
  | Some (Ok (pod, _), _) => pod_Phase pod = PhaseReady
  | _ => False
  end.
Proof. split; vm_compute; reflexivity. Qed.
End ConcurrentWitness.

(** Two first requests of one caller for one type, on the Kubernetes provisioner:
    both find no record, the first creates the Session with its token in a Secret,
    the second replaces the record with its own token and finds the Session there. *)
Module TokenRace.
Import EgressWitness ControllerWitness ProvisionWitness ManagerWitness.
#[local] Existing Instance toy_api.
#[local] Existing Instance toy_create.
#[local] Instance kprov : Provisioner kstate := kube_provisioner "sessions" 5.
#[local] Instance race_policy : AccessPolicy := groups_policy sample_config ∅.

Definition ask (rnd : Z) : treq :=
  mkTreq (loaded sample_config) (mkReqenv 1000 (replicate 32 rnd) (λ i, 1000 + Z.of_nat i * tick) (λ _, false)) bob "jira".
Definition start : list (treq * tstate) * world Memory.Memory kstate () :=
  ([(ask 65, TStart); (ask 66, TStart)], mkWorld Memory.NewMemory k0 ()).
Definition spawned := crun [0; 1; 0; 1; 0; 0; 1; 1]%nat start.

(** The controller brings the pod up. *)
Definition up_status (s : Session) : Session :=
  mkSession (sess_Name s) (sess_Namespace s) (sess_CreationTimestamp s) (sess_DeletionTimestamp s) (sess_Finalizers s) (sess_Spec s)
    (mkSessionStatus PhaseReady (sess_Name s) "10.0.0.9" "https://10.0.0.9:8443" "" (Some 10) (Some 20) None).
Definition brought_up : list (treq * tstate) * world Memory.Memory kstate () :=
  let w := spawned.2 in
  crun [0; 0; 0; 1; 1; 1]%nat (spawned.1, mkWorld (w_table w) (on_sessions (fmap up_status) (w_prov w)) (w_broker w)).

(** Both requests end with a Ready pod; the record every later request is served
    from carries the second token, the Secret the pod was started with the first. *)
Lemma token_race :
  map (λ x, match x.2 with TDone (Ok (pod, _)) => Some (pod_PodToken pod) | _ => None end) brought_up.1
    = [Some (newPodToken (replicate 32 65)); Some (newPodToken (replicate 32 66))] ∧
  pod_PodToken <$> Memory.pods (w_table brought_up.2) !! mkPodKey "bob" "jira" = Some (newPodToken (replicate 32 66)) ∧
  ks_secrets (w_prov brought_up.2) !! (bob_name +:+ "-pod-token") = Some {["pod-token" := newPodToken (replicate 32 65)]}.
Proof. split_and!; vm_compute; reflexivity. Qed.
End TokenRace.
