(* ===== verification/Render.v ===== *)
(** * internal/controller/render.go: the configuration as ServerType objects

    [RenderServerType] (with the narrowing of Go's int to int32 written out),
    [resources] and [ConfigSyncer.Sync].  Parsing a resource quantity and encoding
    the wrapper configuration as JSON are parameters. *)

From S2P Require Import Prelude GoStd Config Core Contracts Wrapper Kube.

Local Open Scope Z_scope.

(** [int32(n)] of an [int]: the low 32 bits as a signed number. *)
Definition int32 (n : Z) : Z := (n + 2 ^ 31) mod 2 ^ 32 - 2 ^ 31.

Lemma int32_range n : - 2 ^ 31 ≤ int32 n < 2 ^ 31.
Proof. unfold int32. pose proof (Z.mod_pos_bound (n + 2 ^ 31) (2 ^ 32)). lia. Qed.
Lemma int32_id n : - 2 ^ 31 ≤ n < 2 ^ 31 → int32 n = n.
Proof. intros. unfold int32. rewrite Z.mod_small; lia. Qed.
Lemma int32_eq n : int32 n = n ↔ - 2 ^ 31 ≤ n < 2 ^ 31.
Proof. split; [intros <-; apply int32_range|apply int32_id]. Qed.

(** The string values of the enumerations. *)
Definition Transport_string (t : Transport) : string :=
  match t with TransportStdio => "stdio" | TransportStreamableHTTP => "streamable-http" | TransportSSE => "sse" end.
Definition TokenMode_string (m : TokenMode) : string :=
  match m with
  | TokenEnv => "env" | TokenFile => "file" | TokenHeader => "header" | TokenStatic => "static" | TokenNone => "none"
  end.

Section Render.
(** [resource.ParseQuantity] (k8s.io/apimachinery) and [json.Marshal] of the wrapper configuration. *)
Variable ParseQuantity : string → result string.
Variable marshalWrapper : WConfig → result string.

(** The closure [set] of [resources]: an empty quantity is left out. *)
Definition set_quantity (name q : string) (m : gmap string string) : gmap string string * option gerror :=
  if String.eqb q "" then (m, None)
  else match ParseQuantity q with
       | Err e => (m, Some (EWrap (name +:+ "=" +:+ q) e))
       | Ok parsed => (<[name := parsed]> m, None)
       end.

(** All three quantities are set before the errors are looked at. *)
Definition set_list (r : ResourceList) : gmap string string * list (option gerror) :=
  let '(m, e1) := set_quantity "cpu" (rl_CPU r) ∅ in
  let '(m, e2) := set_quantity "memory" (rl_Memory r) m in
  let '(m, e3) := set_quantity "ephemeral-storage" (rl_EphemeralStorage r) m in
  (m, [e1; e2; e3]).

(** [func resources(r config.Resources)]: the first error in order. *)
Definition resources (r : Resources) : result ResourceRequirements :=
  let '(req, es1) := set_list (res_Requests r) in
  let '(lim, es2) := set_list (res_Limits r) in
  match List.find (λ o, match o with Some _ => true | None => false end) (es1 ++ es2) with
  | Some (Some e) => Err e
  | _ => Ok (mkResourceRequirements req lim)
  end.

Definition renderEgress (e : Egress) : EgressRule := mkEgressRule (e_Host e) (int32 <$> e_Ports e) (e_Protocol e).

(** [func RenderServerType] *)
Definition RenderServerType (l : Loaded) (s : Server) (namespace : string) : result ServerType :=
  let c := ld_Config l in
  let w := s_Wrapper s in
  match marshalWrapper (ConfigFromServer s (w_Port w) (w_ReadinessPort w) "/run/juggernaut-secret/pod-token") with
  | Err e => Err e
  | Ok wjson =>
      match resources (s_Resources s) with
      | Err e => Err (EWrap ("servers[" +:+ s_Name s +:+ "].resources") e)
      | Ok res =>
          let sec := s_Security s in
          Ok (mkServerType (s_Name s) namespace {[LabelManagedBy := ManagedByValue; LabelConfigHash := ld_Hash l]}
            {| sts_ConfigHash := ld_Hash l; sts_Description := s_Description s; sts_Image := s_Image s;
               sts_Transport := Transport_string (s_Transport s); sts_Command := s_Command s; sts_Args := s_Args s;
               sts_Env := s_Env s;
               sts_HTTPPort := match s_HTTP s with Some h => int32 (h_Port h) | None => 0 end;
               sts_HTTPPath := match s_HTTP s with Some h => h_Path h | None => "" end;
               sts_WrapperPort := int32 (w_Port w); sts_ReadinessPort := int32 (w_ReadinessPort w);
               sts_TokenMode := TokenMode_string (t_Mode (s_Token s)); sts_TokenEnv := t_Env (s_Token s);
               sts_TokenFile := t_File (s_Token s); sts_TokenHeader := t_Header (s_Token s);
               sts_Egress := renderEgress <$> s_Egress s; sts_Resources := res;
               sts_RuntimeClassName := s_RuntimeClassName s;
               sts_IdleTimeout := Duration_Or (s_IdleTimeout s) (g_IdleTimeout (c_Gateway c));
               sts_MaxSessionAge := Duration_Or (s_MaxSessionAge s) (g_MaxSessionAge (c_Gateway c));
               sts_MaxPods := int32 (s_MaxPods s);
               sts_Security := mkSecuritySpec (se_WritableTmp sec) (se_RunAsUser sec) (se_RunAsGroup sec)
                                 (match se_ReadOnlyRootFilesystem sec with Some b => b | None => true end)
                                 (se_ExtraWritablePaths sec);
               sts_WrapperConfigJSON := wjson |})
      end
  end.

(** ** ConfigSyncer *)

(** The writes of ServerType objects in the sessions namespace. *)
Class KubeTypes (K : Type) := {
  T_get : string → K → result ServerType;
  T_create : ServerType → K → result () * K;
  T_update : ServerType → K → result () * K;
  T_delete : string → K → result () * K;
  T_list : K → result (list ServerType) }.

Context {K : Type} {kt : KubeTypes K}.
Variable namespace : string.

(** The body of the first loop of [Sync]. *)
Definition syncOne (l : Loaded) (s : Server) (k : K) : result () * K :=
  match RenderServerType l s namespace with
  | Err e => (Err e, k)
  | Ok st =>
      match T_get (st_Name st) k with
      | Ok existing =>
          if String.eqb (sts_ConfigHash (st_Spec existing)) (sts_ConfigHash (st_Spec st)) then (Ok (), k)
          else match T_update (mkServerType (st_Name existing) (st_Namespace existing) (st_Labels st) (st_Spec st)) k with
               | (Err e, k) => (Err (EWrap ("update servertype " +:+ st_Name st) e), k)
               | (Ok _, k) => (Ok (), k)
               end
      | Err _ =>
          match T_create st k with
          | (Err e, k) => (Err (EWrap ("create servertype " +:+ st_Name st) e), k)
          | (Ok _, k) => (Ok (), k)
          end
      end
  end.

Fixpoint syncServers (l : Loaded) (ss : list Server) (k : K) : result () * K :=
  match ss with
  | [] => (Ok (), k)
  | s :: ss' => match syncOne l s k with (Err e, k) => (Err e, k) | (Ok _, k) => syncServers l ss' k end
  end.

(** The second loop: types the file no longer names are deleted. *)
Fixpoint prune (want : list string) (items : list ServerType) (k : K) : result () * K :=
  match items with
  | [] => (Ok (), k)
  | st :: items' =>
      if contains want (st_Name st) then prune want items' k
      else match T_delete (st_Name st) k with (Err e, k) => (Err e, k) | (Ok _, k) => prune want items' k end
  end.

(** [func (cs *ConfigSyncer) Sync] *)
Definition Sync (l : Loaded) (k : K) : result () * K :=
  match syncServers l (c_Servers (ld_Config l)) k with
  | (Err e, k) => (Err e, k)
  | (Ok _, k) =>
      match T_list k with
      | Err e => (Err e, k)
      | Ok items => prune (ServerNames (ld_Config l)) items k
      end
  end.
End Render.

(** ** Bounds *)

(** The ports and counts of a rendered ServerType fit 32 bits, and are the
    configured ones exactly when those fit; whenever they do, the wrapper is
    told the same ports the pod and its network policy use. *)
Theorem RenderServerType_ports pq mw l s ns st :
  RenderServerType pq mw l s ns = Ok st →
  let spec := st_Spec st in
  Forall (λ n, - 2 ^ 31 ≤ n < 2 ^ 31) ([sts_WrapperPort spec; sts_ReadinessPort spec; sts_HTTPPort spec; sts_MaxPods spec]
    ++ (sts_Egress spec ≫= er_Ports)) ∧
  (sts_WrapperPort spec = w_Port (s_Wrapper s) ↔ - 2 ^ 31 ≤ w_Port (s_Wrapper s) < 2 ^ 31) ∧
  (sts_ReadinessPort spec = w_ReadinessPort (s_Wrapper s) ↔ - 2 ^ 31 ≤ w_ReadinessPort (s_Wrapper s) < 2 ^ 31) ∧
  (Forall (λ e, Forall (λ p, 1 ≤ p ≤ 65535) (e_Ports e)) (s_Egress s) →
   er_Ports <$> sts_Egress spec = e_Ports <$> s_Egress s).
Proof.
  unfold RenderServerType. destruct (mw _) as [wjson|]; [|done]. destruct (resources _ _); [|done]. intros [= <-].
  cbn. split_and!; [| by apply int32_eq.. |].
  - repeat (apply Forall_cons; split; [|]); try apply int32_range.
    + destruct (s_HTTP s); [apply int32_range|lia].
    + apply Forall_bind, Forall_fmap, Forall_true. intros e. cbn. apply Forall_fmap, Forall_true. intros p. apply int32_range.
  - induction 1 as [|e es He Hes IH]; [done|]. csimpl. f_equal; [|exact IH].
    induction He as [|p ps Hp Hps IHp]; [done|]. csimpl. by rewrite int32_id, IHp by lia.
Qed.

(** ** What a sync leaves in the cluster *)

(** Documented behaviour of the API server on ServerType objects. *)
Class TypeLaws (K : Type) `{!KubeTypes K} := {
  tl_name : ∀ n k st, T_get n k = Ok st → st_Name st = n;
  tl_create : ∀ st k k', T_create st k = (Ok (), k') → T_get (st_Name st) k' = Ok st;
  tl_create_ne : ∀ st n k, n ≠ st_Name st → T_get n (T_create st k).2 = T_get n k;
  tl_update : ∀ st k k', T_update st k = (Ok (), k') → T_get (st_Name st) k' = Ok st;
  tl_update_ne : ∀ st n k, n ≠ st_Name st → T_get n (T_update st k).2 = T_get n k;
  tl_delete : ∀ n k k', T_delete n k = (Ok (), k') → ∃ e, T_get n k' = Err e;
  tl_delete_ne : ∀ n m k, m ≠ n → T_get m (T_delete n k).2 = T_get m k;
  tl_list : ∀ k l, T_list k = Ok l → ∀ n st, T_get n k = Ok st → st ∈ l }.

Section SyncProofs.
Context {K : Type} {kt : KubeTypes K} {laws : TypeLaws K}.
Variable ParseQuantity : string → result string.
Variable marshalWrapper : WConfig → result string.
Variable namespace : string.

Notation Render := (RenderServerType ParseQuantity marshalWrapper).

(** The object of a server is the rendered one. *)
Definition current (l : Loaded) (s : Server) (k : K) : Prop :=
  ∃ st st', T_get (s_Name s) k = Ok st ∧ Render l s namespace = Ok st' ∧ st_Spec st = st_Spec st'.

(** Objects that carry the hash of this configuration were rendered from it. *)
Definition hash_identifies (l : Loaded) (ss : list Server) (k : K) : Prop :=
  ∀ s st st', s ∈ ss → T_get (s_Name s) k = Ok st → Render l s namespace = Ok st' →
    sts_ConfigHash (st_Spec st) = ld_Hash l → st_Spec st = st_Spec st'.

Lemma Render_fields l s st : Render l s namespace = Ok st → st_Name st = s_Name s ∧ sts_ConfigHash (st_Spec st) = ld_Hash l.
Proof.
  unfold RenderServerType. destruct (marshalWrapper _); [|done]. destruct (resources _ _); [|done]. by intros [= <-].
Qed.

Lemma syncOne_ok l ss s k k' :
  s ∈ ss → hash_identifies l ss k → syncOne ParseQuantity marshalWrapper namespace l s k = (Ok (), k') →
  current l s k' ∧ ∀ n, n ≠ s_Name s → T_get n k' = T_get n k.
Proof.
  intros Hin Hh. unfold syncOne, current. destruct (Render l s namespace) as [st|] eqn:Er; [|done].
  destruct (Render_fields _ _ _ Er) as [Hn Hc]. rewrite Hn, Hc.
  destruct (T_get (s_Name s) k) as [ex|] eqn:Eg.
  - destruct (String.eqb_spec (sts_ConfigHash (st_Spec ex)) (ld_Hash l)) as [Heq|Hne].
    + intros [= <-]. split; [|done]. exists ex, st. split_and!; [done..|]. by apply (Hh s ex st).
    + pose proof (tl_name _ _ _ Eg) as Hx. set (st2 := mkServerType _ _ _ _).
      assert (st_Name st2 = s_Name s) as Hn2 by exact Hx. pose proof (tl_update_ne st2) as Hne'.
      destruct (T_update st2 k) as [[[]|] k1] eqn:Eu; [|done]. intros [= <-]. split.
      * exists st2, st. split_and!; [|done..]. rewrite <- Hn2. by eapply tl_update.
      * intros n Hnn. specialize (Hne' n k). rewrite Eu, Hn2 in Hne'. by apply Hne'.
  - pose proof (tl_create_ne st) as Hne'. destruct (T_create st k) as [[[]|] k1] eqn:Ec; [|done]. intros [= <-]. split.
    + exists st, st. split_and!; [|done..]. rewrite <- Hn. by eapply tl_create.
    + intros n Hnn. specialize (Hne' n k). rewrite Ec, Hn in Hne'. by apply Hne'.
Qed.

Lemma syncServers_ok l ss k k' :
  NoDup (s_Name <$> ss) → hash_identifies l ss k →
  syncServers ParseQuantity marshalWrapper namespace l ss k = (Ok (), k') →
  (∀ s, s ∈ ss → current l s k') ∧ ∀ n, n ∉ s_Name <$> ss → T_get n k' = T_get n k.
Proof.
  revert k. induction ss as [|s ss IH]; intros k Hnd Hh; cbn [syncServers].
  { intros [= <-]. split; [|done]. intros s Hs. by apply not_elem_of_nil in Hs. }
  rewrite fmap_cons in *. apply NoDup_cons in Hnd as [Hni Hnd].
  destruct (syncOne _ _ _ l s k) as [[[]|] k1] eqn:E1; [|done]. intros Hss.
  apply (syncOne_ok l (s :: ss)) in E1 as [Hcur Hfr]; [|left|done].
  apply IH in Hss as [Hcur2 Hfr2]; [|done|].
  - split.
    + intros s' [->|Hs']%elem_of_cons; [|auto]. destruct Hcur as (st & st' & Hg & Hr). exists st, st'. by rewrite Hfr2.
    + intros n [Hn1 Hn2]%not_elem_of_cons. by rewrite Hfr2, Hfr.
  - intros s2 st st' Hs2 Hg. rewrite Hfr in Hg; [apply Hh; [by right|done]|].
    intros Heq. apply Hni. rewrite <- Heq. by apply list_elem_of_fmap_2.
Qed.

Lemma prune_ok want items k k' :
  prune want items k = (Ok (), k') →
  (∀ n, n ∈ want → T_get n k' = T_get n k) ∧
  (∀ n st, T_get n k' = Ok st → T_get n k = Ok st) ∧
  (∀ st, st ∈ items → st_Name st ∉ want → ∃ e, T_get (st_Name st) k' = Err e).
Proof.
  revert k. induction items as [|st items IH]; intros k; cbn [prune].
  { intros [= <-]. split_and!; [done..|]. intros st Hst. by apply not_elem_of_nil in Hst. }
  destruct (contains want (st_Name st)) eqn:Ew.
  - apply contains_spec in Ew. intros (H1 & H2 & H3)%IH. split_and!; [done..|].
    intros st' [->|Hst']%elem_of_cons Hn; [done|auto].
  - apply contains_false in Ew. pose proof (tl_delete_ne (st_Name st)) as Hne.
    destruct (T_delete (st_Name st) k) as [[[]|] k1] eqn:Ed; [|done].
    pose proof (tl_delete _ _ _ Ed) as [e He].
    assert (∀ m, m ≠ st_Name st → T_get m k1 = T_get m k) as Hfr.
    { intros m Hm. specialize (Hne m k Hm). by rewrite Ed in Hne. }
    intros (H1 & H2 & H3)%IH. split_and!.
    + intros n Hn. rewrite H1 by done. apply Hfr. by intros ->.
    + intros n st' Hg%H2. destruct (decide (n = st_Name st)) as [->|Hn]; [congruence|by rewrite <- Hfr].
    + intros st' [->|Hst']%elem_of_cons Hn; [|auto].
      destruct (T_get (st_Name st) k') as [st2|e2] eqn:E2; [|by eauto]. apply H2 in E2. congruence.
Qed.

(** A sync that succeeds makes the cluster mirror the file: every server of
    the configuration has an object with the rendered spec, and no other server
    type is left, whatever was there before. *)
Theorem Sync_exact l k k' :
  NoDup (ServerNames (ld_Config l)) → hash_identifies l (c_Servers (ld_Config l)) k →
  Sync ParseQuantity marshalWrapper namespace l k = (Ok (), k') →
  (∀ s, s ∈ c_Servers (ld_Config l) → current l s k') ∧
  (∀ n st, T_get n k' = Ok st → n ∈ ServerNames (ld_Config l)).
Proof.
  intros Hnd Hh. unfold Sync. destruct (syncServers _ _ _ _ _ k) as [[[]|] k1] eqn:E1; [|done].
  apply syncServers_ok in E1 as [Hcur _]; [|done..].
  destruct (T_list k1) as [items|] eqn:El; [|done]. intros (H1 & H2 & H3)%prune_ok. split.
  - intros s Hs. destruct (Hcur s Hs) as (st & st' & Hg & Hr). exists st, st'. rewrite H1; [done|].
    by apply list_elem_of_fmap_2.
  - intros n st Hg. apply dec_stable. intros Hn. pose proof (H2 _ _ Hg) as Hg1.
    pose proof (tl_name _ _ _ Hg1) as Hname. pose proof (tl_list _ _ El _ _ Hg1) as Hin.
    rewrite <- Hname in Hn. destruct (H3 st Hin Hn) as [e He]. congruence.
Qed.
End SyncProofs.

(** ** Witnesses *)
Module RenderWitness.
(** The API server as a map of objects. *)
#[local] Instance map_types : KubeTypes (gmap string ServerType) := {|
  T_get := λ n k, match k !! n with
                  | Some st => if String.eqb (st_Name st) n then Ok st else Err ErrNotFound
                  | None => Err ErrNotFound end;
  T_create := λ st k, (Ok (), <[st_Name st := st]> k);
  T_update := λ st k, (Ok (), <[st_Name st := st]> k);
  T_delete := λ n k, (Ok (), delete n k);
  T_list := λ k, Ok (map_to_list k).*2 |}.

#[local] Instance map_type_laws : TypeLaws (gmap string ServerType).
Proof.
  split; cbn.
  - intros n k st. destruct (k !! n) as [st'|]; [|done]. destruct (String.eqb_spec (st_Name st') n); [|done]. by intros [= <-].
  - intros st k k' [= <-]. by rewrite lookup_insert_eq, String.eqb_refl.
  - intros st n k Hn. by rewrite lookup_insert_ne.
  - intros st k k' [= <-]. by rewrite lookup_insert_eq, String.eqb_refl.
  - intros st n k Hn. by rewrite lookup_insert_ne.
  - intros n k k' [= <-]. rewrite lookup_delete_eq. by eexists.
  - intros n m k Hm. by rewrite lookup_delete_ne.
  - intros k l [= <-] n st. destruct (k !! n) as [st'|] eqn:E; [|done]. destruct (String.eqb _ _); [|done].
    intros [= <-]. apply list_elem_of_fmap. exists (n, st'). split; [done|]. by apply elem_of_map_to_list.
Qed.

Definition pq0 (q : string) : result string := Ok q.
Definition mw0 (w : WConfig) : result string := Ok ("wrapper of " +:+ wc_ServerName w).
(** A cluster with a type the file does not name. *)
Definition old_type : ServerType :=
  match RenderServerType pq0 mw0 (mkLoaded sample_config "cfg0" "") (sample_server "gone" TokenNone None) "sessions" with
  | Ok st => st | Err _ => mkServerType "" "" ∅ (mkServerTypeSpec "" "" "" "" [] [] ∅ 0 "" 0 0 "" "" "" "" []
                                               (mkResourceRequirements ∅ ∅) "" 0 0 0 (mkSecuritySpec false 0 0 false []) "") end.
Definition k0 : gmap string ServerType := {["gone" := old_type]}.

(** The type that the file does not name is gone after the sync. *)
Lemma Sync_exact_witness :
  is_ok (T_get "gone" k0) = true ∧ is_ok (T_get "gone" (Sync pq0 mw0 "sessions" sample_loaded k0).2) = false.
Proof.
  split; [reflexivity|]. destruct (T_get "gone" (Sync pq0 mw0 "sessions" sample_loaded k0).2) as [st|] eqn:E; [|reflexivity].
  exfalso. assert ("gone" ∈ ServerNames (ld_Config sample_loaded)) as Hin.
  { refine (proj2 (Sync_exact (laws:=map_type_laws) pq0 mw0 "sessions" sample_loaded k0 _ _ _ _) "gone" st E).
    - apply (bool_decide_unpack _). vm_compute. exact I.
    - intros s st0 st' Hs Hg. exfalso. revert Hg. cbn in Hs.
      repeat (apply elem_of_cons in Hs as [->|Hs]; [vm_compute; discriminate|]). by apply not_elem_of_nil in Hs.
    - vm_compute. reflexivity. }
  revert Hin. apply (bool_decide_unpack _). vm_compute. exact I.
Defined.

Definition jira0 : Server := defaultServer (sample_server "jira" TokenNone None).
Definition rendered (s : Server) : result ServerType := RenderServerType pq0 mw0 sample_loaded s "sessions".

Lemma RenderServerType_ports_witness :
  match rendered jira0 with Ok st => sts_WrapperPort (st_Spec st) = 9000 | Err _ => False end.
Proof.
  destruct (rendered jira0) as [st|] eqn:E; [|discriminate].
  destruct (RenderServerType_ports pq0 mw0 sample_loaded jira0 "sessions" st E) as (_ & H & _).
  apply H. split; vm_compute; [discriminate|reflexivity].
Defined.

(** A port beyond 32 bits is cut in the ServerType, while the wrapper is told the
    whole number: the pod listens elsewhere than it is probed and called. *)
Example wrapper_port_truncated :
  let s := mkServer "jira" "" "img" TransportStdio ["/s"] [] ∅ [] None
             (mkWrapper (mkRestartPolicy 0 0 0) 0 None (2 ^ 32 + 9000) 9001) (s_Token jira0) None [] (s_Resources jira0) "" 0 0 0
             (s_Security jira0) (s_Tools jira0) in
  match rendered s with Ok st => sts_WrapperPort (st_Spec st) = 9000 | Err _ => False end ∧
  wc_ListenPort (ConfigFromServer s (w_Port (s_Wrapper s)) 0 "") = 4294976296.
Proof. vm_compute. done. Qed.
End RenderWitness.
