(* ===== verification/Directory.v ===== *)
(** * internal/adapters/directory/keycloak: the user directory of the admin API

    The data and contract of core/contracts/directory.go and the Keycloak adapter:
    the service account token and the group index with their caches, and every
    operation.  The Keycloak client (gocloak) is the interface [GoCloak]; its
    state is the realm. *)

From S2P Require Import Prelude GoStd Config Core Contracts.

Local Open Scope Z_scope.

(** ** directory.go *)

(** [type User struct] *)
Record User := mkUser {
  u_ID : string; u_Username : string; u_Email : string; u_FirstName : string; u_LastName : string;
  u_Enabled : bool; u_Groups : list string; u_CreatedAt : Z }.
(** [type IdPSession struct] *)
Record IdPSession := mkIdPSession {
  is_ID : string; is_Clients : list string; is_Start : Z; is_LastAccess : Z; is_IPAddress : string }.
(** [type Group struct] *)
Record DGroup := mkDGroup { dg_ID : string; dg_Name : string; dg_Path : string }.

(** [type Directory interface] *)
Class Directory (D : Type) := {
  Dir_ListUsers : Z → string → Z → Z → D → result (list User) * D;
  Dir_GetUser : Z → string → D → result User * D;
  Dir_CreateUser : Z → User → string → bool → D → result User * D;
  Dir_UpdateUser : Z → string → option bool → option string → option string → option string → D → result () * D;
  Dir_SetGroups : Z → string → list string → D → result () * D;
  Dir_ResetPassword : Z → string → string → bool → D → result () * D;
  Dir_Sessions : Z → string → D → result (list IdPSession) * D;
  Dir_Logout : Z → string → D → result () * D;
  Dir_Groups : Z → D → result (list DGroup) * D;
  Dir_StatusOf : gerror → Z }.

(** ** gocloak *)

Record KCUser := mkKCUser {
  kc_ID : option string; kc_Username : option string; kc_Email : option string; kc_FirstName : option string;
  kc_LastName : option string; kc_Enabled : option bool; kc_Created : option Z }.
Record KCGroup := mkKCGroup { kg_ID : option string; kg_Name : option string; kg_Path : option string }.
Record KCSession := mkKCSession {
  kx_ID : option string; kx_IPAddress : option string; kx_Start : option Z; kx_LastAccess : option Z;
  kx_Clients : option (gmap string string) }.
Record KCJWT := mkKCJWT { jw_AccessToken : string; jw_ExpiresIn : Z }.

(** github.com/Nerzal/gocloak: the calls the adapter makes, on a realm [G]. *)
Class GoCloak (G : Type) := {
  G_LoginClient : string → string → string → G → result KCJWT * G;
  G_GetUsers : string → string → option string → Z → Z → G → result (list KCUser);
  G_GetUserByID : string → string → string → G → result KCUser;
  G_GetUserGroups : string → string → string → G → result (list KCGroup);
  G_CreateUser : string → string → KCUser → G → result string * G;
  G_SetPassword : string → string → string → string → bool → G → result () * G;
  G_ExecuteActionsEmail : string → string → string → list string → G → result () * G;
  G_UpdateUser : string → string → KCUser → G → result () * G;
  G_DeleteUserFromGroup : string → string → string → string → G → result () * G;
  G_AddUserToGroup : string → string → string → string → G → result () * G;
  G_GetUserSessions : string → string → string → G → result (list KCSession);
  G_LogoutAllSessions : string → string → string → G → result () * G;
  G_GetGroups : string → string → G → result (list KCGroup);
  (* the type assertion err.( *gocloak.APIError ) *)
  APIError_Code : gerror → option Z }.

(** [gocloak.PString] *)
Definition PString (o : option string) : string := default "" o.
(** [time.UnixMilli] *)
Definition UnixMilli (ms : Z) : Z := unix_epoch * Second + ms * Millisecond.

Section Keycloak.
Context {G : Type} {gc : GoCloak G}.
(** What [k.secret] returns for a reference. *)
Variable secret : SecretRef → result string.
Variable cfg : KeycloakAdmin.

(** [type Keycloak struct]: the caches and the realm behind the client. *)
Record Keycloak := mkKeycloak {
  k_tok : option KCJWT; k_tokAt : Z; k_groupIDs : gmap string string; k_groupsAt : Z; k_realm : G }.

Definition with_realm (g : G) (k : Keycloak) : Keycloak :=
  mkKeycloak (k_tok k) (k_tokAt k) (k_groupIDs k) (k_groupsAt k) g.

(** [func (k *Keycloak) token]: one login until 30 s before expiry. *)
Definition token (now : Z) (k : Keycloak) : result string * Keycloak :=
  let fresh := match k_tok k with
               | Some t => now - k_tokAt k <? (jw_ExpiresIn t - 30) * Second
               | None => false end in
  match k_tok k, fresh with
  | Some t, true => (Ok (jw_AccessToken t), k)
  | _, _ =>
      match secret (ka_ClientSecretRef cfg) with
      | Err e => (Err e, k)
      | Ok sec =>
          match G_LoginClient (ka_ClientID cfg) sec (ka_Realm cfg) (k_realm k) with
          | (Err e, g) => (Err (EWrap "keycloak service account login" e), with_realm g k)
          | (Ok t, g) => (Ok (jw_AccessToken t), mkKeycloak (Some t) now (k_groupIDs k) (k_groupsAt k) g)
          end
      end
  end.

(** [tok, err := k.token(ctx); if err != nil { return err }], then the rest. *)
Definition with_token {A} (now : Z) (f : string → Keycloak → result A * Keycloak) (k : Keycloak) : result A * Keycloak :=
  match token now k with (Err e, k) => (Err e, k) | (Ok tok, k) => f tok k end.
(** A call that changes the realm. *)
Definition on_realm {A} (f : G → result A * G) (k : Keycloak) : result A * Keycloak :=
  let '(r, g) := f (k_realm k) in (r, with_realm g k).

(** [func fromKC(u *gocloak.User) User] *)
Definition fromKC (u : KCUser) : User :=
  mkUser (PString (kc_ID u)) (PString (kc_Username u)) (PString (kc_Email u)) (PString (kc_FirstName u))
    (PString (kc_LastName u)) (default false (kc_Enabled u)) [] (match kc_Created u with Some ms => UnixMilli ms | None => 0 end).

(** [func (k *Keycloak) ListUsers] *)
Definition kc_ListUsers (now : Z) (search : string) (first max : Z) : Keycloak → result (list User) * Keycloak :=
  with_token now (λ tok k,
    match G_GetUsers tok (ka_Realm cfg) (if String.eqb search "" then None else Some search) first max (k_realm k) with
    | Err e => (Err e, k)
    | Ok users => (Ok (fromKC <$> users), k)
    end).

(** [func (k *Keycloak) GetUser] *)
Definition kc_GetUser (now : Z) (id : string) : Keycloak → result User * Keycloak :=
  with_token now (λ tok k,
    match G_GetUserByID tok (ka_Realm cfg) id (k_realm k) with
    | Err e => (Err e, k)
    | Ok u =>
        match G_GetUserGroups tok (ka_Realm cfg) id (k_realm k) with
        | Err e => (Err e, k)
        | Ok groups =>
            let out := fromKC u in
            (Ok (mkUser (u_ID out) (u_Username out) (u_Email out) (u_FirstName out) (u_LastName out) (u_Enabled out)
                   (u_Groups out ++ ((λ g, PString (kg_Name g)) <$> groups)) (u_CreatedAt out)), k)
        end
    end).

(** [func (k *Keycloak) groupIndex]: the names of the groups, kept for five minutes. *)
Definition groupIndex (now : Z) (tok : string) (k : Keycloak) : result (gmap string string) * Keycloak :=
  if (now - k_groupsAt k <? 5 * Minute) && negb (bool_decide (k_groupIDs k = ∅)) then (Ok (k_groupIDs k), k)
  else
    match G_GetGroups tok (ka_Realm cfg) (k_realm k) with
    | Err e => (Err e, k)
    | Ok gs =>
        let idx := fold_left (λ m g, <[PString (kg_Name g) := PString (kg_ID g)]> m) gs ∅ in
        (Ok idx, mkKeycloak (k_tok k) (k_tokAt k) idx now (k_realm k))
    end.

(** The two loops of [SetGroups]. *)
Fixpoint removeLoop (tok id : string) (want : list string) (current : list KCGroup) (g : G) : result () * G :=
  match current with
  | [] => (Ok (), g)
  | gr :: rest =>
      if contains want (PString (kg_Name gr)) then removeLoop tok id want rest g
      else match G_DeleteUserFromGroup tok (ka_Realm cfg) id (PString (kg_ID gr)) g with
           | (Err e, g) => (Err e, g)
           | (Ok _, g) => removeLoop tok id want rest g
           end
  end.
Fixpoint addLoop (tok id : string) (ids : gmap string string) (have want : list string) (g : G) : result () * G :=
  match want with
  | [] => (Ok (), g)
  | n :: rest =>
      if contains have n then addLoop tok id ids have rest g
      else match G_AddUserToGroup tok (ka_Realm cfg) id (default "" (ids !! n)) g with
           | (Err e, g) => (Err e, g)
           | (Ok _, g) => addLoop tok id ids have rest g
           end
  end.

(** [func (k *Keycloak) SetGroups]; the loop over the map [want] visits each name
    once. *)
Definition kc_SetGroups (now : Z) (id : string) (groups : list string) : Keycloak → result () * Keycloak :=
  with_token now (λ tok k,
    match groupIndex now tok k with
    | (Err e, k) => (Err e, k)
    | (Ok ids, k) =>
        match G_GetUserGroups tok (ka_Realm cfg) id (k_realm k) with
        | Err e => (Err e, k)
        | Ok current =>
            match List.find (λ g, match ids !! g with Some _ => false | None => true end) groups with
            | Some g => (Err (EMsg ("unknown group " +:+ g)), k)
            | None =>
                let want := remove_dups groups in
                on_realm (λ g, match removeLoop tok id want current g with
                               | (Err e, g) => (Err e, g)
                               | (Ok _, g) => addLoop tok id ids ((λ gr, PString (kg_Name gr)) <$> current) want g
                               end) k
            end
        end
    end).

(** [func (k *Keycloak) CreateUser] *)
Definition kc_CreateUser (now : Z) (u : User) (temporaryPassword : string) (sendResetEmail : bool)
    : Keycloak → result User * Keycloak :=
  let opt s := if String.eqb s "" then None else Some s in
  with_token now (λ tok k,
    let kc := mkKCUser None (Some (u_Username u)) (opt (u_Email u)) (opt (u_FirstName u)) (opt (u_LastName u)) (Some true) None in
    match on_realm (G_CreateUser tok (ka_Realm cfg) kc) k with
    | (Err e, k) => (Err e, k)
    | (Ok id, k) =>
        let '(r, k) := match u_Groups u with [] => (Ok (), k) | gs => kc_SetGroups now id gs k end in
        match r with
        | Err e => (Err e, k)
        | Ok _ =>
            let '(r, k) :=
              if negb (String.eqb temporaryPassword "")
              then on_realm (G_SetPassword tok id (ka_Realm cfg) temporaryPassword true) k
              else if sendResetEmail && negb (String.eqb (u_Email u) "")
              then let '(_, k) := on_realm (G_ExecuteActionsEmail tok (ka_Realm cfg) id ["UPDATE_PASSWORD"]) k in (Ok (), k)
              else (Ok (), k) in
            match r with Err e => (Err e, k) | Ok _ => kc_GetUser now id k end
        end
    end).

(** [func (k *Keycloak) UpdateUser] *)
Definition kc_UpdateUser (now : Z) (id : string) (enabled : option bool) (email firstName lastName : option string)
    : Keycloak → result () * Keycloak :=
  with_token now (λ tok, on_realm (G_UpdateUser tok (ka_Realm cfg) (mkKCUser (Some id) None email firstName lastName enabled None))).

(** [func (k *Keycloak) ResetPassword] *)
Definition kc_ResetPassword (now : Z) (id value : string) (temporary : bool) : Keycloak → result () * Keycloak :=
  with_token now (λ tok,
    if String.eqb value "" then on_realm (G_ExecuteActionsEmail tok (ka_Realm cfg) id ["UPDATE_PASSWORD"])
    else on_realm (G_SetPassword tok id (ka_Realm cfg) value temporary)).

(** [func (k *Keycloak) Sessions] *)
Definition kc_Sessions (now : Z) (id : string) : Keycloak → result (list IdPSession) * Keycloak :=
  let milli o := match o with Some ms => UnixMilli ms | None => 0 end in
  with_token now (λ tok k,
    match G_GetUserSessions tok (ka_Realm cfg) id (k_realm k) with
    | Err e => (Err e, k)
    | Ok ss => (Ok ((λ s, mkIdPSession (PString (kx_ID s)) (match kx_Clients s with Some m => (map_to_list m).*2 | None => [] end)
                            (milli (kx_Start s)) (milli (kx_LastAccess s)) (PString (kx_IPAddress s))) <$> ss), k)
    end).

(** [func (k *Keycloak) Logout] *)
Definition kc_Logout (now : Z) (id : string) : Keycloak → result () * Keycloak :=
  with_token now (λ tok, on_realm (G_LogoutAllSessions tok (ka_Realm cfg) id)).

(** [func (k *Keycloak) Groups] *)
Definition kc_Groups (now : Z) : Keycloak → result (list DGroup) * Keycloak :=
  with_token now (λ tok k,
    match G_GetGroups tok (ka_Realm cfg) (k_realm k) with
    | Err e => (Err e, k)
    | Ok gs => (Ok ((λ g, mkDGroup (PString (kg_ID g)) (PString (kg_Name g)) (PString (kg_Path g))) <$> gs), k)
    end).

(** [func (k *Keycloak) StatusOf(err error) int] *)
Definition kc_StatusOf (e : gerror) : Z :=
  match APIError_Code e with Some c => if c =? 0 then 502 else c | None => 502 end.

#[export] Instance keycloak_directory : Directory Keycloak := {|
  Dir_ListUsers := kc_ListUsers; Dir_GetUser := kc_GetUser; Dir_CreateUser := kc_CreateUser;
  Dir_UpdateUser := kc_UpdateUser; Dir_SetGroups := kc_SetGroups; Dir_ResetPassword := kc_ResetPassword;
  Dir_Sessions := kc_Sessions; Dir_Logout := kc_Logout; Dir_Groups := kc_Groups; Dir_StatusOf := kc_StatusOf |}.
End Keycloak.
Arguments Keycloak : clear implicits.
Arguments mkKeycloak {G}. Arguments k_tok {G}. Arguments k_tokAt {G}. Arguments k_groupIDs {G}.
Arguments k_groupsAt {G}. Arguments k_realm {G}. Arguments with_realm {G}.

(** [func NewKeycloak]: the base URL defaults to the part of the issuer before
    [/realms/], which must not be at its start. *)
Fixpoint Index (s sub : string) : option nat :=
  if HasPrefix s sub then Some 0%nat
  else match s with EmptyString => None | String _ s' => S <$> Index s' sub end.
Definition NewKeycloak {G} (id : Identity) (realm : G) : result (string * KeycloakAdmin * Keycloak G) :=
  match id_KeycloakAdmin id with
  | None => Err (EMsg "identity.keycloakAdmin is not configured")
  | Some cfg =>
      let new base := Ok (base, cfg, mkKeycloak None 0 ∅ 0 realm) in
      if negb (String.eqb (ka_BaseURL cfg) "") then new (ka_BaseURL cfg)
      else match Index (id_Issuer id) "/realms/" with
           | Some (S i) => new (str_take (S i) (id_Issuer id))
           | _ => Err (EMsg "identity.keycloakAdmin.baseURL is required when the issuer is not <base>/realms/<realm>")
           end
  end.

(** ** Group membership *)

(** What Keycloak documents about groups: [memb] are the groups of a user and
    [catalog] the groups of the realm, by id. *)
Class RealmLaws (G : Type) `{!GoCloak G} := {
  memb : string → G → gmap string string;
  catalog : G → gmap string string;
  rl_login : ∀ c s r u g, memb u (G_LoginClient c s r g).2 = memb u g ∧ catalog (G_LoginClient c s r g).2 = catalog g;
  rl_same : ∀ u g i n n', memb u g !! i = Some n → catalog g !! i = Some n' → n = n';
  rl_user_groups : ∀ tok r u g l, G_GetUserGroups tok r u g = Ok l →
    ∀ i n, memb u g !! i = Some n ↔ ∃ gr, gr ∈ l ∧ kg_ID gr = Some i ∧ kg_Name gr = Some n;
  rl_user_groups_full : ∀ tok r u g l, G_GetUserGroups tok r u g = Ok l →
    ∀ gr, gr ∈ l → is_Some (kg_ID gr) ∧ is_Some (kg_Name gr);
  rl_groups : ∀ tok r g l, G_GetGroups tok r g = Ok l →
    ∀ gr, gr ∈ l → ∃ i n, kg_ID gr = Some i ∧ kg_Name gr = Some n ∧ catalog g !! i = Some n;
  rl_delete : ∀ tok r u i g g', G_DeleteUserFromGroup tok r u i g = (Ok (), g') →
    memb u g' = delete i (memb u g) ∧ catalog g' = catalog g;
  rl_add : ∀ tok r u i n g g', G_AddUserToGroup tok r u i g = (Ok (), g') → catalog g !! i = Some n →
    memb u g' = <[i := n]> (memb u g) ∧ catalog g' = catalog g }.

Section SetGroups.
Context {G : Type} {gc : GoCloak G} {laws : RealmLaws G}.
Variable secret : SecretRef → result string.
Variable cfg : KeycloakAdmin.

(** The group index names groups of the realm. *)
Definition index_ok (idx : gmap string string) (g : G) : Prop := ∀ n i, idx !! n = Some i → catalog g !! i = Some n.

Lemma index_fold l g m :
  (∀ gr, gr ∈ l → ∃ i n, kg_ID gr = Some i ∧ kg_Name gr = Some n ∧ catalog g !! i = Some n) → index_ok m g →
  index_ok (fold_left (λ m gr, <[PString (kg_Name gr) := PString (kg_ID gr)]> m) l m) g.
Proof.
  revert m. induction l as [|gr l IH]; intros m Hl Hm; [done|]. cbn. apply IH; [intros; apply Hl; by right|].
  destruct (Hl gr) as (i & n & Hi & Hn & Hc); [left|]. rewrite Hi, Hn. cbn.
  intros n' i'. rewrite lookup_insert_Some. intros [[<- <-]|[_ ?]]; [done|by apply Hm].
Qed.

(** Cached or fresh, the index is right if the cached one was. *)
Lemma groupIndex_ok now tok (k k' : Keycloak G) idx :
  index_ok (k_groupIDs k) (k_realm k) → groupIndex cfg now tok k = (Ok idx, k') →
  index_ok idx (k_realm k') ∧ k_realm k' = k_realm k.
Proof.
  intros Hok. unfold groupIndex. destruct (_ && _); [by intros [= <- <-]|].
  destruct (G_GetGroups _ _ _) as [l|] eqn:El; [|done]. intros [= <- <-]. split; [|done].
  apply index_fold; [by eapply rl_groups|]. intros n i. by rewrite lookup_empty.
Qed.

Lemma removeLoop_ok tok id want l g g' :
  (∀ gr, gr ∈ l → is_Some (kg_ID gr)) → removeLoop cfg tok id want l g = (Ok (), g') →
  catalog g' = catalog g ∧
  ∀ i n, memb id g' !! i = Some n ↔
    memb id g !! i = Some n ∧ ∀ gr, gr ∈ l → kg_ID gr = Some i → PString (kg_Name gr) ∈ want.
Proof.
  revert g. induction l as [|gr l IH]; intros g Hfull; cbn [removeLoop].
  { intros [= <-]. split; [done|]. intros i n. split; [|by intros []].
    intros Hm. split; [done|]. intros gr Hgr. by apply not_elem_of_nil in Hgr. }
  assert (Hfull' : ∀ gr', gr' ∈ l → is_Some (kg_ID gr')) by (intros; apply Hfull; by right).
  destruct (contains want _) eqn:Ew.
  - apply contains_spec in Ew. intros [Hc Hm]%IH; [|done]. split; [done|]. intros i n. rewrite Hm.
    split; (intros [Hmi Hall]; split; [done|]).
    + intros gr' [->|Hgr']%elem_of_cons Hi; [done|by apply Hall].
    + intros gr' Hgr'. apply Hall. by right.
  - apply contains_false in Ew. destruct (Hfull gr) as [i0 Hi0]; [left|].
    destruct (G_DeleteUserFromGroup _ _ _ _ _) as [[[]|] g1] eqn:Ed; [|done].
    rewrite Hi0 in Ed. change (PString (Some i0)) with i0 in Ed. apply rl_delete in Ed as [Hd Hcat]. intros [Hc Hm]%IH; [|done]. split; [congruence|].
    intros i n. rewrite Hm, Hd, lookup_delete_Some. split.
    + intros [[Hne Hmi] Hall]. split; [done|]. intros gr' [->|Hgr']%elem_of_cons Hi; [congruence|by apply Hall].
    + intros [Hmi Hall]. split; [|intros gr' Hgr'; apply Hall; by right]. split; [|done].
      intros ->. apply Ew. apply (Hall gr); [left|done].
Qed.

Lemma addLoop_ok tok id ids have want g g' :
  index_ok ids g → (∀ n, n ∈ want → is_Some (ids !! n)) → addLoop cfg tok id ids have want g = (Ok (), g') →
  ∀ n, (∃ i, memb id g' !! i = Some n) ↔ (∃ i, memb id g !! i = Some n) ∨ (n ∈ want ∧ n ∉ have).
Proof.
  revert g. induction want as [|n0 want IH]; intros g Hidx Hall; cbn [addLoop].
  { intros [= <-] n. rewrite elem_of_nil. tauto. }
  assert (Hall' : ∀ n, n ∈ want → is_Some (ids !! n)) by (intros; apply Hall; by right).
  destruct (contains have n0) eqn:Eh.
  - apply contains_spec in Eh. intros Hm n. rewrite (IH g Hidx Hall' Hm n), elem_of_cons.
    destruct (decide (n = n0)) as [->|]; tauto.
  - apply contains_false in Eh. destruct (Hall n0) as [i0 Hi0]; [left|]. rewrite Hi0. cbn [default].
    destruct (G_AddUserToGroup _ _ _ _ _) as [[[]|] g1] eqn:Ea; [|done].
    apply (rl_add _ _ _ _ n0) in Ea as [Hm1 Hcat]; [|by apply Hidx]. intros Hm n.
    rewrite (IH g1) by (try done; unfold index_ok; by rewrite Hcat). rewrite elem_of_cons, Hm1.
    assert (Hsame : ∀ i n', memb id g !! i = Some n' → i = i0 → n' = n0).
    { intros i n' Hi ->. eapply rl_same; [done|]. by apply Hidx. }
    setoid_rewrite lookup_insert_Some. split.
    + intros [(i & [[<- <-]|[Hne Hi]])|[? ?]]; [right; auto|left; eauto|right; auto].
    + intros [(i & Hi)|[[->|Hn] Hh]]; [|left; eauto|by right].
      left. destruct (decide (i0 = i)) as [->|Hne]; [|by eauto]. exists i. left. split; [done|]. symmetry. by eapply Hsame.
Qed.

Lemma token_realm now (k : Keycloak G) u :
  memb u (k_realm (token secret cfg now k).2) = memb u (k_realm k) ∧
  catalog (k_realm (token secret cfg now k).2) = catalog (k_realm k) ∧
  k_groupIDs (token secret cfg now k).2 = k_groupIDs k.
Proof.
  unfold token. destruct (k_tok k) as [t|]; cbv zeta; [destruct (_ <? _)|]; [done|..].
  all: destruct (secret (ka_ClientSecretRef cfg)) as [sec|]; [|done].
  all: pose proof (rl_login (ka_ClientID cfg) sec (ka_Realm cfg) u (k_realm k)) as [H1 H2].
  all: destruct (G_LoginClient _ _ _ _) as [[]]; done.
Qed.

(** SetGroups makes the memberships exactly the requested groups: when it
    succeeds, the names of the user's groups are the names asked for, no more and
    no fewer, whether the group index came from the cache or was loaded. *)
Theorem SetGroups_exact now id groups (k k' : Keycloak G) :
  index_ok (k_groupIDs k) (k_realm k) → kc_SetGroups secret cfg now id groups k = (Ok (), k') →
  ∀ n, (∃ i, memb id (k_realm k') !! i = Some n) ↔ n ∈ groups.
Proof.
  intros Hidx. unfold kc_SetGroups, with_token. destruct (token_realm now k id) as (Hm0 & Hc0 & Hg0).
  destruct (token secret cfg now k) as [[tok|] k1]; [|done]. cbn in Hm0, Hc0, Hg0.
  assert (index_ok (k_groupIDs k1) (k_realm k1)) as Hidx1 by (unfold index_ok; by rewrite Hg0, Hc0).
  destruct (groupIndex cfg now tok k1) as [[ids|] k2] eqn:Ei; [|done].
  apply groupIndex_ok in Ei as [Hids Hr]; [|done].
  destruct (G_GetUserGroups _ _ _ _) as [current|] eqn:Eu; [|done].
  pose proof (rl_user_groups _ _ _ _ _ Eu) as Hcur. pose proof (rl_user_groups_full _ _ _ _ _ Eu) as Hfull.
  destruct (List.find _ groups) eqn:Ef; [done|].
  assert (Hknown : ∀ n, n ∈ remove_dups groups → is_Some (ids !! n)).
  { intros n Hn. rewrite elem_of_remove_dups in Hn. pose proof (find_none_elem _ _ _ Ef Hn) as Hf. cbn in Hf. destruct (ids !! n); [by eauto|done]. }
  unfold on_realm. destruct (removeLoop _ _ _ _ _ _) as [[[]|] g1] eqn:Erm; [|done].
  apply removeLoop_ok in Erm as [Hcat1 Hrm]; [|intros gr Hgr; by apply Hfull].
  destruct (addLoop _ _ _ _ _ _ g1) as [ra g2] eqn:Ead. intros [= -> <-] n. cbn.
  rewrite (addLoop_ok _ _ _ _ _ _ _ (ltac:(unfold index_ok; by rewrite Hcat1)) Hknown Ead).
  rewrite elem_of_remove_dups. setoid_rewrite Hrm. split.
  - intros [(i & Hi & Hall)|[? _]]; [|done]. apply Hcur in Hi as (gr & Hgr & Hid & Hn).
    specialize (Hall gr Hgr Hid). rewrite Hn in Hall. by rewrite elem_of_remove_dups in Hall.
  - intros Hn. destruct (decide (n ∈ (λ gr, PString (kg_Name gr)) <$> current)) as [Hh|Hh]; [left|by right].
    apply list_elem_of_fmap in Hh as (gr & -> & Hgr). destruct (Hfull gr Hgr) as [[i Hi] [n' Hn']].
    exists i. rewrite Hn' in *. cbn in *. split; [apply Hcur; eauto|].
    intros gr' Hgr' Hi'. destruct (Hfull gr' Hgr') as [_ [n'' Hn'']].
    assert (memb id (k_realm k2) !! i = Some n') as H1 by (apply Hcur; eauto).
    assert (memb id (k_realm k2) !! i = Some n'') as H2 by (apply Hcur; eauto).
    rewrite H1 in H2. simplify_eq. rewrite Hn''. by rewrite elem_of_remove_dups.
Qed.

(** A token from the cache is at least 30 seconds away from its expiry. *)
Lemma token_margin now (k : Keycloak G) t :
  k_tok k = Some t → now - k_tokAt k < (jw_ExpiresIn t - 30) * Second →
  token secret cfg now k = (Ok (jw_AccessToken t), k) ∧ now + 30 * Second < k_tokAt k + jw_ExpiresIn t * Second.
Proof.
  intros Ht Hn. unfold token. rewrite Ht. cbv zeta. rewrite (proj2 (Z.ltb_lt _ _) Hn). split; [done|].
  unfold Second in *. lia.
Qed.

(** A user whose groups cannot be set is left behind: the error is returned after
    the account was created, and nothing removes it. *)
Lemma CreateUser_not_undone now u pw send (k : Keycloak G) tok k1 id g1 e k2 :
  token secret cfg now k = (Ok tok, k1) → u_Groups u ≠ [] →
  (let opt s := if String.eqb s "" then None else Some s in
   G_CreateUser tok (ka_Realm cfg) (mkKCUser None (Some (u_Username u)) (opt (u_Email u)) (opt (u_FirstName u))
     (opt (u_LastName u)) (Some true) None) (k_realm k1)) = (Ok id, g1) →
  kc_SetGroups secret cfg now id (u_Groups u) (with_realm g1 k1) = (Err e, k2) →
  kc_CreateUser secret cfg now u pw send k = (Err e, k2).
Proof.
  intros Ht Hg Hc Hs. cbv zeta in Hc. unfold kc_CreateUser, with_token. rewrite Ht. unfold on_realm at 1. cbv zeta. rewrite Hc.
  destruct (u_Groups u) as [|g gs]; [done|]. by rewrite Hs.
Qed.
End SetGroups.

(** ** Witnesses *)
Module DirectoryWitness.
(** A realm with two groups; the state is who is in which. *)
Definition groups0 : gmap string string := {["g1" := "eng"; "g2" := "platform"]}.
Notation realm := (gmap string (gmap string string)).
Definition groups_of (u : string) (g : realm) : gmap string string := filter (λ kv, groups0 !! kv.1 = Some kv.2) (default ∅ (g !! u)).
Definition as_groups (m : gmap string string) : list KCGroup := (λ kv, mkKCGroup (Some kv.1) (Some kv.2) None) <$> map_to_list m.

#[export] Instance toy_gocloak : GoCloak realm := {|
  G_LoginClient := λ _ _ _ g, (Ok (mkKCJWT "sa" 300), g);
  G_GetUsers := λ _ _ _ _ _ _, Ok [];
  G_GetUserByID := λ _ _ id _, Ok (mkKCUser (Some id) (Some id) None None None (Some true) None);
  G_GetUserGroups := λ _ _ u g, Ok (as_groups (groups_of u g));
  G_CreateUser := λ _ _ u g, (Ok (PString (kc_Username u)), g);
  G_SetPassword := λ _ _ _ _ _ g, (Ok (), g);
  G_ExecuteActionsEmail := λ _ _ _ _ g, (Ok (), g);
  G_UpdateUser := λ _ _ _ g, (Ok (), g);
  G_DeleteUserFromGroup := λ _ _ u i g, (Ok (), <[u := delete i (groups_of u g)]> g);
  G_AddUserToGroup := λ _ _ u i g, (Ok (), match groups0 !! i with Some n => <[u := <[i := n]> (groups_of u g)]> g | None => g end);
  G_GetUserSessions := λ _ _ _ _, Ok [];
  G_LogoutAllSessions := λ _ _ _ g, (Ok (), g);
  G_GetGroups := λ _ _ _, Ok (as_groups groups0);
  APIError_Code := λ _, None |}.

Lemma of_insert u m (g : realm) : (∀ i n, m !! i = Some n → groups0 !! i = Some n) → groups_of u (<[u := m]> g) = m.
Proof.
  intros Hm. unfold groups_of. rewrite lookup_insert_eq. apply map_filter_id. intros i n Hi. by apply Hm.
Qed.
Lemma of_groups u g i n : groups_of u g !! i = Some n → groups0 !! i = Some n.
Proof. unfold groups_of. by intros [_ ?]%map_lookup_filter_Some. Qed.
Lemma elem_of_as_groups m i n : m !! i = Some n ↔ ∃ gr, gr ∈ as_groups m ∧ kg_ID gr = Some i ∧ kg_Name gr = Some n.
Proof.
  unfold as_groups. setoid_rewrite list_elem_of_fmap. split.
  - intros Hi. exists (mkKCGroup (Some i) (Some n) None). split; [|done]. exists (i, n). split; [done|]. by apply elem_of_map_to_list.
  - intros (gr & ([i' n'] & -> & Hin%elem_of_map_to_list) & [= ->] & [= ->]). done.
Qed.

#[export] Instance toy_realm : RealmLaws realm.
Proof.
  refine {| memb := groups_of; catalog := λ _, groups0 |}; cbn.
  - done.
  - intros u g i n n' H1%of_groups H2. congruence.
  - intros _ _ u g l [= <-] i n. apply elem_of_as_groups.
  - intros _ _ u g l [= <-] gr ([i n] & -> & _)%list_elem_of_fmap. cbn. eauto.
  - intros _ _ g l [= <-] gr ([i n] & -> & Hin%elem_of_map_to_list)%list_elem_of_fmap. cbn. eauto.
  - intros _ _ u i g g' [= <-]. split; [|done]. apply of_insert. intros i' n' [_ H]%lookup_delete_Some. by eapply of_groups.
  - intros _ _ u i n g g' [= <-] Hi. rewrite Hi. split; [|done]. apply of_insert.
    intros i' n' [[<- <-]|[_ H]]%lookup_insert_Some; [done|by eapply of_groups].
Defined.

Definition cfg0 : KeycloakAdmin := mkKeycloakAdmin "" "jug" "admin-sa" (mkSecretRef "S" "") "".
Definition k0 : Keycloak realm := mkKeycloak None 0 ∅ 0 {["bob" := {["g1" := "eng"]}]}.

Lemma SetGroups_exact_witness :
  ∃ i, groups_of "bob" (k_realm (kc_SetGroups (λ _, Ok "pw") cfg0 (10 * Minute) "bob" ["platform"; "platform"] k0).2) !! i
       = Some "platform".
Proof.
  apply (SetGroups_exact (laws:=toy_realm) (λ _, Ok "pw") cfg0 (10 * Minute) "bob" ["platform"; "platform"] k0
    (kc_SetGroups (λ _, Ok "pw") cfg0 (10 * Minute) "bob" ["platform"; "platform"] k0).2).
  - intros n i. cbn. rewrite lookup_empty. discriminate.
  - vm_compute. reflexivity.
  - left.
Defined.
End DirectoryWitness.
