(* ===== verification/Admin.v ===== *)
(** * internal/admin: the admin API

    server.go: the authorization gate [requireAdmin], every handler, and the
    dispatch of the router.  Identity, directory and session manager are the
    contracts; request bodies arrive decoded (or with the decoder's error), and
    the records given to [OnAction] are part of the state. *)

From S2P Require Import Prelude GoStd Config Core Fixtures Contracts RoutingMemory Policy Manager Proxy Gateway Broker Directory.

Local Open Scope Z_scope.

(** [type SessionManager interface]; the calls the admin API makes. *)
Class SessionManager (M : Type) := {
  SM_ReleaseAll : string → M → result () * M;
  SM_SessionsFor : string → M → result (list SessionView) * M }.

(** ** Query parameters *)

(** [func atoi(s string, def int) int]: decimal digits, with the wrap-around of a
    64-bit [int]. *)
Fixpoint atoi_go (s : string) (n : Z) : option Z :=
  match s with
  | EmptyString => Some n
  | String c s' => match Ascii.is_nat c with
                   | Some d => atoi_go s' (wrap64 (wrap64 (n * 10) + Z.of_nat d))
                   | None => None
                   end
  end.
Definition atoi (s : string) (def : Z) : Z :=
  if String.eqb s "" then def else default def (atoi_go s 0).

(** ** Requests and answers *)

Record createIn := mkCreateIn { ci_User : User; ci_TemporaryPassword : string; ci_SendResetEmail : option bool }.
Record patchIn := mkPatchIn {
  pi_Enabled : option bool; pi_Email : option string; pi_FirstName : option string; pi_LastName : option string }.
Record resetIn := mkResetIn { ri_Value : string; ri_Temporary : option bool }.

(** The routes under /admin/api with their parameters and decoded bodies. *)
Inductive route :=
| RMe | RConfig | RListUsers (search first max : string) | RCreateUser (body : result createIn)
| RGetUser (id : string) | RPatchUser (id : string) (body : result patchIn)
| RSetGroups (id : string) (body : result (list string)) | RResetPassword (id : string) (body : result resetIn)
| RUserSessions (id : string) | RKillSessions (id : string) | RGroups.

Record groupView := mkGroupView {
  gv_Name : string; gv_KeycloakID : string; gv_ServerTypes : list string; gv_Admin : bool; gv_InKeycloak : bool }.
Inductive abody :=
| AMe (subject username : string) (groups : list string)
| AConfig (groups : list (string * list string * bool)) (serverTypes : list string)
| AUsers (l : list User) | AUser (u : User)
| ASessions (kc : list IdPSession) (pods : list SessionView)
| AGroups (l : list groupView)
| AOidc (issuer clientID scope : string).

Section Admin.
Context {D M : Type} {dir : Directory D} {sm : SessionManager M} {idp : IdentityProvider}.

(** [type Server struct]: the current configuration and whether the optional
    collaborators are there. *)
Record AdminServer := mkAdminServer { ad_Config : Config; ad_Sessions : bool; ad_OnAction : bool }.
Record astate := mkAstate { a_dir : D; a_mgr : M; a_audit : list (string * string * string) }.

Variable s : AdminServer.
(** The time of the request. *)
Variable now : Z.

Definition on_dir {A} (f : D → A * D) (a : astate) : A * astate :=
  let '(r, d) := f (a_dir a) in (r, mkAstate d (a_mgr a) (a_audit a)).
Definition on_mgr {A} (f : M → A * M) (a : astate) : A * astate :=
  let '(r, m) := f (a_mgr a) in (r, mkAstate (a_dir a) m (a_audit a)).

(** [func (s *Server) audit] *)
Definition audit (p : Principal) (action target : string) (a : astate) : astate :=
  if ad_OnAction s then mkAstate (a_dir a) (a_mgr a) (a_audit a ++ [(p_Subject p, action, target)]) else a.
(** [func (s *Server) fail]; the text is that of the error. *)
Definition afail (e : gerror) : hresp abody := HError (Dir_StatusOf e) "".
(** [if s.Sessions != nil { _ = s.Sessions.ReleaseAll(...) }] *)
Definition releaseAll (id : string) (a : astate) : astate :=
  if ad_Sessions s then (on_mgr (SM_ReleaseAll id) a).2 else a.

(** [func (s *Server) onlyKnownGroups(groups []string) error] *)
Definition onlyKnownGroups (groups : list string) : result () :=
  match List.find (λ g, negb (hasGroup (ad_Config s) g)) groups with
  | Some g => Err (EMsg ("group not in juggernaut.yaml: " +:+ g))
  | None => Ok ()
  end.

(** [func (s *Server) createUser] *)
Definition createUser (p : Principal) (body : result createIn) (a : astate) : hresp abody * astate :=
  match body with
  | Err _ => (HError 400 "username required", a)
  | Ok inp =>
      if String.eqb (u_Username (ci_User inp)) "" then (HError 400 "username required", a)
      else match onlyKnownGroups (u_Groups (ci_User inp)) with
           | Err _ => (HError 400 "group not in juggernaut.yaml", a)
           | Ok _ =>
               let send := default true (ci_SendResetEmail inp) in
               match on_dir (Dir_CreateUser now (ci_User inp) (ci_TemporaryPassword inp) send) a with
               | (Err e, a) => (afail e, a)
               | (Ok u, a) => (HJSON 201 (AUser u), audit p "user.create" (u_ID u) a)
               end
           end
  end.

(** [func (s *Server) patchUser] *)
Definition patchUser (p : Principal) (id : string) (body : result patchIn) (a : astate) : hresp abody * astate :=
  match body with
  | Err _ => (HError 400 "bad body", a)
  | Ok inp =>
      match on_dir (Dir_UpdateUser now id (pi_Enabled inp) (pi_Email inp) (pi_FirstName inp) (pi_LastName inp)) a with
      | (Err e, a) => (afail e, a)
      | (Ok _, a) =>
          match pi_Enabled inp with
          | Some false =>
              let a := (on_dir (Dir_Logout now id) a).2 in
              (HStatus 200, audit p "user.disable" id (releaseAll id a))
          | _ => (HStatus 200, audit p "user.update" id a)
          end
      end
  end.

(** [func (s *Server) setGroups] *)
Definition setGroups (p : Principal) (id : string) (body : result (list string)) (a : astate) : hresp abody * astate :=
  match body with
  | Err _ => (HError 400 "bad body", a)
  | Ok groups =>
      match onlyKnownGroups groups with
      | Err _ => (HError 400 "group not in juggernaut.yaml", a)
      | Ok _ =>
          match on_dir (Dir_SetGroups now id groups) a with
          | (Err e, a) => (afail e, a)
          | (Ok _, a) => (HStatus 200, audit p "user.groups" id (releaseAll id a))
          end
      end
  end.

(** [func (s *Server) resetPassword]: an undecodable body counts as an empty one. *)
Definition resetPassword (p : Principal) (id : string) (body : result resetIn) (a : astate) : hresp abody * astate :=
  let inp := match body with Ok i => i | Err _ => mkResetIn "" None end in
  match on_dir (Dir_ResetPassword now id (ri_Value inp) (default true (ri_Temporary inp))) a with
  | (Err e, a) => (afail e, a)
  | (Ok _, a) => (HStatus 204, audit p "user.reset-password" id a)
  end.

(** [func (s *Server) userSessions] *)
Definition userSessions (id : string) (a : astate) : hresp abody * astate :=
  match on_dir (Dir_Sessions now id) a with
  | (Err e, a) => (afail e, a)
  | (Ok kc, a) =>
      if ad_Sessions s then
        let '(pods, a) := on_mgr (SM_SessionsFor id) a in
        (HJSON 200 (ASessions kc (match pods with Ok l => l | Err _ => [] end)), a)
      else (HJSON 200 (ASessions kc []), a)
  end.

(** [func (s *Server) killSessions] *)
Definition killSessions (p : Principal) (id : string) (a : astate) : hresp abody * astate :=
  match on_dir (Dir_Logout now id) a with
  | (Err e, a) => (afail e, a)
  | (Ok _, a) => (HStatus 202, audit p "user.kill-sessions" id (releaseAll id a))
  end.

(** [func (s *Server) groups] *)
Definition groups_handler (a : astate) : hresp abody * astate :=
  match on_dir (Dir_Groups now) a with
  | (Err e, a) => (afail e, a)
  | (Ok kc, a) =>
      let byName := fold_left (λ m g, <[dg_Name g := g]> m) kc (∅ : gmap string DGroup) in
      let view g := match byName !! gr_Name g with
                    | Some k => mkGroupView (gr_Name g) (dg_ID k) (gr_ServerTypes g) (gr_Admin g) true
                    | None => mkGroupView (gr_Name g) "" (gr_ServerTypes g) (gr_Admin g) false
                    end in
      (HJSON 200 (AGroups (view <$> az_Groups (c_Authorization (ad_Config s)))), a)
  end.

(** The handler of a route, for an admitted principal ([me], [uiConfig],
    [listUsers] and [getUser] in place). *)
Definition handle (p : Principal) (r : route) (a : astate) : hresp abody * astate :=
  match r with
  | RMe => (HJSON 200 (AMe (p_Subject p) (p_Username p) (p_Groups p)), a)
  | RConfig =>
      (HJSON 200 (AConfig ((λ g, (gr_Name g, gr_ServerTypes g, gr_Admin g)) <$> az_Groups (c_Authorization (ad_Config s)))
                    (ServerNames (ad_Config s))), a)
  | RListUsers search first max =>
      match on_dir (Dir_ListUsers now search (atoi first 0) (atoi max 50)) a with
      | (Err e, a) => (afail e, a)
      | (Ok l, a) => (HJSON 200 (AUsers l), a)
      end
  | RGetUser id =>
      match on_dir (Dir_GetUser now id) a with
      | (Err e, a) => (afail e, a)
      | (Ok u, a) => (HJSON 200 (AUser u), a)
      end
  | RCreateUser body => createUser p body a
  | RPatchUser id body => patchUser p id body a
  | RSetGroups id body => setGroups p id body a
  | RResetPassword id body => resetPassword p id body a
  | RUserSessions id => userSessions id a
  | RKillSessions id => killSessions p id a
  | RGroups => groups_handler a
  end.

(** The role the gate accepts in place of the scope. *)
Definition adminRole : string :=
  match id_KeycloakAdmin (c_Identity (ad_Config s)) with
  | Some k => if String.eqb (ka_AdminRole k) "" then "juggernaut-admin" else ka_AdminRole k
  | None => "juggernaut-admin"
  end.

(** [func (s *Server) requireAdmin] *)
Definition requireAdmin (req : RequestInfo) : hresp abody + Principal :=
  if negb (Bearer req).2 then inl (HError 401 "admin token required")
  else match Resolve req with
       | Err _ => inl (HError 401 "invalid token")
       | Ok p =>
           if negb (HasScope p (sc_UsersAdmin (id_Scopes (c_Identity (ad_Config s))))) && negb (InGroup p adminRole)
           then inl (HError 403 "admin role required") else inr p
       end.

(** A request under /admin/api. *)
Definition serve (req : RequestInfo) (r : route) (a : astate) : hresp abody * astate :=
  match requireAdmin req with inl resp => (resp, a) | inr p => handle p r a end.

(** [func (s *Server) oidcConfig], outside the gate. *)
Definition oidcConfig : hresp abody :=
  HJSON 200 (AOidc (id_Issuer (c_Identity (ad_Config s))) "juggernaut-admin-ui"
               ("openid profile " +:+ sc_UsersAdmin (id_Scopes (c_Identity (ad_Config s))))).
End Admin.
Arguments astate : clear implicits.
Arguments mkAstate {D M}. Arguments a_dir {D M}. Arguments a_mgr {D M}. Arguments a_audit {D M}.

(** ** Query numbers *)

Lemma wrap64_mod z : wrap64 z mod 2 ^ 64 = z mod 2 ^ 64.
Proof.
  unfold wrap64. rewrite Zminus_mod, Zmod_mod, <- Zminus_mod. f_equal. lia.
Qed.
Lemma wrap64_cong y z : y mod 2 ^ 64 = z mod 2 ^ 64 → wrap64 y = wrap64 z.
Proof. unfold wrap64. intros H. f_equal. rewrite Zplus_mod, H, <- Zplus_mod. done. Qed.
Lemma wrap64_step n d : wrap64 (wrap64 (wrap64 n * 10) + d) = wrap64 (n * 10 + d).
Proof.
  apply wrap64_cong. rewrite Zplus_mod, wrap64_mod, Zmult_mod, wrap64_mod, <- Zmult_mod, <- Zplus_mod. done.
Qed.
Lemma wrap64_range z : - 2 ^ 63 ≤ wrap64 z < 2 ^ 63.
Proof. unfold wrap64. pose proof (Z.mod_pos_bound (z + 2 ^ 63) (2 ^ 64)). lia. Qed.

Lemma atoi_go_wrap s n : atoi_go s (wrap64 n) = wrap64 <$> digits_value s n.
Proof.
  revert n. induction s as [|c s IH]; intros n; cbn; [done|]. destruct (Ascii.is_nat c) as [d|]; [|done].
  by rewrite wrap64_step, IH.
Qed.

(** The page parameters of the user list: anything but decimal digits gives
    the default, digits give their value modulo 2^64 in the signed range, so the
    value is exact up to the largest int and may be negative beyond it. *)
Theorem atoi_spec s def :
  atoi s def = (if String.eqb s "" then def else match digits_value s 0 with Some v => wrap64 v | None => def end) ∧
  (- 2 ^ 63 ≤ def < 2 ^ 63 → - 2 ^ 63 ≤ atoi s def < 2 ^ 63) ∧
  (∀ v, s ≠ "" → digits_value s 0 = Some v → 0 ≤ v ≤ max_int → atoi s def = v).
Proof.
  assert (Hs : atoi s def = (if String.eqb s "" then def else match digits_value s 0 with Some v => wrap64 v | None => def end)).
  { unfold atoi. destruct (String.eqb s ""); [done|]. change (atoi_go s 0) with (atoi_go s (wrap64 0)).
    rewrite atoi_go_wrap. by destruct (digits_value s 0). }
  split_and!; [done| |].
  - intros Hd. rewrite Hs. destruct (String.eqb s ""); [done|]. destruct (digits_value s 0); [apply wrap64_range|done].
  - intros v Hne Hv Hr. rewrite Hs, (proj2 (String.eqb_neq _ _) Hne), Hv. apply wrap64_id. unfold max_int in Hr. lia.
Qed.

(** ** Who may act, and what is recorded *)

Section AdminProofs.
Context {D M : Type} {dir : Directory D} {sm : SessionManager M} {idp : IdentityProvider}.
Variable s : AdminServer.
Variable now : Z.

Definition is_admin (p : Principal) : Prop :=
  sc_UsersAdmin (id_Scopes (c_Identity (ad_Config s))) ∈ p_Scopes p ∨ adminRole s ∈ p_Groups p.

(** The record a successful change leaves: its action and its target. *)
Definition action_of (r : route) (resp : hresp abody) : option (string * string) :=
  match r, resp with
  | RCreateUser _, HJSON _ (AUser u) => Some ("user.create", u_ID u)
  | RPatchUser id (Ok inp), HStatus _ =>
      Some (if bool_decide (pi_Enabled inp = Some false) then "user.disable" else "user.update", id)
  | RSetGroups id _, HStatus _ => Some ("user.groups", id)
  | RResetPassword id _, HStatus _ => Some ("user.reset-password", id)
  | RKillSessions id, HStatus _ => Some ("user.kill-sessions", id)
  | _, _ => None
  end.
(** The routes that only read, and never touch the manager. *)
Definition reads_only (r : route) : bool :=
  match r with RMe | RConfig | RListUsers _ _ _ | RGetUser _ | RUserSessions _ | RGroups => true | _ => false end.

Lemma on_dir_audit {A} (f : D → A * D) (a : astate D M) : a_audit (on_dir f a).2 = a_audit a.
Proof. unfold on_dir. by destruct (f (a_dir a)). Qed.
Lemma releaseAll_audit id (a : astate D M) : a_audit (releaseAll s id a) = a_audit a.
Proof. unfold releaseAll, on_mgr. destruct (ad_Sessions s); [|done]. by destruct (SM_ReleaseAll id (a_mgr a)). Qed.

(** A directory call in a handler keeps the audit log; used on every branch. *)
Ltac dir_call :=
  match goal with |- context [on_dir ?f ?a] =>
    let H := fresh "Haud" in pose proof (on_dir_audit f a) as H; destruct (on_dir f a) as [[?|?] ?]; cbn in H
  end.

Lemma handle_audit p r (a : astate D M) resp a' :
  ad_OnAction s = true → handle s now p r a = (resp, a') →
  a_audit a' = a_audit a ++ match action_of r resp with Some (act, tgt) => [(p_Subject p, act, tgt)] | None => [] end.
Proof.
  intros Hon. assert (Hnil : ∀ l : list (string * string * string), l = l ++ []) by (intros; by rewrite app_nil_r).
  destruct r as [| |search f m|body|id|id body|id body|id body|id|id|]; cbn [handle]; unfold audit; rewrite ?Hon.
  1-2: intros [= <- <-]; apply Hnil.
  - dir_call; intros [= <- <-]; rewrite <- Haud; apply Hnil.
  - unfold createUser, audit. rewrite Hon. destruct body as [inp|]; [|intros [= <- <-]; apply Hnil].
    destruct (String.eqb _ _); [intros [= <- <-]; apply Hnil|].
    destruct (onlyKnownGroups _ _); [|intros [= <- <-]; apply Hnil].
    dir_call; intros [= <- <-]; cbn; rewrite <- ?Haud; [done|apply Hnil].
  - dir_call; intros [= <- <-]; rewrite <- Haud; apply Hnil.
  - unfold patchUser, audit. rewrite Hon. destruct body as [inp|]; [|intros [= <- <-]; apply Hnil].
    dir_call; [|intros [= <- <-]; cbn; rewrite <- ?Haud; apply Hnil].
    destruct (pi_Enabled inp) as [[]|] eqn:Ee; intros [= <- <-]; cbn; rewrite Ee; cbn; [by rewrite Haud| |by rewrite Haud].
    by rewrite releaseAll_audit, on_dir_audit, Haud.
  - unfold setGroups, audit. rewrite Hon. destruct body as [gs|]; [|intros [= <- <-]; apply Hnil].
    destruct (onlyKnownGroups _ _); [|intros [= <- <-]; apply Hnil].
    dir_call; intros [= <- <-]; cbn; [by rewrite releaseAll_audit, Haud|rewrite <- ?Haud; apply Hnil].
  - unfold resetPassword, audit. rewrite Hon. cbv zeta.
    dir_call; intros [= <- <-]; cbn; [by rewrite Haud|rewrite <- ?Haud; apply Hnil].
  - unfold userSessions. dir_call; [|intros [= <- <-]; rewrite <- Haud; apply Hnil].
    destruct (ad_Sessions s); [unfold on_mgr; destruct (SM_SessionsFor id _)|]; intros [= <- <-]; cbn; rewrite <- Haud; apply Hnil.
  - unfold killSessions, audit. rewrite Hon.
    dir_call; intros [= <- <-]; cbn; [by rewrite releaseAll_audit, Haud|rewrite <- ?Haud; apply Hnil].
  - unfold groups_handler. dir_call; intros [= <- <-]; rewrite <- Haud; apply Hnil.
Qed.

(** C32. Only administrators act, and every action is on record: a request
    without an authenticated principal holding the admin scope or role is
    answered 401 or 403 and changes nothing; any other request appends to the
    audit log exactly one record with the caller, action and target when it
    changed something successfully, and nothing when it read or failed. *)
Theorem serve_gated_and_audited req r (a : astate D M) resp a' :
  ad_OnAction s = true → serve s now req r a = (resp, a') →
  (a' = a ∧ (hstatus resp = 401 ∨ hstatus resp = 403) ∧ (∀ p, Resolve req = Ok p → (Bearer req).2 = true → ¬ is_admin p)) ∨
  (∃ p, Resolve req = Ok p ∧ (Bearer req).2 = true ∧ is_admin p ∧
     a_audit a' = a_audit a ++ match action_of r resp with Some (act, tgt) => [(p_Subject p, act, tgt)] | None => [] end).
Proof.
  intros Hon. unfold serve, requireAdmin, is_admin.
  destruct ((Bearer req).2) eqn:Eb; cbn [negb]; [|intros [= <- <-]; left; cbn; naive_solver].
  destruct (Resolve req) as [p|e] eqn:Er; [|intros [= <- <-]; left; cbn; naive_solver].
  destruct (negb (HasScope p _) && negb (InGroup p _)) eqn:Ea.
  - intros [= <- <-]. left. split; [done|]. split; [by right|]. intros q [= <-] _.
    apply andb_true_iff in Ea as [H1%negb_true_iff H2%negb_true_iff].
    apply contains_false in H1. apply contains_false in H2. tauto.
  - intros Hh. right. exists p. split_and!; [done..| |by apply handle_audit].
    apply andb_false_iff in Ea as [H%negb_false_iff|H%negb_false_iff]; apply contains_spec in H; auto.
Qed.

(** Disabling a user logs the user out and asks the manager to end every pod. *)
Lemma patchUser_disable p id inp (a : astate D M) a' :
  pi_Enabled inp = Some false → ad_Sessions s = true →
  patchUser s now p id (Ok inp) a = (HStatus 200, a') → a_mgr a' = (SM_ReleaseAll id (a_mgr a)).2.
Proof.
  intros He Hs. unfold patchUser. rewrite He. unfold on_dir at 1.
  destruct (Dir_UpdateUser _ _ _ _ _ _ _) as [[[]|] d]; [|done]. intros [= <-].
  unfold audit, releaseAll, on_mgr, on_dir. rewrite Hs. cbn.
  destruct (Dir_Logout now id d); cbn. destruct (SM_ReleaseAll id (a_mgr a)); by destruct (ad_OnAction s).
Qed.
End AdminProofs.

(** ** With the gateway's session manager *)

#[export] Instance manager_sessions {T P B} `{!RoutingTable T, !Provisioner P, !TokenBroker B} : SessionManager (world T P B) :=
  {| SM_ReleaseAll := ReleaseAll; SM_SessionsFor := SessionsFor |}.

Section Disable.
Context {D P B : Type} {dir : Directory D} {prov : Provisioner P} {brk : TokenBroker B} {idp : IdentityProvider}.
Variable s : AdminServer.
Variable now : Z.

(** Disabling a user ends the user's pods: when an administrator's request to
    disable a user succeeds and the manager could release everything, no pod of
    that user is left in the routing table. *)
Theorem disable_user_ends_pods p id inp (a a' : astate D (world Memory.Memory P B)) :
  id ≠ "" → table_ok (w_table (a_mgr a)) → pi_Enabled inp = Some false → ad_Sessions s = true →
  patchUser s now p id (Ok inp) a = (HStatus 200, a') →
  (ReleaseAll id (a_mgr a)).1 = Ok () →
  ∀ st, Memory.pods (w_table (a_mgr a')) !! mkPodKey id st = None.
Proof.
  intros Hid Hok He Hs Hp Hr. rewrite (patchUser_disable _ _ _ _ _ _ _ He Hs Hp).
  change (SM_ReleaseAll id (a_mgr a)) with (ReleaseAll id (a_mgr a)).
  destruct (ReleaseAll id (a_mgr a)) as [r w'] eqn:Er. cbn in Hr. subst r.
  eapply ReleaseAll_removes; [exact Hid|exact Hok|exact Er].
Qed.

(** The manager's error is dropped: the request succeeds whatever it was. *)
Lemma patchUser_ignores_release_error p id inp (a : astate D (world Memory.Memory P B)) :
  pi_Enabled inp = Some false →
  is_ok (Dir_UpdateUser now id (pi_Enabled inp) (pi_Email inp) (pi_FirstName inp) (pi_LastName inp) (a_dir a)).1 = true →
  (patchUser s now p id (Ok inp) a).1 = HStatus 200.
Proof.
  intros He Hu. unfold patchUser, on_dir at 1. destruct (Dir_UpdateUser _ _ _ _ _ _ _) as [[[]|] d]; [|done]. by rewrite He.
Qed.
End Disable.

(** ** Witnesses *)
Module AdminWitness.
Import DirectoryWitness ManagerWitness.

#[local] Instance dir0 : Directory (Keycloak (gmap string (gmap string string))) := keycloak_directory (λ _, Ok "pw") cfg0.
(** Tokens are subjects; root holds the admin scope. *)
#[local] Instance idp0 : IdentityProvider := {|
  Resolve := λ req, let tok := (Bearer req).1 in
                    Ok (mkPrincipal tok tok "user" tok [] (if String.eqb tok "root" then ["juggernaut:users.admin"] else []) "" 0 "" "");
  Challenge := λ _ _ _, "" |}.
Definition as0 : AdminServer := mkAdminServer sample_config true true.
Definition a0 : astate (Keycloak (gmap string (gmap string string))) (world Memory.Memory toy_prov ()) := mkAstate k0 w_after [].
Definition req (tok : string) : RequestInfo := mkRequestInfo {["Authorization" := ["Bearer " +:+ tok]]} "PATCH" "/admin/api" "".
Definition disable : patchIn := mkPatchIn (Some false) None None None.
Definition root : Principal := mkPrincipal "root" "root" "user" "root" [] ["juggernaut:users.admin"] "" 0 "" "".

Lemma serve_gated_and_audited_witness :
  a_audit (serve as0 5 (req "root") (RPatchUser "bob" (Ok disable)) a0).2 = [("root", "user.disable", "bob")] ∧
  (serve as0 5 (req "mallory") (RPatchUser "bob" (Ok disable)) a0).2 = a0.
Proof.
  split.
  - destruct (serve_gated_and_audited as0 5 (req "root") (RPatchUser "bob" (Ok disable)) a0
      (serve as0 5 (req "root") (RPatchUser "bob" (Ok disable)) a0).1 (serve as0 5 (req "root") (RPatchUser "bob" (Ok disable)) a0).2)
      as [(_ & H & _)|(p & Hp & _ & _ & H)]; [reflexivity|symmetry; apply surjective_pairing| |].
    + vm_compute in H. destruct H; discriminate.
    + rewrite H. vm_compute in Hp. injection Hp as <-. vm_compute. reflexivity.
  - reflexivity.
Defined.

Lemma disable_user_ends_pods_witness :
  Memory.pods (w_table (a_mgr (patchUser as0 5 root "bob" (Ok disable) a0).2)) !! mkPodKey "bob" "jira" = None.
Proof.
  apply (disable_user_ends_pods as0 5 root "bob" disable a0 (patchUser as0 5 root "bob" (Ok disable) a0).2).
  - discriminate.
  - change (a_mgr a0) with w_after. replace (w_table w_after) with (Memory.mkMemory {[mkPodKey "bob" "jira" := bob_pod]} ∅
      {[PodKey_Name (mkPodKey "bob" "jira") := 1000 + 2 * tick]} ∅) by (vm_compute; reflexivity).
    split; intros k p; cbn; intros [<- <-]%lookup_singleton_Some; [reflexivity|by right].
  - reflexivity.
  - reflexivity.
  - vm_compute. reflexivity.
  - vm_compute. reflexivity.
Defined.

(** The access token of the disabled user is still good for a new pod. *)
#[local] Instance policy0 : AccessPolicy := groups_policy sample_config ∅.
Example disabled_user_gets_new_pod :
  let w := a_mgr (patchUser as0 5 root "bob" (Ok disable) a0).2 in
  match EnsurePod 5 (loaded sample_config) env0 bob "jira" w with Some (r, _) => is_ok r = true | None => False end.
Proof. vm_compute. reflexivity. Qed.

Example atoi_negative : atoi "9223372036854775808" 0 = -9223372036854775808 ∧ atoi "25" 0 = 25 ∧ atoi "2x" 50 = 50.
Proof. vm_compute. done. Qed.
End AdminWitness.
