(* ===== verification/AppRoot.v ===== *)
(** * internal/app: the composition roots

    The constructors of the adapters, the registries adapters/all fills, and
    [GatewayFromConfig], [ControllerFromConfig] and [Close] of app/gateway.go and
    app/controller.go.  What the constructors ask of the outside (the cluster
    connection, Redis, OIDC discovery, files, the tracing exporter and the
    controller manager) is the class [Boot]. *)

From S2P Require Import Prelude GoStd Config Core Contracts Context Policy Broker AuditLog LocalProvision Kube Egress Netpol Controller Directory.

Local Open Scope Z_scope.

(** ** The outside *)

(** Answers of the libraries the constructors call, in one start of the process. *)
Class Boot := {
  bt_kubeconfig : result ();                            (* ctrl.GetConfig *)
  bt_addTypes : bool → result ();                       (* AddToScheme of client-go, and of the Juggernaut API (true) *)
  bt_newClient : result ();                             (* client.New *)
  bt_restMapper : result bool;                          (* NewDynamicRESTMapper; the CiliumNetworkPolicy kind is known *)
  bt_newForConfig : result ();                          (* kubernetes.NewForConfig *)
  bt_ping : string → string → Z → result ();            (* redis.NewClient and Ping: address, password, database *)
  bt_discover : string → result ();                     (* oidc.NewProvider *)
  bt_openFile : string → result ();
  bt_loadKeyPair : string → string → result ();         (* tls.LoadX509KeyPair *)
  bt_readFile : string → result string;
  bt_pemCerts : string → bool;                          (* AppendCertsFromPEM *)
  bt_hkdf : list Z → string → list Z;                   (* hkdf.New(sha256.New, key, nil, info), 32 bytes *)
  bt_tracing : Telemetry → Z * positive → result ();    (* the OTLP exporter and resource *)
  bt_newManager : result bool;                          (* ctrl.NewManager; the CiliumNetworkPolicy kind is known *)
  bt_setup : result ();                                 (* SetupWithManager *)
  bt_add : string → result () }.                        (* mgr.Add, by runnable *)

(** [base64.StdEncoding.DecodeString]: padded, newlines ignored. *)
Fixpoint unpad (n : nat) (s : string) : string :=
  match n with O => s | S n => match TrimSuffix s "=" with t => if String.eqb t s then s else unpad n t end end.
Definition base64std_DecodeString (s : string) : option (list Z) :=
  let s := drop_newlines s in
  if (String.length s mod 4 =? 0)%nat then base64_DecodeString (unpad 2 s) else None.

Example base64std_vectors :
  base64std_DecodeString "Zm9vYg==" = Some (string_bytes "foob") ∧ base64std_DecodeString "Zm9vYg" = None ∧
  base64std_DecodeString "Zm8=" = Some (string_bytes "fo") ∧ base64std_DecodeString "Z===" = None.
Proof. vm_compute. done. Qed.

(** ** What the registries build *)

(** How bearer_jwt verifies: with a key set or through discovery. *)
Inductive verifier := VKeySet (issuer jwksURL : string) | VProvider (issuer : string).
Inductive identityAdapter := INone | IStatic | IJWT (v : verifier) | IIntrospect (v : verifier).
Inductive policyAdapter := PGroups (o : Core.Options).
Inductive brokerAdapter := BNone | BRefresh | BExchange (e : @Exchange ()).
Inductive provisionAdapter (W : Type) := PKube (namespace : string) | PLocal (cfg : LocalRuntime) (stateDir : string) (b : LocalBackend W).
Arguments PKube {W}. Arguments PLocal {W}.
(** The connection of a Redis adapter: address, password, database and prefix. *)
Record redisConn := mkRedisConn { rc_Addr : string; rc_Password : string; rc_DB : Z; rc_Prefix : string }.
Inductive tableAdapter := TMemory | TRedis (c : redisConn) (maxAge : Z) (sealer macKey : option (list Z)).
Inductive secretAdapter := SMemory | SRedis (c : redisConn).
Inductive sinkAdapter := SkStdout | SkFile (path : string).
Inductive egressAdapter :=
| ECilium (o : Netpol.Options) | ENone (o : Netpol.Options)
| EProxy (o : Netpol.Options) (address cmName namespace : string) (client : bool).
Definition directoryAdapter : Type := string * KeycloakAdmin * Keycloak ().

(** [func Scheme] and [func NewKubeAccess] of app/kube.go; the connection is what
    [HasKind] says of CiliumNetworkPolicy. *)
Definition Scheme `{!Boot} : result () := _ ← bt_addTypes false; bt_addTypes true.
Definition NewKubeAccess `{!Boot} : result bool :=
  match bt_kubeconfig with
  | Err e => Err (EWrap "kubeconfig" e)
  | Ok _ => _ ← Scheme; _ ← bt_newClient; Ok (match bt_restMapper with Ok has => has | Err _ => false end)
  end.

Section App.
Context {W : Type} {host : Host W} {boot : Boot} {sec : Secrets}.
(** The filesystem and process table the local runtime starts on. *)
Variable fs : W.

(** [type core.Context struct] with its [Kube] field: whether a cluster is
    connected, and whether it knows the CiliumNetworkPolicy kind. *)
Record bctx := mkBctx { b_cx : Context; b_Kube : option bool }.
Definition b_Cfg (x : bctx) : Config := cx_Cfg (b_cx x).
Definition b_Options (x : bctx) : Core.Options := cx_Options (b_cx x).

(** [func WithOptions] *)
Definition WithOptions (x : bctx) (opts : gmap string any) : bctx := mkBctx (mkContext (b_Cfg x) opts) (b_Kube x).

(** ** The constructors *)

(** [func (a *Adapter) init] and [New] of bearer_jwt *)
Definition bearer_jwt_init (x : bctx) : result verifier :=
  let id := c_Identity (b_Cfg x) in
  let jwksURL := Options_String (b_Options x) "jwks_url" (id_JWKSURL id) in
  if negb (String.eqb jwksURL "") then Ok (VKeySet (id_Issuer id) jwksURL)
  else match bt_discover (id_Issuer id) with
       | Err e => Err (EWrap ("oidc discovery for " +:+ id_Issuer id) e)
       | Ok _ => Ok (VProvider (id_Issuer id))
       end.
Definition bearer_jwt_New (x : bctx) : result identityAdapter := v ← bearer_jwt_init x; Ok (IJWT v).
(** [New] of bearer_introspect wraps the bearer_jwt adapter. *)
Definition bearer_introspect_New (x : bctx) : result identityAdapter := v ← bearer_jwt_init x; Ok (IIntrospect v).
Definition identity_none_New (x : bctx) : result identityAdapter := Ok INone.
Definition identity_static_New (x : bctx) : result identityAdapter := Ok IStatic.

Definition groups_New (x : bctx) : result policyAdapter := Ok (PGroups (b_Options x)).

Definition broker_none_New (x : bctx) : result brokerAdapter := Ok BNone.
Definition refresh_token_New (x : bctx) : result brokerAdapter := Ok BRefresh.
Definition broker_exchange_New (x : bctx) : result brokerAdapter := e ← exchange_New (b_cx x) (); Ok (BExchange e).

(** [New] and [NewBackend] of provision/kube *)
Definition kube_New (x : bctx) : result (provisionAdapter W) :=
  match b_Kube x with
  | None => Err (EMsg "kube provisioner: no Kubernetes connection in context")
  | Some _ => _ ← bt_newForConfig; Ok (PKube (n_SessionsNamespace (c_Network (b_Cfg x))))
  end.
(** [New] of provision/local *)
Definition local_New (x : bctx) : result (provisionAdapter W) :=
  let lc := default (mkLocalRuntime "docker" "juggernaut-wrapper" "juggernaut" "39000-39999") (rt_Local (g_Runtime (c_Gateway (b_Cfg x)))) in
  let stateDir := Options_String (b_Options x) "state_dir" "" in
  let stateDir := if String.eqb stateDir "" then
                    match Secrets_Env "JUGGERNAUT_STATE_DIR" with (v, true) => v | (_, false) => "/var/lib/juggernaut" end
                  else stateDir in
  b ← (NewBackend lc stateDir fs).1; Ok (PLocal lc stateDir b).

(** The connection both Redis adapters open.  [gateway.redis.tls] is not read. *)
Definition redis_connect (missing : string) (x : bctx) : result redisConn :=
  match g_Redis (c_Gateway (b_Cfg x)) with
  | None => Err (EMsg missing)
  | Some rc =>
      pw ← Secrets_Get (rd_PasswordRef rc);
      match bt_ping (rd_Address rc) pw (rd_DB rc) with
      | Err e => Err (EWrap ("redis " +:+ rd_Address rc) e)
      | Ok _ => Ok (mkRedisConn (rd_Address rc) pw (rd_DB rc) (Options_String (b_Options x) "key_prefix" (rd_KeyPrefix rc)))
      end
  end.

(** [func DeriveMACKey(kek []byte, purpose string) []byte] *)
Definition DeriveMACKey (kek : list Z) (purpose : string) : list Z := bt_hkdf kek ("juggernaut/" +:+ purpose).

(** The key encryption key of routing/redis: the sealer's key and the MAC key, or
    neither when the variable is unset or empty. *)
Definition routing_kek (x : bctx) : result (option (list Z) * option (list Z)) :=
  if Options_Bool (b_Options x) "seal_pod_tokens" true then
    let '(kek, ok) := Secrets_Env "JUGGERNAUT_KEK" in
    if ok && negb (String.eqb kek "") then
      match base64std_DecodeString kek with
      | None => Err (EMsg "JUGGERNAUT_KEK must be base64 of 32 bytes")
      | Some key =>
          if negb (length key =? 32)%nat then Err (EMsg "JUGGERNAUT_KEK must be base64 of 32 bytes")
          else Ok (Some key, Some (DeriveMACKey key "routing"))
      end
    else Ok (None, None)
  else Ok (None, None).
(** [New] of routing/redis; a 32-byte key is one [NewAESGCM] takes. *)
Definition routing_redis_New (x : bctx) : result tableAdapter :=
  c ← redis_connect "routing adapter redis requires gateway.redis" x;
  '(sealer, macKey) ← routing_kek x;
  Ok (TRedis c (Duration_Or (g_MaxSessionAge (c_Gateway (b_Cfg x))) (12 * Hour)) sealer macKey).
Definition routing_memory_New (x : bctx) : result tableAdapter := Ok TMemory.

Definition secrets_redis_New (x : bctx) : result secretAdapter :=
  c ← redis_connect "secrets store redis requires gateway.redis" x; Ok (SRedis c).
Definition secrets_memory_New (x : bctx) : result secretAdapter := Ok SMemory.

Definition audit_stdout_New (x : bctx) : result sinkAdapter := Ok SkStdout.
Definition audit_file_New (x : bctx) : result sinkAdapter :=
  let f := au_File (g_Audit (c_Gateway (b_Cfg x))) in
  p ← file_New (Some (Options_String (b_Options x) "path" f)) f bt_openFile; Ok (SkFile p).

Definition egress_cilium_New (x : bctx) : result egressAdapter :=
  o ← cilium_New (b_Kube x) (c_Network (b_Cfg x)); Ok (ECilium o).
Definition egress_none_New (x : bctx) : result egressAdapter := o ← none_New (c_Network (b_Cfg x)); Ok (ENone o).
Definition egress_proxy_New (x : bctx) : result egressAdapter :=
  let n := c_Network (b_Cfg x) in
  o ← proxy_New n;
  Ok (EProxy o (match n_Proxy n with Some p => pn_Address p | None => "" end)
        (Options_String (b_Options x) "allowlist_configmap" "juggernaut-egress-allowlist")
        (Options_String (b_Options x) "system_namespace" "juggernaut-system") (bool_decide (b_Kube x ≠ None))).

Definition keycloak_New (x : bctx) : result directoryAdapter := NewKeycloak (c_Identity (b_Cfg x)) ().

(** ** The registries *)

(** The [init] functions of the packages of one kind, in order. *)
Fixpoint register_all {T} (r : Registry T bctx) (fs : list (string * Factory T bctx)) : outcome (Registry T bctx) :=
  match fs with
  | [] => Done r
  | (typ, f) :: fs => r ← Register r typ f; register_all r fs
  end.

Definition Identity_fac : list (string * Factory identityAdapter bctx) :=
  [("bearer_introspect", bearer_introspect_New); ("bearer_jwt", bearer_jwt_New); ("none", identity_none_New); ("static", identity_static_New)].
Definition Policy_fac : list (string * Factory policyAdapter bctx) := [("groups", groups_New)].
Definition Broker_fac : list (string * Factory brokerAdapter bctx) :=
  [("exchange", broker_exchange_New); ("none", broker_none_New); ("refresh-token", refresh_token_New)].
Definition Provision_fac : list (string * Factory (provisionAdapter W) bctx) := [("kube", kube_New); ("local", local_New)].
Definition Routing_fac : list (string * Factory tableAdapter bctx) := [("memory", routing_memory_New); ("redis", routing_redis_New)].
Definition Egress_fac : list (string * Factory egressAdapter bctx) :=
  [("cilium", egress_cilium_New); ("none", egress_none_New); ("proxy", egress_proxy_New)].
Definition Directory_fac : list (string * Factory directoryAdapter bctx) := [("keycloak", keycloak_New)].
Definition Audit_fac : list (string * Factory sinkAdapter bctx) :=
  [("file", audit_file_New); ("stdout", audit_stdout_New); ("otlp", audit_stdout_New)].
Definition Secrets_fac : list (string * Factory secretAdapter bctx) := [("memory", secrets_memory_New); ("redis", secrets_redis_New)].

(** One registry per contract kind. *)
Record registries := mkRegistries {
  rg_Identity : Registry identityAdapter bctx; rg_Policy : Registry policyAdapter bctx; rg_Broker : Registry brokerAdapter bctx;
  rg_Provision : Registry (provisionAdapter W) bctx; rg_Routing : Registry tableAdapter bctx; rg_Egress : Registry egressAdapter bctx;
  rg_Directory : Registry directoryAdapter bctx; rg_Audit : Registry sinkAdapter bctx; rg_Secrets : Registry secretAdapter bctx }.

(** The registries after adapters/all is imported. *)
Definition all_adapters : outcome registries :=
  i ← register_all (Registry_New "identity") Identity_fac;
  p ← register_all (Registry_New "policy") Policy_fac;
  b ← register_all (Registry_New "broker") Broker_fac;
  v ← register_all (Registry_New "provision") Provision_fac;
  r ← register_all (Registry_New "routing") Routing_fac;
  e ← register_all (Registry_New "egress") Egress_fac;
  d ← register_all (Registry_New "directory") Directory_fac;
  a ← register_all (Registry_New "audit") Audit_fac;
  s ← register_all (Registry_New "secrets") Secrets_fac;
  Done (mkRegistries i p b v r e d a s).

(** ** app/gateway.go *)

(** The selectors that are string types of their own: [string(mode)]. *)
Definition broker_string (m : BrokerMode) : string :=
  match m with BrokerUnset => "" | BrokerExchange => "exchange" | BrokerRefreshToken => "refresh-token" | BrokerNone => "none" end.
Definition runtime_string (k : RuntimeKind) : string :=
  match k with RuntimeUnset => "" | RuntimeLocal => "local" | RuntimeKube => "kube" end.
Definition egress_string (e : Config.EgressEnforcer) : string :=
  match e with EgressUnset => "" | EgressCilium => "cilium" | EgressProxy => "proxy" | EgressNone => "none" end.

(** [func LoadPodTLS] of mcpproxy/tls.go: the client certificate, the CA file and
    the trust domain. *)
Record PodTLS := mkPodTLS { pt_cert : string * string; pt_pool : string; pt_TrustDomain : string }.
Definition LoadPodTLS (certFile keyFile caFile trustDomain : string) : result PodTLS :=
  match bt_loadKeyPair certFile keyFile with
  | Err e => Err (EWrap "gateway client cert" e)
  | Ok _ =>
      match bt_readFile caFile with
      | Err e => Err (EWrap "pod CA" e)
      | Ok caPEM => if negb (bt_pemCerts caPEM) then Err (EMsg "pod CA: no certificates in file")
                    else Ok (mkPodTLS (certFile, keyFile) caPEM trustDomain)
      end
  end.

(** [func SetupTracing] of telemetry/tracing.go: whether spans are exported, and
    the sample ratio, a tenth when unset. *)
Definition SetupTracing (t : Telemetry) : result (option (Z * positive)) :=
  if String.eqb (te_OTLPEndpoint t) "" then Ok None
  else let ratio := if Z.eqb (te_SampleRatio t).1 0 then (1, 10%positive) else te_SampleRatio t in
       _ ← bt_tracing t ratio; Ok (Some ratio).

(** What [Close] of the gateway runs. *)
Inductive closer := CloseSink (s : sinkAdapter) | ShutdownTracing (t : option (Z * positive)).

(** [type Gateway struct] with the parts [GatewayFromConfig] gives to the server,
    the router and the admin listener. *)
Record GatewayApp := mkGatewayApp {
  gw_Identity : identityAdapter; gw_Policy : policyAdapter; gw_Broker : brokerAdapter; gw_Provisioner : provisionAdapter W;
  gw_Table : tableAdapter; gw_Sink : sinkAdapter; gw_SecretStore : secretAdapter; gw_PodTLS : option PodTLS;
  gw_close : list closer; gw_Admin : option directoryAdapter }.

(** [build(kind, err)] *)
Definition build {A} (kind : string) (r : result A) : result A :=
  match r with Ok a => Ok a | Err e => Err (EWrap (kind +:+ " adapter") e) end.

(** The base context: a cluster connection only for the kube runtime. *)
Definition base_context (cfg : Config) : result bctx :=
  match rt_Kind (g_Runtime (c_Gateway cfg)) with
  | RuntimeKube => k ← NewKubeAccess; Ok (mkBctx (mkContext cfg ∅) (Some k))
  | _ => Ok (mkBctx (mkContext cfg ∅) None)
  end.

(** [func GatewayFromConfig]: [Panic] is a nil pointer dereference. *)
Definition GatewayFromConfig (rg : registries) (cfg : Config) : outcome (result GatewayApp) :=
  match base_context cfg with Err e => Done (Err e) | Ok base =>
  let g := c_Gateway cfg in
  match build "identity" (Build (rg_Identity rg) (id_Type (c_Identity cfg)) (WithOptions base (id_Options (c_Identity cfg)))) with
  | Err e => Done (Err e) | Ok identity =>
  match build "policy" (Build (rg_Policy rg) (az_Type (c_Authorization cfg)) (WithOptions base (az_Options (c_Authorization cfg)))) with
  | Err e => Done (Err e) | Ok policy =>
  match build "broker" (Build (rg_Broker rg) (broker_string (br_Mode (id_Broker (c_Identity cfg))))
                          (WithOptions base (br_Options (id_Broker (c_Identity cfg))))) with
  | Err e => Done (Err e) | Ok broker =>
  match build "provision" (Build (rg_Provision rg) (runtime_string (rt_Kind (g_Runtime g))) base) with
  | Err e => Done (Err e) | Ok provisioner =>
  match build "routing" (Build (rg_Routing rg) (ro_Type (g_Routing g)) (WithOptions base (ro_Options (g_Routing g)))) with
  | Err e => Done (Err e) | Ok table =>
  match build "audit" (Build (rg_Audit rg) (au_Sink (g_Audit g)) (WithOptions base (au_Options (g_Audit g)))) with
  | Err e => Done (Err e) | Ok sink =>
  match build "secrets" (Build (rg_Secrets rg) (ro_Type (usg_Store (g_UserSecrets g))) (WithOptions base (ro_Options (usg_Store (g_UserSecrets g))))) with
  | Err e => Done (Err e) | Ok secretStore =>
  let podTLS :=
    if String.eqb (n_PodAuth (c_Network cfg)) "mtls" then
      match n_MTLS (c_Network cfg) with
      | None => Panic
      | Some m => Done (match LoadPodTLS (mt_CertFile m) (mt_KeyFile m) (mt_CAFile m) (mt_TrustDomain m) with
                        | Err e => Err (EWrap "podAuth mtls" e) | Ok p => Ok (Some p) end)
      end
    else Done (Ok None) in
  match podTLS with Panic => Panic | Done (Err e) => Done (Err e) | Done (Ok podTLS) =>
  match SetupTracing (g_Telemetry g) with Err e => Done (Err (EWrap "tracing" e)) | Ok tracing =>
  let close := [CloseSink sink; ShutdownTracing tracing] in
  match (match id_KeycloakAdmin (c_Identity cfg) with
         | None => Ok None
         | Some _ => Some <$> build "directory" (Build (rg_Directory rg) "keycloak" base)
         end) with
  | Err e => Done (Err e)
  | Ok adm => Done (Ok (mkGatewayApp identity policy broker provisioner table sink secretStore podTLS close adm))
  end end end end end end end end end end end.

(** [func (g *Gateway) Close()]: every closer, last first; the first error is
    returned. *)
Fixpoint closeLoop {C} (run : closer → C → result () * C) (cs : list closer) (first : option gerror) (w : C) : result () * C :=
  match cs with
  | [] => (match first with None => Ok () | Some e => Err e end, w)
  | c :: cs =>
      let '(r, w) := run c w in
      closeLoop run cs (match first, r with None, Err e => Some e | _, _ => first end) w
  end.
Definition Close {C} (run : closer → C → result () * C) (g : GatewayApp) (w : C) : result () * C :=
  closeLoop run (rev (gw_close g)) None w.

(** ** app/controller.go *)

(** [PodEnv] of the enforcers *)
Definition egress_PodEnv (e : egressAdapter) : gmap string string * bool :=
  match e with ECilium _ | ENone _ => (∅, false) | EProxy _ address _ _ _ => PodEnv address end.

(** The manager: the reconciler, the runnables in the order they are added, the
    reaper's table and interval, and the [OnReload] callbacks of the store. *)
Record ControllerApp := mkControllerApp {
  ca_Table : tableAdapter; ca_Egress : egressAdapter; ca_Options : PodOptions; ca_Namespace : string;
  ca_PKI : option MTLS; ca_Runnables : list string; ca_ReaperInterval : Z; ca_OnReload : list string; ca_Warn : bool }.

(** [mgr.Add] of the runnables in order. *)
Fixpoint addAll (rs : list string) : result () :=
  match rs with [] => Ok () | r :: rs => _ ← bt_add r; addAll rs end.

(** [func ControllerFromConfig] *)
Definition ControllerFromConfig (rg : registries) (wrapperImage : string) (cfg : Config) : outcome (result ControllerApp) :=
  let ns := n_SessionsNamespace (c_Network cfg) in
  match Scheme with Err e => Done (Err e) | Ok _ =>
  match bt_newManager with Err e => Done (Err (EWrap "manager" e)) | Ok hasKind =>
  let base := mkBctx (mkContext cfg ∅) (Some hasKind) in
  let routing := g_Routing (c_Gateway cfg) in
  let warn := String.eqb (ro_Type routing) "memory" in
  match build "routing" (Build (rg_Routing rg) (ro_Type routing) (WithOptions base (ro_Options routing))) with
  | Err e => Done (Err e) | Ok table =>
  match build "egress" (Build (rg_Egress rg) (egress_string (n_EgressEnforcer (c_Network cfg))) base) with
  | Err e => Done (Err e) | Ok egress =>
  let '(podEnv, disableDNS) := egress_PodEnv egress in
  let opts := mkPodOptions wrapperImage podEnv disableDNS in
  let rest pki added :=
    Done (_ ← bt_setup; _ ← addAll ["namespace objects"; "servertype sync and watch"; "reaper"];
          Ok (mkControllerApp table egress opts ns pki (added ++ ["namespace objects"; "servertype sync and watch"; "reaper"])
                (30 * Second) ["servertype sync"] warn)) in
  if String.eqb (n_PodAuth (c_Network cfg)) "mtls" then
    match n_MTLS (c_Network cfg) with
    | None => Panic
    | Some m => match bt_add "pod pki" with Err e => Done (Err e) | Ok _ => rest (Some m) ["pod pki"] end
    end
  else rest None []
  end end end end.

(** ** What is registered *)

Lemma register_all_spec {T} (r : Registry T bctx) (l : list (string * Factory T bctx)) :
  NoDup l.*1 → (∀ t, t ∈ l.*1 → rg_fac r !! t = None) →
  ∃ r', register_all r l = Done r' ∧ ∀ t f, rg_fac r' !! t = Some f ↔ (t, f) ∈ l ∨ rg_fac r !! t = Some f.
Proof.
  revert r. induction l as [|[t0 f0] l IH]; intros r Hnd Hr; cbn [register_all].
  { exists r. split; [done|]. intros t f. rewrite elem_of_nil. tauto. }
  cbn in Hnd. apply NoDup_cons in Hnd as [Hn Hnd]. unfold Register. rewrite (Hr t0) by (cbn; left). cbn [mbind outcome_bind].
  destruct (IH (mkRegistry (rg_kind r) (<[t0 := f0]> (rg_fac r))) Hnd) as (r' & Hr' & Hspec).
  { intros t Ht. cbn. rewrite lookup_insert_ne by (intros ->; done). apply Hr. cbn. by right. }
  exists r'. split; [done|]. intros t f. rewrite Hspec, elem_of_cons. cbn. rewrite lookup_insert_Some.
  specialize (Hr t0 ltac:(cbn; left)). destruct (decide (t0 = t)) as [->|]; [rewrite Hr|]; naive_solver.
Qed.

Definition has_types {T} (r : Registry T bctx) (l : list (string * Factory T bctx)) : Prop :=
  ∀ t f, rg_fac r !! t = Some f ↔ (t, f) ∈ l.

Record complete (rg : registries) : Prop := {
  cp_identity : has_types (rg_Identity rg) Identity_fac; cp_policy : has_types (rg_Policy rg) Policy_fac;
  cp_broker : has_types (rg_Broker rg) Broker_fac; cp_provision : has_types (rg_Provision rg) Provision_fac;
  cp_routing : has_types (rg_Routing rg) Routing_fac; cp_egress : has_types (rg_Egress rg) Egress_fac;
  cp_directory : has_types (rg_Directory rg) Directory_fac; cp_audit : has_types (rg_Audit rg) Audit_fac;
  cp_secrets : has_types (rg_Secrets rg) Secrets_fac }.

Lemma register_new {T} kind (l : list (string * Factory T bctx)) :
  bool_decide (NoDup l.*1) = true → ∃ r, register_all (Registry_New kind) l = Done r ∧ has_types r l.
Proof.
  intros Hnd%bool_decide_eq_true. destruct (register_all_spec (Registry_New kind) l Hnd) as (r & Hr & Hs).
  { intros t _. cbn. apply lookup_empty. }
  exists r. split; [done|]. intros t f. rewrite Hs. cbn. rewrite lookup_empty. naive_solver.
Qed.

(** No type is registered twice, so importing the adapters does not panic, and the
    registries hold exactly the adapters of their kind. *)
Lemma all_adapters_complete : ∃ rg, all_adapters = Done rg ∧ complete rg.
Proof.
  unfold all_adapters.
  repeat (match goal with |- context [register_all ?r ?l] =>
    let H := fresh in let E := fresh in let x := fresh "r" in
    destruct (register_new (rg_kind r) l ltac:(vm_compute; reflexivity)) as (x & E & H);
    change (Registry_New (rg_kind r)) with r in E; rewrite E; cbn [mbind outcome_bind] end).
  eexists. split; [reflexivity|]. by split.
Qed.

Lemma Build_in {T} (r : Registry T bctx) l t (f : Factory T bctx) x : has_types r l → (t, f) ∈ l → Build r t x = f x.
Proof. intros H Hin%H. unfold Build, Factory in *. by rewrite Hin. Qed.
Lemma Build_Ok {T} (r : Registry T bctx) l t x a : has_types r l → Build r t x = Ok a → ∃ f, (t, f) ∈ l ∧ f x = Ok a.
Proof. intros H. unfold Build. destruct (rg_fac r !! t) as [f|] eqn:E; [|done]. intros Hf. exists f. split; [by apply H|done]. Qed.

(** [juggernaut adapters] of cmd/juggernaut/main.go: the kinds it prints. *)
Definition cmd_adapters (rg : registries) : list (string * list string) :=
  [("identity", Types (rg_Identity rg)); ("policy", Types (rg_Policy rg)); ("broker", Types (rg_Broker rg));
   ("provision", Types (rg_Provision rg)); ("routing", Types (rg_Routing rg)); ("egress", Types (rg_Egress rg));
   ("directory", Types (rg_Directory rg)); ("audit", Types (rg_Audit rg))].

(** Every kind but the secret stores is listed. *)
Lemma cmd_adapters_omits_secrets rg : "secrets" ∉ (cmd_adapters rg).*1.
Proof. cbn. intros H. repeat (apply elem_of_cons in H as [[=]|H]). by apply elem_of_nil in H. Qed.

(** ** Start-up *)

(** The enumerations of juggernaut.schema.json for the selectors, before defaults. *)
Definition schema_selectors (c : Config) : Prop :=
  id_Type (c_Identity c) ∈ [""; "none"; "static"; "bearer_jwt"; "bearer_introspect"] ∧
  ro_Type (g_Routing (c_Gateway c)) ∈ [""; "memory"; "redis"] ∧
  ro_Type (usg_Store (g_UserSecrets (c_Gateway c))) ∈ [""; "memory"; "redis"] ∧
  au_Sink (g_Audit (c_Gateway c)) ∈ [""; "stdout"; "file"; "otlp"] ∧
  az_Type (c_Authorization c) ∈ [""; "groups"].

(** The outside cooperates. *)
Record host_up : Prop := {
  hu_kube : is_ok NewKubeAccess = true; hu_clientset : is_ok bt_newForConfig = true;
  hu_ping : ∀ a p d, is_ok (bt_ping a p d) = true; hu_discover : ∀ i, is_ok (bt_discover i) = true;
  hu_open : ∀ p, is_ok (bt_openFile p) = true; hu_keys : ∀ c k, is_ok (bt_loadKeyPair c k) = true;
  hu_ca : ∀ f, ∃ pem, bt_readFile f = Ok pem ∧ bt_pemCerts pem = true; hu_tracing : ∀ t r, is_ok (bt_tracing t r) = true;
  hu_mkdir : ∀ d, is_ok (h_MkdirAll d fs).1 = true; hu_secrets : ∀ ref, is_ok (Secrets_Get ref) = true;
  hu_kek : ∀ kek, Secrets_Env "JUGGERNAUT_KEK" = (kek, true) → kek ≠ "" → length <$> base64std_DecodeString kek = Some 32%nat }.

(** What neither the schema nor [Validate] checks, of the configuration with its
    defaults. *)
Record unchecked (c : Config) : Prop := {
  uc_client : br_Mode (id_Broker (c_Identity c)) = BrokerExchange → br_ClientID (id_Broker (c_Identity c)) ≠ "";
  uc_file : au_Sink (g_Audit (c_Gateway c)) = "file" → Options_String (au_Options (g_Audit (c_Gateway c))) "path" (au_File (g_Audit (c_Gateway c))) ≠ "";
  uc_store : ro_Type (usg_Store (g_UserSecrets (c_Gateway c))) = "redis" → is_Some (g_Redis (c_Gateway c));
  uc_ports : ∀ l, rt_Local (g_Runtime (c_Gateway c)) = Some l → is_ok (parseRange (lr_PortRange l)) = true;
  uc_realm : id_KeycloakAdmin (c_Identity c) ≠ None → is_ok (NewKeycloak (c_Identity c) ()) = true }.

Lemma is_ok_Ok {A} (r : result A) : is_ok r = true → ∃ a, r = Ok a.
Proof. destruct r; [eauto|done]. Qed.

Lemma redis_connect_up msg x rc : host_up → g_Redis (c_Gateway (b_Cfg x)) = Some rc → ∃ c, redis_connect msg x = Ok c.
Proof.
  intros Hu Hr. unfold redis_connect. rewrite Hr. destruct (is_ok_Ok _ (hu_secrets Hu (rd_PasswordRef rc))) as [pw Hpw]. rewrite Hpw. cbn.
  destruct (is_ok_Ok _ (hu_ping Hu (rd_Address rc) pw (rd_DB rc))) as [[] ->]. eauto.
Qed.

Lemma routing_kek_up x : host_up → ∃ ks, routing_kek x = Ok ks.
Proof.
  intros Hu. unfold routing_kek. destruct (Options_Bool _ _ _); [|eauto]. destruct (Secrets_Env "JUGGERNAUT_KEK") as [kek []] eqn:Ek; cbn; [|eauto].
  destruct (String.eqb_spec kek ""); cbn; [eauto|]. pose proof (hu_kek Hu kek Ek n) as Hk.
  destruct (base64std_DecodeString kek) as [key|]; cbn in Hk; [|done]. injection Hk as Hk. rewrite Hk. cbn. eauto.
Qed.

Lemma bearer_jwt_up x : host_up → ∃ v, bearer_jwt_init x = Ok v.
Proof.
  intros Hu. unfold bearer_jwt_init. destruct (negb _); [eauto|].
  destruct (is_ok_Ok _ (hu_discover Hu (id_Issuer (c_Identity (b_Cfg x))))) as [[] ->]. eauto.
Qed.

(** One goal per name of a list of types, with the constructor registered for it. *)
Ltac each_type Ht Hc :=
  repeat (apply elem_of_cons in Ht as [->|Ht]; [erewrite Build_in; [|exact Hc|repeat first [left|right]]|]); [..|by apply elem_of_nil in Ht].

(** A registered constructor succeeds: the adapter of each kind, from what its
    constructor needs. *)
Lemma identity_up rg x t : complete rg → host_up →
  t ∈ ["none"; "static"; "bearer_jwt"; "bearer_introspect"] → ∃ a, Build (rg_Identity rg) t x = Ok a.
Proof.
  intros [Hc _ _ _ _ _ _ _ _] Hu Ht. destruct (bearer_jwt_up x Hu) as [v Hv].
  each_type Ht Hc; unfold bearer_jwt_New, bearer_introspect_New; rewrite ?Hv; by eexists.
Qed.
Lemma broker_up rg x m : complete rg → m ≠ BrokerUnset →
  (m = BrokerExchange → br_ClientID (id_Broker (c_Identity (b_Cfg x))) ≠ "") → ∃ a, Build (rg_Broker rg) (broker_string m) x = Ok a.
Proof.
  intros [_ _ Hc _ _ _ _ _ _] Hm Hx. destruct m; [done|..]; cbn [broker_string];
    (erewrite Build_in; [|exact Hc|repeat first [left|right]]); [|by eexists..].
  unfold broker_exchange_New, exchange_New. destruct (String.eqb_spec (br_ClientID (id_Broker (c_Identity (cx_Cfg (b_cx x))))) ""); [by destruct (Hx eq_refl)|].
  by eexists.
Qed.

Lemma provision_up rg x kind : complete rg → host_up → kind ≠ RuntimeUnset → (kind = RuntimeKube → b_Kube x ≠ None) →
  (kind = RuntimeLocal → ∃ l, rt_Local (g_Runtime (c_Gateway (b_Cfg x))) = Some l ∧ is_ok (parseRange (lr_PortRange l)) = true) →
  ∃ a, Build (rg_Provision rg) (runtime_string kind) x = Ok a.
Proof.
  intros [_ _ _ Hc _ _ _ _ _] Hu Hk Hkube Hl. destruct kind; [done|..]; cbn [runtime_string];
    (erewrite Build_in; [|exact Hc|repeat first [left|right]]).
  - destruct (Hl eq_refl) as (l & Hrt & Hp). unfold local_New, NewBackend. rewrite Hrt. change (from_option id ?d (Some l)) with l.
    destruct (is_ok_Ok _ Hp) as [[from to] ->].
    match goal with |- context [h_MkdirAll ?d fs] => pose proof (hu_mkdir Hu d) as Hd; destruct (h_MkdirAll d fs) as [[]  w] end; [by eexists|done].
  - unfold kube_New. destruct (b_Kube x); [|by destruct (Hkube eq_refl)]. destruct (is_ok_Ok _ (hu_clientset Hu)) as [[] ->]. by eexists.
Qed.

Lemma routing_up rg x t : complete rg → host_up → t ∈ ["memory"; "redis"] →
  (t = "redis" → is_Some (g_Redis (c_Gateway (b_Cfg x)))) → ∃ a, Build (rg_Routing rg) t x = Ok a.
Proof.
  intros [_ _ _ _ Hc _ _ _ _] Hu Ht Hr. each_type Ht Hc; [by eexists|]. destruct (Hr eq_refl) as [rc Hrc].
  unfold routing_redis_New. destruct (redis_connect_up "routing adapter redis requires gateway.redis" x rc Hu Hrc) as [c ->]. cbn.
  destruct (routing_kek_up x Hu) as [[sl mk] ->]. by eexists.
Qed.

Lemma secrets_up rg x t : complete rg → host_up → t ∈ ["memory"; "redis"] →
  (t = "redis" → is_Some (g_Redis (c_Gateway (b_Cfg x)))) → ∃ a, Build (rg_Secrets rg) t x = Ok a.
Proof.
  intros [_ _ _ _ _ _ _ _ Hc] Hu Ht Hr. each_type Ht Hc; [by eexists|]. destruct (Hr eq_refl) as [rc Hrc].
  unfold secrets_redis_New. destruct (redis_connect_up "secrets store redis requires gateway.redis" x rc Hu Hrc) as [c ->]. by eexists.
Qed.

Lemma audit_up rg x t : complete rg → host_up → t ∈ ["stdout"; "file"; "otlp"] →
  (t = "file" → Options_String (b_Options x) "path" (au_File (g_Audit (c_Gateway (b_Cfg x)))) ≠ "") → ∃ a, Build (rg_Audit rg) t x = Ok a.
Proof.
  intros [_ _ _ _ _ _ _ Hc _] Hu Ht Hf. each_type Ht Hc; [by eexists| |by eexists]. specialize (Hf eq_refl).
  unfold audit_file_New, file_New. change (from_option id ?d (Some ?p)) with p. apply String.eqb_neq in Hf as ->.
  match goal with |- context [bt_openFile ?p] => destruct (is_ok_Ok _ (hu_open Hu p)) as [[] ->] end. by eexists.
Qed.

Lemma podTLS_up n : host_up → ∃ p, LoadPodTLS (mt_CertFile n) (mt_KeyFile n) (mt_CAFile n) (mt_TrustDomain n) = Ok p.
Proof.
  intros Hu. unfold LoadPodTLS. destruct (is_ok_Ok _ (hu_keys Hu (mt_CertFile n) (mt_KeyFile n))) as [[] ->].
  destruct (hu_ca Hu (mt_CAFile n)) as (pem & -> & ->). by eexists.
Qed.

Lemma tracing_up t : host_up → ∃ r, SetupTracing t = Ok r.
Proof.
  intros Hu. unfold SetupTracing. destruct (String.eqb _ _); [by eexists|].
  match goal with |- context [bt_tracing t ?r] => destruct (is_ok_Ok _ (hu_tracing Hu t r)) as [[] ->] end. by eexists.
Qed.

(** The selectors of a configuration with its defaults. *)
Lemma or_str_in s d l : s ∈ "" :: l → d ∈ l → or_str s d ∈ l.
Proof. intros Hs Hd. unfold or_str. destruct (String.eqb_spec s ""); [done|]. apply elem_of_cons in Hs. naive_solver. Qed.

Lemma ApplyDefaults_selectors c :
  schema_selectors c → let c := ApplyDefaults c in
  id_Type (c_Identity c) ∈ ["none"; "static"; "bearer_jwt"; "bearer_introspect"] ∧
  ro_Type (g_Routing (c_Gateway c)) ∈ ["memory"; "redis"] ∧
  ro_Type (usg_Store (g_UserSecrets (c_Gateway c))) ∈ ["memory"; "redis"] ∧
  au_Sink (g_Audit (c_Gateway c)) ∈ ["stdout"; "file"; "otlp"] ∧
  az_Type (c_Authorization c) ∈ ["groups"] ∧
  br_Mode (id_Broker (c_Identity c)) ≠ BrokerUnset ∧ rt_Kind (g_Runtime (c_Gateway c)) ≠ RuntimeUnset ∧
  (rt_Kind (g_Runtime (c_Gateway c)) = RuntimeLocal → is_Some (rt_Local (g_Runtime (c_Gateway c)))) ∧
  (n_PodAuth (c_Network c) = "mtls" → is_Some (n_MTLS (c_Network c))).
Proof.
  intros (Hi & Hr & Hs & Ha & Hz) c'. unfold c', ApplyDefaults, defaultIdentity, defaultGateway, defaultNetwork. cbn.
  assert (or_str (ro_Type (g_Routing (c_Gateway c))) (match g_Redis (c_Gateway c) with Some _ => "redis" | None => "memory" end) ∈ ["memory"; "redis"]) as Hrt.
  { apply or_str_in; [done|]. destruct (g_Redis _); repeat first [left|right]. }
  split_and!.
  - apply or_str_in; [done|]. destruct (in_Enabled _); repeat first [left|right].
  - exact Hrt.
  - by apply or_str_in.
  - apply or_str_in; [done|left].
  - apply or_str_in; [done|left].
  - by destruct (br_Mode _).
  - unfold defaultRuntime. by destruct (rt_Kind (g_Runtime (c_Gateway c))).
  - unfold defaultRuntime. destruct (rt_Kind (g_Runtime (c_Gateway c))); cbn; intros; [done|by eexists|done].
  - intros Hm. rewrite Hm. cbn. by eexists.
Qed.
Lemma base_context_up c : host_up → ∃ x, base_context c = Ok x ∧ b_Cfg x = c ∧ b_Options x = ∅ ∧
  (rt_Kind (g_Runtime (c_Gateway c)) = RuntimeKube → b_Kube x ≠ None).
Proof.
  intros Hu. unfold base_context. destruct (is_ok_Ok _ (hu_kube Hu)) as [k ->].
  destruct (rt_Kind (g_Runtime (c_Gateway c))); eexists; (split; [reflexivity|]); done.
Qed.

Lemma Validate_routing_redis c : Validate c = Some [] → ro_Type (g_Routing (c_Gateway c)) = "redis" → is_Some (g_Redis (c_Gateway c)).
Proof.
  intros Hv Hr. unfold Validate in Hv. assert (validateTop c = []) as Ht by (destruct (ip_RequireDigest _), (c_Servers c); try done; injection Hv as Hv; by apply app_nil in Hv as [Hv _]).
  clear Hv. rename Ht into Hv. unfold validateTop in Hv. nils.
  match goal with H : context [is_none (g_Redis (c_Gateway c))] |- _ => rewrite Hr in H; cbn in H; by destruct (g_Redis (c_Gateway c)) end.
Qed.

Lemma boots c rg :
  schema_selectors c → Validate (ApplyDefaults c) = Some [] → unchecked (ApplyDefaults c) → host_up →
  all_adapters = Done rg → ∃ g, GatewayFromConfig rg (ApplyDefaults c) = Done (Ok g).
Proof.
  intros Hsel Hv [Hx Hf Hst Hp Hkc] Hu Hrg.
  assert (complete rg) as Hc by (destruct all_adapters_complete as (rg' & E & ?); rewrite E in Hrg; by injection Hrg as <-).
  destruct (ApplyDefaults_selectors c Hsel) as (Hid & Hro & Hus & Hau & Haz & Hbr & Hrt & Hloc & Hmt).
  set (c' := ApplyDefaults c) in *. clearbody c'. unfold GatewayFromConfig.
  destruct (base_context_up c' Hu) as (x & -> & <- & _ & Hkube). cbv zeta.
  destruct (identity_up rg (WithOptions x (id_Options (c_Identity (b_Cfg x)))) _ Hc Hu Hid) as [a1 ->].
  apply list_elem_of_singleton in Haz as ->. erewrite (Build_in (rg_Policy rg)); [|apply Hc|left]. cbn [build groups_New].
  destruct (broker_up rg (WithOptions x (br_Options (id_Broker (c_Identity (b_Cfg x))))) _ Hc Hbr Hx) as [a3 ->].
  edestruct (provision_up rg x _ Hc Hu Hrt Hkube) as [a4 ->].
  { intros Hk. destruct (Hloc Hk) as [l Hl]. exists l. split; [done|]. by apply Hp. }
  destruct (routing_up rg (WithOptions x (ro_Options (g_Routing (c_Gateway (b_Cfg x))))) _ Hc Hu Hro (Validate_routing_redis _ Hv)) as [a5 ->].
  destruct (audit_up rg (WithOptions x (au_Options (g_Audit (c_Gateway (b_Cfg x))))) _ Hc Hu Hau Hf) as [a6 ->].
  destruct (secrets_up rg (WithOptions x (ro_Options (usg_Store (g_UserSecrets (c_Gateway (b_Cfg x)))))) _ Hc Hu Hus Hst) as [a7 ->].
  cbn [build]. destruct (tracing_up (g_Telemetry (c_Gateway (b_Cfg x))) Hu) as [tr ->].
  assert (∃ adm, match id_KeycloakAdmin (c_Identity (b_Cfg x)) with
     | None => Ok None
     | Some _ => Some <$> build "directory" (Build (rg_Directory rg) "keycloak" x) end = Ok adm) as [adm Hadm].
  { destruct (id_KeycloakAdmin (c_Identity (b_Cfg x))) as [ka|]; [|by eexists]. erewrite Build_in; [|apply Hc|left].
    destruct (is_ok_Ok _ (Hkc ltac:(done))) as [d Hd]. unfold keycloak_New. rewrite Hd. by eexists. }
  destruct (String.eqb_spec (n_PodAuth (c_Network (b_Cfg x))) "mtls") as [Hm|Hm].
  - destruct (Hmt Hm) as [m Hm']. rewrite Hm'. destruct (podTLS_up m Hu) as [p ->]. rewrite Hadm. by eexists.
  - rewrite Hadm. by eexists.
Qed.

(** C11. A configuration the loader accepts starts: with the cluster, Redis, the issuer
    and the files in place, every selector the schema allows names a registered
    adapter, [Validate] has checked the rest, and the gateway is built without a
    panic; five settings neither of them checks are the hypothesis [unchecked]. *)
Theorem accepted_config_boots c rg :
  schema_selectors c → Validate (ApplyDefaults c) = Some [] → unchecked (ApplyDefaults c) → host_up →
  all_adapters = Done rg → ∃ g, GatewayFromConfig rg (ApplyDefaults c) = Done (Ok g).
Proof. apply boots. Qed.

(** ** What a started gateway is made of *)

(** The steps of a successful start. *)
Definition built_as (rg : registries) (cfg : Config) (x : bctx) (g : GatewayApp) : Prop :=
  let gw := c_Gateway cfg in
  base_context cfg = Ok x ∧
  Build (rg_Identity rg) (id_Type (c_Identity cfg)) (WithOptions x (id_Options (c_Identity cfg))) = Ok (gw_Identity g) ∧
  Build (rg_Broker rg) (broker_string (br_Mode (id_Broker (c_Identity cfg)))) (WithOptions x (br_Options (id_Broker (c_Identity cfg)))) = Ok (gw_Broker g) ∧
  Build (rg_Provision rg) (runtime_string (rt_Kind (g_Runtime gw))) x = Ok (gw_Provisioner g) ∧
  Build (rg_Routing rg) (ro_Type (g_Routing gw)) (WithOptions x (ro_Options (g_Routing gw))) = Ok (gw_Table g) ∧
  Build (rg_Audit rg) (au_Sink (g_Audit gw)) (WithOptions x (au_Options (g_Audit gw))) = Ok (gw_Sink g) ∧
  Build (rg_Secrets rg) (ro_Type (usg_Store (g_UserSecrets gw))) (WithOptions x (ro_Options (usg_Store (g_UserSecrets gw)))) = Ok (gw_SecretStore g) ∧
  (∃ t, SetupTracing (g_Telemetry gw) = Ok t ∧ gw_close g = [CloseSink (gw_Sink g); ShutdownTracing t]) ∧
  (if String.eqb (n_PodAuth (c_Network cfg)) "mtls" then
     ∃ m p, n_MTLS (c_Network cfg) = Some m ∧ gw_PodTLS g = Some p ∧
       LoadPodTLS (mt_CertFile m) (mt_KeyFile m) (mt_CAFile m) (mt_TrustDomain m) = Ok p
   else gw_PodTLS g = None) ∧
  (gw_Admin g ≠ None ↔ id_KeycloakAdmin (c_Identity cfg) ≠ None).

Lemma build_Ok {A} k (r : result A) a : build k r = Ok a → r = Ok a.
Proof. by destruct r; [|done]. Qed.

Lemma GatewayFromConfig_inv rg cfg g : GatewayFromConfig rg cfg = Done (Ok g) → ∃ x, built_as rg cfg x g.
Proof.
  unfold GatewayFromConfig, built_as. destruct (base_context cfg) as [x|] eqn:Eb; [|done]. cbv zeta. intros H. exists x.
  repeat match type of H with context [build ?k ?r] =>
    match r with Build (rg_Directory rg) _ _ => fail 1 | _ => let E := fresh "E" in destruct (build k r) eqn:E; [apply build_Ok in E|done] end end.
  destruct (if String.eqb (n_PodAuth (c_Network cfg)) "mtls" then _ else _) as [[podTLS|]|] eqn:Ep in H; [|done..].
  destruct (SetupTracing _) as [tr|] eqn:Et; [|done].
  destruct (match id_KeycloakAdmin (c_Identity cfg) with None => _ | Some _ => _ end) as [adm|] eqn:Ea in H; [|done]. injection H as <-. cbn.
  split_and!; try done; try by eexists.
  - destruct (String.eqb (n_PodAuth (c_Network cfg)) "mtls"); [|by injection Ep as <-].
    destruct (n_MTLS _) as [m|]; [|done]. destruct (LoadPodTLS _ _ _ _) as [p|] eqn:El; [|done]. injection Ep as <-. eauto.
  - destruct (id_KeycloakAdmin _) as [ka|]; [|by injection Ea as <-]. destruct (build _ _); [|done]. by injection Ea as <-.
Qed.

Lemma Validate_kube c : Validate c = Some [] → rt_Kind (g_Runtime (c_Gateway c)) = RuntimeKube →
  ro_Type (g_Routing (c_Gateway c)) ≠ "memory" ∧ ro_Type (usg_Store (g_UserSecrets (c_Gateway c))) ≠ "memory".
Proof.
  intros Hv Hk. unfold Validate in Hv.
  assert (validateTop c = []) as Ht by (destruct (ip_RequireDigest _), (c_Servers c); try done; injection Hv as Hv; by apply app_nil in Hv as [Hv _]).
  unfold validateTop in Ht. rewrite Hk, bool_decide_eq_true_2 in Ht by done. nils.
  split; intros E; repeat match goal with H : context [String.eqb _ "memory"] |- _ => rewrite E in H; cbn in H end; done.
Qed.

Lemma routing_kek_sealed x ks kek :
  routing_kek x = Ok ks → Options_Bool (b_Options x) "seal_pod_tokens" true = true → Secrets_Env "JUGGERNAUT_KEK" = (kek, true) → kek ≠ "" →
  ∃ key, base64std_DecodeString kek = Some key ∧ length key = 32%nat ∧ ks = (Some key, Some (DeriveMACKey key "routing")).
Proof.
  unfold routing_kek. intros H Hs Hk Hne. rewrite Hs, Hk in H. cbn in H. apply String.eqb_neq in Hne. rewrite Hne in H. cbn in H.
  destruct (base64std_DecodeString kek) as [key|]; [|done]. destruct (Nat.eqb_spec (length key) 32); [|done]. injection H as <-. eauto.
Qed.

(** Names of one kind are known: what a successful build says. *)
Ltac by_type Hc E :=
  let f := fresh "f" in let Hf := fresh "Hf" in
  apply (Build_Ok _ _ _ _ _ Hc) in E as (f & E & Hf);
  unfold Identity_fac, Provision_fac, Routing_fac, Secrets_fac in E;
  repeat (apply elem_of_cons in E as [E|E]; [apply pair_eq in E as [E ->]; revert Hf|]); [..|by apply elem_of_nil in E].

(** A gateway started for Kubernetes from an accepted configuration keeps no session
    state of its own and skips no protection that is configured: routing table and
    user secrets are in Redis, pods come from the sessions namespace, with a key
    encryption key pod tokens are sealed and routing records authenticated (unless
    the table's options turn that off), mutual TLS has the configured trust domain,
    the identity provider is the unauthenticated one only when the configuration
    says so, the admin API exists exactly when a directory is configured, and
    closing reaches the audit sink. *)
Theorem kube_gateway_as_configured rg cfg g :
  all_adapters = Done rg → Validate cfg = Some [] → rt_Kind (g_Runtime (c_Gateway cfg)) = RuntimeKube →
  GatewayFromConfig rg cfg = Done (Ok g) →
  gw_Provisioner g = PKube (n_SessionsNamespace (c_Network cfg)) ∧
  (∃ rc conn maxAge sealer macKey, g_Redis (c_Gateway cfg) = Some rc ∧ rc_Addr conn = rd_Address rc ∧ gw_Table g = TRedis conn maxAge sealer macKey ∧
     ∀ kek, Options_Bool (ro_Options (g_Routing (c_Gateway cfg))) "seal_pod_tokens" true = true →
       Secrets_Env "JUGGERNAUT_KEK" = (kek, true) → kek ≠ "" → is_Some sealer ∧ is_Some macKey) ∧
  gw_SecretStore g ≠ SMemory ∧
  (gw_Identity g = INone → id_Type (c_Identity cfg) = "none") ∧
  (n_PodAuth (c_Network cfg) = "mtls" → ∃ m p, n_MTLS (c_Network cfg) = Some m ∧ gw_PodTLS g = Some p ∧ pt_TrustDomain p = mt_TrustDomain m) ∧
  (gw_Admin g ≠ None ↔ id_KeycloakAdmin (c_Identity cfg) ≠ None) ∧
  CloseSink (gw_Sink g) ∈ gw_close g.
Proof.
  intros Hrg Hv Hk Hg.
  assert (complete rg) as [Ci _ _ Cp Cr _ _ _ Cs] by (destruct all_adapters_complete as (rg' & E & ?); rewrite E in Hrg; by injection Hrg as <-).
  destruct (Validate_kube _ Hv Hk) as [Hr Hs].
  destruct (GatewayFromConfig_inv _ _ _ Hg) as (x & Hb & Ei & _ & Ep & Er & _ & Es & (t & _ & Hcl) & Hm & Ha).
  assert (b_Cfg x = cfg) as Hcfg.
  { revert Hb. unfold base_context. rewrite Hk. destruct NewKubeAccess; [|done]. by intros [= <-]. }
  rewrite Hk in Ep.
  split_and!; [| | | | |done|rewrite Hcl; left].
  - by_type Cp Ep; [|done]. rewrite <- Hcfg. unfold kube_New. destruct (b_Kube x); [|done]. destruct bt_newForConfig; [|done]. by intros [= <-].
  - by_type Cr Er; [by destruct Hr|]. rewrite <- Hcfg. unfold routing_redis_New, redis_connect. cbn [WithOptions b_Cfg b_cx cx_Cfg]. 
    destruct (g_Redis (c_Gateway (b_Cfg x))) as [rc|]; [|done]. destruct (Secrets_Get _) as [pw|]; [|done]. cbn [mbind result_bind].
    destruct (bt_ping _ _ _); [|done]. destruct (routing_kek _) as [[sl mk]|] eqn:Ek; [|done]. intros [= <-].
    do 5 eexists. split_and!; [done| |done|]; [done|]. intros kek Hseal Hkek Hne.
    destruct (routing_kek_sealed _ _ _ Ek Hseal Hkek Hne) as (key & _ & _ & [= -> ->]). split; by eexists.
  - by_type Cs Es; [by destruct Hs|]. unfold secrets_redis_New. destruct (redis_connect _ _); [|done]. by intros [= <-].
  - intros Hn. by_type Ci Ei; rewrite Hn; unfold bearer_introspect_New, bearer_jwt_New; try (destruct (bearer_jwt_init _)); try done.
  - intros Hma. rewrite Hma in Hm. cbn in Hm. destruct Hm as (m & p & Hm & Hp & Hl). exists m, p. split_and!; [done..|].
    revert Hl. unfold LoadPodTLS. destruct (bt_loadKeyPair _ _); [|done]. destruct (bt_readFile _) as [pem|]; [|done]. destruct (negb _); [done|]. by intros [= <-].
Qed.

(** The reaper reads the activity the gateway writes: the controller started from
    the same configuration, with the same secrets, has the gateway's routing table. *)
Lemma reaper_shares_table rg img cfg g ca :
  all_adapters = Done rg → GatewayFromConfig rg cfg = Done (Ok g) → ControllerFromConfig rg img cfg = Done (Ok ca) →
  ca_Table ca = gw_Table g.
Proof.
  intros Hrg Hg Hc.
  assert (complete rg) as [_ _ _ _ Cr _ _ _ _] by (destruct all_adapters_complete as (rg' & E & ?); rewrite E in Hrg; by injection Hrg as <-).
  destruct (GatewayFromConfig_inv _ _ _ Hg) as (x & Hb & _ & _ & _ & Er & _).
  assert (b_Cfg x = cfg) as Hcfg by (revert Hb; unfold base_context; destruct (rt_Kind _), NewKubeAccess; try done; by intros [= <-]).
  revert Hc. unfold ControllerFromConfig. destruct Scheme; [|done]. destruct bt_newManager as [k|]; [|done].
  destruct (build "routing" _) as [tb|] eqn:Et; [|done]. apply build_Ok in Et.
  assert (tb = gw_Table g) as <-.
  { apply (Build_Ok _ _ _ _ _ Cr) in Et as (f & Hf & Et). rewrite (Build_in _ _ _ _ _ Cr Hf) in Er.
    enough (f (WithOptions x (ro_Options (g_Routing (c_Gateway cfg)))) = f (WithOptions (mkBctx (mkContext cfg ∅) (Some k)) (ro_Options (g_Routing (c_Gateway cfg))))) as E
      by (rewrite E, Et in Er; by injection Er).
    unfold Routing_fac in Hf. apply elem_of_cons in Hf as [[_ ->]%pair_eq|Hf]; [done|].
    apply list_elem_of_singleton, pair_eq in Hf as [_ ->]. destruct x as [[xc xo] xk]. cbn in Hcfg. by subst xc. }
  destruct (build "egress" _) as [eg|]; [|done]. destruct (egress_PodEnv eg) as [env dns].
  destruct (String.eqb _ _); [destruct (n_MTLS _); [|done]; destruct (bt_add "pod pki"); [|done]|];
    destruct bt_setup; cbn [mbind result_bind]; try done; destruct (addAll _); cbn [mbind result_bind]; try done; by intros [= <-].
Qed.

(** Whether [gateway.redis.tls] is set changes nothing: the connection is the same. *)
Lemma redis_tls_ignored msg cfg opts k rc b :
  let with_tls b := mkBctx (mkContext (mkConfig (c_APIVersion cfg) (c_Kind cfg) (c_Identity cfg)
    (let g := c_Gateway cfg in mkGateway (g_PublicURL g) (g_Listeners g) (g_AllowInsecureAdmin g) (g_Runtime g) (g_ColdStartBudget g)
       (g_IdleTimeout g) (g_MaxSessionAge g) (g_MaxBodyBytes g) (g_Caps g) (g_Tools g) (g_Routing g)
       (g_UserSecrets g) (Some (mkRedis (rd_Address rc) (rd_PasswordRef rc) (rd_DB rc) (rd_KeyPrefix rc) b)) (g_Audit g) (g_Telemetry g))
    (c_Network cfg) (c_Servers cfg) (c_Authorization cfg)) opts) k in
  redis_connect msg (with_tls b) = redis_connect msg (with_tls (negb b)).
Proof. done. Qed.

(** [Close] runs every closer, the last one made first, whatever the earlier ones
    return, and reports the first error. *)
Definition close_step {C} (run : closer → C → result () * C) (acc : list gerror * C) (c : closer) : list gerror * C :=
  let '(r, w) := run c acc.2 in (acc.1 ++ match r with Err e => [e] | Ok _ => [] end, w).
Definition first_err (errs : list gerror) : result () := match errs with [] => Ok () | e :: _ => Err e end.

Lemma closeLoop_all {C} (run : closer → C → result () * C) cs errs w :
  closeLoop run cs (head errs) w = let '(errs', w') := fold_left (close_step run) cs (errs, w) in (first_err errs', w').
Proof.
  revert errs w. induction cs as [|c cs IH]; intros errs w; cbn [fold_left closeLoop]; [by destruct errs|].
  unfold close_step at 2. cbn [fst snd]. destruct (run c w) as [r w1]. rewrite <- IH. f_equal. by destruct errs, r.
Qed.
Lemma Close_runs_all {C} (run : closer → C → result () * C) g w :
  Close run g w = let '(errs, w') := fold_left (close_step run) (rev (gw_close g)) ([], w) in (first_err errs, w').
Proof. exact (closeLoop_all run (rev (gw_close g)) [] w). Qed.
End App.

(** ** Witnesses *)
Module AppWitness.
(** A host where everything answers. *)
#[local] Instance host0 : Host Z := {|
  h_MkdirAll _ w := (Ok (), w); h_WriteFile _ _ w := (Ok (), w); h_Create _ w := (Ok (), w);
  h_Start _ _ w := (Ok w, w + 1); h_Kill _ w := w; h_docker _ w := (Ok "", w); h_RemoveAll _ w := w;
  h_ReadFile _ _ := Ok ""; h_Getenv _ := "" |}.
#[local] Instance boot0 : Boot := {|
  bt_kubeconfig := Ok (); bt_addTypes _ := Ok (); bt_newClient := Ok (); bt_restMapper := Ok true; bt_newForConfig := Ok (); bt_ping _ _ _ := Ok (); bt_discover _ := Ok (); bt_openFile _ := Ok ();
  bt_loadKeyPair _ _ := Ok (); bt_readFile _ := Ok "pem"; bt_pemCerts _ := true; bt_hkdf k p := k; bt_tracing _ _ := Ok ();
  bt_newManager := Ok true; bt_setup := Ok (); bt_add _ := Ok () |}.
Definition kek0 : string := "QUFBQUFBQUFBQUFBQUFBQUFBQUFBQUFBQUFBQUFBQUE=".
#[local] Instance sec0 : Secrets :=
  {| Secrets_Get := λ _, Ok "pw"; Secrets_Env := StaticSecrets_Env {["JUGGERNAUT_KEK" := kek0]} |}.

(** The sample configuration names no adapter, so the defaults choose them. *)
Lemma sample_selectors : schema_selectors sample_raw.
Proof. split_and!; left. Qed.
Lemma sample_unchecked : unchecked sample_config.
Proof.
  split.
  - intros _. vm_compute. discriminate.
  - intros H. vm_compute in H. discriminate.
  - intros _. vm_compute. by eexists.
  - intros l H. vm_compute in H. discriminate.
  - intros H. destruct H. vm_compute. reflexivity.
Qed.
Lemma sample_validates : Validate sample_config = Some [].
Proof. vm_compute. reflexivity. Qed.

Lemma up0 : host_up 0.
Proof.
  split; try done.
  - intros f. by exists "pem".
  - intros kek H _. vm_compute in H. injection H as <-. vm_compute. reflexivity.
Qed.

Definition started (c : Config) : option (outcome (result (GatewayApp (W:=Z)))) :=
  match all_adapters 0 with Done rg => Some (GatewayFromConfig rg c) | Panic => None end.

Lemma accepted_config_boots_witness :
  match started sample_config with Some (Done (Ok _)) => True | _ => False end.
Proof.
  destruct (all_adapters_complete 0) as (rg & E & _).
  destruct (accepted_config_boots 0 sample_raw rg sample_selectors sample_validates sample_unchecked up0 E) as [g Hg].
  unfold started. rewrite E. change (ApplyDefaults sample_raw) with sample_config in Hg. rewrite Hg. exact I.
Defined.

Lemma kube_gateway_as_configured_witness :
  match started sample_config with
  | Some (Done (Ok g)) => gw_Provisioner g = PKube "juggernaut-sessions" ∧ gw_SecretStore g ≠ SMemory
  | _ => False
  end.
Proof.
  destruct (all_adapters_complete 0) as (rg & E & _).
  destruct (boots 0 sample_raw rg sample_selectors sample_validates sample_unchecked up0 E) as [g Hg].
  change (ApplyDefaults sample_raw) with sample_config in Hg.
  destruct (kube_gateway_as_configured 0 rg sample_config g E sample_validates ltac:(vm_compute; reflexivity) Hg) as (Hp & _ & Hs & _).
  unfold started. rewrite E, Hg. split; [|exact Hs]. rewrite Hp. vm_compute. reflexivity.
Defined.

(** ** What the loader lets through *)

Definition on_identity (f : Config.Identity → Config.Identity) (c : Config) : Config :=
  mkConfig (c_APIVersion c) (c_Kind c) (f (c_Identity c)) (c_Gateway c) (c_Network c) (c_Servers c) (c_Authorization c).
Definition on_gateway (f : Config.Gateway → Config.Gateway) (c : Config) : Config :=
  mkConfig (c_APIVersion c) (c_Kind c) (c_Identity c) (f (c_Gateway c)) (c_Network c) (c_Servers c) (c_Authorization c).
(** Token exchange without a client id. *)
Definition no_client : Config := on_identity (λ id,
  mkIdentity (id_Type id) (id_Options id) (id_Provider id) (id_Issuer id) (id_Audience id) (id_Principal id) (id_AllowRemote id)
    (id_StaticTokenEnv id) (id_Tokens id) (id_JWKSURL id) (id_GroupsClaim id) (id_UsernameClaim id) (id_Scopes id) (id_Introspection id)
    (mkBroker BrokerExchange ∅ "" "" (Some (mkSecretRef "BROKER_SECRET" "")) 0) (id_KeycloakAdmin id)) sample_raw.
Definition set_stores (rt : Runtime) (routing store sink : string) (redis : option Config.Redis) : Config := on_gateway (λ g,
  mkGateway (g_PublicURL g) (g_Listeners g) (g_AllowInsecureAdmin g) rt (g_ColdStartBudget g) (g_IdleTimeout g) (g_MaxSessionAge g)
    (g_MaxBodyBytes g) (g_Caps g) (g_Tools g) (mkRouting routing ∅) (mkUserSecretsGateway (mkRouting store ∅) "" "" "") redis
    (mkAudit sink ∅ "" []) (g_Telemetry g)) sample_raw.
(** User secrets in a Redis that is not configured, with the local runtime. *)
Definition no_redis : Config := set_stores (mkRuntime RuntimeLocal None) "memory" "redis" "stdout" None.
(** An audit file without a path. *)
Definition no_path : Config := set_stores (mkRuntime RuntimeUnset None) "redis" "redis" "file" (Some (mkRedis "redis:6379" None 0 "" true)).

Definition refused (c : Config) : option gerror :=
  match Validate (ApplyDefaults c), started (ApplyDefaults c) with
  | Some [], Some (Done (Err e)) => Some e
  | _, _ => None
  end.

(** Accepted by the schema and by [Validate], and the gateway does not start. *)
Lemma accepted_but_not_bootable :
  (refused no_client = Some (EWrap "broker adapter" (EMsg "identity.broker.clientId is required for exchange"))) ∧
  (refused no_redis = Some (EWrap "secrets adapter" (EMsg "secrets store redis requires gateway.redis"))) ∧
  (refused no_path = Some (EWrap "audit adapter" (EMsg "audit sink file requires gateway.audit.file"))).
Proof. split_and!; vm_compute; reflexivity. Qed.
End AppWitness.
