(* ===== verification/ContractTest.v ===== *)
(** * internal/core/contracts/contracttest: the harness every adapter must pass

    One executable check per contract, in the order of the Go functions: [None]
    when the adapter passes, the message of the first [t.Fatalf] otherwise.  The
    theorems run the checks on the adapters: not on one fresh instance as the Go
    tests do, but from every state in which the test's own keys are unused. *)

From S2P Require Import Prelude GoStd Config Core Fixtures Contracts Context Identity Broker RoutingMemory RoutingRedis Vault Policy LocalProvision Kube Egress Controller Provision.

Local Open Scope Z_scope.

(** [if !ok { t.Fatalf(msg) }], then the rest. *)
Notation "'require' b 'or' msg ; k" := (if (b : bool) then k else Some msg%string)
  (at level 200, b at level 99, msg at level 99, k at level 200).

Definition is_err {A} (r : result A) (target : gerror) : bool :=
  match r with Err e => errors_Is e target | Ok _ => false end.

(** [n, _ := f()]: an error leaves zero. *)
Definition value (r : result Z) : Z := match r with Ok n => n | Err _ => 0 end.

(** ** The checks *)

(** [func RoutingTable]: [tname] is [t.Name()], [idb] the random bytes of the
    session id, [now] the time of the records and [later] of the activity check. *)
Section Table.
Context {T : Type} {tbl : RoutingTable T}.

Definition test_pod (tname : string) (now : Z) : Pod :=
  let key := mkPodKey ("u-" +:+ tname) "jira" in
  mkPod key (PodKey_Name key) "http://10.0.0.1:9000" PhaseReady (now / Second * Second) "" "secret-token-value".
Definition test_session (tname : string) (idb : list Z) (now : Z) : McpSession :=
  mkMcpSession (NewMcpSessionID idb) ("u-" +:+ tname) "jira" (pod_Name (test_pod tname now)) "" "" "" false now.

Definition RoutingTable (tname : string) (idb : list Z) (now later : Z) (t : T) : option string :=
  let key := mkPodKey ("u-" +:+ tname) "jira" in
  let pod := test_pod tname now in
  let sess := test_session tname idb now in
  let '(r, t) := GetPod key t in
  require is_err r ErrNotFound or "GetPod(unknown) must be ErrNotFound";
  let '(r, t) := PutPod pod t in
  require is_ok r or "PutPod";
  let '(got, t) := GetPod key t in
  require match got with
          | Ok g => String.eqb (pod_Name g) (pod_Name pod) && String.eqb (pod_Endpoint g) (pod_Endpoint pod)
                    && String.eqb (pod_PodToken g) (pod_PodToken pod)
          | Err _ => false end or "GetPod round trip";
  let '(r, t) := CountPods (pk_Subject key) "jira" t in
  require match r with Ok (perUser, perType, total) => (1 <=? perUser) && (1 <=? perType) && (1 <=? total) | Err _ => false end or "CountPods";
  let '(r, t) := ListPods (pk_Subject key) t in
  require match r with Ok pods => (length pods =? 1)%nat | Err _ => false end or "ListPods(subject)";
  let '(r, t) := PutSession sess t in
  require is_ok r or "PutSession";
  let '(r, t) := GetSession (ms_ID sess) t in
  require match r with Ok s => String.eqb (ms_PodName s) (pod_Name pod) | Err _ => false end or "GetSession";
  let '(r, t) := Touch (pod_Name pod) now t in
  require is_ok r or "Touch";
  let '(la, t) := LastActive (pod_Name pod) t in
  require match la with Ok a => negb (Minute <? later - a) | Err _ => false end or "LastActive";
  let '(r, t) := InFlight (pod_Name pod) 1 t in
  require Z.eqb (value r) 1 or "InFlight +1";
  let '(r, t) := InFlight (pod_Name pod) (-1) t in
  require Z.eqb (value r) 0 or "InFlight -1";
  let '(r, t) := InFlight (pod_Name pod) (-1) t in
  require Z.eqb (value r) 0 or "InFlight must not go negative";
  let '(r, t) := DeleteSessionsForPod (pod_Name pod) t in
  require is_ok r or "DeleteSessionsForPod";
  let '(r, t) := GetSession (ms_ID sess) t in
  require is_err r ErrNotFound or "session must be gone after DeleteSessionsForPod";
  let '(r, t) := DeletePod key t in
  require is_ok r or "DeletePod";
  let '(r, t) := GetPod key t in
  require is_err r ErrNotFound or "pod must be gone after DeletePod";
  None.
End Table.

(** [func AccessPolicy]: the loop over adjacent server types and the loops over
    the granted types and the configured servers. *)
Fixpoint strictly_sorted (l : list string) : bool :=
  match l with
  | x :: (y :: _) as l' => String.ltb x y && strictly_sorted l'
  | _ => true
  end.
Definition hides_unlisted (pol : AccessPolicy) (g : Grants) (s : Server) : bool :=
  match te_Expose (s_Tools s) with
  | Some ex => negb (String.eqb (ex_Mode ex) "allow") || negb (tr_Visible (Policy_ToolRule g s "definitely-not-listed-tool"))
  | None => true
  end.
Definition names_visible (pol : AccessPolicy) (g : Grants) (s : Server) : bool :=
  let r := Policy_ToolRule g s "x" in negb (tr_Visible r && String.eqb (tr_Name r) "").
Fixpoint check_servers (pol : AccessPolicy) (g : Grants) (servers : list Server) : option string :=
  match servers with
  | [] => None
  | s :: servers =>
      require hides_unlisted pol g s or "allowlist mode must hide unlisted tools";
      require names_visible pol g s or "visible rule must carry a name";
      check_servers pol g servers
  end.
Definition AccessPolicy_ (pol : AccessPolicy) (cfg : Config) (p : Principal) : option string :=
  let g1 := Policy_Grants p "" in
  let g2 := Policy_Grants p "" in
  require String.eqb (gr_Subject g1) (p_Subject p) && (length (gr_Types g1) =? length (gr_Types g2))%nat
    or "Grants must be deterministic and carry the subject";
  require strictly_sorted (gr_Types g1) or "ServerTypes must be sorted and unique";
  require forallb (λ st, bool_decide (is_Some (Config_Server cfg st))) (gr_Types g1) or "grant names unknown server type";
  check_servers pol g1 (c_Servers cfg).

(** [func TokenBroker] *)
Definition bare_server (mode : TokenMode) : Server :=
  {| s_Name := "s"; s_Description := ""; s_Image := ""; s_Transport := TransportStdio; s_Command := []; s_Args := []; s_Env := ∅;
     s_EnvFrom := []; s_HTTP := None; s_Wrapper := mkWrapper (mkRestartPolicy 0 0 0) 0 None 0 0;
     s_Token := mkToken mode "" [] "" "" "" "" None; s_UserSecrets := None; s_Egress := [];
     s_Resources := mkResources (mkResourceList "" "" "") (mkResourceList "" "" "");
     s_RuntimeClassName := ""; s_IdleTimeout := 0; s_MaxSessionAge := 0; s_MaxPods := 0;
     s_Security := mkSecurity false 0 0 None []; s_Tools := mkToolExposure None "" ∅ ∅ |}.
Definition yields_nothing (r : result (option BToken)) : bool := match r with Ok None => true | _ => false end.
Definition TokenBroker_ {B} `{!TokenBroker B} (now : Z) (p : Principal) (b : B) : option string :=
  let '(r, b) := TokenFor now p (bare_server TokenNone) Minute b in
  require yields_nothing r or "token mode none must yield nil, nil";
  let '(r, b) := TokenFor now p (bare_server TokenStatic) Minute b in
  require yields_nothing r or "token mode static must yield nil, nil";
  let '(r, b) := Revoke (p_Subject p) b in
  require is_ok r or "Revoke";
  None.

(** [func Provisioner]; [list] is the adapter's [List]. *)
Definition Provisioner_ {P} `{!Provisioner P} (list : P → result (list PodStatus)) (tname : string) (p : P) : option string :=
  let key := mkPodKey ("nobody-" +:+ tname) "none" in
  let '(r, p) := Prov_Status key p in
  require is_err r ErrNotFound or "Status(unknown) must be ErrNotFound";
  let '(r, p) := Prov_Release key p in
  require is_ok r or "Release(unknown) must be idempotent";
  require is_ok (list p) or "List";
  None.

(** [func UserSecretStore] *)
Definition test_entry (now : Z) : SealedEntry :=
  mkSealedEntry VaultVersion (string_bytes "salt") (mkArgonParams 0 0 0) (string_bytes "w") (string_bytes "n") (string_bytes "c") ["JIRA_API_TOKEN"] now.
Definition UserSecretStore_ {S} `{!UserSecretStore S} (tname : string) (now : Z) (s : S) : option string :=
  let subj := "u-" +:+ tname in
  let e := test_entry now in
  require is_err (Sec_Get subj "jira" s) ErrNotFound or "Get(unknown) must be ErrNotFound";
  let '(r, s) := Sec_Put subj "jira" e s in
  require is_ok r or "Put";
  require match Sec_Get subj "jira" s with
          | Ok got => bool_decide (se_Ciphertext got = string_bytes "c") && (length (se_Names got) =? 1)%nat
          | Err _ => false end or "round trip";
  require match Sec_List subj s with Ok [x] => String.eqb x "jira" | _ => false end or "List";
  let '(r, s) := Sec_Delete subj "jira" s in
  require is_ok r or "Delete";
  require is_err (Sec_Get subj "jira" s) ErrNotFound or "entry must be gone after Delete";
  let s := (Sec_Put subj "a" e s).2 in
  let s := (Sec_Put subj "b" e s).2 in
  let '(r, s) := Sec_DeleteAll subj s in
  require is_ok r or "DeleteAll";
  require match Sec_List subj s with Ok (_ :: _) => false | _ => true end or "DeleteAll left entries";
  None.

(** [func IdentityProvider]; [prm] is the adapter's metadata. *)
Definition IdentityProvider_ (a : IdentityProvider) (prm : option ProtectedResourceMetadata) (good : RequestInfo) (bad : option RequestInfo) : option string :=
  match Resolve good with
  | Err _ => Some "Resolve(good) wants a principal with a subject"
  | Ok p =>
      require negb (String.eqb (p_Subject p) "") or "Resolve(good) wants a principal with a subject";
      require String.eqb (p_Kind p) "user" || String.eqb (p_Kind p) "service" or "principal kind must be user or service";
      require match bad with Some b => is_err (Resolve b) ErrUnauthenticated | None => true end or "Resolve(bad) must wrap ErrUnauthenticated";
      require HasPrefix (Challenge ChallengeInvalidToken "x" "") "Bearer" or "Challenge must start with Bearer";
      require match prm with
              | Some md => negb (String.eqb (prm_Resource md) "" || (length (prm_AuthorizationServers md) =? 0)%nat)
              | None => true end
        or "metadata must name resource and authorization servers";
      None
  end.

(** ** The adapters pass *)

Lemma count_pos (f : Pod → bool) (l : list Pod) p : p ∈ l → f p = true → 1 <=? Z.of_nat (length (List.filter f l)) = true.
Proof.
  intros Hp Hf. apply Z.leb_le. destruct (List.filter f l) as [|x l'] eqn:E; [|cbn; lia].
  assert (In p (List.filter f l)) as Hin by (apply filter_In; split; [by apply list_elem_of_In|done]). by rewrite E in Hin.
Qed.

Lemma one_selected (f : Pod → bool) (ps : gmap PodKey Pod) k p :
  ps !! k = None → f p = true → (∀ k' p', ps !! k' = Some p' → f p' = false) →
  length (List.filter f (map_to_list (<[k := p]> ps)).*2) = 1%nat.
Proof.
  intros Hk Hf Hr. rewrite map_to_list_insert by done. cbn. rewrite Hf. cbn. f_equal.
  destruct (List.filter f (map_to_list ps).*2) as [|x l] eqn:E; [done|].
  assert (In x (List.filter f (map_to_list ps).*2)) as [Hin Hx]%filter_In by (rewrite E; by left).
  apply list_elem_of_In, list_elem_of_fmap in Hin as ([k' p'] & -> & Hin%elem_of_map_to_list). cbn in Hx. by rewrite (Hr _ _ Hin) in Hx.
Qed.

(** The in-process table keeps the contract from every state in which the test's
    user has no pods and its pod no requests in flight. *)
Theorem memory_table_passes tname idb now later (m : Memory.Memory) :
  Memory.ok m → (∀ st, Memory.pods m !! mkPodKey ("u-" +:+ tname) st = None) →
  Memory.inflight m !! pod_Name (test_pod tname now) = None → later - now ≤ Minute →
  RoutingTable tname idb now later m = None.
Proof.
  intros [Hok _] Hfree Hin Hl. assert ("u-" +:+ tname ≠ "") as Hu by done.
  unfold RoutingTable, test_session, test_pod in *. cbn [pod_Name] in *.
  generalize dependent (PodKey_Name (mkPodKey ("u-" +:+ tname) "jira")). intros n Hin. generalize (NewMcpSessionID idb). intros sid.
  generalize dependent ("u-" +:+ tname). intros u Hfree Hu. generalize (now / Second * Second). intros at_.
  cbn [Contracts.GetPod Contracts.PutPod Contracts.CountPods Contracts.ListPods Contracts.PutSession Contracts.GetSession Contracts.Touch
       Contracts.LastActive Contracts.InFlight Contracts.DeleteSessionsForPod Contracts.DeletePod Memory.table].
  set (key := mkPodKey u "jira"). set (pod := mkPod _ _ _ _ _ _ _). set (sess := mkMcpSession _ _ _ _ _ _ _ _ _).
  set (ps := <[key := pod]> (Memory.pods m)).
  assert (pod ∈ (map_to_list ps).*2) as Hmem by (apply list_elem_of_fmap; exists (key, pod); split; [done|apply elem_of_map_to_list, lookup_insert_eq]).
  assert (Memory.pods m !! key = None) as Hj by apply Hfree. unfold Memory.GetPod at 1. rewrite Hj. cbn [is_err]. change (errors_Is ErrNotFound ErrNotFound) with true. cbn match.
  unfold Memory.PutPod. cbn [is_ok]. fold ps. change (pod_Key pod) with key. fold ps.
  unfold Memory.GetPod at 1. cbn [Memory.pods]. unfold ps at 1. rewrite lookup_insert_eq. rewrite !String.eqb_refl. cbn [andb].
  unfold Memory.CountPods, Memory.count_pods. cbn [Memory.pods].
  rewrite (count_pos (λ p, Memory.counted p && String.eqb (pk_Subject (pod_Key p)) (pk_Subject key)) _ pod Hmem) by (cbn; by rewrite String.eqb_refl).
  rewrite (count_pos (λ p, Memory.counted p && String.eqb (pk_ServerType (pod_Key p)) "jira") _ pod Hmem) by done.
  assert ((1 <=? Z.of_nat (size ps)) = true) as -> by (apply Z.leb_le; unfold ps; rewrite map_size_insert_None by done; lia). cbn [andb].
  unfold Memory.ListPods. cbn [Memory.pods]. unfold ps at 1. rewrite one_selected; [|done|cbn; rewrite String.eqb_refl; apply orb_true_r|].
  2:{ intros k' p' Hk'. cbn. apply String.eqb_neq in Hu. rewrite Hu. cbn. apply String.eqb_neq. intros E.
      rewrite (Hok _ _ Hk') in E. destruct k' as [s' st']. cbn in E. subst s'. by rewrite Hfree in Hk'. }
  cbn [Nat.eqb]. unfold Memory.PutSession. cbn [is_ok Memory.pods Memory.sessions Memory.active Memory.inflight].
  unfold Memory.GetSession at 1. cbn [Memory.sessions]. rewrite lookup_insert_eq. cbn [ms_PodName sess]. rewrite String.eqb_refl.
  unfold Memory.Touch. cbn [is_ok Memory.pods Memory.sessions Memory.active Memory.inflight].
  unfold Memory.LastActive. cbn [Memory.active]. rewrite lookup_insert_eq. cbn match.
  assert ((Minute <? later - now) = false) as -> by (apply Z.ltb_ge; lia). cbn [negb].
  unfold Memory.InFlight. cbn [Memory.pods Memory.sessions Memory.active Memory.inflight]. rewrite Hin. cbn [default].
  cbn [value]. rewrite !lookup_insert_eq. cbn [from_option id].
  change (if 0 + 1 <? 0 then 0 else 0 + 1) with 1. change (if 1 + -1 <? 0 then 0 else 1 + -1) with 0. change (if 0 + -1 <? 0 then 0 else 0 + -1) with 0.
  change (1 =? 1) with true. change (0 =? 0) with true. cbn match.
  unfold Memory.DeleteSessionsForPod. cbn [is_ok Memory.pods Memory.sessions Memory.active Memory.inflight].
  unfold Memory.GetSession. cbn [Memory.sessions].
  assert (filter (λ kv : string * McpSession, ms_PodName kv.2 ≠ n) (<[ms_ID sess := sess]> (Memory.sessions m)) !! ms_ID sess = None) as ->.
  { apply map_lookup_filter_None. right. intros x. rewrite lookup_insert_eq. intros [= <-] Hx. by apply Hx. }
  cbn [is_err]. change (errors_Is ErrNotFound ErrNotFound) with true. cbn match.
  unfold Memory.DeletePod. cbn [Memory.pods]. unfold ps. rewrite lookup_insert_eq. cbn [is_ok Memory.pods].
  unfold Memory.GetPod. cbn [Memory.pods]. rewrite lookup_delete_eq. cbn [is_err]. by change (errors_Is ErrNotFound ErrNotFound) with true.
Qed.

Lemma strictly_sorted_NoDup l : StronglySorted String.le l → NoDup l → strictly_sorted l = true.
Proof.
  induction 1 as [|x l Hs IH Hx]; intros Hn; [done|]. apply NoDup_cons in Hn as [Hn Hl]. destruct l as [|y l]; [done|].
  change (String.ltb x y && strictly_sorted (y :: l) = true). rewrite IH by done. rewrite andb_true_r. apply Forall_cons in Hx as [Hx _]. assert (x ≠ y) as Hne by (intros ->; apply Hn; left).
  unfold String.le, String.leb in Hx. unfold String.ltb. destruct (String.compare x y) eqn:E; [|done|done].
  apply String.compare_eq_iff in E. done.
Qed.

Lemma ServerNames_Server c st : st ∈ ServerNames c → is_Some (Config_Server c st).
Proof.
  unfold ServerNames, Config_Server. intros (s & -> & Hs)%list_elem_of_fmap.
  destruct (find _ _) eqn:E; [by eexists|]. eapply find_none_elem in E; [|done]. by rewrite String.eqb_refl in E.
Qed.

(** The groups policy keeps the contract for every configuration and every caller,
    provided no server renames a tool to the empty name and no allowlist lists the
    harness's own probe. *)
Theorem groups_policy_passes c opts p :
  (∀ s, s ∈ c_Servers c → te_Rename (s_Tools s) !! "x" ≠ Some "" ∧
     ∀ ex, te_Expose (s_Tools s) = Some ex → "definitely-not-listed-tool" ∉ ex_Names ex) →
  AccessPolicy_ (groups_policy c opts) c p = None.
Proof.
  intros Hs. unfold AccessPolicy_. cbn [Policy_Grants groups_policy].
  destruct (Grants_fields c opts p "") as (Hsub & Hty & _). rewrite Hsub, String.eqb_refl, Nat.eqb_refl. cbn [andb].
  rewrite Hty, strictly_sorted_NoDup by auto with jug.
  assert (forallb (λ st, bool_decide (is_Some (Config_Server c st))) (sortedUnique (appliedGroups c opts p ≫= λ g, gr_ServerTypes g ≫= entryTypes c)) = true) as ->.
  { apply forallb_forall. intros st Hin%list_elem_of_In. apply bool_decide_eq_true. apply elem_of_sortedUnique in Hin as [Hin _].
    apply list_elem_of_bind in Hin as (g & Hin & _). apply list_elem_of_bind in Hin as (t & Hin & _). apply ServerNames_Server.
    apply elem_of_entryTypes in Hin. naive_solver. }
  induction (c_Servers c) as [|s l IH]; [done|]. cbn [check_servers].
  destruct (Hs s ltac:(left)) as [Hx Hl].
  assert (hides_unlisted (groups_policy c opts) (Adapter_Grants c opts p "") s = true) as ->.
  { unfold hides_unlisted. cbn [Policy_ToolRule groups_policy]. unfold Adapter_ToolRule. destruct (te_Expose (s_Tools s)) as [ex|] eqn:Ee; [|done].
    destruct (String.eqb (ex_Mode ex) "allow"); [|done]. cbn [negb orb].
    destruct (contains (ex_Names ex) _) eqn:Ec; [|done]. apply contains_spec in Ec. by destruct (Hl ex eq_refl). }
  assert (names_visible (groups_policy c opts) (Adapter_Grants c opts p "") s = true) as ->.
  { unfold names_visible. cbn [Policy_ToolRule groups_policy].
    assert (∀ r : ToolRule, r = hidden ∨ r = mkToolRule true (default "x" (te_Rename (s_Tools s) !! "x")) → negb (tr_Visible r && String.eqb (tr_Name r) "") = true) as Hr.
    { intros r [->| ->]; [done|]. cbn. destruct (te_Rename (s_Tools s) !! "x") as [y|] eqn:E; [|done]. cbn.
      destruct (String.eqb_spec y ""); [by subst|done]. }
    apply Hr. unfold Adapter_ToolRule. repeat case_match; auto. }
  apply IH. intros s' Hin. apply Hs. by right.
Qed.

(** The in-process secret store, from every state in which the test's subject has
    no entries. *)
Lemma memory_store_passes tname now (s : SecretsMemory.Store) :
  SecretsMemory.m s !! ("u-" +:+ tname) = None → UserSecretStore_ tname now s = None.
Proof.
  destruct s as [m]. intros Hn. cbn in Hn. unfold UserSecretStore_. set (e := test_entry now). generalize dependent ("u-" +:+ tname). intros u Hu.
  cbn [Sec_Get Sec_Put Sec_List Sec_Delete Sec_DeleteAll SecretsMemory.store].
  unfold SecretsMemory.Get at 1. cbn [SecretsMemory.m]. rewrite Hu. cbn [mbind option_bind is_err].
  change (errors_Is ErrNotFound ErrNotFound) with true. cbn match.
  unfold SecretsMemory.Put at 1. cbn [is_ok SecretsMemory.m]. rewrite Hu. cbn [from_option].
  unfold SecretsMemory.Get at 1. cbn [SecretsMemory.m]. rewrite lookup_insert_eq. cbn [mbind option_bind]. rewrite lookup_insert_eq.
  change (bool_decide (se_Ciphertext e = string_bytes "c") && (length (se_Names e) =? 1)%nat) with true. cbn match.
  unfold SecretsMemory.List_ at 1. cbn [SecretsMemory.m]. rewrite lookup_insert_eq. cbn [from_option id].
  rewrite insert_empty, map_to_list_singleton. cbn [fmap list_fmap fst]. rewrite String.eqb_refl.
  unfold SecretsMemory.Delete at 1. cbn [is_ok SecretsMemory.m]. rewrite lookup_insert_eq, insert_insert_eq, delete_singleton_eq.
  unfold SecretsMemory.Get at 1. cbn [SecretsMemory.m]. rewrite lookup_insert_eq. cbn [mbind option_bind]. rewrite lookup_empty. cbn [is_err].
  change (errors_Is ErrNotFound ErrNotFound) with true. cbn match.
  unfold SecretsMemory.DeleteAll. cbn [is_ok]. unfold SecretsMemory.List_, SecretsMemory.Put. cbn [snd SecretsMemory.m].
  rewrite lookup_delete_eq. cbn [from_option]. by rewrite map_to_list_empty.
Qed.

(** The brokers: none and exchange from every state; the refresh-token broker, which
    the registry offers, breaks the contract at its first check. *)
Lemma none_broker_passes now p : TokenBroker_ now p () = None.
Proof. done. Qed.
Lemma exchange_broker_passes {H} `{!FormClient H, !Secrets} dec cx now p (b : Exchange H) :
  TokenBroker_ (TokenBroker0 := exchange_broker dec cx) now p b = None.
Proof. done. Qed.
Lemma refresh_broker_fails now p : TokenBroker_ (TokenBroker0 := refresh_broker) now p () = Some "token mode none must yield nil, nil".
Proof. done. Qed.

(** The provisioners, when the test's key is unknown and, on Kubernetes, the API
    server answers. *)
Lemma local_provisioner_passes {W} `{!Host W} cfg dir mw now tname (b : LocalBackend W) :
  lb_pods b !! mkPodKey ("nobody-" +:+ tname) "none" = None →
  Provisioner_ (Provisioner0 := local_provisioner cfg dir mw now) (λ b, Ok (local_List b)) tname b = None.
Proof. intros Hb. unfold Provisioner_. cbn. unfold local_Status, local_Release, entry_of. rewrite Hb. done. Qed.

Lemma kube_provisioner_passes {K O} `{!KubeAPI K O, !KubeCreate K} ns now tname (k : K) k' r l :
  let name := PodKey_Name (mkPodKey ("nobody-" +:+ tname) "none") in
  K_getSession name k = Err ErrNotFound → K_deleteSession name k = (r, k') → (r = Ok () ∨ r = Err ErrNotFound) →
  K_listSessions k' = Ok l →
  Provisioner_ (Provisioner0 := kube_provisioner ns now) kube_List tname k = None.
Proof.
  intros name Hg Hd Hr Hl. unfold Provisioner_. cbn. unfold kube_Status, kube_Release, kube_List. fold name. rewrite Hg, Hd. cbn.
  destruct Hr as [-> | ->]; cbn; by rewrite Hl.
Qed.

(** bearer_jwt: every token it accepts, and every request without one. *)
Lemma jwt_provider_passes `{!OIDCVerifier} ff cx now good bad p :
  jwt_Resolve ff cx now good = Ok p → (Bearer bad).2 = false →
  IdentityProvider_ (JWTProvider ff cx now) (jwt_PRM cx) good (Some bad) = None.
Proof.
  intros Hg Hb. unfold IdentityProvider_. cbn [Resolve Challenge JWTProvider]. rewrite Hg.
  assert (p_Subject p ≠ "" ∧ (p_Kind p = "user" ∨ p_Kind p = "service")) as [Hs Hk].
  { revert Hg. unfold jwt_Resolve, Verify. destruct (Bearer good) as [raw []]; [|done]. destruct (oidc_Verify _ _ _) as [tok|]; [|done].
    destruct (_ && _); [done|]. destruct (idt_Claims tok) as [pl|]; [|done]. destruct (FromClaims _ _ _ _) as [q|] eqn:E; [|done]. intros [= <-]. cbn.
    revert E. unfold FromClaims. destruct (String.eqb_spec (or_str (str (map_index pl "sub")) (str (map_index pl "client_id"))) ""); [done|].
    intros [= <-]. cbn. split; [done|]. destruct (_ && _); auto. }
  apply String.eqb_neq in Hs as ->. cbn [negb].
  assert (String.eqb (p_Kind p) "user" || String.eqb (p_Kind p) "service" = true) as -> by (destruct Hk as [-> | ->]; done).
  assert (is_err (jwt_Resolve ff cx now bad) ErrUnauthenticated = true) as ->.
  { unfold jwt_Resolve. destruct (Bearer bad) as [t []]; done. }
  assert (HasPrefix (jwt_Challenge cx ChallengeInvalidToken "x" "") "Bearer" = true) as -> by reflexivity.
  unfold jwt_PRM. cbn. destruct (String.eqb_spec (TrimRightSlash (g_PublicURL (c_Gateway (cx_Cfg cx))) +:+ "/mcp") "") as [E|]; [|done].
  by destruct (TrimRightSlash _) in E.
Qed.

(** ** Witnesses *)
Module ContractWitness.
Import RedisWitness.

Definition id0 : list Z := replicate 16 200.
Lemma memory_table_passes_witness : RoutingTable "TestContract" id0 5000000000 5000000009 Memory.NewMemory = None.
Proof. apply (memory_table_passes "TestContract" id0 5000000000 5000000009 Memory.NewMemory); [apply Memory.ok_NewMemory|done|done|done]. Defined.

(** The Redis adapters on a server that answers, with and without a key. *)
Example redis_table_passes : RoutingTable "TestContract" id0 5000000000 5000000009 r0 = None.
Proof. vm_compute. reflexivity. Qed.
Example redis_table_plain_passes :
  RoutingTable "TestContract" id0 5000000000 5000000009
    (Redis.NewRedis (∅ : gmap string rval) "jug:" (12 * Hour) None None (λ _, replicate 12 5)) = None.
Proof. vm_compute. reflexivity. Qed.

Lemma groups_policy_passes_witness :
  AccessPolicy_ (groups_policy sample_config ∅) sample_config (mkPrincipal "bob" "bob" "user" "" ["platform"] [] "" 0 "" "") = None.
Proof.
  apply (groups_policy_passes sample_config ∅ (mkPrincipal "bob" "bob" "user" "" ["platform"] [] "" 0 "" "")).
  intros s Hs. vm_compute in Hs.
  repeat (apply elem_of_cons in Hs as [->|Hs]; [split; [vm_compute; discriminate|]; intros ex He; vm_compute in He; injection He as <-;
    intros Hn; apply contains_spec in Hn; vm_compute in Hn; discriminate|]).
  by apply elem_of_nil in Hs.
Defined.
Example redis_store_passes : UserSecretStore_ "TestContract" 5 (SecretsRedis.mkStore (∅ : gmap string rval) "jug:") = None.
Proof. vm_compute. reflexivity. Qed.

(** A tool renamed to the empty string, which the configuration accepts, is visible
    without a name. *)
Definition nameless : Config :=
  mkConfig (c_APIVersion sample_raw) (c_Kind sample_raw) (c_Identity sample_raw) (c_Gateway sample_raw) (c_Network sample_raw)
    ((λ s, mkServer (s_Name s) (s_Description s) (s_Image s) (s_Transport s) (s_Command s) (s_Args s) (s_Env s) (s_EnvFrom s) (s_HTTP s) (s_Wrapper s)
        (s_Token s) (s_UserSecrets s) (s_Egress s) (s_Resources s) (s_RuntimeClassName s) (s_IdleTimeout s) (s_MaxSessionAge s) (s_MaxPods s)
        (s_Security s) (mkToolExposure None "" {["x" := ""]} ∅)) <$> c_Servers sample_raw) (c_Authorization sample_raw).
Lemma empty_rename_breaks_contract :
  Validate (ApplyDefaults nameless) = Some [] ∧
  AccessPolicy_ (groups_policy (ApplyDefaults nameless) ∅) (ApplyDefaults nameless)
    (mkPrincipal "bob" "bob" "user" "" ["platform"] [] "" 0 "" "") = Some "visible rule must carry a name".
Proof. split; vm_compute; reflexivity. Qed.
End ContractWitness.
