(* ===== verification/Command.v ===== *)
(** * cmd/juggernaut: the command line

    main.go and secrets.go: flag parsing, the OAuth device login, the subject of
    the access token, and the [secrets] and [connect] commands over the client
    library of Cli.v.  The identity provider's endpoints are an interface; the
    clock is the sleeps of the polling loop plus what else passes. *)

From S2P Require Import Prelude GoStd Sha256 Config Core Fixtures Contracts RoutingMemory RoutingRedis Vault Policy Manager Proxy Gateway Cli.

Local Open Scope Z_scope.

(** ** package flag *)

(** A flag set: its names, and which of them are boolean. *)
Definition flagset := list (string * bool).
Definition flag_kind (fs : flagset) (name : string) : option bool := snd <$> find (λ f, String.eqb f.1 name) fs.

(** [FlagSet.Parse] for string and boolean flags: one or two dashes, [-name=value]
    or [-name value], a boolean flag alone is true, parsing stops at the first
    argument that is not a flag or after [--].  [None] is the error (or the
    request for help) that, with [ExitOnError], ends the process. *)
Fixpoint flag_Parse (fs : flagset) (args : list string) (vals : gmap string string) : option (gmap string string * list string) :=
  match args with
  | [] => Some (vals, [])
  | a :: rest =>
      if (String.length a <? 2)%nat || negb (HasPrefix a "-") then Some (vals, args)
      else if String.eqb a "--" then Some (vals, rest)
      else
        let name := if HasPrefix a "--" then str_drop 2 a else str_drop 1 a in
        if String.eqb name "" || HasPrefix name "-" || HasPrefix name "=" then None
        else
          let '(n, v, has) := Cut name "=" in
          match flag_kind fs n with
          | None => None
          | Some true =>
              if has then if existsb (String.eqb v) ["1"; "t"; "T"; "true"; "TRUE"; "True"; "0"; "f"; "F"; "false"; "FALSE"; "False"]
                          then flag_Parse fs rest (<[n := v]> vals) else None
              else flag_Parse fs rest (<[n := "true"]> vals)
          | Some false =>
              if has then flag_Parse fs rest (<[n := v]> vals)
              else match rest with
                   | [] => None
                   | v :: rest => flag_Parse fs rest (<[n := v]> vals)
                   end
          end
  end.
Definition flag_bool (vals : gmap string string) (name : string) : bool :=
  existsb (String.eqb (default "false" (vals !! name))) ["1"; "t"; "T"; "true"; "TRUE"; "True"].

Example flag_vectors :
  let fs := [("gateway", false); ("no-cache-key", true)] in
  flag_Parse fs ["--gateway=u"; "-no-cache-key"; "jira"; "-x"] ∅ = Some (<["no-cache-key" := "true"]> {["gateway" := "u"]}, ["jira"; "-x"]) ∧
  flag_Parse fs ["-gateway"; "u"; "--"; "-y"] ∅ = Some ({["gateway" := "u"]}, ["-y"]) ∧
  flag_Parse fs ["-nope"] ∅ = None ∧ flag_Parse fs ["-gateway"] ∅ = None.
Proof. split_and!; vm_compute; reflexivity. Qed.

(** ** The device login *)

(** The documents [getJSON] and [postForm] decode. *)
Record discovery := mkDiscovery { di_Device : string; di_Token : string }.
Record deviceCode := mkDeviceCode {
  dv_DeviceCode : string; dv_UserCode : string; dv_VerificationURI : string; dv_VerificationURL : string; dv_Interval : Z; dv_ExpiresIn : Z }.
Record tokenReply := mkTokenReply { tr_AccessToken : string; tr_Error : string }.

(** The identity provider over HTTP; [H] is its state. *)
Class DeviceIdP (H : Type) := {
  idp_discover : string → H → result discovery * H;
  idp_device : string → list (string * string) → H → result deviceCode * H;
  idp_token : string → list (string * string) → H → result tokenReply * H }.

Section Login.
Context {H : Type} {idp : DeviceIdP H}.

Definition token_form (clientID code : string) : list (string * string) :=
  [("grant_type", "urn:ietf:params:oauth:grant-type:device_code"); ("device_code", code); ("client_id", clientID)].

(** The polling loop.  [now] is the clock at the loop's test; a poll sleeps for
    [interval] and takes [extra k] more, [k] counting polls; [None] is out of fuel. *)
Fixpoint pollLoop (fuel : nat) (endpoint clientID code : string) (deadline : Z) (extra : nat → Z) (k : nat) (interval now : Z) (h : H)
    : option (result string * H) :=
  if negb (now <? deadline) then Some (Err (EMsg "device code expired"), h)
  else match fuel with
       | O => None
       | S fuel =>
           match idp_token endpoint (token_form clientID code) h with
           | (Err e, h) => Some (Err e, h)
           | (Ok tok, h) =>
               let next interval := pollLoop fuel endpoint clientID code deadline extra (S k) interval (now + interval + extra k) h in
               if String.eqb (tr_Error tok) "" then
                 if negb (String.eqb (tr_AccessToken tok) "") then Some (Ok (tr_AccessToken tok), h) else next interval
               else if String.eqb (tr_Error tok) "authorization_pending" then next interval
               else if String.eqb (tr_Error tok) "slow_down" then
                 pollLoop fuel endpoint clientID code deadline extra (S k) (interval + 5 * Second) (now + interval + extra k) h
               else Some (Err (EMsg (tr_Error tok)), h)
           end
       end.

(** [func deviceLogin] *)
Definition deviceLogin (fuel : nat) (issuer clientID scope : string) (now : Z) (extra : nat → Z) (h : H) : option (result string * H) :=
  match idp_discover (TrimRight issuer (λ c, Ascii.eqb c "/") +:+ "/.well-known/openid-configuration") h with
  | (Err e, h) => Some (Err e, h)
  | (Ok disc, h) =>
      if String.eqb (di_Device disc) "" then Some (Err (EMsg "issuer does not advertise a device authorization endpoint"), h)
      else match idp_device (di_Device disc) [("client_id", clientID); ("scope", scope)] h with
           | (Err e, h) => Some (Err e, h)
           | (Ok dev, h) =>
               pollLoop fuel (di_Token disc) clientID (dv_DeviceCode dev) (now + dv_ExpiresIn dev * Second) extra 0
                 (Z.max (dv_Interval dev) 5 * Second) now h
           end
  end.

(** ** It ends, with a token the provider issued *)

(** Polls that fit before the deadline: the interval is at least five seconds. *)
Definition polls (left : Z) : nat := Z.to_nat ((left + (5 * Second - 1)) / (5 * Second)).

Lemma polls_pos left : 0 < left → (0 < polls left)%nat.
Proof. intros Hl. unfold polls. enough (1 ≤ (left + (5 * Second - 1)) / (5 * Second)) by lia. apply Z.div_le_lower_bound; unfold Second; lia. Qed.
Lemma polls_mono a b : a ≤ b → (polls a ≤ polls b)%nat.
Proof.
  intros Hab. unfold polls. assert ((a + (5 * Second - 1)) / (5 * Second) ≤ (b + (5 * Second - 1)) / (5 * Second)); [|lia].
  apply Z.div_le_mono; unfold Second; lia.
Qed.
Lemma polls_step left d : 5 * Second ≤ d → (polls (left - d) ≤ polls left - 1)%nat.
Proof.
  intros Hd. unfold polls. assert ((left - d + (5 * Second - 1)) / (5 * Second) ≤ (left + (5 * Second - 1)) / (5 * Second) - 1); [|lia].
  transitivity ((left + (5 * Second - 1) + (-1) * (5 * Second)) / (5 * Second)); [apply Z.div_le_mono; unfold Second in *; lia|].
  rewrite Z.div_add by (unfold Second; lia). lia.
Qed.

Lemma pollLoop_ends fuel endpoint clientID code deadline extra k interval now (h : H) :
  (∀ k, 0 ≤ extra k) → 5 * Second ≤ interval → (polls (deadline - now) ≤ fuel)%nat →
  ∃ r h', pollLoop fuel endpoint clientID code deadline extra k interval now h = Some (r, h') ∧
    ∀ tok, r = Ok tok → tok ≠ "" ∧ ∃ h0, idp_token endpoint (token_form clientID code) h0 = (Ok (mkTokenReply tok ""), h').
Proof.
  intros Hx. revert k interval now h. induction fuel as [|fuel IH]; intros k interval now h Hi Hf; cbn [pollLoop].
  - destruct (Z.ltb_spec now deadline); cbn [negb]; [|eexists _, _; split; [reflexivity|done]].
    pose proof (polls_pos (deadline - now) ltac:(lia)). lia.
  - destruct (Z.ltb_spec now deadline) as [Hd|]; cbn [negb]; [|eexists _, _; split; [reflexivity|done]].
    destruct (idp_token endpoint (token_form clientID code) h) as [[[at_ err]|e] h1] eqn:Et; cbn [tr_Error tr_AccessToken]; [|eexists _, _; split; [reflexivity|done]].
    assert (polls (deadline - (now + interval + extra k)) ≤ fuel)%nat as Hf'.
    { pose proof (polls_step (deadline - now) (interval + extra k)) as Hs. specialize (Hx k).
      replace (deadline - (now + interval + extra k)) with (deadline - now - (interval + extra k)) by lia. lia. }
    destruct (String.eqb_spec err "") as [->|]; [destruct (String.eqb_spec at_ ""); cbn [negb]|].
    + by apply IH.
    + eexists _, _. split; [reflexivity|]. intros tok [= <-]. eauto.
    + destruct (String.eqb_spec err "authorization_pending"); [by apply IH|].
      destruct (String.eqb_spec err "slow_down"); [apply IH; [unfold Second in *; lia|done]|eexists _, _; split; [reflexivity|done]].
Qed.

(** The login ends: a provider whose codes live at most [E] seconds is polled at
    most once per five seconds of that, whatever it answers and however long the
    answers take, and a token that is returned is not empty and is the one the token
    endpoint gave for this client and this device code. *)
Theorem deviceLogin_ends fuel E issuer clientID scope now extra (h : H) :
  (∀ k, 0 ≤ extra k) → (∀ u f h dev h', idp_device u f h = (Ok dev, h') → dv_ExpiresIn dev ≤ E) → (polls (E * Second) ≤ fuel)%nat →
  ∃ r h', deviceLogin fuel issuer clientID scope now extra h = Some (r, h') ∧
    ∀ tok, r = Ok tok → tok ≠ "" ∧ ∃ ep code h0, idp_token ep (token_form clientID code) h0 = (Ok (mkTokenReply tok ""), h').
Proof.
  intros Hx HE Hf. unfold deviceLogin. destruct (idp_discover _ h) as [[disc|e] h1]; [|eexists _, _; split; [reflexivity|done]].
  destruct (String.eqb (di_Device disc) ""); [eexists _, _; split; [reflexivity|done]|].
  destruct (idp_device _ _ h1) as [[dev|e] h2] eqn:Ed; [|eexists _, _; split; [reflexivity|done]].
  edestruct (pollLoop_ends fuel (di_Token disc) clientID (dv_DeviceCode dev) (now + dv_ExpiresIn dev * Second) extra 0
    (Z.max (dv_Interval dev) 5 * Second) now h2) as (r & h' & -> & Hr); [done|unfold Second; lia| |].
  - apply HE in Ed. etrans; [|exact Hf]. apply polls_mono. unfold Second. lia.
  - exists r, h'. split; [done|]. intros tok Ht. destruct (Hr tok Ht) as [? [h0 ?]]. eauto.
Qed.
End Login.

(** ** secrets.go *)

Lemma NoDup_fst_inj {A} (l : list (string * A)) a x y : NoDup l.*1 → (a, x) ∈ l → (a, y) ∈ l → x = y.
Proof.
  induction l as [|[c z] l IH]; intros Hnd Hx Hy; [by apply elem_of_nil in Hx|]. cbn in Hnd. apply NoDup_cons in Hnd as [Hc Hnd].
  apply elem_of_cons in Hx as [[= -> ->]|Hx]; apply elem_of_cons in Hy as [Hy|Hy]; simplify_eq; try done;
    try (exfalso; apply Hc, list_elem_of_fmap; by eexists (_, _)). by apply IH.
Qed.

(** [type claims struct{ Sub string }]: [json.Unmarshal] of a token payload. *)
Class JWTPayload := { jwt_sub : list Z → result string }.

Section Commands.
Context {H : Type} {idp : DeviceIdP H} {jp : JWTPayload}.
Context `{!Argon2, !JSONCodec VaultFile} {aead : AEAD} {jsec : JSONCodec secrets} {V} `{!MeSecrets V}.

(** What a command sees: the environment, the path of the vault file, the clock,
    the random bytes and the delays of the login. *)
Record cenv := mkCenv {
  ce_env : string → string; ce_vaultPath : result string; ce_now : Z; ce_extra : nat → Z; ce_fuel : nat; ce_salt : list Z; ce_rnds : list sealrnd }.

(** The part of [tokenAndSubject] after the login. *)
Definition tokenSubject (tok : string) : result (string * string) :=
  match SplitByte tok "." with
  | [_; payload; _] =>
      match base64url_DecodeString payload with
      | None => Err (EMsg "illegal base64 data")
      | Some b => match jwt_sub b with
                  | Ok sub => if String.eqb sub "" then Err (EMsg "token has no sub claim") else Ok (tok, sub)
                  | Err _ => Err (EMsg "token has no sub claim")
                  end
      end
  | _ => Err (EMsg "token is not a JWT; cannot read the subject")
  end.

(** [func tokenAndSubject] *)
Definition tokenAndSubject (e : cenv) (issuer clientID scope : string) (h : H) : option (result (string * string) * H) :=
  let tok := ce_env e "JUGGERNAUT_ACCESS_TOKEN" in
  if negb (String.eqb tok "") then Some (tokenSubject tok, h)
  else if String.eqb issuer "" then Some (Err (EMsg "--issuer or JUGGERNAUT_ISSUER is required (or set JUGGERNAUT_ACCESS_TOKEN)"), h)
  else match deviceLogin (ce_fuel e) issuer clientID scope (ce_now e) (ce_extra e) h with
       | None => None
       | Some (Err err, h) => Some (Err err, h)
       | Some (Ok tok, h) => Some (tokenSubject tok, h)
       end.

(** The loop over NAME=value of [secrets set]. *)
Fixpoint parseValues (kvs : list string) (values : secrets) : result secrets :=
  match kvs with
  | [] => Ok values
  | kv :: kvs => let '(k, v, ok) := Cut kv "=" in if negb ok then Err (EMsg "expected NAME=value") else parseValues kvs (<[k := v]> values)
  end.

Definition secrets_flags : flagset :=
  [("gateway", false); ("issuer", false); ("client-id", false); ("passphrase", false); ("no-cache-key", true)].

(** The user's machine and the far ends: the files, the gateway's /me/secrets and
    the identity provider. *)
Record cstate := mkCstate { cs_fs : gmap string string; cs_me : V; cs_idp : H }.

(** How a command ends: its error, or the process exits or panics. *)
Inductive cend := CRet (r : result ()) | CExit | CPanic.

(** [g.Delete], the call on /me/secrets/{adapter}. *)
Variable me_Delete : string → V → result () * V.

(** The second switch of [secretsCmd], with the vault, its key and the login done. *)
Definition secretsRun (e : cenv) (sub : string) (rest : list string) (passphrase : string) (noCache : bool) (vault : VaultFile) (key : list Z)
    (subject : string) (s : cstate) : cend * cstate :=
  let with_me v := mkCstate (cs_fs s) v (cs_idp s) in
  if String.eqb sub "set" then
    match rest with
    | adapter :: kv :: kvs =>
        match parseValues (kv :: kvs) ∅ with
        | Err err => (CRet (Err err), s)
        | Ok values =>
            match SetSecrets vault key subject adapter values (default (mkSealrnd [] [] []) (head (ce_rnds e))) (ce_now e) (cs_me s) with
            | Panic => (CPanic, s)
            | Done (r, v) => (CRet r, with_me v)
            end
        end
    | _ => (CRet (Err (EMsg "usage: juggernaut secrets set <adapter> NAME=value [NAME=value ...]")), s)
    end
  else if String.eqb sub "list" then (CRet (match me_List (cs_me s) with Ok _ => Ok () | Err err => Err err end), s)
  else if String.eqb sub "delete" then
    match rest with
    | [adapter] => let '(r, v) := me_Delete adapter (cs_me s) in (CRet r, with_me v)
    | _ => (CRet (Err (EMsg "usage: juggernaut secrets delete <adapter>")), s)
    end
  else if String.eqb sub "rotate" then
    if String.eqb passphrase "" then (CRet (Err (EMsg "--passphrase (the NEW passphrase) is required")), s)
    else
      let old := ce_env e "JUGGERNAUT_VAULT_OLD_PASSPHRASE" in
      let oldKey := if negb (String.eqb old "") then DeriveUserKey old (vf_Salt vault) (vf_Argon vault) else key in
      match Rotate vault oldKey subject passphrase (negb noCache) (ce_salt e) (ce_rnds e) (ce_now e) (cs_me s) with
      | Panic => (CPanic, s)
      | Done (Err err, v) => (CRet (Err err), with_me v)
      | Done (Ok vault', v) =>
          match ce_vaultPath e with
          | Err err => (CRet (Err err), with_me v)
          | Ok p => (CRet (Ok ()), mkCstate (<[p := json_Marshal vault']> (cs_fs s)) v (cs_idp s))
          end
      end
  else (CRet (Err (EMsg "unknown secrets command")), s).

(** [func secretsCmd]; [None] is out of fuel in the login. *)
Definition secretsCmd (e : cenv) (args : list string) (s : cstate) : option (cend * cstate) :=
  match args with
  | [] => Some (CRet (Err (EMsg "usage: juggernaut secrets init|set|list|delete|rotate")), s)
  | sub :: args =>
      match flag_Parse secrets_flags args ∅ with
      | None => Some (CExit, s)
      | Some (vals, rest) =>
          let flag n d := default d (vals !! n) in
          let gatewayURL := flag "gateway" (ce_env e "JUGGERNAUT_GATEWAY") in
          let issuer := flag "issuer" (ce_env e "JUGGERNAUT_ISSUER") in
          let clientID := flag "client-id" "mcp-client" in
          let passphrase := flag "passphrase" (ce_env e "JUGGERNAUT_VAULT_PASSPHRASE") in
          let noCache := flag_bool vals "no-cache-key" in
          if String.eqb sub "init" then
            if String.eqb passphrase "" then Some (CRet (Err (EMsg "--passphrase is required for init")), s)
            else match ce_vaultPath e with
                 | Err err => Some (CRet (Err err), s)
                 | Ok p => let '(r, fs) := InitVault p passphrase (negb noCache) (ce_salt e) (cs_fs s) in
                           Some (CRet (match r with Ok _ => Ok () | Err err => Err err end), mkCstate fs (cs_me s) (cs_idp s))
                 end
          else match (p ← ce_vaultPath e; vault ← LoadVault p (cs_fs s); key ← UserKey vault passphrase; Ok (vault, key)) with
               | Err err => Some (CRet (Err err), s)
               | Ok (vault, key) =>
                   if String.eqb gatewayURL "" then Some (CRet (Err (EMsg "--gateway or JUGGERNAUT_GATEWAY is required")), s)
                   else match tokenAndSubject e issuer clientID "openid juggernaut:mcp" (cs_idp s) with
                        | None => None
                        | Some (Err err, h) => Some (CRet (Err err), mkCstate (cs_fs s) (cs_me s) h)
                        | Some (Ok (tok, subject), h) =>
                            Some (secretsRun e sub rest passphrase noCache vault key subject (mkCstate (cs_fs s) (cs_me s) h))
                        end
               end
      end
  end.

(** [func connectCmd] up to [ListenAndServe]: the address it listens on and the
    companion's token, subject, key and decrypted entries. *)
Definition connect_flags : flagset := [("gateway", false); ("issuer", false); ("client-id", false); ("listen", false); ("passphrase", false)].
Record serving := mkServing { sv_listen : string; sv_token : string; sv_subject : string; sv_key : list Z; sv_plain : gmap string secrets }.

Definition loopback_listen (listen : string) : bool :=
  HasPrefix listen "127.0.0.1:" || HasPrefix listen "localhost:" || HasPrefix listen "[::1]:".

Definition connectCmd (e : cenv) (args : list string) (s : cstate) : option (outcome (result serving)) :=
  match flag_Parse connect_flags args ∅ with
  | None => Some (Done (Err (EMsg "exit")))
  | Some (vals, _) =>
      let flag n d := default d (vals !! n) in
      let gatewayURL := flag "gateway" (ce_env e "JUGGERNAUT_GATEWAY") in
      let listen := flag "listen" "127.0.0.1:8090" in
      if String.eqb gatewayURL "" then Some (Done (Err (EMsg "--gateway or JUGGERNAUT_GATEWAY is required")))
      else if negb (loopback_listen listen) then Some (Done (Err (EMsg "the companion only listens on loopback")))
      else match (p ← ce_vaultPath e; vault ← LoadVault p (cs_fs s); UserKey vault (flag "passphrase" (ce_env e "JUGGERNAUT_VAULT_PASSPHRASE"))) with
           | Err err => Some (Done (Err err))
           | Ok key =>
               match tokenAndSubject e (flag "issuer" (ce_env e "JUGGERNAUT_ISSUER")) (flag "client-id" "mcp-client") "openid juggernaut:mcp" (cs_idp s) with
               | None => None
               | Some (Err err, _) => Some (Done (Err err))
               | Some (Ok (tok, subject), _) =>
                   match Refresh key subject (cs_me s) ∅ with
                   | Panic => Some Panic
                   | Done (Err err, _) => Some (Done (Err err))
                   | Done (Ok _, plain) => Some (Done (Ok (mkServing listen tok subject key plain)))
                   end
               end
           end
  end.

(** ** The vault file and the stored entries stay together *)

Context {laws : MeLaws V}.
(** Deleting an entry adds none. *)
Hypothesis me_Delete_law : ∀ a v v' es, me_ok v → me_List v = Ok es → me_Delete a v = (Ok (), v') →
  me_ok v' ∧ ∃ es', me_List v' = Ok es' ∧ ∀ x, x ∈ es' → x ∈ es.

(** The file at [p] holds [vault], and every entry the gateway lists for the user
    opens under [key]. *)
Record synced (p : string) (vault : VaultFile) (key : list Z) (subject : string) (s : cstate) (es : list (string * option SealedEntry)) : Prop := {
  sy_file : LoadVault p (cs_fs s) = Ok vault;
  sy_version : vf_Version vault = 1;
  sy_ok : me_ok (cs_me s);
  sy_list : me_List (cs_me s) = Ok es;
  sy_open : ∀ a x, (a, x) ∈ es → ∃ secs, OpenEntry key subject a x = Done (Ok secs) }.

(** Enough random bytes for the entries. *)
Definition rnds_ok (e : cenv) (n : nat) : Prop :=
  (n < length (ce_rnds e))%nat ∧ Forall (λ r, length (sr_nonce r) = aead_NonceSize ∧ length (sr_wn r) = aead_NonceSize) (ce_rnds e).

Lemma set_synced p vault key subject a values rnd now (s : cstate) es v' :
  synced p vault key subject s es → length (sr_nonce rnd) = aead_NonceSize → length (sr_wn rnd) = aead_NonceSize →
  SetSecrets vault key subject a values rnd now (cs_me s) = Done (Ok (), v') →
  ∃ es', synced p vault key subject (mkCstate (cs_fs s) v' (cs_idp s)) es'.
Proof.
  intros [Hf Hv Hok Hl Ho] Hn Hw HS. pose proof HS as HS'. unfold SetSecrets in HS'. rewrite Hl in HS'.
  destruct (mergeOld key subject a es ∅) as [[merged|]|]; [|done..]. destruct (SealEntry _ _ _ _ _ _ _ _ _ _) as [sealed|] eqn:Es; [|done].
  injection HS' as Hput. destruct (me_put _ _ _ _ _ Hok Hl Hput) as (Hok' & es' & Hl' & Hin & Hoth). exists es'. split; cbn; try done.
  intros b x Hb. destruct (decide (b = a)) as [->|Hne]; [|apply (Ho b x); by apply Hoth].
  assert (x = Some sealed) as ->.
  { eapply NoDup_fst_inj; [by eapply me_nodup|exact Hb|exact Hin]. }
  eexists. eapply OpenEntry_sealed; [exact Hn|exact Hw|exact Es].
Qed.

Lemma rotate_synced p vault key subject newPass cacheKey newSalt rnds now (s : cstate) es vault' v' :
  synced p vault key subject s es → newPass ≠ "" → (length es < length rnds)%nat →
  Forall (λ r, length (sr_nonce r) = aead_NonceSize ∧ length (sr_wn r) = aead_NonceSize) rnds →
  Rotate vault key subject newPass cacheKey newSalt rnds now (cs_me s) = Done (Ok vault', v') →
  ∃ key' es', UserKey vault' newPass = Ok key' ∧ synced p vault' key' subject (mkCstate (<[p := json_Marshal vault']> (cs_fs s)) v' (cs_idp s)) es'.
Proof.
  intros [Hf Hv Hok Hl Ho] Hp Hlen Hr HR.
  assert (length es ≤ length rnds)%nat as Hle by lia.
  destruct (Rotate_spec _ _ _ _ _ _ _ _ _ _ _ _ Hok Hl Hp Hle Hr Hv HR) as (Hok' & Hv' & es' & k & Hl' & Hk & Hsub & Hall).
  exists k, es'. split; [done|]. split; cbn; try done.
  - unfold LoadVault. rewrite lookup_insert_eq. apply json_roundtrip.
  - intros a x Hx. assert (a ∈ es.*1) as Ha by (apply Hsub, list_elem_of_fmap; by exists (a, x)).
    apply list_elem_of_fmap in Ha as ([a' e] & -> & He). destruct (Hall _ _ He) as (secs & _ & e' & He' & Ho').
    assert (e' = x) as ->; [|by eexists]. cbn in Hx. pose proof (me_nodup _ _ Hok' Hl') as Hnd. by eapply NoDup_fst_inj.
Qed.


Lemma decryptAll_all key subject es fresh :
  (∀ a x, (a, x) ∈ es → ∃ secs, OpenEntry key subject a x = Done (Ok secs)) → NoDup es.*1 → (∀ a, a ∈ es.*1 → fresh !! a = None) →
  ∃ plain, decryptAll key subject es fresh = Done (Ok plain) ∧
    (∀ a x secs, (a, x) ∈ es → OpenEntry key subject a x = Done (Ok secs) → plain !! a = Some secs) ∧
    (∀ a secs, fresh !! a = Some secs → plain !! a = Some secs).
Proof.
  revert fresh. induction es as [|[a x] es IH]; intros fresh Ho Hnd Hf; cbn [decryptAll].
  { exists fresh. split_and!; [done| |done]. intros a x secs Hx. by apply elem_of_nil in Hx. }
  cbn in Hnd. apply NoDup_cons in Hnd as [Ha Hnd]. destruct (Ho a x ltac:(left)) as [vals Hv]. rewrite Hv.
  destruct (IH (<[a := vals]> fresh)) as (plain & -> & H1 & H2); [intros b y Hb; apply (Ho b y); by right|done| |].
  { intros b Hb. rewrite lookup_insert_ne by (intros ->; done). apply Hf. cbn. by right. }
  exists plain. split_and!; [done| |].
  - intros b y secs Hb Hs. apply elem_of_cons in Hb as [[= -> ->]|Hb]; [|by eapply H1]. rewrite Hv in Hs. injection Hs as <-.
    apply H2, lookup_insert_eq.
  - intros b secs Hb. apply H2. rewrite lookup_insert_ne; [done|]. intros ->. by rewrite Hf in Hb by (cbn; left).
Qed.

(** The companion serves what is stored: started with the right key, it comes up on a
    loopback address with every entry of the user decrypted; and it comes up on no
    other address. *)
Theorem connect_serves_entries e args p vault key subject (s : cstate) es r :
  synced p vault key subject s es → connectCmd e args s = Some (Done (Ok r)) → sv_key r = key → sv_subject r = subject →
  loopback_listen (sv_listen r) = true ∧
  ∀ a x secs, (a, x) ∈ es → OpenEntry key subject a x = Done (Ok secs) → sv_plain r !! a = Some secs.
Proof.
  intros [Hf Hv Hok Hl Ho]. unfold connectCmd. destruct (flag_Parse _ _ _) as [[vals rest]|]; [|done]. cbv zeta.
  destruct (String.eqb _ ""); [done|]. destruct (loopback_listen (default "127.0.0.1:8090" (vals !! "listen"))) eqn:Elo; cbn [negb]; [|done].
  destruct (p0 ← ce_vaultPath e; _) as [k|]; [|done]. destruct (tokenAndSubject _ _ _ _ _) as [[[[tok sub]|] h]|]; [|done..].
  unfold Refresh. rewrite Hl. destruct (decryptAll k sub es ∅) as [[plain|]|] eqn:Ed; [|done..]. intros [= <-]. cbn. intros -> ->.
  split; [done|]. intros a x secs Hx Hs. destruct (decryptAll_all key subject es ∅ Ho) as (plain' & Ed' & H1 & _); [by eapply me_nodup|intros; apply lookup_empty|].
  rewrite Ed in Ed'. injection Ed' as <-. by eapply H1.
Qed.
End Commands.

(** ** Witnesses *)
Module CommandWitness.
Import CliWitness.

(** A provider that answers pending twice, then a token. *)
Definition toyidp : Type := nat.
#[local] Instance idp0 : DeviceIdP toyidp := {|
  idp_discover _ h := (Ok (mkDiscovery "https://idp/device" "https://idp/token"), h);
  idp_device _ _ h := (Ok (mkDeviceCode "dc" "UC" "" "https://idp/go" 0 60), h);
  idp_token _ _ h := match h with
                     | O => (Ok (mkTokenReply "a.b.c" ""), O)
                     | S h => (Ok (mkTokenReply "" "authorization_pending"), h)
                     end |}.

Lemma deviceLogin_ends_witness :
  polls (60 * Second) = 12%nat ∧
  ∃ r h', deviceLogin 12 "https://idp/" "cli" "openid" 1000 (λ _, 7) (2%nat : toyidp) = Some (r, h').
Proof.
  assert (polls (60 * Second) = 12%nat) as E by (vm_compute; reflexivity). split; [exact E|].
  destruct (deviceLogin_ends (idp:=idp0) 12 60 "https://idp/" "cli" "openid" 1000 (λ _, 7) 2%nat) as (r & h' & H & _).
  - intros k. discriminate.
  - intros u f h dev h' [= <- _]. discriminate.
  - rewrite E. exact (Nat.le_refl 12).
  - exists r, h'. exact H.
Defined.

(** The user's entries on the gateway. *)
Definition toyme : Type := gmap string SealedEntry.
#[local] Instance me0 : MeSecrets toyme := {|
  me_List v := Ok ((λ ae, (ae.1, Some ae.2)) <$> map_to_list v);
  me_Put a e v := (Ok (), <[a := e]> v) |}.
Definition del0 (a : string) (v : toyme) : result () * toyme := (Ok (), delete a v).

Lemma elem_of_toyme (v : toyme) a x : (a, x) ∈ ((λ ae, (ae.1, Some ae.2)) <$> map_to_list v) ↔ ∃ e, x = Some e ∧ v !! a = Some e.
Proof.
  rewrite list_elem_of_fmap. split.
  - intros ([b e] & [= -> ->] & Hin%elem_of_map_to_list). eauto.
  - intros (e & -> & He). exists (a, e). split; [done|]. by apply elem_of_map_to_list.
Qed.
#[local] Instance me0_laws : MeLaws toyme.
Proof.
  refine {| me_ok := λ _, True |}; cbn.
  - intros v es _ [= <-]. rewrite <- list_fmap_compose. change (fst ∘ _) with (@fst string SealedEntry). apply NoDup_fst_map_to_list.
  - intros a e v v' es _ [= <-] [= <-]. split; [done|]. eexists. split_and!; [reflexivity| |].
    + apply elem_of_toyme. exists e. split; [done|]. apply lookup_insert_eq.
    + intros b x Hb. rewrite !elem_of_toyme. by setoid_rewrite lookup_insert_ne; [|done].
Defined.
Lemma del0_law : ∀ a v v' es, me_ok v → me_List v = Ok es → del0 a v = (Ok (), v') →
  me_ok v' ∧ ∃ es', me_List v' = Ok es' ∧ ∀ x, x ∈ es' → x ∈ es.
Proof.
  cbn. intros a v v' es _ [= <-] [= <-]. split; [done|]. eexists. split; [reflexivity|]. intros [b x]. rewrite !elem_of_toyme.
  intros (e & -> & He). exists e. split; [done|]. by apply lookup_delete_Some in He as [_ He].
Qed.

#[local] Existing Instance argon0.
#[local] Existing Instance jsec0.
#[local] Instance VaultFile_eq_dec : EqDecision VaultFile.
Proof. solve_decision. Defined.
#[local] Program Instance VaultFile_countable : Countable VaultFile :=
  inj_countable' (λ v, (vf_Version v, vf_Subject v, vf_Salt v, ap_Time (vf_Argon v), ap_Memory (vf_Argon v), ap_Threads (vf_Argon v), vf_Key v))
    (λ t, match t with (a, b, c, d1, d2, d3, e) => mkVaultFile a b c (mkArgonParams d1 d2 d3) e end) _.
Next Obligation. by intros [? ? ? [] ?]. Qed.
#[local] Instance VaultFile_codec : JSONCodec VaultFile := countable_codec VaultFile.
(** A token whose payload is the subject itself. *)
#[local] Instance jp0 : JWTPayload := {| jwt_sub b := Ok (bytes_string b) |}.

Definition path0 : string := "/home/bob/.config/juggernaut/vault.json".
Definition token0 : string := "h." +:+ base64url_EncodeToString (string_bytes "bob") +:+ ".s".
Definition env0 (pass old : string) : cenv :=
  mkCenv (λ n, if String.eqb n "JUGGERNAUT_ACCESS_TOKEN" then token0 else if String.eqb n "JUGGERNAUT_GATEWAY" then "https://gw"
               else if String.eqb n "JUGGERNAUT_VAULT_PASSPHRASE" then pass else if String.eqb n "JUGGERNAUT_VAULT_OLD_PASSPHRASE" then old else "")
    (Ok path0) 5 (λ _, 0) 12 [9] [rnd0 3; rnd0 4; rnd0 5].
Notation st0 := (cstate (H:=toyidp) (V:=toyme)).
Definition cmd (pass old : string) (args : list string) (s : st0) : cend * st0 :=
  default (CPanic, s) (secretsCmd del0 (env0 pass old) args s).
Definition ran (pass old : string) (args : list string) (s : st0) : st0 := (cmd pass old args s).2.

(** A vault without a cached key, then two adapters set with the passphrase. *)
Definition s1 : st0 := ran "pw" "" ["init"; "-no-cache-key"] (mkCstate ∅ ∅ 0%nat).
Definition s2 : st0 := ran "pw" "" ["set"; "jira"; "JIRA_TOKEN=t1"] s1.
Definition s3 : st0 := ran "pw" "" ["set"; "github"; "GH=g1"; "GH2=x=y"] s2.
Definition vault1 : VaultFile := mkVaultFile 1 "" [9] DefaultArgon "".
Definition key1 : list Z := DeriveUserKey "pw" [9] DefaultArgon.
Definition es_of_state (s : st0) : list (string * option SealedEntry) := match me_List (cs_me s) with Ok es => es | Err _ => [] end.

Definition opens (key : list Z) (ae : string * option SealedEntry) : bool :=
  match OpenEntry key "bob" ae.1 ae.2 with Done (Ok _) => true | _ => false end.
Lemma synced3 : synced path0 vault1 key1 "bob" s3 (es_of_state s3).
Proof.
  split; [vm_compute; reflexivity|exact eq_refl|exact I|unfold es_of_state; generalize (cs_me s3); reflexivity|].
  assert (forallb (opens key1) (es_of_state s3) = true) as Hall by (vm_compute; reflexivity).
  rewrite forallb_forall in Hall. intros a x Hx%list_elem_of_In. specialize (Hall _ Hx). clear Hx. unfold opens in Hall. cbn [fst snd] in Hall.
  destruct (OpenEntry key1 "bob" a x) as [[secs|]|]; [exists secs; reflexivity|discriminate Hall|discriminate Hall].
Qed.

Definition s4 : st0 := (secretsRun del0 (env0 "new" "pw") "rotate" [] "new" true vault1 key1 "bob" s3).2.


Definition serving0 : option (outcome (result serving)) := connectCmd (env0 "pw" "") [] s3.
Definition up0 : serving := match serving0 with Some (Done (Ok r)) => r | _ => mkServing "" "" "" [] ∅ end.
Lemma connect_serves_entries_witness : loopback_listen (sv_listen up0) = true ∧ sv_listen up0 = "127.0.0.1:8090".
Proof.
  assert (connectCmd (env0 "pw" "") [] s3 = Some (Done (Ok up0))) as E by (vm_compute; reflexivity).
  split; [|vm_compute; reflexivity].
  exact (proj1 (connect_serves_entries (env0 "pw" "") [] path0 vault1 key1 "bob" s3 (es_of_state s3) up0 synced3 E
    ltac:(vm_compute; reflexivity) ltac:(vm_compute; reflexivity))).
Defined.

(** A mistyped passphrase: nothing checks it, so a new adapter is sealed under a
    key that is not the vault's, and from then on the companion does not start with
    the right passphrase. *)
Lemma mistyped_passphrase_splits_vault :
  (cmd "pwx" "" ["set"; "slack"; "S=1"] s3).1 = CRet (Ok ()) ∧
  match connectCmd (env0 "pw" "") [] (ran "pwx" "" ["set"; "slack"; "S=1"] s3) with Some (Done (Err _)) => True | _ => False end.
Proof. split; [vm_compute; reflexivity|vm_compute; exact I]. Qed.

(** A rotation without a cached key takes the new passphrase for the old one. *)
Lemma rotate_uncached_fails :
  match (cmd "new" "" ["rotate"] s3).1 with CRet (Err _) => True | _ => False end ∧
  (cmd "new" "pw" ["rotate"] s3).1 = CRet (Ok ()).
Proof. split; [vm_compute; exact I|vm_compute; reflexivity]. Qed.
End CommandWitness.
