(* ===== verification/Programs.v ===== *)
(** * cmd/: the main functions

    [main] of the operator CLI (cmd/juggernaut/main.go) with the commands of
    Command.v under it, of the wrapper (with [installSelf]) and of the controller.
    A program is what it prints and its exit code, or that it goes on serving.
    The gateway's and the egress proxy's are in Listen.v. *)

From S2P Require Import Prelude GoStd NetIP Config Core Fixtures Contracts Context RoutingMemory Vault Gateway Cli Wrapper WrapperServer.
From S2P Require Import LocalProvision Controller AppRoot Command.

Local Open Scope Z_scope.

(** [func envOr] *)
Definition envOr (getenv : string → string) (k def : string) : string := if String.eqb (getenv k) "" then def else getenv k.

(** ** juggernaut *)

(** What is printed on the standard output: text, the configuration as JSON, the
    schema file, the adapters by kind. *)
Inductive out := OText (s : string) | OConfig (c : Config) | OSchema | OAdapters (l : list (string * list string)).

(** How the process ends: with a code, in package flag (0 for help, 2 for an error),
    not at all, or with a panic. *)
Inductive mend := MExit (code : Z) (stdout : list out) (stderr : list string) | MFlags | MServes (sv : serving) | MPanics.

Definition usage : mend := MExit 2 [] ["usage: juggernaut <command>"].
Definition file_flags : flagset := [("f", false)].
Definition login_flags : flagset := [("issuer", false); ("client-id", false); ("scope", false)].

Section Juggernaut.
Context {H : Type} {idp : DeviceIdP H} {jp : JWTPayload}.
Context `{!Argon2, !JSONCodec VaultFile} {aead : AEAD} {jsec : JSONCodec secrets} {V} `{!MeSecrets V}.
Context {W : Type} {host : Host W} {boot : Boot} {sec : Secrets}.
Variables (me_Delete : string → V → result () * V) (load : string → result Loaded) (rg : registries (W:=W)) (version : string).
Notation C := (cstate (H:=H) (V:=V)).

(** [validate] and [render]: both load the file first. *)
Definition with_file (args : list string) (k : string → Loaded → list out) : mend :=
  match flag_Parse file_flags args ∅ with
  | None => MFlags
  | Some (vals, _) =>
      let file := default "juggernaut.yaml" (vals !! "f") in
      match load file with
      | Err e => MExit 1 [] ["INVALID:"]
      | Ok l => MExit 0 (k file l) []
      end
  end.
Definition validate_line (file : string) (l : Loaded) : string :=
  "OK " +:+ file +:+ " (hash " +:+ ld_Hash l +:+ "): " +:+ Itoa (Z.of_nat (length (c_Servers (ld_Config l)))) +:+ " server types, "
  +:+ Itoa (Z.of_nat (length (az_Groups (c_Authorization (ld_Config l))))) +:+ " groups".

(** [func main]: [None] is out of fuel in a login. *)
Definition juggernaut_main (e : cenv) (args : list string) (s : C) : option (mend * C) :=
  match args with
  | [] => Some (usage, s)
  | cmd :: args =>
      if String.eqb cmd "validate" then Some (with_file args (λ f l, [OText (validate_line f l)]), s)
      else if String.eqb cmd "render" then Some (with_file args (λ _ l, [OConfig (ld_Config l)]), s)
      else if String.eqb cmd "schema" then Some (MExit 0 [OSchema] [], s)
      else if String.eqb cmd "adapters" then Some (MExit 0 [OAdapters (cmd_adapters rg)] [], s)
      else if String.eqb cmd "version" then Some (MExit 0 [OText version] [], s)
      else if String.eqb cmd "config" then Some (MExit 0 [] ["config migrate: nothing to migrate for " +:+ APIVersion], s)
      else if String.eqb cmd "secrets" then
        match secretsCmd me_Delete e args s with
        | None => None
        | Some (CRet (Ok _), s) => Some (MExit 0 [] [], s)
        | Some (CRet (Err _), s) => Some (MExit 1 [] ["error:"], s)
        | Some (CExit, s) => Some (MFlags, s)
        | Some (CPanic, s) => Some (MPanics, s)
        end
      else if String.eqb cmd "connect" then
        match flag_Parse connect_flags args ∅, connectCmd e args s with
        | None, _ => Some (MFlags, s)
        | _, None => None
        | _, Some Panic => Some (MPanics, s)
        | _, Some (Done (Err _)) => Some (MExit 1 [] ["error:"], s)
        | _, Some (Done (Ok sv)) => Some (MServes sv, s)
        end
      else if String.eqb cmd "admin" then
        match args with
        | sub :: args =>
            if negb (String.eqb sub "login") then Some (usage, s)
            else
              match flag_Parse login_flags args ∅ with
              | None => Some (MFlags, s)
              | Some (vals, _) =>
                  let flag n d := default d (vals !! n) in
                  let issuer := flag "issuer" (ce_env e "JUGGERNAUT_ISSUER") in
                  if String.eqb issuer "" then Some (MExit 2 [] ["--issuer or JUGGERNAUT_ISSUER is required"], s)
                  else
                    match deviceLogin (ce_fuel e) issuer (flag "client-id" "juggernaut-admin-ui")
                            (flag "scope" "openid profile juggernaut:users.admin") (ce_now e) (ce_extra e) (cs_idp s) with
                    | None => None
                    | Some (Err _, h) => Some (MExit 1 [] ["login failed:"], mkCstate (cs_fs s) (cs_me s) h)
                    | Some (Ok tok, h) => Some (MExit 0 [OText tok] [], mkCstate (cs_fs s) (cs_me s) h)
                    end
              end
        | [] => Some (usage, s)
        end
      else Some (usage, s)
  end.

(** [juggernaut validate] is a check a pipeline can rely on: it exits with 0 exactly when
    the file loads, changes nothing, and prints the hash the gateway reports. *)
Lemma validate_exit_code e file (s : C) :
  juggernaut_main e ["validate"; "-f"; file] s =
  Some (match load file with Ok l => MExit 0 [OText (validate_line file l)] [] | Err _ => MExit 1 [] ["INVALID:"] end, s).
Proof.
  unfold juggernaut_main, with_file. cbn [String.eqb Ascii.eqb Bool.eqb andb].
  assert (flag_Parse file_flags ["-f"; file] ∅ = Some ({["f" := file]}, [])) as -> by done.
  rewrite lookup_singleton_eq. change (default "juggernaut.yaml" (Some file)) with file. by destruct (load file).
Qed.

(** The token of [admin login] is all that is printed, so that it can be substituted
    into a command line; every failure leaves the standard output empty. *)
Lemma login_prints_token e args (s s' : C) code stdout stderr :
  juggernaut_main e ("admin" :: args) s = Some (MExit code stdout stderr, s') →
  (code = 0 ∧ ∃ tok, stdout = [OText tok] ∧ stderr = []) ∨ (code ≠ 0 ∧ stdout = []).
Proof.
  unfold juggernaut_main. cbn [String.eqb Ascii.eqb Bool.eqb andb]. unfold usage.
  destruct args as [|sub args]; [intros [= <- <- <- <-]; right; split; [lia|done]|]. destruct (negb _); [intros [= <- <- <- <-]; by right|].
  destruct (flag_Parse login_flags args ∅) as [[vals rest]|]; [|done].
  destruct (String.eqb _ _); [intros [= <- <- <- <-]; right; split; [lia|done]|].
  destruct (deviceLogin _ _ _ _ _ _ _) as [[[tok|err] h]|]; [..|done]; intros [= <- <- <- <-]; [left; eauto|right; split; [lia|done]].
Qed.
End Juggernaut.

(** ** juggernaut-wrapper *)

(** The file system of the pod: contents of files, and what fails. *)
Record fsys := mkFsys { fy_files : gmap string string; fy_mkdir : string → bool; fy_open : string → bool; fy_copied : option nat }.
Definition set_file (p c : string) (f : fsys) : fsys := mkFsys (<[p := c]> (fy_files f)) (fy_mkdir f) (fy_open f) (fy_copied f).

(** [func installSelf]: [self] is [os.Executable], [dir] is [filepath.Dir dst], and a copy
    that fails after [n] bytes leaves them in the file. *)
Definition installSelf (self : result string) (dir dst : string) (f : fsys) : result () * fsys :=
  match self with
  | Err e => (Err e, f)
  | Ok self =>
      match fy_files f !! self with
      | None => (Err (EMsg "open"), f)
      | Some bin =>
          if negb (fy_mkdir f dir) then (Err (EMsg "mkdir"), f)
          else if negb (fy_open f dst) then (Err (EMsg "open"), f)
          else match fy_copied f with
               | Some n => (Err (EMsg "copy"), set_file dst (str_take n bin) f)
               | None => (Ok (), set_file dst bin f)
               end
      end
  end.

(** A successful install puts the running binary at the path and touches nothing else. *)
Lemma installSelf_ok self dir dst f f' :
  installSelf (Ok self) dir dst f = (Ok (), f') →
  fy_files f' !! dst = fy_files f !! self ∧ (∀ p, p ≠ dst → fy_files f' !! p = fy_files f !! p) ∧ is_Some (fy_files f !! self).
Proof.
  unfold installSelf. destruct (fy_files f !! self) as [bin|] eqn:Es; [|done]. destruct (negb _); [done|]. destruct (negb _); [done|].
  destruct (fy_copied f); [done|]. intros [= <-]. cbn. rewrite lookup_insert_eq. split_and!; [done| |by eexists].
  intros p Hp. by rewrite lookup_insert_ne.
Qed.

(** [func ReadConfig] of wrapper/config.go *)
Definition ReadConfig {jw : JSONCodec WConfig} (readFile : string → result string) (path : string) : result WConfig :=
  b ← readFile path; json_Unmarshal b.
(** [func (c *Config) WriteFile]: the provisioner's side of it. *)
Definition WriteFile {jw : JSONCodec WConfig} (c : WConfig) (path : string) (files : gmap string string) : gmap string string :=
  <[path := json_Marshal c]> files.

Lemma ReadConfig_WriteFile {jw : JSONCodec WConfig} c path files :
  ReadConfig (λ p, match WriteFile c path files !! p with Some b => Ok b | None => Err (EMsg "open") end) path = Ok c.
Proof. unfold ReadConfig, WriteFile. rewrite lookup_insert_eq. cbn. apply json_roundtrip. Qed.

Section WrapperMain.
Context {P} `{!ChildRPC P} {nb : NaclBox} {jsec : JSONCodec secrets} {jw : JSONCodec WConfig}.

(** [func main]: the exit code; [run] is [srv.Run]. *)
Definition wrapper_main (getenv : string → string) (args : list string) (self : result string) (dirOf : string → string)
    (readFile : string → result string) (keys : result (list Z * list Z)) (run : WServer P → result ()) (p : P) (f : fsys) : option Z * fsys :=
  match flag_Parse [("config", false); ("install", false)] args ∅ with
  | None => (None, f)
  | Some (vals, _) =>
      let cfgPath := default (envOr getenv "JUGGERNAUT_WRAPPER_CONFIG" "/etc/juggernaut/wrapper.json") (vals !! "config") in
      let install := default "" (vals !! "install") in
      if negb (String.eqb install "") then
        match installSelf self (dirOf install) install f with
        | (Err _, f) => (Some 1, f)
        | (Ok _, f) => (Some 0, f)
        end
      else
        match ReadConfig readFile cfgPath with
        | Err _ => (Some 2, f)
        | Ok cfg =>
            match NewServer readFile keys cfg p with
            | Err _ => (Some 2, f)
            | Ok srv => (Some (match run srv with Ok _ => 0 | Err _ => 1 end), f)
            end
        end
  end.
End WrapperMain.

(** ** juggernaut-controller *)

(** [func main] after the flags: the exit code; [start] is [mgr.Start], 2 a panic. *)
Definition controller_main {W : Type} {host : Host W} {boot : Boot} {sec : Secrets} (load : string → result Loaded)
    (rg : registries (W:=W)) (getenv : string → string) (vals : gmap string string) (start : ControllerApp → result ()) : Z :=
  let cfgPath := default (envOr getenv "JUGGERNAUT_CONFIG" "/etc/juggernaut/juggernaut.yaml") (vals !! "config") in
  let wrapperImage := default (envOr getenv "JUGGERNAUT_WRAPPER_IMAGE" "") (vals !! "wrapper-image") in
  match NewStore load cfgPath with
  | Err _ => 1
  | Ok store =>
      match ControllerFromConfig rg wrapperImage (ld_Config (Store_Get store)) with
      | Panic => 2
      | Done (Err _) => 1
      | Done (Ok app) => match start app with Ok _ => 0 | Err _ => 1 end
      end
  end.
