(* ===== verification/Listen.v ===== *)
(** * The listeners of the gateway and of the wrapper

    [Run] of gateway/server.go with its three listeners, [Run] and [serverTLS] of
    wrapper/server.go, and the main functions around them.  crypto/tls and
    net/http are modelled as far as the code uses them: the handshake with client
    certificates, [ListenAndServe], [ListenAndServeTLS] and [ServeMux].  Files and
    sockets are the class [ListenEnv]; certificates are those of Pki.v. *)

From stdpp Require Import functions.
From S2P Require Import Prelude GoStd NetIP Config Core Fixtures Contracts Context LocalProvision Proxy Wrapper WrapperServer Egress Controller Pki AppRoot.

Local Open Scope Z_scope.

(** ** net/http: the mux *)

Definition cleanPath (p : string) : string :=
  if String.eqb p "" then "/"
  else
    let p := if HasPrefix p "/" then p else "/" +:+ p in
    let np := path_Clean p in
    if HasSuffix p "/" && negb (String.eqb np "/") then np +:+ "/" else np.

Inductive mux_out (H : Type) := MHandler (h : H) | MRedirect (path : string) | MNotFound.
Arguments MHandler {H}. Arguments MRedirect {H}. Arguments MNotFound {H}.

(** A pattern that ends in a slash matches its subtree; the longest wins. *)
Definition pat_match (path pat : string) : bool :=
  if HasSuffix pat "/" then HasPrefix path pat else String.eqb path pat.
Definition mux_best {H} (pats : list (string * H)) (path : string) : option (string * H) :=
  fold_right (λ p best, if pat_match path p.1 then
                          match best with
                          | Some q => if (String.length q.1 <? String.length p.1)%nat then Some p else best
                          | None => Some p
                          end
                        else best) None pats.
(** [func (mux *ServeMux) findHandler], on the escaped path: an unregistered
    path whose subtree is registered redirects there, and so does a path that is
    not clean. *)
Definition ServeMux {H} (pats : list (string * H)) (method path : string) : mux_out H :=
  let p := if String.eqb method "CONNECT" then path else cleanPath path in
  if negb (existsb (λ q, String.eqb q.1 p) pats) && negb (HasSuffix p "/") && existsb (λ q, String.eqb q.1 (p +:+ "/")) pats
  then MRedirect (p +:+ "/")
  else if negb (String.eqb p path) then MRedirect p
  else match mux_best pats p with Some (_, h) => MHandler h | None => MNotFound end.

Example cleanPath_vectors :
  cleanPath "" = "/" ∧ cleanPath "//admin/" = "/admin/" ∧ cleanPath "/a/../admin" = "/admin" ∧ cleanPath "/.." = "/".
Proof. vm_compute. done. Qed.

(** ** crypto/tls *)

Inductive ClientAuthType := NoClientCert | RequireAndVerifyClientCert.
Definition VersionTLS13 : Z := 772.

(** The fields of [tls.Config] the code sets.  Zero [MinVersion] is TLS 1.2. *)
Record TLSConfig `{!X509Lib} := mkTLSConfig {
  tc_MinVersion : Z; tc_Certificates : list string; tc_ClientAuth : ClientAuthType; tc_ClientCAs : list Cert;
  tc_VerifyPeer : option (list (list Cert) → result ()) }.

Class ListenEnv `{!X509Lib} := {
  le_listen : string → result ();                    (* net.Listen, by address *)
  le_readFile : string → result string;
  le_keyPair : string → string → result string;      (* tls.LoadX509KeyPair: certificate file, key file *)
  le_pemCerts : string → list Cert }.                (* the certificates AppendCertsFromPEM finds *)

Section Listen.
Context {x509 : X509Lib} {env : ListenEnv}.

Definition empty_tls : TLSConfig := mkTLSConfig _ 0 [] NoClientCert [] None.

Fixpoint parse_certs (raws : list string) : option (list Cert) :=
  match raws with
  | [] => Some []
  | r :: raws => match ParseCertificate r, parse_certs raws with Ok c, Some cs => Some (c :: cs) | _, _ => None end
  end.

(** The server's side of a handshake with a client that sends [peer], leaf
    first: the verified chain, of which the code reads the leaf. *)
Definition handshake (now : Z) (tc : TLSConfig) (peer : list string) : result (list Cert) :=
  match tc_ClientAuth tc with
  | NoClientCert => Ok []
  | RequireAndVerifyClientCert =>
      match parse_certs peer with
      | None => Err (EMsg "tls: failed to parse client certificate")
      | Some [] => Err (EMsg "tls: client didn't provide a certificate")
      | Some (leaf :: inter) =>
          match List.find (λ root, cert_Verify root inter ExtKeyUsageClientAuth now leaf) (tc_ClientCAs tc) with
          | None => Err (EMsg "tls: failed to verify certificate")
          | Some root =>
              match tc_VerifyPeer tc with
              | None => Ok [leaf; root]
              | Some f => match f [[leaf; root]] with Ok _ => Ok [leaf; root] | Err e => Err e end
              end
          end
      end
  end.

(** [type http.Server struct] and a socket it serves. *)
Record httpServer (H : Type) := mkHttpServer { hs_Addr : string; hs_Handler : H; hs_TLS : option TLSConfig }.
Arguments mkHttpServer {H}. Arguments hs_Addr {H}. Arguments hs_Handler {H}. Arguments hs_TLS {H}.
Record socket (H : Type) := mkSocket { sk_Handler : H; sk_TLS : option TLSConfig }.
Arguments mkSocket {H}. Arguments sk_Handler {H}. Arguments sk_TLS {H}.

(** [ListenAndServe] and [ListenAndServeTLS] up to accepting connections: the
    files are loaded unless the configuration has certificates and none is named. *)
Definition ListenAndServe {H} (srv : httpServer H) : result (socket H) :=
  _ ← le_listen (or_str (hs_Addr srv) ":http"); Ok (mkSocket (hs_Handler srv) None).
Definition ListenAndServeTLS {H} (certFile keyFile : string) (srv : httpServer H) : result (socket H) :=
  _ ← le_listen (or_str (hs_Addr srv) ":https");
  let c := default empty_tls (hs_TLS srv) in
  if bool_decide (tc_Certificates c = []) || negb (String.eqb certFile "") || negb (String.eqb keyFile "") then
    cert ← le_keyPair certFile keyFile;
    Ok (mkSocket (hs_Handler srv)
          (Some (mkTLSConfig _ (tc_MinVersion c) [cert] (tc_ClientAuth c) (tc_ClientCAs c) (tc_VerifyPeer c))))
  else Ok (mkSocket (hs_Handler srv) (Some c)).

(** A connection to a socket: the verified chain, empty without TLS. *)
Definition connect {H} (now : Z) (s : socket H) (peer : list string) : result (list Cert) :=
  match sk_TLS s with None => Ok [] | Some tc => handshake now tc peer end.

(** ** Serving until the context ends

    [Run] of both programs starts one goroutine per server and waits for the
    context or for the first error on a buffered channel.  [serve n] is what
    starting server [n] gives; [quiet e] says that the goroutine does not report
    [e]. *)
Section Run.
Context {N : Type} `{!EqDecision N} {L : Type}.
Variables (names : list N) (serve : N → result L) (quiet : gerror → bool).

Definition ErrServerClosed : gerror := EMsg "http: Server closed".
Inductive gor := GIdle | GUp (l : L) | GEnded.
Record rstate := mkRstate { rs_go : N → gor; rs_errc : list gerror; rs_result : option (result ()) }.
Definition rs_init : rstate := mkRstate (λ _, GIdle) [] None.

(** A goroutine starts; its server stops with an error; the context is done; an
    error is received. *)
Inductive revent := EvServe (n : N) | EvFail (n : N) (e : gerror) | EvCancel | EvRecv.

Definition finish (n : N) (e : gerror) (s : rstate) : rstate :=
  mkRstate (<[n := GEnded]> (rs_go s)) (if quiet e then rs_errc s else rs_errc s ++ [e]) (rs_result s).
(** [Shutdown] of server [n] ends its goroutine with [ErrServerClosed]. *)
Definition shutdown (s : rstate) (n : N) : rstate :=
  match rs_go s n with GEnded => s | _ => finish n ErrServerClosed s end.

Definition rstep (s : rstate) (ev : revent) : rstate :=
  match ev with
  | EvServe n =>
      match rs_go s n with
      | GIdle => match serve n with
                 | Ok l => mkRstate (<[n := GUp l]> (rs_go s)) (rs_errc s) (rs_result s)
                 | Err e => finish n e s
                 end
      | _ => s
      end
  | EvFail n e => match rs_go s n with GUp _ => finish n e s | _ => s end
  | EvCancel =>
      match rs_result s with
      | Some _ => s
      | None => let s := fold_left shutdown names s in mkRstate (rs_go s) (rs_errc s) (Some (Ok ()))
      end
  | EvRecv =>
      match rs_result s, rs_errc s with
      | None, e :: errc => mkRstate (rs_go s) errc (Some (Err e))
      | _, _ => s
      end
  end.
Definition rrun (evs : list revent) : rstate := fold_left rstep evs rs_init.
End Run.
Arguments GIdle {L}. Arguments GUp {L}. Arguments GEnded {L}.

(** ** gateway/server.go *)

Inductive lname := LData | LAdmin | LMetrics.
#[global] Instance lname_eq : EqDecision lname.
Proof. solve_decision. Defined.
Definition lname_string (n : lname) : string := match n with LData => "data" | LAdmin => "admin" | LMetrics => "metrics" end.

(** What answers a request: the router of the data plane, the handlers of
    [type Hooks struct], or the page that says the admin UI is off. *)
Inductive ghandler := HRouter | HAdminHandler | HMetricsHandler | HAdminDisabled.
(** [type Hooks struct], as to which handlers are set. *)
Record Hooks := mkHooks { hk_Admin : bool; hk_Metrics : bool }.

(** [func (s *Server) adminMux()] and [func (s *Server) metricsMux()] *)
Definition adminMux (hk : Hooks) : list (string * ghandler) :=
  if hk_Admin hk then [("/admin/", HAdminHandler); ("/admin", HAdminHandler)] else [("/admin/", HAdminDisabled)].
Definition metricsMux (hk : Hooks) : list (string * ghandler) :=
  if hk_Metrics hk then [("/metrics", HMetricsHandler)] else [].

(** [func clientCATLS] *)
Definition clientCATLS (caFile : string) : result TLSConfig :=
  pem ← le_readFile caFile;
  match le_pemCerts pem with
  | [] => Err (EMsg "clientCAFile holds no certificates")
  | pool => Ok (mkTLSConfig _ VersionTLS13 [] RequireAndVerifyClientCert pool None)
  end.

(** The closure [serve] of [Run] *)
Definition gw_serve {H} (name : string) (srv : httpServer H) (l : Listener) : result (socket H) :=
  match l_TLS l with
  | None => ListenAndServe srv
  | Some t =>
      if negb (String.eqb (ltls_ClientCAFile t) "") then
        match clientCATLS (ltls_ClientCAFile t) with
        | Err e => Err (EWrap ("listener " +:+ name) e)
        | Ok tc => ListenAndServeTLS (ltls_CertFile t) (ltls_KeyFile t) (mkHttpServer (hs_Addr srv) (hs_Handler srv) (Some tc))
        end
      else ListenAndServeTLS (ltls_CertFile t) (ltls_KeyFile t) srv
  end.

(** [func (s *Server) Run(ctx)]: the three servers, by the mux each is given. *)
Definition listener (cfg : Config) (n : lname) : Listener :=
  let ls := g_Listeners (c_Gateway cfg) in match n with LData => ls_Data ls | LAdmin => ls_Admin ls | LMetrics => ls_Metrics ls end.
Definition gw_server (cfg : Config) (n : lname) : httpServer lname := mkHttpServer (l_Address (listener cfg n)) n None.
Definition gw_Run (cfg : Config) : list (@revent lname) → rstate :=
  rrun [LData; LAdmin; LMetrics] (λ n, gw_serve (lname_string n) (gw_server cfg n) (listener cfg n))
    (λ e, errors_Is e ErrServerClosed).

(** A request on a connection of listener [n]: what of the gateway answers it. *)
Definition gw_mux (hk : Hooks) (n : lname) (method path : string) : mux_out ghandler :=
  match n with
  | LData => MHandler HRouter
  | LAdmin => ServeMux (adminMux hk) method path
  | LMetrics => ServeMux (metricsMux hk) method path
  end.
Definition gw_request (hk : Hooks) (now : Z) (n : lname) (peer : list string) (method path : string) (s : rstate (N:=lname) (L:=socket lname))
    : option (mux_out ghandler) :=
  match rs_go s n with
  | GUp sk => match connect now sk peer with Ok _ => Some (gw_mux hk (sk_Handler sk) method path) | Err _ => None end
  | _ => None
  end.

(** ** wrapper/server.go *)

(** [func (s *Server) serverTLS()] *)
Definition serverTLS (t : TLSFiles) : result TLSConfig :=
  match le_keyPair (tf_CertFile t) (tf_KeyFile t) with
  | Err e => Err (EWrap "pod certificate" e)
  | Ok cert =>
      pem ← le_readFile (tf_ClientCAFile t);
      match le_pemCerts pem with
      | [] => Err (EMsg "client CA: no certificates")
      | pool => Ok (mkTLSConfig _ VersionTLS13 [cert] RequireAndVerifyClientCert pool
                     (Some (λ chains, verifyGateway (tf_GatewayURI t) (map (map (λ c, tm_URIs (cert_Fields c))) chains))))
      end
  end.

Inductive wname := WData | WProbes.
#[global] Instance wname_eq : EqDecision wname.
Proof. solve_decision. Defined.
Inductive whandler := WMcp | WSessionKey | WReadyz | WHealthz.
Definition dataMux : list (string * whandler) := [("/mcp", WMcp); ("/session-key", WSessionKey)].
Definition probeMux : list (string * whandler) := [("/readyz", WReadyz); ("/healthz", WHealthz)].

(** [func (s *Server) Run(ctx)]: a configuration with TLS that cannot be set up
    ends it before anything listens. *)
Definition w_serve (cfg : WConfig) (tc : option TLSConfig) (n : wname) : result (socket wname) :=
  match n with
  | WData =>
      let srv := mkHttpServer (":" +:+ Itoa (wc_ListenPort cfg)) WData tc in
      match wc_TLS cfg with Some _ => ListenAndServeTLS "" "" srv | None => ListenAndServe srv end
  | WProbes => ListenAndServe (mkHttpServer (":" +:+ Itoa (wc_ReadinessPort cfg)) WProbes None)
  end.
Definition w_Run (cfg : WConfig) (evs : list (@revent wname)) : rstate :=
  let tls := match wc_TLS cfg with None => Ok None | Some t => Some <$> serverTLS t end in
  match tls with
  | Err e => mkRstate (λ _, GIdle) [] (Some (Err e))
  | Ok tc => rrun [WData; WProbes] (w_serve cfg tc) (λ _, false) evs
  end.

(** A request on a connection of the wrapper: the pod token is asked for before
    the mux of the data port, and never on the probe port. *)
Inductive wanswer := WForbidden | WMux (m : mux_out whandler).
Definition w_request (podToken : string) (now : Z) (n : wname) (peer : list string) (method path : string) (h : Header)
    (s : rstate (N:=wname) (L:=socket wname)) : option wanswer :=
  match rs_go s n with
  | GUp sk =>
      match connect now sk peer with
      | Err _ => None
      | Ok _ => Some (match sk_Handler sk with
                      | WData => if requirePodToken podToken h then WMux (ServeMux dataMux method path) else WForbidden
                      | WProbes => WMux (ServeMux probeMux method path)
                      end)
      end
  | _ => None
  end.

(** ** The runs *)

Section RunFacts.
Context {N : Type} `{!EqDecision N} {L : Type}.
Variables (names : list N) (serve : N → result L) (quiet : gerror → bool).
Hypothesis names_all : ∀ n, n ∈ names.
Hypothesis names_once : NoDup names.

Definition ended (s : rstate (L:=L)) (n : N) : bool := match rs_go s n with GEnded => true | _ => false end.

(** What every interleaving keeps: a socket in use is one its server started
    with; a goroutine that has not ended has sent nothing, so the channel never
    holds more than one error per server; a clean end has stopped every server,
    and an error that ends the run was one a goroutine reports. *)
Record run_ok (s : rstate (N:=N) (L:=L)) : Prop := {
  ro_up : ∀ n l, rs_go s n = GUp l → serve n = Ok l;
  ro_errc : (length (rs_errc s) ≤ length (List.filter (ended s) names))%nat;
  ro_loud : Forall (λ e, quiet e = false) (rs_errc s);
  ro_clean : rs_result s = Some (Ok ()) → ∀ n, rs_go s n = GEnded;
  ro_first : ∀ e, rs_result s = Some (Err e) → quiet e = false }.

Lemma filter_more (f g : N → bool) l : (∀ x, f x = true → g x = true) → (length (List.filter f l) ≤ length (List.filter g l))%nat.
Proof.
  intros Hfg. induction l as [|x l IH]; [done|]. cbn. specialize (Hfg x). destruct (f x), (g x); cbn; (lia || by discriminate Hfg).
Qed.
Lemma filter_one_more (f g : N → bool) n l : NoDup l → n ∈ l → f n = false → g n = true → (∀ x, f x = true → g x = true) →
  (S (length (List.filter f l)) ≤ length (List.filter g l))%nat.
Proof.
  intros Hl Hn Hf Hg Hfg. induction Hl as [|x l Hx Hl IH]; [by apply elem_of_nil in Hn|]. cbn.
  apply elem_of_cons in Hn as [<-|Hn].
  - rewrite Hf, Hg. cbn. apply le_n_S. by apply filter_more.
  - specialize (IH Hn). clear Hf Hg. specialize (Hfg x). destruct (f x), (g x); cbn; (lia || by discriminate Hfg).
Qed.

Lemma finish_ok n e s : ended s n = false → rs_result s ≠ Some (Ok ()) → run_ok s → run_ok (finish quiet n e s).
Proof.
  intros Hn Hr [Hu Hc Hl _ Hf]. split; cbn [finish rs_go rs_errc rs_result].
  - intros m l. destruct (decide (m = n)) as [->|]; [by rewrite fn_lookup_insert|rewrite fn_lookup_insert_ne by done; apply Hu].
  - assert (S (length (List.filter (ended s) names)) ≤ length (List.filter (ended (finish quiet n e s)) names))%nat.
    { apply (filter_one_more _ _ n); [done|done|done|unfold ended; cbn; by rewrite fn_lookup_insert|].
      intros m. unfold ended. cbn. destruct (decide (m = n)) as [->|]; [by rewrite fn_lookup_insert|by rewrite fn_lookup_insert_ne]. }
    destruct (quiet e); [|rewrite length_app; cbn]; unfold finish in *; lia.
  - destruct (quiet e) eqn:E; [done|]. apply Forall_app. split; [done|by constructor].
  - done.
  - done.
Qed.

Lemma shutdown_spec s n :
  run_ok s → rs_result s = None →
  run_ok (shutdown quiet s n) ∧ rs_result (shutdown quiet s n) = None ∧ rs_go (shutdown quiet s n) n = GEnded ∧
  (∀ m, rs_go s m = GEnded → rs_go (shutdown quiet s n) m = GEnded).
Proof.
  intros Hs Hr. unfold shutdown. destruct (rs_go s n) eqn:En; [| |done];
    (split_and!; [apply finish_ok; [unfold ended; by rewrite En|by rewrite Hr|done]|done|apply fn_lookup_insert|];
     intros m Hm; cbn; destruct (decide (m = n)) as [->|]; [apply fn_lookup_insert|by rewrite fn_lookup_insert_ne]).
Qed.

Lemma shutdown_all l s :
  run_ok s → rs_result s = None →
  run_ok (fold_left (shutdown quiet) l s) ∧ rs_result (fold_left (shutdown quiet) l s) = None ∧
  (∀ m, m ∈ l ∨ rs_go s m = GEnded → rs_go (fold_left (shutdown quiet) l s) m = GEnded).
Proof.
  revert s. induction l as [|n l IH]; intros s Hs Hr; cbn [fold_left].
  { split_and!; [done..|]. intros m [Hm%elem_of_nil|Hm]; done. }
  destruct (shutdown_spec s n Hs Hr) as (H1 & H2 & H3 & H4). destruct (IH _ H1 H2) as (H5 & H6 & H7).
  split_and!; [done..|]. intros m [[<-|Hm]%elem_of_cons|Hm]; apply H7; [by right|by left|right; by apply H4].
Qed.

Lemma rstep_ok s ev : run_ok s → run_ok (rstep names serve quiet s ev).
Proof.
  intros Hs. pose proof Hs as [Hu Hc Hl Hk Hf]. destruct ev as [n|n e| |]; cbn [rstep].
  - destruct (rs_go s n) eqn:En; [|done..]. destruct (serve n) as [l|e] eqn:Es.
    + split; cbn [rs_go rs_errc rs_result]; [| |done| |done].
      * intros m l'. destruct (decide (m = n)) as [->|]; [rewrite fn_lookup_insert; by intros [= <-]|rewrite fn_lookup_insert_ne by done; apply Hu].
      * etrans; [exact Hc|]. apply filter_more. intros m. unfold ended. cbn.
        destruct (decide (m = n)) as [->|]; [by rewrite En|by rewrite fn_lookup_insert_ne].
      * intros Hr. specialize (Hk Hr n). by rewrite En in Hk.
    + apply finish_ok; [unfold ended; by rewrite En| |done]. intros Hr. specialize (Hk Hr n). by rewrite En in Hk.
  - destruct (rs_go s n) eqn:En; [done| |done].
    apply finish_ok; [unfold ended; by rewrite En| |done]. intros Hr. specialize (Hk Hr n). by rewrite En in Hk.
  - destruct (rs_result s) eqn:Er; [done|]. destruct (shutdown_all names s Hs Er) as ([Hu' Hc' Hl' _ _] & _ & Ha).
    split; cbn [rs_go rs_errc rs_result]; [done|exact Hc'|done| |done]. intros _ n. apply Ha. by left.
  - destruct (rs_result s) eqn:Er; [done|]. destruct (rs_errc s) as [|e errc] eqn:Ee; [done|].
    inversion Hl as [|? ? He Hle]; subst. split; cbn [rs_go rs_errc rs_result]; [done| |done|done|by intros e' [= <-]].
    cbn in Hc. unfold ended in *. cbn. lia.
Qed.

Lemma rrun_ok evs : run_ok (rrun names serve quiet evs).
Proof.
  unfold rrun. assert (run_ok rs_init) as H0 by (split; [done|cbn; lia|constructor|done|done]).
  revert H0. generalize (rs_init (N:=N) (L:=L)). induction evs as [|ev evs IH]; intros s Hs; [done|]. apply IH. by apply rstep_ok.
Qed.

(** The channel is made with one slot per server: no goroutine blocks on it. *)
Lemma errc_never_full evs : (length (rs_errc (rrun names serve quiet evs)) ≤ length names)%nat.
Proof.
  destruct (rrun_ok evs) as [_ Hc _ _ _]. etrans; [exact Hc|apply filter_length_le].
Qed.
End RunFacts.

(** ** Connections *)

(** A client that holds a certificate some certificate of [pool] vouches for. *)
Definition vouched (now : Z) (pool : list Cert) (peer : list string) (leaf : Cert) : Prop :=
  ∃ inter root, parse_certs peer = Some (leaf :: inter) ∧ root ∈ pool ∧ cert_Verify root inter ExtKeyUsageClientAuth now leaf = true.

Lemma handshake_sound now tc peer ch :
  tc_ClientAuth tc = RequireAndVerifyClientCert → handshake now tc peer = Ok ch →
  ∃ leaf, vouched now (tc_ClientCAs tc) peer leaf ∧ ∀ f, tc_VerifyPeer tc = Some f → ∃ root, f [[leaf; root]] = Ok ().
Proof.
  intros Hc. unfold handshake, vouched. rewrite Hc. destruct (parse_certs peer) as [[|leaf inter]|]; [done| |done].
  destruct (List.find _ _) as [root|] eqn:Ef; [|done]. apply find_some in Ef as [Hin Hv]. intros Hch. exists leaf. split.
  - exists inter, root. by rewrite list_elem_of_In.
  - intros f Hf. exists root. rewrite Hf in Hch. by destruct (f [[leaf; root]]) as [[]|].
Qed.

Lemma handshake_complete now tc peer leaf :
  tc_ClientAuth tc = RequireAndVerifyClientCert → vouched now (tc_ClientCAs tc) peer leaf →
  (∀ f root, tc_VerifyPeer tc = Some f → f [[leaf; root]] = Ok ()) → ∃ ch, handshake now tc peer = Ok ch.
Proof.
  intros Hc (inter & root & Hp & Hin & Hv) Hf. unfold handshake. rewrite Hc, Hp. destruct (List.find _ _) as [r|] eqn:Ef.
  - destruct (tc_VerifyPeer tc) as [f|]; [|by eexists]. rewrite (Hf f r) by done. by eexists.
  - apply list_elem_of_In in Hin. apply (find_none _ _ Ef) in Hin. by rewrite Hv in Hin.
Qed.

Lemma clientCATLS_inv caFile tc :
  clientCATLS caFile = Ok tc →
  tc_ClientAuth tc = RequireAndVerifyClientCert ∧ tc_MinVersion tc = VersionTLS13 ∧
  ∃ pem, le_readFile caFile = Ok pem ∧ tc_ClientCAs tc = le_pemCerts pem.
Proof.
  unfold clientCATLS. destruct (le_readFile caFile) as [pem|]; [|done]. cbn. destruct (le_pemCerts pem) eqn:E; [done|].
  intros [= <-]. cbn. split_and!; [done..|]. by exists pem.
Qed.

(** What a listener serves with: the handler it was given, TLS exactly when the
    configuration has it, and client certificates when that names their CA. *)
Lemma gw_serve_inv {H} name (srv : httpServer H) l sk :
  gw_serve name srv l = Ok sk →
  sk_Handler sk = hs_Handler srv ∧ (sk_TLS sk = None ↔ l_TLS l = None) ∧
  ∀ t, l_TLS l = Some t → ltls_ClientCAFile t ≠ "" →
    ∃ tc pem, sk_TLS sk = Some tc ∧ tc_ClientAuth tc = RequireAndVerifyClientCert ∧ tc_MinVersion tc = VersionTLS13 ∧
      le_readFile (ltls_ClientCAFile t) = Ok pem ∧ tc_ClientCAs tc = le_pemCerts pem.
Proof.
  assert (∀ cf kf (srv : httpServer H) sk, ListenAndServeTLS cf kf srv = Ok sk → sk_Handler sk = hs_Handler srv ∧
    ∃ cs, sk_TLS sk = Some (let c := default empty_tls (hs_TLS srv) in
                            mkTLSConfig _ (tc_MinVersion c) cs (tc_ClientAuth c) (tc_ClientCAs c) (tc_VerifyPeer c))) as Htls.
  { clear. intros cf kf srv sk. unfold ListenAndServeTLS. destruct (le_listen _); [|done]. cbn.
    set (c := default empty_tls (hs_TLS srv)). destruct (_ || _); [destruct (le_keyPair cf kf); [|done]|]; cbn; intros [= <-].
    - split; [done|]. by eexists.
    - split; [done|]. exists (tc_Certificates c). by destruct c. }
  unfold gw_serve. destruct (l_TLS l) as [t|].
  - destruct (String.eqb_spec (ltls_ClientCAFile t) "") as [E|E]; cbn [negb].
    + intros (Hh & cs & Hs)%Htls. rewrite Hs. split_and!; [done|done|]. intros ? [= <-]. done.
    + destruct (clientCATLS _) as [tc|] eqn:Ec; [|done]. intros (Hh & cs & Hs)%Htls. rewrite Hs.
      split_and!; [done|done|]. intros ? [= <-] _. apply clientCATLS_inv in Ec as (H1 & H2 & pem & H3 & H4).
      eexists _, pem. split_and!; [done|..]; done.
  - unfold ListenAndServe. destruct (le_listen _); [|done]. cbn. by intros [= <-].
Qed.

Lemma mux_best_in {H} (pats : list (string * H)) path q : mux_best pats path = Some q → q ∈ pats ∧ pat_match path q.1 = true.
Proof.
  revert q. induction pats as [|p pats IH]; intros q; [done|]. unfold mux_best. cbn [fold_right]. fold (mux_best pats path).
  rewrite elem_of_cons. destruct (pat_match path p.1) eqn:Ep; [|intros Hq%IH; tauto].
  destruct (mux_best pats path) as [q'|]; [case_match|]; intros Hq; [|apply IH in Hq; tauto|]; injection Hq as <-; tauto.
Qed.

(** A handler answers only a path that one of its patterns matches. *)
Lemma ServeMux_in {H} (pats : list (string * H)) method path h :
  ServeMux pats method path = MHandler h → ∃ p, (p, h) ∈ pats ∧ pat_match path p = true.
Proof.
  unfold ServeMux. set (p := if String.eqb method "CONNECT" then path else cleanPath path). clearbody p.
  destruct (_ && _ && _); [done|]. destruct (String.eqb_spec p path) as [->|]; [|done]. cbn [negb].
  destruct (mux_best pats path) as [[q h']|] eqn:E; [|done]. intros [= <-]. apply mux_best_in in E. by exists q.
Qed.

Lemma gw_mux_admin hk n method path :
  gw_mux hk n method path = MHandler HAdminHandler →
  n = LAdmin ∧ hk_Admin hk = true ∧ (path = "/admin" ∨ HasPrefix path "/admin/" = true).
Proof.
  destruct n; cbn [gw_mux]; [done|..]; intros (p & Hp & Hm)%ServeMux_in; revert Hp; unfold adminMux, metricsMux.
  - destruct (hk_Admin hk); rewrite ?elem_of_cons, ?elem_of_nil; [|naive_solver].
    intros [[= ->]|[[= ->]|[]]]; split_and!; [done|done|by right|done|done|]. left. by apply String.eqb_eq in Hm.
  - destruct (hk_Metrics hk); rewrite ?elem_of_cons, ?elem_of_nil; naive_solver.
Qed.

Lemma lnames : (∀ n : lname, n ∈ [LData; LAdmin; LMetrics]) ∧ NoDup [LData; LAdmin; LMetrics].
Proof. split; [intros []; repeat constructor|by apply (bool_decide_unpack _)]. Qed.
Lemma gw_Run_up cfg evs n sk :
  rs_go (gw_Run cfg evs) n = GUp sk → gw_serve (lname_string n) (gw_server cfg n) (listener cfg n) = Ok sk.
Proof. unfold gw_Run. intros Hg. pattern n. by eapply ro_up in Hg; [|apply rrun_ok; apply lnames]. Qed.

(** In whatever order the three servers of the gateway start, fail and stop: the
    admin handler is reached only through the admin listener, below /admin, and
    every request answered on a listener with a client CA came over a connection
    whose certificate that CA's file vouches for. *)
Theorem gateway_listeners hk cfg evs now n peer method path r :
  gw_request hk now n peer method path (gw_Run cfg evs) = Some r →
  (r = MHandler HAdminHandler → n = LAdmin ∧ hk_Admin hk = true ∧ (path = "/admin" ∨ HasPrefix path "/admin/" = true)) ∧
  (∀ t, l_TLS (listener cfg n) = Some t → ltls_ClientCAFile t ≠ "" →
     ∃ pem leaf, le_readFile (ltls_ClientCAFile t) = Ok pem ∧ vouched now (le_pemCerts pem) peer leaf).
Proof.
  unfold gw_request. destruct (rs_go _ n) as [|sk|] eqn:Eg; [done| |done].
  apply gw_Run_up, gw_serve_inv in Eg as (Hh & _ & Hca). destruct (connect now sk peer) as [ch|] eqn:Ec; [|done]. intros [= <-].
  rewrite Hh. split; [apply gw_mux_admin|]. intros t Ht Hne. destruct (Hca t Ht Hne) as (tc & pem & Hs & Ha & _ & Hr & Hp).
  unfold connect in Ec. rewrite Hs in Ec. apply handshake_sound in Ec as (leaf & Hv & _); [|done].
  rewrite Hp in Hv. by exists pem, leaf.
Qed.

Lemma wnames : (∀ n : wname, n ∈ [WData; WProbes]) ∧ NoDup [WData; WProbes].
Proof. split; [intros []; repeat constructor|by apply (bool_decide_unpack _)]. Qed.

Lemma serverTLS_inv t tc :
  serverTLS t = Ok tc →
  tc_ClientAuth tc = RequireAndVerifyClientCert ∧ tc_Certificates tc ≠ [] ∧
  (∃ pem, le_readFile (tf_ClientCAFile t) = Ok pem ∧ tc_ClientCAs tc = le_pemCerts pem) ∧
  ∃ f, tc_VerifyPeer tc = Some f ∧ ∀ leaf root, f [[leaf; root]] = Ok () ↔ tf_GatewayURI t ∈ tm_URIs (cert_Fields leaf).
Proof.
  unfold serverTLS. destruct (le_keyPair _ _) as [cert|]; [|done]. destruct (le_readFile _) as [pem|]; [|done]. cbn.
  destruct (le_pemCerts pem) eqn:E; [done|]. intros [= <-]. cbn. split_and!; [done|done|by exists pem|].
  eexists. split; [done|]. intros leaf root. cbn. destruct (existsb _ _) eqn:Ex.
  - split; [intros _|done]. apply existsb_exists in Ex as (u & Hu & ->%String.eqb_eq). by apply list_elem_of_In.
  - split; [done|]. intros Hin. apply list_elem_of_In in Hin. rewrite <- not_true_iff_false in Ex. destruct Ex.
    apply existsb_exists. eexists. split; [exact Hin|apply String.eqb_refl].
Qed.

(** The data socket of a wrapper with TLS serves with [serverTLS]'s configuration. *)
Lemma w_Run_data cfg t evs sk :
  wc_TLS cfg = Some t → rs_go (w_Run cfg evs) WData = GUp sk →
  ∃ tc, serverTLS t = Ok tc ∧ sk = mkSocket WData (Some tc).
Proof.
  unfold w_Run. intros Ht. rewrite Ht. destruct (serverTLS t) as [tc|] eqn:Es; cbn; [|done]. intros Hg.
  eapply ro_up in Hg; [|apply rrun_ok; apply wnames]. exists tc. split; [done|]. revert Hg. cbn. rewrite Ht.
  apply serverTLS_inv in Es as (_ & Hc & _). unfold ListenAndServeTLS. destruct (le_listen _); [|done]. cbn.
  rewrite bool_decide_eq_false_2 by done. by intros [= <-].
Qed.

Lemma requirePodToken_iff tok h : requirePodToken tok h = true ↔ Header_Get h HeaderPodToken = tok.
Proof.
  unfold requirePodToken. split; [intros Hp; bprop; by apply string_bytes_inj|].
  intros ->. by rewrite Nat.eqb_refl, bool_decide_eq_true_2.
Qed.

(** C12. Whatever the order of events, a pod with mutual TLS hands a request of its
    data port to its handlers exactly when the request carries the pod's token
    and comes over a connection whose certificate the CA file vouches for and
    names the gateway. *)
Theorem pod_admits_only_gateway cfg t evs sk tok now peer method path h :
  wc_TLS cfg = Some t → rs_go (w_Run cfg evs) WData = GUp sk →
  (∃ m, w_request tok now WData peer method path h (w_Run cfg evs) = Some (WMux m)) ↔
  Header_Get h HeaderPodToken = tok ∧
  ∃ pem leaf, le_readFile (tf_ClientCAFile t) = Ok pem ∧ vouched now (le_pemCerts pem) peer leaf ∧
    tf_GatewayURI t ∈ tm_URIs (cert_Fields leaf).
Proof.
  intros Ht Hg. unfold w_request. rewrite Hg. destruct (w_Run_data _ _ _ _ Ht Hg) as (tc & Htc & ->).
  apply serverTLS_inv in Htc as (Ha & _ & (pem & Hr & Hp) & f & Hf & Hv). cbn [connect sk_TLS sk_Handler]. rewrite <- requirePodToken_iff.
  split.
  - intros [m Hm]. destruct (handshake now tc peer) as [ch|] eqn:Eh; [|done]. destruct (requirePodToken tok h); [|done]. split; [done|].
    apply handshake_sound in Eh as (leaf & Hl & Hall); [|done]. destruct (Hall f Hf) as [root Hroot%Hv].
    rewrite Hp in Hl. by exists pem, leaf.
  - intros (-> & pem' & leaf & Hr' & Hl & Hu). rewrite Hr in Hr'. injection Hr' as <-. rewrite <- Hp in Hl.
    destruct (handshake_complete now tc peer leaf Ha Hl) as [ch ->]; [|by eexists].
    intros f' root Hf'. rewrite Hf in Hf'. injection Hf' as <-. by apply Hv.
Qed.

(** The probes answer without a token or a certificate. *)
Lemma probes_open cfg evs sk tok now peer method path h :
  rs_go (w_Run cfg evs) WProbes = GUp sk →
  w_request tok now WProbes peer method path h (w_Run cfg evs) = Some (WMux (ServeMux probeMux method path)).
Proof.
  intros Hg. unfold w_request. rewrite Hg. revert Hg. unfold w_Run. destruct (match wc_TLS cfg with None => _ | _ => _ end) as [tc|]; [|done].
  intros Hg. eapply ro_up in Hg; [|apply rrun_ok; apply wnames]. revert Hg. cbn. unfold ListenAndServe. destruct (le_listen _); [|done].
  cbn. by intros [= <-].
Qed.

(** Both channels have a slot for every goroutine. *)
Lemma run_channels_suffice cfg wcfg evs wevs :
  (length (rs_errc (gw_Run cfg evs)) ≤ 3 ∧ length (rs_errc (w_Run wcfg wevs)) ≤ 2)%nat.
Proof.
  split; [by apply (errc_never_full [LData; LAdmin; LMetrics]); apply lnames|]. unfold w_Run.
  destruct (match wc_TLS wcfg with None => _ | _ => _ end); [|cbn; lia]. by apply (errc_never_full [WData; WProbes]); apply wnames.
Qed.
End Listen.

(** ** The main functions *)

(** [main] of juggernaut-gateway, after the flags: the exit code and what the
    closers did.  [run] is the result of [Run], code 2 that of a panic.
    [os.Exit] does not run the deferred [Close]. *)
Definition gateway_main {W} `{!Host W} {boot : Boot} {sec : Secrets} {C} (load : string → result Loaded) (cfgPath : string)
    (rg : registries (W:=W)) (run : GatewayApp (W:=W) → result ()) (close : closer → C → result () * C) (w : C) : Z * C :=
  match NewStore load cfgPath with
  | Err _ => (1, w)
  | Ok store =>
      match GatewayFromConfig rg (ld_Config (Store_Get store)) with
      | Panic => (2, w)
      | Done (Err _) => (1, w)
      | Done (Ok gw) =>
          match run gw with
          | Err _ => (1, w)
          | Ok _ => (0, (AppRoot.Close close gw w).2)
          end
      end
  end.

(** When a listener fails, the audit sink and the tracer are left as they are. *)
Lemma fatal_skips_close {W} `{!Host W} {boot : Boot} {sec : Secrets} {C} load path (rg : registries (W:=W)) run (close : closer → C → result () * C) w :
  (∀ gw, is_ok (run gw) = false) → (gateway_main load path rg run close w).2 = w.
Proof.
  intros Hrun. unfold gateway_main. destruct (NewStore load path) as [st|]; [|done].
  destruct (GatewayFromConfig _ _) as [[gw|]|]; [|done..]. specialize (Hrun gw). by destruct (run gw).
Qed.

(** [main] of juggernaut-egress up to serving: the exit code, or the proxy. *)
Definition egress_main {jal : JSONCodec Allowlist} (deny : string) (allowlist : fileRead) : Z + Egress.EProxy :=
  match ParseCIDRs (SplitByte deny ",") with
  | Err _ => inl 2
  | Ok cidrs =>
      match LoadAllowlist allowlist (mkEProxy None cidrs false 0 0) with
      | (Err _, _) => inl 2
      | (Ok _, p) => inr p
      end
  end.
Definition default_deny_cidrs : string := "169.254.169.254/32,169.254.0.0/16,fd00::/8".

(** Started with its default flags and no allowlist yet, the proxy comes up and
    keeps the metadata service out of reach. *)
Lemma egress_default_denies {jal : JSONCodec Allowlist} :
  ∃ p, egress_main default_deny_cidrs FNotExist = inr p ∧ denied p (ParseIP "169.254.169.254") = true.
Proof.
  eexists. split; [vm_compute; reflexivity|]. vm_compute. reflexivity.
Qed.

(** ** Witnesses *)

Module ListenWitness.
Import PkiWitness.
#[local] Existing Instance toy_lib.

(** A host on which every file is the pod CA and every address is free. *)
#[local] Instance env0 : ListenEnv := {|
  le_listen _ := Ok (); le_readFile _ := Ok "ca"; le_keyPair _ _ := Ok "cert"; le_pemCerts _ := [ca_Cert ca0] |}.
Definition noon : Z := 24 * Hour.
Definition leaf0 (usage : ExtKeyUsage) (id : string) (signer : Z) : tcert := mkTcert (mkTemplate "" 0 (90 * 24 * Hour) false [usage] [id] []) 7 signer.
(** The gateway's certificate, one of the gateway's name from another CA, and a pod's. *)
Definition gateway0 : tcert := leaf0 ExtKeyUsageClientAuth (pki_GatewayID "jug") 1.
Definition forged0 : tcert := leaf0 ExtKeyUsageClientAuth (pki_GatewayID "jug") 9.
Definition pod0 : tcert := leaf0 ExtKeyUsageClientAuth (pki_SessionID "jug" "jira-alice") 1.

Lemma parse0 (c : tcert) : parse_certs [der_of c] = Some [c].
Proof. cbn [parse_certs ParseCertificate toy_lib]. by rewrite parse_der_of. Qed.
Lemma vouched0 usage id signer leaf :
  vouched noon (le_pemCerts "ca") [der_of (leaf0 usage id signer)] leaf →
  leaf = leaf0 usage id signer ∧ signer = 1.
Proof.
  intros (inter & root & Hp & Hr & Hv). rewrite parse0 in Hp.
  injection Hp as <- <-. split; [done|]. apply list_elem_of_singleton in Hr as ->. cbn in Hv. unfold toy_verify in Hv. bprop. done.
Qed.

Definition cfg_tls : WConfig :=
  let c := WrapperWitness.wcfg in
  mkWConfig (wc_ServerName c) (wc_Transport c) (wc_Command c) (wc_Args c) (wc_Env c) (wc_HTTPPort c) (wc_HTTPPath c) (wc_ListenPort c)
    (wc_ReadinessPort c) (wc_PodTokenFile c) (wc_Token c) (wc_Restart c) (wc_StartupTimeout c) (wc_LogRedaction c) (wc_UserSecrets c)
    (wc_SecretHeaderPrefix c) (wc_SealedHeader c) (Some (mkTLSFiles "tls.crt" "tls.key" "ca.crt" (pki_GatewayID "jug"))).
Definition token_header : Header := Header_Set HeaderPodToken "pod-token-pod-token" ∅.
Definition asks (c : tcert) : option wanswer :=
  w_request "pod-token-pod-token" noon WData [der_of c] "POST" "/mcp" token_header (w_Run cfg_tls [EvServe WProbes; EvServe WData]).

Lemma data_up : ∃ sk, rs_go (w_Run cfg_tls [EvServe WProbes; EvServe WData]) WData = GUp sk.
Proof. eexists. lazy -[verifyGateway ca0 pki_GatewayID Itoa map cert_Fields tm_URIs toy_lib]. reflexivity. Qed.

Lemma pod_admits_only_gateway_witness :
  (∃ m, asks gateway0 = Some (WMux m)) ∧ (¬ ∃ m, asks forged0 = Some (WMux m)) ∧ (¬ ∃ m, asks pod0 = Some (WMux m)).
Proof.
  unfold asks. destruct data_up as [sk Hup]. split_and!.
  - apply (pod_admits_only_gateway cfg_tls (mkTLSFiles "tls.crt" "tls.key" "ca.crt" (pki_GatewayID "jug"))
      [EvServe WProbes; EvServe WData] sk "pod-token-pod-token" noon [der_of gateway0] "POST" "/mcp" token_header eq_refl Hup).
    split; [vm_compute; reflexivity|]. exists "ca", gateway0. split; [reflexivity|]. split.
    + exists [], (ca_Cert ca0). split; [apply parse0|].
      split; [left|vm_compute; reflexivity].
    + vm_compute. left.
  - intros Hm. apply (pod_admits_only_gateway cfg_tls (mkTLSFiles "tls.crt" "tls.key" "ca.crt" (pki_GatewayID "jug"))
      [EvServe WProbes; EvServe WData] sk "pod-token-pod-token" noon [der_of forged0] "POST" "/mcp" token_header eq_refl Hup)
      in Hm as (_ & pem & leaf & [= <-] & [_ Hs]%vouched0 & _). discriminate Hs.
  - intros Hm. apply (pod_admits_only_gateway cfg_tls (mkTLSFiles "tls.crt" "tls.key" "ca.crt" (pki_GatewayID "jug"))
      [EvServe WProbes; EvServe WData] sk "pod-token-pod-token" noon [der_of pod0] "POST" "/mcp" token_header eq_refl Hup)
      in Hm as (_ & pem & leaf & [= <-] & [-> _]%vouched0 & Hu). apply list_elem_of_singleton in Hu. discriminate Hu.
Defined.

(** The admin listener with a client CA. *)
Definition cfg_admin : Config := AppWitness.on_gateway (λ g,
  mkGateway (g_PublicURL g)
    (mkListeners (mkListener ":8080" None) (mkListener ":24680" (Some (mkListenerTLS "tls.crt" "tls.key" "ca.crt"))) (mkListener ":9090" None))
    (g_AllowInsecureAdmin g) (g_Runtime g) (g_ColdStartBudget g) (g_IdleTimeout g) (g_MaxSessionAge g)
    (g_MaxBodyBytes g) (g_Caps g) (g_Tools g) (g_Routing g) (g_UserSecrets g) (g_Redis g) (g_Audit g) (g_Telemetry g)) sample_config.
Definition gw_asks (n : lname) (peer : list string) (path : string) : option (mux_out ghandler) :=
  gw_request (mkHooks true true) noon n peer "GET" path (gw_Run cfg_admin [EvServe LMetrics; EvServe LAdmin; EvServe LData]).

(** An operator's certificate opens the admin API there; the data listener
    routes the same path to the data plane, and no certificate is no answer. *)
Lemma gateway_listeners_witness :
  gw_asks LAdmin [der_of pod0] "/admin/api/users" = Some (MHandler HAdminHandler) ∧
  gw_asks LData [] "/admin/api/users" = Some (MHandler HRouter) ∧ gw_asks LAdmin [] "/admin/api/users" = None ∧
  ∃ leaf, vouched noon [ca_Cert ca0] [der_of pod0] leaf.
Proof.
  assert (gw_asks LAdmin [der_of pod0] "/admin/api/users" = Some (MHandler HAdminHandler)) as Ha.
  { unfold gw_asks, gw_request. lazy -[toy_lib ca0 der_of leaf0 pod0 parse_certs cert_Verify gw_mux noon]. rewrite parse0. vm_compute. reflexivity. }
  split; [exact Ha|]. split; [vm_compute; reflexivity|]. split; [vm_compute; reflexivity|].
  destruct (gateway_listeners (mkHooks true true) cfg_admin [EvServe LMetrics; EvServe LAdmin; EvServe LData] noon LAdmin [der_of pod0] "GET"
    "/admin/api/users" (MHandler HAdminHandler) Ha) as [_ Hv].
  destruct (Hv (mkListenerTLS "tls.crt" "tls.key" "ca.crt") eq_refl ltac:(discriminate)) as (pem & leaf & [= <-] & Hl). exists leaf. exact Hl.
Defined.
End ListenWitness.
