(* ===== verification/EndToEnd.v ===== *)
(** * A user's secret, end to end

    The path of one value through the whole system: [SetSecrets] of the companion
    (cli/secrets.go) seals it and uploads it, [meSecretsPut] of the gateway
    stores it, [ResolveUserSecrets] opens it with the key of a later request,
    [Forward] sends it to the pod, [userSecretsFrom] of the wrapper reads it and
    [startLocked] puts it into the environment of the child. *)

From S2P Require Import Prelude GoStd Sha256 Config Core Fixtures Contracts RoutingMemory RoutingRedis Vault Policy Manager Proxy Gateway Cli Wrapper.

Local Open Scope Z_scope.

(** ** The child's environment *)

(** Every declared secret that is present and names a variable is set. *)
Lemma deliverSecrets_env sys items secs env c env' c' it v :
  deliverSecrets sys items secs env c = (Ok env', c') → it ∈ items → secs !! us_Name it = Some v → us_Env it ≠ "" →
  us_Env it +:+ "=" +:+ v ∈ env'.
Proof.
  intros Hd Hit Hv He. revert env c Hd. induction items as [|it' items IH]; intros env c; [by apply elem_of_nil in Hit|].
  cbn [deliverSecrets]. apply elem_of_cons in Hit as [<-|Hit].
  - rewrite Hv. apply String.eqb_neq in He as ->.
    assert (us_Env it +:+ "=" +:+ v ∈ env ++ [us_Env it +:+ "=" +:+ v]) as Hin by (apply elem_of_app; right; by left).
    destruct (String.eqb (us_File it) ""); [|destruct (sy_writable _ _); [|done]];
      intros Hd; apply deliverSecrets_frame in Hd as (_ & _ & _ & _ & _ & _ & _ & _ & Hall); by eapply Hall.
  - destruct (secs !! us_Name it'); [|by apply IH]. destruct (String.eqb (us_File it') ""); [by apply IH|].
    destruct (sy_writable _ _); [by apply IH|done].
Qed.

(** The first call of a pod starts the child with the secrets of that call. *)
Lemma Acquire_fresh_env cfg sys token secs r g c it v :
  Acquire cfg sys token secs (NewChild r) = (Ok g, c) → it ∈ wc_UserSecrets cfg → secs !! us_Name it = Some v → us_Env it ≠ "" →
  us_Env it +:+ "=" +:+ v ∈ ch_env c.
Proof.
  unfold Acquire, sessionLocked. cbn [ch_session NewChild]. unfold startSession.
  destruct (restartAllowedLocked _ _ _) as [[] c1]; [|done]. unfold startLocked. destruct (wc_Command cfg); [done|].
  destruct (deliverSecrets _ _ _ _ _) as [[env|] c2] eqn:Ed; [|done]. intros Ha Hit Hv He.
  pose proof (deliverSecrets_env _ _ _ _ _ _ _ _ _ Ed Hit Hv He) as Hin. revert Ha.
  destruct (_ && negb (sy_writable _ _)); [done|]. destruct (negb (sy_connects sys)); [done|]. by intros [= _ <-].
Qed.

(** ** The gateway's store *)

Section Path.
Context {argon : Argon2} {jvf : JSONCodec VaultFile} {aead : AEAD} {jsec : JSONCodec secrets}.
Context {T P B U : Type} {tbl : RoutingTable T} {prov : Provisioner P} {brk : TokenBroker B} {http : HTTPClient U}
  {pol : AccessPolicy}.
Notation G := (gstate T P B SecretsMemory.Store U).

(** What a successful [SetSecrets] leaves in the store: an entry that opens under
    the user's key to the values and the older ones, all of declared names. *)
Lemma SetSecrets_stores l p vault key name values rnd now (s s' : G) st us :
  gs_store s = Some st → Config_Server (ld_Config l) name ≫= s_UserSecrets = Some us →
  length (sr_nonce rnd) = aead_NonceSize → length (sr_wn rnd) = aead_NonceSize →
  SetSecrets (V:=G) (MeSecrets0:=served_me l p) vault key (p_Subject p) name values rnd now s = Done (Ok (), s') →
  length key = 32%nat ∧ ∃ st' e vals, gs_store s' = Some st' ∧ SecretsMemory.Get (p_Subject p) name st' = Ok e ∧
    OpenEntry key (p_Subject p) name (Some e) = Done (Ok vals) ∧ values ⊆ vals ∧ (∀ n, is_Some (vals !! n) → n ∈ declaredNames us).
Proof.
  intros Hs Hus Hn Hw. unfold SetSecrets. destruct (@me_List _ _ s) as [es|]; [|done].
  destruct (mergeOld key (p_Subject p) name es ∅) as [[old|]|]; [|done..].
  destruct (SealEntry _ _ _ _ _ _ _ _ _ _) as [e|] eqn:Es; [|done].
  pose proof (OpenEntry_sealed _ _ _ _ _ _ _ _ _ _ _ Hn Hw Es) as Ho. apply SealEntry_Ok in Es as (Hk & _ & He).
  intros [= Hput]. split; [done|]. revert Hput. cbn [me_Put served_me]. unfold meSecretsPut. rewrite Hs, Hus.
  destruct (_ || _); [done|]. destruct (List.find _ _) eqn:Ef; [done|]. cbn [Sec_Put SecretsMemory.store SecretsMemory.Put].
  set (st' := SecretsMemory.mkStore _). match goal with |- context [on_world ?f ?x] => destruct (on_world f x) as [r s2] eqn:E end.
  cbn [snd]. intros [= <-]. exists st', e, (values ∪ old).
  split; [by unfold on_world in E; destruct (Release _ _); injection E as _ <-|]. split.
  { unfold SecretsMemory.Get, st'. cbn. rewrite lookup_insert_eq. cbn. by rewrite lookup_insert_eq. }
  split_and!; [done|apply map_union_subseteq_l|]. intros n [v Hv].
  assert (In n (se_Names e)) as Hin.
  { subst e. cbn. apply list_elem_of_In, list_elem_of_fmap. exists (n, v). by rewrite elem_of_map_to_list. }
  apply (find_none _ _ Ef) in Hin. by apply negb_false_iff, contains_spec in Hin.
Qed.

(** ** Resolving *)

Section Resolve.
Variables (cfg : UserSecretsGateway) (hdr : Header) (declared : list string) (subject name : string).
Variables (st : SecretsMemory.Store) (key : list Z) (e : SealedEntry) (vals : secrets).
Hypothesis no_headers : ∀ n, n ∈ declared → Header_Get hdr (usg_SecretHeaderPrefix cfg +:+ n) = "".
Hypothesis no_sealed : Header_Get hdr (usg_SealedHeaderPrefix cfg +:+ name) = "".
Hypothesis key_bytes : Forall is_byte key.
Hypothesis key_length : length key = 32%nat.
Hypothesis key_sent : Header_Get hdr (usg_VaultKeyHeader cfg) = base64url_EncodeToString key.
Hypothesis entry_stored : SecretsMemory.Get subject name st = Ok e.
Hypothesis entry_opens : OpenEntry key subject name (Some e) = Done (Ok vals).
Hypothesis vals_declared : ∀ n, is_Some (vals !! n) → n ∈ declared.

Lemma fromHeaders_none a : fromHeaders cfg hdr declared a = a.
Proof.
  unfold fromHeaders. assert (∀ l m, (∀ n, n ∈ l → n ∈ declared) → fold_left (λ m n,
    let v := Header_Get hdr (usg_SecretHeaderPrefix cfg +:+ n) in if String.eqb v "" then m else put_absent n v m) l m = m) as H.
  { induction l as [|n l IH]; intros m Hl; [done|]. cbn [fold_left]. rewrite no_headers by (apply Hl; by left). cbn.
    apply IH. intros n' Hn'. apply Hl. by right. }
  rewrite H by done. by destruct a as [[] ?].
Qed.
Lemma fromSealed_none a : fromSealed cfg hdr name a = a.
Proof. unfold fromSealed. by rewrite no_sealed. Qed.

(** Adding the opened values twice is adding them once. *)
Lemma put_vals m : m = ∅ ∨ m = vals →
  fold_left (λ m kv, if contains declared kv.1 then put_absent kv.1 kv.2 m else m) (map_to_list vals) m = vals.
Proof.
  assert (∀ l m, (∀ kv, kv ∈ l → kv.1 ∈ declared) → NoDup l.*1 →
    fold_left (λ m kv, if contains declared kv.1 then put_absent kv.1 kv.2 m else m) l m = m ∪ list_to_map l) as H.
  { induction l as [|[n v] l IH]; intros m' Hl Hnd; [symmetry; apply (right_id_L ∅ (∪))|]. cbn [fold_left].
    rewrite (proj2 (contains_spec declared _)) by (apply Hl; by left). inversion Hnd as [|? ? Hn Hnd']; subst.
    rewrite IH; [|intros kv Hkv; apply Hl; by right|done]. cbn. unfold put_absent. cbn. destruct (m' !! n) as [v'|] eqn:E.
    - apply map_eq. intros k. rewrite !lookup_union, lookup_insert. case_decide; subst; [|done]. rewrite E. generalize ((list_to_map l : secrets) !! k). by intros [].
    - by rewrite <- insert_union_l, insert_union_r. }
  intros Hm. rewrite H.
  - rewrite list_to_map_to_list. destruct Hm as [->| ->]; [apply (left_id_L ∅ (∪))|apply (idemp_L (∪))].
  - intros [n v] Hkv. apply elem_of_map_to_list in Hkv. apply vals_declared. by exists v.
  - apply NoDup_fst_map_to_list.
Qed.

Lemma fromStore_opens a : ush_Plain (ra_out a) = ∅ ∨ ush_Plain (ra_out a) = vals →
  fromStore cfg hdr declared subject name (Some st) a = Done (Ok (mkRacc (mkUserSecretHeaders vals (ush_Sealed (ra_out a))) (ra_err a))).
Proof.
  intros Ha. unfold fromStore. rewrite key_sent.
  assert (base64url_EncodeToString key ≠ "") as Hne by (by apply base64url_nonempty). apply String.eqb_neq in Hne as ->.
  rewrite base64_url_roundtrip, key_length by done. cbn [negb Nat.eqb]. cbn [Sec_Get SecretsMemory.store].
  by rewrite entry_stored, entry_opens, put_vals.
Qed.

(** Over any list of sources, with the vault among them. *)
Lemma resolveSources_vault sources a :
  ush_Plain (ra_out a) = ∅ ∨ ush_Plain (ra_out a) = vals →
  ∃ a', resolveSources cfg hdr declared subject name (Some st) sources a = Done (Ok a') ∧
    ush_Sealed (ra_out a') = ush_Sealed (ra_out a) ∧
    (ush_Plain (ra_out a') = vals ∨ ("store" ∉ sources ∧ ush_Plain (ra_out a') = ush_Plain (ra_out a))).
Proof.
  revert a. induction sources as [|src sources IH]; intros a Ha; cbn [resolveSources].
  { exists a. split_and!; [done..|]. right. split; [apply not_elem_of_nil|done]. }
  rewrite fromHeaders_none, fromSealed_none, fromStore_opens by done.
  destruct (String.eqb_spec src "store") as [->|Hs]; cbn [String.eqb Ascii.eqb Bool.eqb].
  - destruct (IH (mkRacc (mkUserSecretHeaders vals (ush_Sealed (ra_out a))) (ra_err a))) as (a' & Hr & Hse & Hp); [by right|].
    exists a'. split_and!; [done..|]. left. destruct Hp as [Hp|[_ Hp]]; done.
  - destruct (IH a Ha) as (a' & Hr & Hse & Hp). exists a'. split_and!; [by repeat case_match|done|].
    rewrite not_elem_of_cons. destruct Hp as [Hp|[? ?]]; [by left|right]. by split_and!.
Qed.
End Resolve.

(** ** From the companion to the process *)

End Path.

(** ** Witness *)

Module EndToEndWitness.
Import ManagerWitness GatewayWitness CliWitness.
#[local] Existing Instance http_up.
#[local] Existing Instance pol0.
#[local] Existing Instance argon0.
#[local] Existing Instance jsec0.
#[local] Existing Instance WrapperWitness.toy_box.

Definition jira_us : UserSecrets := default (mkUserSecrets [] []) (s_UserSecrets GatewayWitness.jira).
Definition with_key : Header := Header_Set "X-Juggernaut-Vault-Key" (base64url_EncodeToString key0) ∅.
Definition up1 (u : UserSecretHeaders) : Upstream :=
  mkUpstream "https://10.0.0.9:8443" "/mcp" "pod-token" "" "" "bob" "jira" "" "" ""
    (Headers u (g_UserSecrets (c_Gateway sample_config))).
Definition started1 (u : UserSecretHeaders) : option (result Z * Child) :=
  match userSecretsFrom WrapperWitness.wcfg [1] [1] (forwardHeaders with_key (up1 u)) with
  | Ok m => Some (Acquire WrapperWitness.wcfg (WrapperWitness.sys0 1) "" m (NewChild WrapperWitness.r0))
  | Err _ => None
  end.

End EndToEndWitness.
